(* ===== verification/_CoqProject ===== *)
-Q . S2P
Prelude.v
Text.v
Codec.v
Files.v
Models.v
Processes.v
Net.v
Policy.v
ProtectedCidrs.v
Backend.v
ShellWords.v
UfwCompile.v
UfwApply.v
Firewalld.v
AgentState.v
AgentToy.v
Wire.v
WireJson.v
PullClient.v
PullLoop.v
PullHttp.v
ManagerUrl.v
PullLoopFacts.v
AgentCli.v
AgentEnroll.v
AgentEnrollFacts.v
Db.v
AuditLog.v
Interleave.v
Secrets.v
Auth.v
Router.v
AgentApi.v
Events.v
PolicyAdmin.v
UfwRead.v
Deployment.v
AdminFacts.v
DeploymentFacts.v
Ca.v
CaToy.v
CaFacts.v
Listener.v
ListenerFacts.v
AppConfig.v
Login.v
LoginFacts.v
Users.v
UserFacts.v
Settings.v
SettingsFacts.v
Enrollment.v
EnrollmentFacts.v
WebBodies.v
Races.v
TypedDb.v
Views.v
Worker.v
Schema.v
EventsFacts.v
EventsLiveness.v
AgentApiFacts.v
ViewsFacts.v
AgentHttp.v
Fleet.v
FleetHttp.v
Onboarding.v
WebApi.v
WebApiKeeps.v
WebApiFacts.v
WebApiInvariant.v
ManagerSite.v
SchemaKeeps.v
Lifetimes.v
Enforcement.v
