(* ===== verification/Prelude.v ===== *)
(** * Linux Host Firewall Manager: verification development

    ** The program

    A fleet of Linux hosts gets its firewall rules from one manager, by pulling.
    - The agent ([crates/fw-agent]) runs on every host. Each cycle it snapshots the
      live firewall, checks in with the manager (the hash of the rules it runs, its
      configuration version, whether it saw drift), and acts on the answer: a new
      configuration, a ruleset to install through [ufw] or [firewall-cmd], pending
      actions. A guard keeps it from installing rules that cut off protected
      networks, an umbilical rule keeps the manager reachable, and safe mode
      restores the last good ruleset after a long silence.
    - The manager ([crates/fw-web] over [fw-core], [fw-auth], [fw-ca]) serves the
      agent API to hosts with a client certificate, and the administration API to
      users with a token: policy sets made of ordered rule groups made of ordered
      rules, their assignment to hosts, enrollment of new hosts, a hash-chained
      audit log. Its state is a PostgreSQL database, the CA's files and some in-memory maps.
    - The worker ([crates/fw-worker]) marks silent hosts and anchors the audit log.

    ** Files

    Shared: [Prelude] (results, the state-and-error monad [M], its notations and
    tactics, lemmas on lists and strings), [Text] ([str] operations), [Codec] (text
    forms for the concrete data of the witnesses), [Files] (files and modes), [Net]
    ([std::net::IpAddr]; the [ipnet] interface), [Models] (fw-core [models.rs]:
    enums, [FirewallRule], [compute_rules_hash]), [Policy] (fw-core [policy.rs]:
    [check_rule], [check_against_protected_cidrs]), [Wire] (the bodies of the agent
    API, declared in both [pull_client.rs] and [agent_api.rs]), [WireJson] (how each
    side writes and reads them as JSON).

    The agent, whose world is [AgentState.AgentWorld] (host, files, configuration,
    network, time):
    - [ProtectedCidrs]: [check_rules_against_protected] of [protected_cidrs.rs];
    - [Backend]: [backend/mod.rs], from [FirewallRule] to command lines, the reset
      with its retries, [apply], [snapshot], [status], for ufw and firewalld;
    - [ShellWords], [UfwCompile], [UfwApply], [Firewalld]: the theorems on it;
    - [AgentState]: [config.rs], [drift.rs], [safe_mode.rs], [replay_cache.rs];
      [AgentToy]: concrete instances for the witnesses;
    - [PullClient]: the events stream reader of [pull_client.rs]; [PullHttp]: its
      HTTP requests, an instance of [ManagerLink] over the [Http] transport;
    - [PullLoop]: [pull_loop.rs], the cycle, with the manager as the [ManagerLink]
      interface; [PullLoopFacts]: its theorems;
    - [AgentCli]: the commands of [main.rs] and [drift.rs] that only report;
    - [ManagerUrl]: [normalize_manager_url_to_ip] and [auto_detect_manager_cidr];
    - [AgentEnroll]: [enrollment.rs] (the submission, the polls, the certificate
      files, the saved configuration) and of [main.rs] [wait_for_enrollment],
      [is_enrolled] and the start of the daemon, with the manager as the
      [EnrollLink] interface; [AgentEnrollFacts]: its theorems.

    The manager, whose state is [Db.Db] (one list of rows per table), and beside it
    [Enrollment.Manager] (the approved-bundle map of [AppState]), [Ca.CaWorld] (the
    CA's files), [Listener.Server] (the TLS configuration in force) and
    [Settings.Web] (the address lists in force):
    - [Db]: the rows, [AppError], queries that can fail ([db_faults]);
    - [AuditLog]: [audit.rs] and the worker's [audit_anchor.rs];
    - [Auth]: [rbac.rs] and the claims of [jwt.rs];
    - [Login]: [routes/auth.rs], [password.rs], [issue_access_token] of [jwt.rs] and
      the administrator's bootstrap; [Users]: [users.rs]; [Settings]: [settings.rs];
    - [Router]: the [router] functions of [routes/], [build_router] of [lib.rs] and the
      agent router of [main.rs] as data, how a request finds its handler and which
      layers it passes;
    - [AgentApi]: [agent_api.rs] and the queries of [policy.rs]; [AgentHttp]: its
      handlers as they are served (identity, JSON body, reply, the error body of
      [error.rs]); [TypedDb]: the ranges of the integers it serves;
    - [Events]: forced check-ins and the events streams, [force_check_in] of
      [hosts.rs] and the stream tasks of [agent_api.rs], as a step relation over all
      interleavings; [EventsFacts]: its theorems;
    - [Views]: the read-only endpoints ([drift.rs], [health.rs], the lists);
      [ViewsFacts]: its theorems;
    - [PolicyAdmin]: [policy_sets.rs], [rule_groups.rs], [rules.rs];
    - [Deployment]: [deployment.rs], [hosts.rs], [groups.rs];
    - [Ca]: [fw-ca/src/ca.rs] ([CaToy]: instances for the witnesses);
    - [Listener]: [certificates.rs], [pki.rs], [routes/ca.rs], [agent_cert.rs],
      [agent_listener.rs], [host_authz.rs], and the CA and listener part of
      [fw-web/src/main.rs];
    - [Enrollment]: [enrollment.rs];
    - [Interleave]: handlers as programs of statements, pools of them that run at the
      same time, and rely-guarantee rules for their invariants; [Races]: [log_event],
      [submit_enrollment] and [login] as such programs, each proved to run to its
      handler, and what holds of every interleaving of them;
    - [Worker]: [stale_agent_detector.rs]; [Processes]: the worker's start and
      heartbeat ([fw-worker/src/main.rs]), request ids ([request_id.rs]);
    - [AppConfig]: [fw-core/src/config.rs] and what the server takes from it;
    - [Secrets]: [crypto.rs] and [secret_key.rs];
    - [AdminFacts], [DeploymentFacts], [CaFacts], [ListenerFacts], [LoginFacts],
      [UserFacts], [SettingsFacts], [EnrollmentFacts], [AgentApiFacts]: theorems;
    - [WebBodies]: how the request structs of [routes/] are read from JSON; [WebApi]:
      every handler of the administration API behind [Router.serve], with its
      extractors, over all of [AppState] ([WebApi.Site], [WebApi.serve_site]);
      [WebApiKeeps]: which handlers keep which properties of the state; [WebApiFacts],
      [WebApiInvariant]: what a request can change by whom, and the tables' invariant;
    - [ManagerSite]: both servers and the worker over one state, as events;
      [Lifetimes]: [main] of [fw-web] up to the servers, and starting again.

    Both sides together: [Onboarding] instantiates the agent's [EnrollLink], and
    [Fleet] its [ManagerLink], by the manager's handlers on its state; [FleetHttp]
    puts the agent's HTTP client and the manager's router and replies between them;
    [Enforcement] follows a rule from a user's request to [ufw] on a host.

    ** What the theorems show

    - Enforcement: a rule accepted by the administration API is among the rules [ufw]
      enforces after the next clean cycle of a host with its policy, in policy order
      ([Enforcement.accepted_rule_enforced]).
    - Convergence: a host that applied what it was served is told that nothing changed and
      applies nothing more ([Fleet.fleet_converges]); the preview shown to users is
      the command the agent runs, for the rules it covers.
    - The network: the two sides read each other's messages
      ([WireJson.messages_understood]), and any number of turns of the agent's loop
      over HTTP is the same run as against the handlers directly
      ([FleetHttp.network_loop_refines]), by a simulation between links to the manager.
    - The manager as a whole: whatever users and agents send, however often the manager
      is started and whichever statements fail, references and keys stay valid and
      every integer stays in its column's and its wire field's range
      ([Lifetimes.manager_keeps_sound], from [AdminFacts.run_op_integrity],
      [TypedDb] and the frames of [WebApiInvariant]); what a restart keeps and forgets
      ([Lifetimes.restart_state]).
    - Authority: every handler but seven runs behind [require_auth]
      ([Router.handlers_authenticated]); a request changes the operators' and the
      administrators' parts of the state only with their roles, and a password only
      by its user or an administrator ([WebApiFacts.authority_required]); an agent
      changes only what is its own ([ManagerSite.agents_confined]). The handlers of the
      tables are exactly those the router names ([WebApi.handlers_complete]); every
      route is the one that answers its path ([Router.routes_reachable]).
    - Forced check-ins: in every interleaving, requests are accounted for and one under
      way reaches a stream whose client is there ([EventsFacts]).
    - The apply path: a clean apply leaves exactly the umbilical and the compiled
      rules, in order ([UfwApply.ufw_apply_installs], [PullLoopFacts.apply_rules_installs]);
      each compiled line reaches [ufw] as the argument vector of its rule
      ([UfwCompile.ufw_rule_argv]); every command is accounted for; a colliding
      reset recovers; a failing one is masked. A firewalld host only ever gains
      rules ([Firewalld.firewalld_only_adds]).
    - Lockout safety: the agent's and the manager's protected-network checks are
      characterised exactly and related to each other, and a refused ruleset
      changes nothing ([PullLoopFacts.apply_rules_guarded]).
    - The cycle: which answer leads to which apply ([decide_apply_exact]), executed
      actions are not executed again, configuration updates, an unreachable
      manager; state files round-trip.
    - The drift hash: editing or reordering rules changes it, up to a SHA-256
      collision exhibited in the conclusion.
    - The agent API: what a check-in serves, that a pending action is handed out
      once, what a result report changes.
    - Administration: every sequence of writing requests keeps the policy tables
      coherent ([AdminFacts.admin_ops_keep_integrity]); assignments stay within the
      caller's authority; group order is policy order; groups in use stay.
    - Enrollment: single-use tokens, one certificate per approval handed out once;
      end to end, an agent that is approved while it polls is enrolled as the host
      the manager registered ([Onboarding.onboarding_end_to_end]) and its daemon
      starts as that host; polling ends ([AgentEnrollFacts.polling_ends]).
    - Certificates: a restart keeps the CA ([CaFacts.ca_restart_keeps_identity]), which
      imported chains are accepted, what the CRLs name and how they are numbered; a
      signed certificate identifies its host, a revoked one is refused by the running
      listener ([ListenerFacts.revocation_takes_effect]), when the listener's own
      certificate is kept.
    - Overlapping requests: whatever the order of their statements, the audit log only
      grows and every row names a row before it ([Races.audit_log_rooted]), a spent
      token stays spent ([Races.spent_token_refused]) and a locked account locked
      ([Races.locked_account_refuses]); but entries logged at once break the chain,
      submissions at once share a token, and guesses at once escape the lockout
      ([overlapping_events_break_chain], [overlapping_submissions_accepted],
      [parallel_guesses_unlocked]).
    - Users: soundness of [require_auth], the operator's scope, a bound on password
      guesses under the lockout, a login's token lets its user in, unique accounts,
      what a password change and a deletion do.
    - Settings: what is saved is read back, a new check-in interval reaches every
      host, the whitelist in force is the one asked for and still admits a directly
      connected requester.
    - Audit and health: edits of the audit log detected, one detector pass exact, what
      the fleet views count and list.
    - Processes: the worker's wait for the schema ends
      ([Processes.wait_for_migrations_ends]), a minimal configuration is enough to
      serve ([AppConfig.minimal_config_serves]), an encrypted secret survives a restart,
      the agent's reporting commands change nothing ([AgentCli.reports_only_ask]).
    Some theorems state behaviour the program hardly intends (a masked reset
    failure, an approval that cannot be retried, an expired request that sticks,
    audit rows that verify only at whole microseconds or until their actor is
    deleted, sessions that can be neither refreshed nor ended, a revoked root row
    that stops every CRL, a second forced check-in that is lost, firewalld rules that
    stay when they are removed): they hold of the code.

    ** Conventions and parameters

    Machine integers are [Z], with the width written where the code depends on it
    (INTEGER columns, ports, [i64] times). Times are nanoseconds since the epoch.
    Strings are byte strings. A handler is a function in [M]: an effect made before
    an error stays, as in the source, except inside the SQL transaction
    of the two reorder handlers. Recursion is structural, with four bounds:
    [ufw_reset_loop] has the eight retries of the source,
    [AgentEnroll.poll_loop] its 1440 attempts, [Processes.wait_for_migrations] takes
    62 polls, which [wait_for_migrations_ends] shows to be enough since the polls are
    two seconds apart, and [PullClient.drain_frames] takes the length of its buffer as
    fuel, which [drain_fuel] shows to be enough since each step consumes a byte. The
    endless loop around a cycle is any number of turns
    ([FleetHttp.pull_loop_turns]), the one around a worker pass only sleeps; the
    listener's accept loop is a function of the finite list of connections that have
    arrived.

    Code outside the repository is a class, its documented behaviour a class of
    laws with an instance for the witnesses: SHA-256 ([Models.Sha256]), serde_json
    ([Models.SerdeJson], [Settings.SerdeParse], [WireJson.SerdeBody]), uuid text, RFC 3339 text, [ipnet]
    ([Net.IpNetLib]), [shlex] ([Backend.Shlex], [ShellWords.ShlexLaws]), [url] and DNS
    ([PullLoop.UrlLib], [ManagerUrl.Dns]), the programs and files of the host
    ([Backend.HostOs], [UfwApply.UfwLaws] and [Firewalld.FirewalldLaws]: what the
    manuals of ufw and firewall-cmd say of their rules),
    the state file formats ([AgentState.AgentCodec]), jsonwebtoken ([Auth.Jwt]),
    argon2 and Unicode classes ([Login.Argon2], [Login.Unicode]), rcgen and x509-parser
    ([Ca.Rcgen], [Ca.X509], [AgentEnroll.CsrLib]), rustls ([Listener.Rustls]), reqwest
    ([AgentEnroll.EnrollLink], [AgentEnroll.HttpIdentity], [PullHttp.Http]), axum's reply
    to an unreadable body ([AgentHttp.AxumJson]), tokio's Notify and the text of
    server-sent events ([Events]), the config crate ([AppConfig.ConfigLib]), AES-GCM
    and random bytes ([Secrets.AesGcm], [Secrets.RngBytes]), ULIDs, hex and base64
    ([Ca.Hex], [Ca.Base64]), random tokens and the reading of a query string
    ([WebApi.RandomToken], [WebApi.QueryLib]), and PostgreSQL: its collation
    ([Users.Collation]), the order of rows no ORDER BY decides ([Db.Sql]), the text of an [inet] ([PolicyAdmin.PgInet]), whether text
    is accepted for [inet], [jsonb] and enum columns without a cast
    ([Db.db_coerces_text]; theorems that need it say so).

    ** Not modelled, and what comes next

    Not modelled: TLS and X.509 encodings, the text of JSON, the quota of the rate
    limiters and the file service of the web frontend, all of them other crates'
    code; the bodies of the administration API's replies beyond the values the
    handlers return; the async runtime, and handlers that run at the same time except
    those of [Races] and the events streams (elsewhere a handler runs alone, and a
    restart comes between requests); the sockets; the connection pool and the migrations as programs
    (the schema they leave is in [Db]); parsing of the agent's command line;
    logging. The tables no handler uses (jobs, maintenance windows, SSO) are left
    out of [Db].
    Next: the other handlers that check before they write ([approve_enrollment],
    [assign_policy_set], [create_user], [take_pending]) as programs in [Races]; a
    restart in the middle of a request. *)

From stdpp Require Export prelude gmap strings sorting pretty.
From Stdlib Require Export ZArith Lia Ascii.

(** ** Results: Rust's [Result<A, E>] *)

Inductive result (A E : Type) : Type :=
  | Ok (a : A)
  | Err (e : E).
Arguments Ok {A E} a.
Arguments Err {A E} e.

Definition is_ok {A E} (r : result A E) : bool :=
  match r with Ok _ => true | Err _ => false end.

(** [Result::ok]. *)
Definition result_ok {A E} (r : result A E) : option A :=
  match r with Ok a => Some a | Err _ => None end.

(** [Option::ok_or]. *)
Definition ok_or {A E} (o : option A) (e : E) : result A E :=
  match o with Some a => Ok a | None => Err e end.

(** [Result::map_err]. *)
Definition map_err {A E F} (f : E -> F) (r : result A E) : result A F :=
  match r with Ok a => Ok a | Err e => Err (f e) end.

(** [Result::unwrap_or]. *)
Definition unwrap_or {A E} (d : A) (r : result A E) : A :=
  match r with Ok a => a | Err _ => d end.

#[export] Instance result_ret {E} : MRet (fun A => result A E) := fun _ a => Ok a.
#[export] Instance result_bind {E} : MBind (fun A => result A E) :=
  fun _ _ f r => match r with Ok a => f a | Err e => Err e end.

(** [let x = r?;] in code without state. *)
Definition and_then {A B E} (r : result A E) (f : A -> result B E) : result B E :=
  match r with Ok a => f a | Err e => Err e end.
Notation "'let?' x := r 'in' k" := (and_then r (fun x => k))
  (at level 200, x binder, right associativity, only parsing).

Lemma and_then_ok {A B E} (r : result A E) (f : A -> result B E) b :
  and_then r f = Ok b <-> exists a, r = Ok a /\ f a = Ok b.
Proof. destruct r; simpl; split; [eauto|by intros (? & [= <-] & ?)|done|by intros (? & ? & ?)]. Qed.

#[export] Instance result_eq_dec {A E} `{EqDecision A, EqDecision E} :
  EqDecision (result A E).
Proof. solve_decision. Defined.

(** ** Stateful, fallible code

    A computation over a world [W] that may fail with an error of type [E].
    An effect made before a failure stays in the world, as in the source: no
    handler of the program rolls back what it did before a [?]. *)

Definition M (W E A : Type) : Type := W -> result A E * W.

#[export] Instance M_ret {W E} : MRet (M W E) := fun _ a w => (Ok a, w).
#[export] Instance M_bind {W E} : MBind (M W E) := fun _ _ f m w =>
  match m w with
  | (Ok a, w') => f a w'
  | (Err e, w') => (Err e, w')
  end.

Definition throw {W E A} (e : E) : M W E A := fun w => (Err e, w).
Definition get {W E} : M W E W := fun w => (Ok w, w).
Definition gets {W E A} (f : W -> A) : M W E A := fun w => (Ok (f w), w).
Definition modify {W E} (f : W -> W) : M W E unit := fun w => (Ok tt, f w).

(** [match m.await { Ok(..) => .., Err(..) => .. }]: the error becomes a value. *)
Definition attempt {W E F A} (m : M W E A) : M W F (result A E) := fun w =>
  let '(r, w') := m w in (Ok r, w').

(** [let _ = m.await;]: the outcome is dropped, the effect is kept. *)
Definition ignore {W E F A} (m : M W E A) : M W F unit := fun w => (Ok tt, snd (m w)).

(** [r?] for a pure result. *)
Definition lift_result {W E A} (r : result A E) : M W E A := fun w => (r, w).

(** [if !c { return Err(e) }]. *)
Definition guard_or {W E} (c : bool) (e : E) : M W E unit :=
  if c then mret tt else throw e.

(** [for x in l { f(x)?; }]. *)
Fixpoint for_each {W E A} (f : A -> M W E unit) (l : list A) : M W E unit :=
  match l with
  | [] => mret tt
  | x :: l' => f x ≫= fun _ => for_each f l'
  end.

(** The world after a run, and the value of a run. *)
Definition final {W E A} (m : M W E A) (w : W) : W := snd (m w).
Definition outcome {W E A} (m : M W E A) (w : W) : result A E := fst (m w).

Section monad_lemmas.
Context {W E : Type}.

Lemma bind_ok {A B} (m : M W E A) (f : A -> M W E B) w a w' :
  m w = (Ok a, w') -> (m ≫= f) w = f a w'.
Proof. intros Hm. unfold mbind, M_bind. by rewrite Hm. Qed.

Lemma bind_err {A B} (m : M W E A) (f : A -> M W E B) w e w' :
  m w = (Err e, w') -> (m ≫= f) w = (Err e, w').
Proof. intros Hm. unfold mbind, M_bind. by rewrite Hm. Qed.

Lemma bind_inv_ok {A B} (m : M W E A) (f : A -> M W E B) w b w'' :
  (m ≫= f) w = (Ok b, w'') ->
  exists a w', m w = (Ok a, w') /\ f a w' = (Ok b, w'').
Proof.
  unfold mbind, M_bind. destruct (m w) as [[a|e] w'] eqn:Hm; [eauto|discriminate].
Qed.

Lemma bind_final {A B} (m : M W E A) (f : A -> M W E B) w :
  final (m ≫= f) w =
    match outcome m w with
    | Ok a => final (f a) (final m w)
    | Err _ => final m w
    end.
Proof.
  unfold final, outcome, mbind, M_bind. by destruct (m w) as [[a|e] w'].
Qed.

(** A world property kept by every step of a computation. *)
Definition keeps {A} (P : W -> Prop) (m : M W E A) : Prop :=
  forall w, P w -> P (final m w).

Lemma keeps_ret {A} (P : W -> Prop) (a : A) : keeps P (mret a : M W E A).
Proof. by intros w Hw. Qed.

Lemma keeps_throw {A} (P : W -> Prop) (e : E) : keeps P (throw e : M W E A).
Proof. by intros w Hw. Qed.

Lemma keeps_gets {A} (P : W -> Prop) (f : W -> A) : keeps P (gets f : M W E A).
Proof. by intros w Hw. Qed.

Lemma keeps_modify (P : W -> Prop) (f : W -> W) :
  (forall w, P w -> P (f w)) -> keeps P (modify f : M W E unit).
Proof. intros Hf w Hw. apply Hf, Hw. Qed.

Lemma keeps_bind {A B} (P : W -> Prop) (m : M W E A) (f : A -> M W E B) :
  keeps P m -> (forall a, keeps P (f a)) -> keeps P (m ≫= f).
Proof.
  intros Hm Hf w Hw. rewrite bind_final.
  specialize (Hm w Hw). destruct (outcome m w); [by apply Hf|done].
Qed.

Lemma keeps_guard (P : W -> Prop) c (e : E) : keeps P (guard_or c e : M W E unit).
Proof. unfold guard_or. destruct c; [apply keeps_ret | apply keeps_throw]. Qed.

Lemma keeps_for_each {A} (P : W -> Prop) (f : A -> M W E unit) l :
  (forall x, x ∈ l -> keeps P (f x)) -> keeps P (for_each f l).
Proof.
  induction l as [|x l IH]; intros Hf; simpl; [apply keeps_ret|].
  apply keeps_bind; [apply Hf; set_solver|intros _; apply IH; set_solver].
Qed.
End monad_lemmas.

Lemma keeps_ignore {W E F A} (P : W -> Prop) (m : M W E A) :
  keeps P m -> keeps P (ignore m : M W F unit).
Proof. intros Hm w Hw. apply (Hm w Hw). Qed.

Lemma keeps_attempt {W E F A} (P : W -> Prop) (m : M W E A) :
  keeps P m -> keeps P (attempt m : M W F (result A E)).
Proof.
  intros Hm w Hw. specialize (Hm w Hw). unfold final, attempt in *.
  by destruct (m w) as [r w'].
Qed.

Lemma keeps_lift {W E A} (P : W -> Prop) (r : result A E) : keeps P (lift_result r : M W E A).
Proof. by intros w Hw. Qed.

(** ** Automation *)

Create HintDb keeps.
#[export] Hint Resolve keeps_ret keeps_throw keeps_gets keeps_guard keeps_ignore
  keeps_attempt keeps_lift : keeps.
#[export] Hint Opaque keeps : keeps.

(** Walk down a monadic program, one [keeps] obligation per step. *)
Ltac keeps_step :=
  match goal with
  | |- keeps _ (_ ≫= _) => apply keeps_bind; [|intros ?]
  | |- keeps _ (for_each _ _) => apply keeps_for_each; intros ? ?
  | |- keeps _ (modify _) => apply keeps_modify; intros ? ?
  | |- keeps _ (match ?x with _ => _ end) => destruct x eqn:?
  | |- keeps _ _ => solve [eauto with keeps]
  end.
Ltac keeps_tac := repeat keeps_step.

(** Read off the outcome of [mret a], [throw e] or [gets f] in a hypothesis. *)
Ltac inv_ret H := simpl in H; unfold mret, M_ret, throw, gets in H; simplify_eq/=.

(** Case analysis on the scrutinee of every match of a hypothesis. *)
Ltac case_hyp H :=
  repeat match type of H with
  | context [match ?x with _ => _ end] => destruct x eqn:?; simplify_eq/=
  end.

(** ** Machine integers *)

(** Two's complement wrap-around of [i32] and the reading of its bits as [u32]
    ([as u32] / [as i32] in the source). *)
Definition wrap32 (z : Z) : Z := ((z + 2^31) mod 2^32 - 2^31)%Z.
Definition u32_of_i32 (z : Z) : Z := (z mod 2^32)%Z.
Definition i32_range (z : Z) : Prop := (- 2^31 <= z < 2^31)%Z.

Lemma u32_of_i32_nonneg z : (0 <= z < 2^31)%Z -> u32_of_i32 z = z.
Proof. intros H. unfold u32_of_i32. apply Z.mod_small. lia. Qed.

(** ** Lists *)

Lemma filter_nil_iff {A} (P : A -> Prop) `{!forall x, Decision (P x)} (l : list A) :
  filter P l = [] <-> (forall x, x ∈ l -> ~ P x).
Proof.
  split.
  - intros Hn x Hx HP.
    assert (x ∈ filter P l) as Hin by by apply list_elem_of_filter.
    rewrite Hn in Hin. by apply not_elem_of_nil in Hin.
  - intros Hno. destruct (filter P l) as [|x l'] eqn:Hl; [done|].
    assert (x ∈ filter P l) as Hin by (rewrite Hl; left).
    apply list_elem_of_filter in Hin as [HP Hx]. by destruct (Hno x Hx).
Qed.

(** [Iterator::find_map]. *)
Fixpoint find_map {A B} (f : A -> option B) (l : list A) : option B :=
  match l with
  | [] => None
  | x :: l' => match f x with Some b => Some b | None => find_map f l' end
  end.

Lemma find_map_Some {A B} (f : A -> option B) l b :
  find_map f l = Some b -> exists x, x ∈ l /\ f x = Some b.
Proof.
  induction l as [|x l IH]; simpl; [done|].
  destruct (f x) eqn:Hx; intros H; simplify_eq.
  - exists x. split; [left|done].
  - destruct (IH H) as (y & ? & ?). exists y. split; [by right|done].
Qed.

Lemma find_map_None {A B} (f : A -> option B) l :
  find_map f l = None <-> (forall x, x ∈ l -> f x = None).
Proof.
  induction l as [|x l IH]; simpl; [by split; [intros _ x ?%not_elem_of_nil|]|].
  destruct (f x) eqn:Hx; split.
  - done.
  - intros Hall. specialize (Hall x (list_elem_of_here _ _)). congruence.
  - intros Hl y [->|Hy]%elem_of_cons; [done|]. by apply IH.
  - intros Hall. apply IH. intros y Hy. apply Hall. by right.
Qed.

(** Elements with distinct keys are determined by their key. *)
Lemma NoDup_key_inj {A B} (f : A -> B) (l : list A) x y :
  NoDup (f <$> l) -> x ∈ l -> y ∈ l -> f x = f y -> x = y.
Proof.
  induction l as [|z l IH]; intros Hnd Hx Hy Hf; [by apply not_elem_of_nil in Hx|].
  rewrite fmap_cons in Hnd. apply NoDup_cons in Hnd as [Hz Hnd].
  apply elem_of_cons in Hx as [->|Hx]; apply elem_of_cons in Hy as [->|Hy]; auto.
  - destruct Hz. rewrite Hf. by apply list_elem_of_fmap_2.
  - destruct Hz. rewrite <- Hf. by apply list_elem_of_fmap_2.
Qed.

Lemma list_app_grow {A} (l l' : list A) x : l ++ x :: l' <> l.
Proof. intros H. apply (f_equal length) in H. rewrite length_app in H. simpl in H. lia. Qed.

(** The first difference between two different arrangements of one list. *)
Lemma first_difference {A} `{EqDecision A} (l l' : list A) :
  l ≡ₚ l' -> l <> l' ->
  exists pre r r' t t', l = pre ++ r :: t /\ l' = pre ++ r' :: t' /\ r <> r'.
Proof.
  revert l'. induction l as [|r l IH]; intros [|r' l'] Hp Hne.
  - done.
  - by apply Permutation_nil_l in Hp.
  - by apply Permutation_nil_r in Hp.
  - destruct (decide (r = r')) as [<-|Hr].
    + destruct (IH l') as (pre & a & a' & t & t' & -> & -> & Ha).
      * by apply Permutation.Permutation_cons_inv in Hp.
      * congruence.
      * by exists (r :: pre), a, a', t, t'.
    + by exists [], r, r', l, l'.
Qed.
