(* ===== verification/Text.v ===== *)
(** * Text: the [str] and [String] operations the program uses

    A Rust string is modelled by its bytes ([String.string] is a list of 8-bit
    characters). White space and letter case are the ASCII ones; the program
    only trims, splits and lower-cases ASCII text (hashes, UUIDs, CIDRs,
    command output, enum names). *)

From S2P Require Import Prelude.

Definition LF : ascii := "010"%char.
Definition CR : ascii := "013"%char.
Definition newline : string := String LF "".

(** ** Predicates *)

Definition is_empty (s : string) : bool :=
  match s with "" => true | _ => false end.

Fixpoint starts_with (p s : string) : bool :=
  match p, s with
  | "", _ => true
  | String a p', String b s' => bool_decide (a = b) && starts_with p' s'
  | _, _ => false
  end.

(** [s.contains(sub)] for a string pattern. *)
Fixpoint contains (sub s : string) : bool :=
  starts_with sub s || match s with "" => false | String _ s' => contains sub s' end.

Fixpoint str_forallb (f : ascii -> bool) (s : string) : bool :=
  match s with "" => true | String c s' => f c && str_forallb f s' end.

Fixpoint str_existsb (f : ascii -> bool) (s : string) : bool :=
  match s with "" => false | String c s' => f c || str_existsb f s' end.

(** ** Trimming, prefixes, suffixes *)

Fixpoint trim_start (s : string) : string :=
  match s with
  | String c s' => if Ascii.is_space c then trim_start s' else s
  | "" => ""
  end.

Fixpoint trim_end (s : string) : string :=
  match s with
  | "" => ""
  | String c s' =>
      match trim_end s' with
      | "" => if Ascii.is_space c then "" else String c ""
      | t => String c t
      end
  end.

Definition trim (s : string) : string := trim_end (trim_start s).

Fixpoint strip_prefix (p s : string) : option string :=
  match p, s with
  | "", _ => Some s
  | String a p', String b s' => if bool_decide (a = b) then strip_prefix p' s' else None
  | _, _ => None
  end.

Fixpoint strip_suffix (p s : string) : option string :=
  if bool_decide (s = p) then Some ""
  else match s with
       | "" => None
       | String c s' => String c <$> strip_suffix p s'
       end.

(** [s.replace(c, "")]. *)
Fixpoint remove_char (c : ascii) (s : string) : string :=
  match s with
  | "" => ""
  | String d s' => if bool_decide (c = d) then remove_char c s' else String d (remove_char c s')
  end.

(** [s.find(c)] followed by [s[idx + 1..]]: what follows the first [c]. *)
Fixpoint after_char (c : ascii) (s : string) : option string :=
  match s with
  | "" => None
  | String d s' => if bool_decide (c = d) then Some s' else after_char c s'
  end.

(** [s.split(c)]: always at least one piece. *)
Fixpoint split_char (c : ascii) (s : string) : list string :=
  match s with
  | "" => [""]
  | String d s' =>
      if bool_decide (c = d) then "" :: split_char c s'
      else match split_char c s' with
           | [] => [String d ""]
           | w :: ws => String d w :: ws
           end
  end.

(** [s.lines()]: split at line feeds, a carriage return before the feed is
    dropped, no line after a final feed. *)
Fixpoint lines (s : string) : list string :=
  match s with
  | "" => []
  | String c s' =>
      if bool_decide (c = LF) then "" :: lines s'
      else if bool_decide (c = CR) && starts_with newline s' then lines s'
      else match lines s' with
           | [] => [String c ""]
           | l :: ls => String c l :: ls
           end
  end.

(** [v.join(sep)]. *)
Fixpoint join (sep : string) (l : list string) : string :=
  match l with
  | [] => ""
  | [x] => x
  | x :: l' => x +:+ sep +:+ join sep l'
  end.

Fixpoint str_concat (l : list string) : string :=
  match l with [] => "" | x :: l' => x +:+ str_concat l' end.

(** A double quote. *)
Definition DQ : string := String "034"%char "".

(** ASCII [to_lowercase]. *)
Definition ascii_lower (c : ascii) : ascii :=
  let n := nat_of_ascii c in
  if (65 <=? n)%nat && (n <=? 90)%nat then ascii_of_nat (n + 32) else c.

Fixpoint to_lowercase (s : string) : string :=
  match s with "" => "" | String c s' => String (ascii_lower c) (to_lowercase s') end.

(** [String::from_utf8(bytes).is_ok()]: the byte sequence is well-formed UTF-8.
    [need] continuation bytes are due, the next one in [lo..hi]. *)
Fixpoint utf8_scan (need lo hi : nat) (s : string) : bool :=
  match s with
  | "" => (need =? 0)%nat
  | String c s' =>
      let n := nat_of_ascii c in
      match need with
      | S need' => (lo <=? n)%nat && (n <=? hi)%nat && utf8_scan need' 128 191 s'
      | O =>
          if (n <? 128)%nat then utf8_scan 0 0 0 s'
          else if (194 <=? n)%nat && (n <=? 223)%nat then utf8_scan 1 128 191 s'
          else if (n =? 224)%nat then utf8_scan 2 160 191 s'
          else if (n =? 237)%nat then utf8_scan 2 128 159 s'
          else if (225 <=? n)%nat && (n <=? 239)%nat then utf8_scan 2 128 191 s'
          else if (n =? 240)%nat then utf8_scan 3 144 191 s'
          else if (241 <=? n)%nat && (n <=? 243)%nat then utf8_scan 3 128 191 s'
          else if (n =? 244)%nat then utf8_scan 3 128 143 s'
          else false
      end
  end.
Definition utf8_valid (s : string) : bool := utf8_scan 0 0 0 s.

(** ** Lemmas *)

Lemma str_app_nil_r s : s +:+ "" = s.
Proof. induction s as [|c s IH]; [done|]. change (String c (s +:+ "") = String c s). by rewrite IH. Qed.

Lemma str_app_assoc a b c : a +:+ b +:+ c = (a +:+ b) +:+ c.
Proof.
  induction a as [|x a IH]; [done|].
  change (String x (a +:+ b +:+ c) = String x ((a +:+ b) +:+ c)). by rewrite IH.
Qed.

Lemma str_app_cons c s t : String c s +:+ t = String c (s +:+ t).
Proof. done. Qed.

Lemma str_length_app a b :
  String.length (a +:+ b) = (String.length a + String.length b)%nat.
Proof. induction a as [|c a IH]; [done|]. rewrite str_app_cons. simpl. by rewrite IH. Qed.

(** Two concatenations whose heads have the same length agree piecewise. *)
Lemma str_app_inj_length a b c d :
  String.length a = String.length c -> a +:+ b = c +:+ d -> a = c /\ b = d.
Proof.
  revert c. induction a as [|x a IH]; intros [|y c] Hlen Heq; simpl in Hlen; try lia.
  - by split.
  - rewrite !str_app_cons in Heq. injection Heq as -> Heq.
    destruct (IH c) as [-> ->]; [lia|done|by split].
Qed.

Lemma starts_with_app p s : starts_with p (p +:+ s) = true.
Proof.
  induction p as [|c p IH]; [done|].
  rewrite str_app_cons. simpl. by rewrite bool_decide_eq_true_2, IH.
Qed.

Lemma starts_with_true p s : starts_with p s = true -> exists t, s = p +:+ t.
Proof.
  revert s. induction p as [|c p IH]; intros s H; [by exists s|].
  destruct s as [|d s]; [done|]. simpl in H.
  apply andb_true_iff in H as [->%bool_decide_eq_true_1 H].
  destruct (IH s H) as [t ->]. by exists t.
Qed.

Lemma strip_prefix_Some p s t : strip_prefix p s = Some t <-> s = p +:+ t.
Proof.
  split.
  - revert s. induction p as [|c p IH]; intros s H; simpl in H; [by simplify_eq|].
    destruct s as [|d s]; [done|]. case_bool_decide; [subst|done].
    rewrite str_app_cons. f_equal. by apply IH.
  - intros ->. induction p as [|c p IH]; [done|].
    rewrite str_app_cons. simpl. by rewrite bool_decide_eq_true_2.
Qed.

Lemma strip_suffix_Some p s t : strip_suffix p s = Some t -> s = t +:+ p.
Proof.
  revert t. induction s as [|c s IH]; intros t H; simpl in H;
    case_bool_decide as Hp; simplify_eq; try done.
  destruct (strip_suffix p s) as [r|] eqn:Hr; simplify_eq/=.
  rewrite str_app_cons. f_equal. by apply IH.
Qed.

Lemma strip_suffix_app t p : exists t', strip_suffix p (t +:+ p) = Some t' /\ t' +:+ p = t +:+ p.
Proof.
  induction t as [|c t IH].
  - exists "". split; [|done]. change ("" +:+ p) with p.
    destruct p as [|c p]; simpl; [done|]. by rewrite bool_decide_eq_true_2.
  - destruct IH as (t' & Ht' & Heq). rewrite str_app_cons. simpl.
    case_bool_decide as Hp.
    + exists "". split; [done|]. by rewrite <- str_app_cons, str_app_cons, Hp.
    + rewrite Ht'. exists (String c t'). split; [done|]. by rewrite str_app_cons, Heq.
Qed.

Lemma str_app_inj_l a b c : a +:+ c = b +:+ c -> a = b.
Proof.
  intros H. assert (String.length a = String.length b) as Hl.
  { apply (f_equal String.length) in H. rewrite !str_length_app in H. lia. }
  by destruct (str_app_inj_length a c b c Hl H).
Qed.

Lemma strip_suffix_app_eq t p : strip_suffix p (t +:+ p) = Some t.
Proof.
  destruct (strip_suffix_app t p) as (t' & H & Heq). rewrite H. f_equal. by apply str_app_inj_l in Heq.
Qed.

(** A string with no [c] is left alone by [remove_char c], and the result never
    has a [c]. *)
Lemma remove_char_none c s : str_existsb (fun d => bool_decide (c = d)) (remove_char c s) = false.
Proof.
  induction s as [|d s IH]; [done|]. simpl. case_bool_decide; [done|].
  simpl. by rewrite bool_decide_eq_false_2.
Qed.

Lemma remove_char_id c s :
  str_existsb (fun d => bool_decide (c = d)) s = false -> remove_char c s = s.
Proof.
  induction s as [|d s IH]; [done|]. simpl. intros [Hd Hs]%orb_false_iff.
  rewrite Hd. by rewrite IH.
Qed.

Lemma trim_start_id s :
  match s with String c _ => Ascii.is_space c = false | "" => True end -> trim_start s = s.
Proof. destruct s as [|c s]; simpl; [done|]. by intros ->. Qed.

Lemma trim_end_nonblank s :
  str_forallb (fun c => negb (Ascii.is_space c)) s = true -> trim_end s = s.
Proof.
  induction s as [|c s IH]; [done|]. simpl. intros [Hc Hs]%andb_true_iff.
  rewrite IH by done. destruct s; [|done]. by rewrite negb_true_iff in Hc; rewrite Hc.
Qed.

(** Text without white space is its own [trim]. *)
Lemma str_forallb_impl (f g : ascii -> bool) s : (forall c, f c = true -> g c = true) ->
  str_forallb f s = true -> str_forallb g s = true.
Proof.
  intros Hfg. induction s as [|c s IH]; simpl; [done|]. intros [Hc Hs]%andb_true_iff. by rewrite (Hfg c Hc), (IH Hs).
Qed.

Lemma trim_nonblank s :
  str_forallb (fun c => negb (Ascii.is_space c)) s = true -> trim s = s.
Proof.
  intros Hs. unfold trim. rewrite trim_start_id; [by apply trim_end_nonblank|].
  destruct s as [|c s]; [done|]. simpl in Hs.
  apply andb_true_iff in Hs as [Hc _]. by apply negb_true_iff in Hc.
Qed.

(** Appending a line: a feed-terminated text followed by one more line. *)
Definition is_line_char (c : ascii) : bool :=
  negb (bool_decide (c = LF)) && negb (bool_decide (c = CR)).

Lemma lines_line l rest :
  str_forallb is_line_char l = true -> lines (l +:+ newline +:+ rest) = l :: lines rest.
Proof.
  induction l as [|c l IH]; intros Hl; [done|].
  simpl in Hl. apply andb_true_iff in Hl as [Hc Hl]. unfold is_line_char in Hc.
  apply andb_true_iff in Hc as [Hlf Hcr].
  apply negb_true_iff, bool_decide_eq_false_1 in Hlf.
  apply negb_true_iff, bool_decide_eq_false_1 in Hcr.
  rewrite str_app_cons. simpl.
  rewrite (bool_decide_eq_false_2 (c = LF)), (bool_decide_eq_false_2 (c = CR)) by done. simpl.
  change (lines (l +:+ newline +:+ rest)) with (lines (l +:+ newline +:+ rest)).
  by rewrite IH.
Qed.

Lemma lines_single l : str_forallb is_line_char l = true -> l <> "" -> lines l = [l].
Proof.
  induction l as [|c l IH]; intros Hl Hne; [done|]. simpl in Hl. apply andb_true_iff in Hl as [Hc Hl].
  apply andb_true_iff in Hc as [Hlf%negb_true_iff Hcr%negb_true_iff]. simpl. rewrite Hlf, Hcr. simpl.
  destruct l as [|c' l]; [done|]. by rewrite (IH Hl).
Qed.

Lemma lines_concat (ls : list string) rest :
  Forall (fun l => str_forallb is_line_char l = true) ls ->
  lines (str_concat (map (fun l => l +:+ newline) ls) +:+ rest) = ls ++ lines rest.
Proof.
  induction 1 as [|l ls Hl _ IH]; [done|]. cbn [map str_concat app].
  rewrite <- !str_app_assoc, lines_line by done. by rewrite IH.
Qed.

Example lines_ex : lines ("a" +:+ newline +:+ newline +:+ "b" +:+ newline) = ["a"; ""; "b"].
Proof. reflexivity. Qed.

Example trim_ex : trim "  a b  " = "a b".
Proof. reflexivity. Qed.
