(* ===== verification/Codec.v ===== *)
(** * Codec: a text form for the data of the witnesses

    Any countable data as text, by the binary digits of stdpp's [Countable]
    encoding, with its round trip. The concrete instances of the external formats
    (state files, tokens, certificates) are built from it. *)

From S2P Require Import Prelude.

Fixpoint pos_bits (p : positive) : string :=
  match p with
  | xH => "."
  | xO p' => String "0" (pos_bits p')
  | xI p' => String "1" (pos_bits p')
  end.

Fixpoint bits_pos (s : string) : option positive :=
  match s with
  | String c s' =>
      if bool_decide (c = "0"%char) then xO <$> bits_pos s'
      else if bool_decide (c = "1"%char) then xI <$> bits_pos s'
      else Some xH
  | "" => None
  end.

Lemma bits_pos_bits p : bits_pos (pos_bits p) = Some p.
Proof. induction p as [p IH|p IH|]; simpl; [by rewrite IH|by rewrite IH|done]. Qed.

Definition to_text {A} `{Countable A} (a : A) : string := pos_bits (encode a).
Definition of_text {A} `{Countable A} (s : string) : option A := bits_pos s ≫= decode.

Lemma of_to_text {A} `{Countable A} (a : A) : of_text (to_text a) = Some a.
Proof. unfold of_text, to_text. rewrite bits_pos_bits. simpl. apply decode_encode. Qed.
