(* ===== verification/Files.v ===== *)
(** * Files: a file system as the program's processes see it

    The [std::fs] calls of the manager's process on a disk of its own. (The agent's
    calls are in AgentState.v, on the disk of the agent's world.) Directories
    always exist unless the operating system refuses to create them. *)

From S2P Require Import Prelude Text.

(** A file: its content and its permission bits. *)
Record File := mkFile { f_content : string; f_mode : Z }.

(** [dk_unwritable] holds the paths on which the operating system refuses to
    create or write (a full or read-only disk). *)
Record Disk := mkDisk { dk_files : gmap string File; dk_unwritable : gset string }.

Definition IO_ERROR : string := "io error".

Definition disk_exists (path : string) (k : Disk) : bool := bool_decide (is_Some (dk_files k !! path)).

(** [std::fs::read_to_string]. *)
Definition disk_read (path : string) : M Disk string string := fun k =>
  match dk_files k !! path with Some f => (Ok (f_content f), k) | None => (Err IO_ERROR, k) end.

(** [std::fs::write]: a new file gets the umask's mode, an existing one keeps its own. *)
Definition disk_write (path content : string) : M Disk string unit := fun k =>
  if bool_decide (path ∈ dk_unwritable k) then (Err IO_ERROR, k)
  else (Ok tt, mkDisk (<[path := mkFile content (from_option f_mode 420%Z (dk_files k !! path))]> (dk_files k))
                 (dk_unwritable k)).

(** [std::fs::create_dir_all]. *)
Definition disk_mkdir (path : string) : M Disk string unit := fun k =>
  if bool_decide (path ∈ dk_unwritable k) then (Err IO_ERROR, k) else (Ok tt, k).

(** [std::fs::set_permissions]. *)
Definition disk_chmod (path : string) (mode : Z) : M Disk string unit := fun k =>
  match dk_files k !! path with
  | Some f => (Ok tt, mkDisk (<[path := mkFile (f_content f) mode]> (dk_files k)) (dk_unwritable k))
  | None => (Err IO_ERROR, k)
  end.

(** ** Facts *)

Lemma disk_read_ok path k f : dk_files k !! path = Some f -> disk_read path k = (Ok (f_content f), k).
Proof. intros H. unfold disk_read. by rewrite H. Qed.

Lemma disk_write_ok path content k : path ∉ dk_unwritable k ->
  exists mode, disk_write path content k =
    (Ok tt, mkDisk (<[path := mkFile content mode]> (dk_files k)) (dk_unwritable k)).
Proof. intros H. unfold disk_write. rewrite bool_decide_eq_false_2 by done. by eexists. Qed.

Lemma disk_exists_true path k : disk_exists path k = true <-> is_Some (dk_files k !! path).
Proof. apply bool_decide_eq_true. Qed.
