(* ===== verification/Models.v ===== *)
(** * Models: the domain types of fw-core and the drift hash

    [crates/fw-core/src/models.rs]: the enums (with their [as_str]), the records
    the agent and the manager exchange, and [compute_rules_hash], the SHA-256
    both sides compute over the canonical fields of a ruleset to decide whether
    a host runs its current policy. *)

From S2P Require Import Prelude Text.

(** ** Identifiers and external functions *)

(** A [uuid::Uuid] is its sixteen bytes. *)
Inductive Uuid : Type :=
  | MkUuid (b0 b1 b2 b3 b4 b5 b6 b7 b8 b9 b10 b11 b12 b13 b14 b15 : ascii).

#[export] Instance Uuid_eq_dec : EqDecision Uuid.
Proof. solve_decision. Defined.

Definition uuid_bytes (u : Uuid) : string :=
  let 'MkUuid a b c d e f g h i j k l m n o p := u in
  String a (String b (String c (String d (String e (String f (String g (String h
  (String i (String j (String k (String l (String m (String n (String o (String p ""
  ))))))))))))))).

Lemma uuid_bytes_length u : String.length (uuid_bytes u) = 16%nat.
Proof. by destruct u. Qed.

Lemma uuid_bytes_inj u v : uuid_bytes u = uuid_bytes v -> u = v.
Proof. destruct u, v. simpl. intros H. by simplify_eq. Qed.

Definition uuid_of_bytes (s : string) : option Uuid :=
  match s with
  | String a (String b (String c (String d (String e (String f (String g (String h
    (String i (String j (String k (String l (String m (String n (String o (String p ""
    ))))))))))))))) => Some (MkUuid a b c d e f g h i j k l m n o p)
  | _ => None
  end.

#[export] Instance Uuid_countable : Countable Uuid.
Proof. refine (inj_countable uuid_bytes uuid_of_bytes _). by intros []. Defined.

(** [Uuid::from_u128] of a small number: the sixteen bytes, big endian. *)
Definition uuid_of (n : N) : Uuid :=
  let b k := ascii_of_N (N.shiftr n (8 * k) mod 256) in
  MkUuid (b 15%N) (b 14%N) (b 13%N) (b 12%N) (b 11%N) (b 10%N) (b 9%N) (b 8%N)
         (b 7%N) (b 6%N) (b 5%N) (b 4%N) (b 3%N) (b 2%N) (b 1%N) (b 0%N).

Lemma MkUuid_inj a0 a1 a2 a3 a4 a5 a6 a7 a8 a9 a10 a11 a12 a13 a14 a15 c0 c1 c2 c3 c4 c5 c6 c7 c8 c9 c10 c11 c12 c13 c14 c15 :
  MkUuid a0 a1 a2 a3 a4 a5 a6 a7 a8 a9 a10 a11 a12 a13 a14 a15 =
  MkUuid c0 c1 c2 c3 c4 c5 c6 c7 c8 c9 c10 c11 c12 c13 c14 c15 ->
  a0 = c0 /\ a1 = c1 /\ a2 = c2 /\ a3 = c3 /\ a4 = c4 /\ a5 = c5 /\ a6 = c6 /\ a7 = c7 /\ a8 = c8 /\ a9 = c9 /\ a10 = c10 /\ a11 = c11 /\ a12 = c12 /\ a13 = c13 /\ a14 = c14 /\ a15 = c15.
Proof. intros [=]. by split_and!. Qed.

(** Different small numbers give different ids. *)
Lemma uuid_of_inj n m : (n < 2 ^ 128)%N -> (m < 2 ^ 128)%N -> uuid_of n = uuid_of m -> n = m.
Proof.
  intros Hn Hm H. set (b := fun x k => (N.shiftr x (8 * k) mod 256)%N).
  assert (forall k, (k < 16)%N -> b n k = b m k) as Hb.
  { assert (forall x k, N_of_ascii (ascii_of_N (b x k)) = b x k) as Hemb
      by (intros x k; apply N_ascii_embedding, N.mod_lt; done).
    intros k Hk16. unfold uuid_of in H. cbv zeta in H. apply MkUuid_inj in H. destruct_and! H.
    assert (k = 0 \/ k = 1 \/ k = 2 \/ k = 3 \/ k = 4 \/ k = 5 \/ k = 6 \/ k = 7 \/ k = 8 \/ k = 9 \/ k = 10 \/
      k = 11 \/ k = 12 \/ k = 13 \/ k = 14 \/ k = 15)%N as Hk by lia.
    rewrite <- (Hemb n k), <- (Hemb m k). unfold b. f_equal.
    repeat destruct Hk as [->|Hk]; try subst k; assumption. }
  apply N.bits_inj. intros i. destruct (N.lt_ge_cases i 128) as [Hi|Hi].
  - assert (i / 8 < 16)%N as Hk by (apply N.Div0.div_lt_upper_bound; lia).
    specialize (Hb _ Hk). apply (f_equal (fun x => N.testbit x (i mod 8))) in Hb. unfold b in Hb.
    change 256%N with (2 ^ 8)%N in Hb. assert (i mod 8 < 8)%N as Hi8 by by apply N.mod_lt.
    rewrite !N.mod_pow2_bits_low in Hb by exact Hi8. rewrite !N.shiftr_spec in Hb by apply N.le_0_l.
    by rewrite N.add_comm, <- N.Div0.div_mod in Hb.
  - rewrite !N.bits_above_log2; [done|..]; (eapply N.lt_le_trans; [|exact Hi]);
      [destruct (decide (m = 0%N)) as [->|]; [done|]|destruct (decide (n = 0%N)) as [->|]; [done|]];
      apply N.log2_lt_pow2; lia.
Qed.

(** [hex::encode(Sha256::digest(bytes))]. The hasher's [update] calls
    concatenate their arguments, so a digest is a function of the concatenation. *)
Class Sha256 := { sha256_hex : string -> string }.

(** Two distinct inputs with the same digest. *)
Definition sha256_collision `{!Sha256} : Prop :=
  exists x y, x <> y /\ sha256_hex x = sha256_hex y.

(** Documented shape of a SHA-256 digest in hex: 64 lower-case hex digits. *)
Class Sha256Laws `{!Sha256} := {
  sha256_hex_length : forall s, String.length (sha256_hex s) = 64%nat;
  sha256_hex_digits : forall s,
    str_forallb (fun c => negb (Ascii.is_space c) && is_line_char c) (sha256_hex s) = true
}.

(** Instants: nanoseconds since the epoch. *)
Notation DateTime := Z (only parsing).
Definition SECOND : Z := 1000000000.
Definition HOUR : Z := 3600 * SECOND.
Definition DAY : Z := 24 * HOUR.

(** [serde_json::Value]; its text ([to_string]) is the [serde_json] crate's. *)
Inductive Json :=
  | JNull | JBool (b : bool) | JNum (z : Z) | JStr (s : string)
  | JArr (l : list Json) | JObj (fields : list (string * Json)).
Class SerdeJson := { json_to_string : Json -> string }.

(** [json!] of an optional string. *)
Definition JOptStr (o : option string) : Json := match o with Some s => JStr s | None => JNull end.

(** [Uuid]'s [to_string] and [parse_str] (the [uuid] crate): the hyphenated form,
    which is 36 hex digits and hyphens and parses back. *)
Class UuidText := { uuid_to_string : Uuid -> string; uuid_parse : string -> option Uuid }.
Class UuidTextLaws `{!UuidText} := {
  uuid_parse_to_string : forall u, uuid_parse (uuid_to_string u) = Some u;
  uuid_to_string_chars : forall u,
    str_forallb (fun c => negb (Ascii.is_space c) && is_line_char c) (uuid_to_string u) = true;
  uuid_to_string_hyphen : forall u, str_existsb (fun c => bool_decide (c = "-"%char)) (uuid_to_string u) = true
}.

Lemma uuid_to_string_inj `{UuidTextLaws} u v : uuid_to_string u = uuid_to_string v -> u = v.
Proof. intros Heq. apply (f_equal uuid_parse) in Heq. rewrite !uuid_parse_to_string in Heq. by simplify_eq. Qed.

(** ** Enums *)

Inductive UserRole := Admin | Operator | Reporter | BreakGlassOperator.
#[export] Instance UserRole_eq_dec : EqDecision UserRole.
Proof. solve_decision. Defined.

Definition role_as_str (r : UserRole) : string :=
  match r with
  | Admin => "admin" | Operator => "operator" | Reporter => "reporter"
  | BreakGlassOperator => "break_glass_operator"
  end.

Inductive FirewallAction := Allow | Deny | Reject | Limit | Masquerade.
#[export] Instance FirewallAction_eq_dec : EqDecision FirewallAction.
Proof. solve_decision. Defined.

Definition action_as_str (a : FirewallAction) : string :=
  match a with
  | Allow => "allow" | Deny => "deny" | Reject => "reject"
  | Limit => "limit" | Masquerade => "masquerade"
  end.

Inductive FirewallDefaultPolicy := DefAllow | DefDeny | DefReject.
#[export] Instance FirewallDefaultPolicy_eq_dec : EqDecision FirewallDefaultPolicy.
Proof. solve_decision. Defined.

Definition default_policy_as_str (p : FirewallDefaultPolicy) : string :=
  match p with DefAllow => "allow" | DefDeny => "deny" | DefReject => "reject" end.

Inductive FirewallDirection := In | Out | Forward.
#[export] Instance FirewallDirection_eq_dec : EqDecision FirewallDirection.
Proof. solve_decision. Defined.

Definition direction_as_str (d : FirewallDirection) : string :=
  match d with In => "in" | Out => "out" | Forward => "forward" end.

Inductive FirewallProtocol :=
  | Any | Tcp | Udp | Icmp | Icmpv6 | Gre | Esp | Ah | Sctp.
#[export] Instance FirewallProtocol_eq_dec : EqDecision FirewallProtocol.
Proof. solve_decision. Defined.

Definition protocol_as_str (p : FirewallProtocol) : string :=
  match p with
  | Any => "any" | Tcp => "tcp" | Udp => "udp" | Icmp => "icmp" | Icmpv6 => "icmpv6"
  | Gre => "gre" | Esp => "esp" | Ah => "ah" | Sctp => "sctp"
  end.

(** [format!("{:?}", protocol)]: the derived [Debug] output. *)
Definition protocol_debug (p : FirewallProtocol) : string :=
  match p with
  | Any => "Any" | Tcp => "Tcp" | Udp => "Udp" | Icmp => "Icmp" | Icmpv6 => "Icmpv6"
  | Gre => "Gre" | Esp => "Esp" | Ah => "Ah" | Sctp => "Sctp"
  end.

Inductive HostHealthStatus := Pending | Healthy | Degraded | Unreachable.
#[export] Instance HostHealthStatus_eq_dec : EqDecision HostHealthStatus.
Proof. solve_decision. Defined.

Inductive PendingActionStatus := Queued | Pushing | Delivered | Executed | Failed | Expired.
#[export] Instance PendingActionStatus_eq_dec : EqDecision PendingActionStatus.
Proof. solve_decision. Defined.

(** The [pending_action_type] enum and its database text. *)
Inductive PendingActionType :=
  | ApplyRules | Rollback | SafeModeOn | SafeModeOff | ReloadConfig | AgentUpgrade.
#[export] Instance PendingActionType_eq_dec : EqDecision PendingActionType.
Proof. solve_decision. Defined.

Definition pending_action_type_as_str (t : PendingActionType) : string :=
  match t with
  | ApplyRules => "apply_rules" | Rollback => "rollback"
  | SafeModeOn => "safe_mode_on" | SafeModeOff => "safe_mode_off"
  | ReloadConfig => "reload_config" | AgentUpgrade => "agent_upgrade"
  end.

(** ** Records *)

Record FirewallRule := mkRule {
  rule_id : Uuid;
  rule_name : string;
  rule_description : string;
  rule_action : FirewallAction;
  rule_direction : FirewallDirection;
  rule_protocol : FirewallProtocol;
  src_cidr : option string;
  src_port_start : option Z;
  src_port_end : option Z;
  dst_cidr : option string;
  dst_port_start : option Z;
  dst_port_end : option Z;
  interface_in : option string;
  interface_out : option string;
  rule_comment : string;
  rule_log : bool;
  rule_priority : Z;
  rule_created_by : option Uuid;
  rule_created_at : DateTime;
  rule_updated_at : DateTime
}.

(** ** The drift hash *)

Record RuleHashParts := mkParts {
  hp_id : Uuid;
  hp_action : string;
  hp_direction : string;
  hp_protocol : string;
  hp_src_cidr : option string;
  hp_dst_cidr : option string;
  hp_dst_port_start : option Z
}.

(** [if let Some(c) = o { hasher.update(c.as_bytes()) }]. *)
Definition opt_bytes (o : option string) : string := default "" o.

(** [i32::to_le_bytes]: the four bytes of the two's complement, low byte first. *)
Definition i32_le_bytes (z : Z) : string :=
  let b k := ascii_of_N (Z.to_N (z / 2^(8 * k) mod 256)) in
  String (b 0%Z) (String (b 1%Z) (String (b 2%Z) (String (b 3%Z) ""))).

Definition port_bytes (o : option Z) : string :=
  match o with Some p => i32_le_bytes p | None => "" end.

(** What one rule feeds to the hasher. *)
Definition hash_parts_bytes (r : RuleHashParts) : string :=
  uuid_bytes (hp_id r) +:+ hp_action r +:+ hp_direction r +:+ hp_protocol r +:+
  opt_bytes (hp_src_cidr r) +:+ opt_bytes (hp_dst_cidr r) +:+ port_bytes (hp_dst_port_start r).

Definition hash_input (rules : list RuleHashParts) : string :=
  str_concat (map hash_parts_bytes rules).

Definition compute_rules_hash `{!Sha256} (rules : list RuleHashParts) : string :=
  sha256_hex (hash_input rules).

(** The parts the agent builds from the rules it last applied
    ([run_pull_cycle]); the manager builds the same ones from its rows. *)
Definition rule_hash_parts (r : FirewallRule) : RuleHashParts :=
  mkParts (rule_id r) (action_as_str (rule_action r)) (direction_as_str (rule_direction r))
    (protocol_as_str (rule_protocol r)) (src_cidr r) (dst_cidr r) (dst_port_start r).

(** ** Facts about the encoding *)

Lemma str_concat_app l1 l2 : str_concat (l1 ++ l2) = str_concat l1 +:+ str_concat l2.
Proof.
  induction l1 as [|s l1 IH]; [done|]. simpl. by rewrite IH, str_app_assoc.
Qed.

Lemma hash_input_app l1 l2 : hash_input (l1 ++ l2) = hash_input l1 +:+ hash_input l2.
Proof. unfold hash_input. by rewrite map_app, str_concat_app. Qed.

Lemma str_mid_inj a b c x y : a +:+ x +:+ c = b +:+ y +:+ c -> a = b -> x = y.
Proof.
  intros H ->. apply String.app_inj in H. by apply str_app_inj_l in H.
Qed.

Lemma ascii_of_byte_inj x y :
  (0 <= x < 256)%Z -> (0 <= y < 256)%Z ->
  ascii_of_N (Z.to_N x) = ascii_of_N (Z.to_N y) -> x = y.
Proof.
  intros Hx Hy H. apply (f_equal N_of_ascii) in H.
  rewrite !N_ascii_embedding in H by lia. lia.
Qed.

Lemma i32_le_bytes_inj p q :
  i32_range p -> i32_range q -> i32_le_bytes p = i32_le_bytes q -> p = q.
Proof.
  unfold i32_range. intros Hp Hq H. injection H as H0 H1 H2 H3.
  apply ascii_of_byte_inj in H0, H1, H2, H3; try (apply Z.mod_pos_bound; lia).
  change (8 * 0)%Z with 0%Z in H0. change (8 * 1)%Z with 8%Z in H1.
  change (8 * 2)%Z with 16%Z in H2. change (8 * 3)%Z with 24%Z in H3.
  rewrite Z.pow_0_r, !Z.div_1_r in H0.
  Z.div_mod_to_equations. lia.
Qed.

Lemma port_bytes_inj o o' :
  (forall p, o = Some p -> i32_range p) -> (forall p, o' = Some p -> i32_range p) ->
  port_bytes o = port_bytes o' -> o = o'.
Proof.
  intros Ho Ho' H. destruct o as [p|], o' as [q|]; simpl in H; try done.
  f_equal. apply i32_le_bytes_inj; auto.
Qed.

(** An edit of exactly one hashed field of a rule. *)
Inductive field_edit : RuleHashParts -> RuleHashParts -> Prop :=
  | edit_id i i' a d p s t q : i <> i' ->
      field_edit (mkParts i a d p s t q) (mkParts i' a d p s t q)
  | edit_action i a a' d p s t q : a <> a' ->
      field_edit (mkParts i a d p s t q) (mkParts i a' d p s t q)
  | edit_direction i a d d' p s t q : d <> d' ->
      field_edit (mkParts i a d p s t q) (mkParts i a d' p s t q)
  | edit_protocol i a d p p' s t q : p <> p' ->
      field_edit (mkParts i a d p s t q) (mkParts i a d p' s t q)
  | edit_src i a d p s s' t q : opt_bytes s <> opt_bytes s' ->
      field_edit (mkParts i a d p s t q) (mkParts i a d p s' t q)
  | edit_dst i a d p s t t' q : opt_bytes t <> opt_bytes t' ->
      field_edit (mkParts i a d p s t q) (mkParts i a d p s t' q)
  | edit_port i a d p s t q q' : q <> q' ->
      (forall n, q = Some n -> i32_range n) -> (forall n, q' = Some n -> i32_range n) ->
      field_edit (mkParts i a d p s t q) (mkParts i a d p s t q').

Lemma field_edit_bytes r r' : field_edit r r' -> hash_parts_bytes r <> hash_parts_bytes r'.
Proof.
  intros He Heq. destruct He as [i i' a d p s t q Hne|i a a' d p s t q Hne|i a d d' p s t q Hne
    |i a d p p' s t q Hne|i a d p s s' t q Hne|i a d p s t t' q Hne|i a d p s t q q' Hne Hq Hq'];
    unfold hash_parts_bytes in Heq; simpl in Heq.
  - apply str_app_inj_l in Heq. by apply uuid_bytes_inj in Heq.
  - apply String.app_inj, str_app_inj_l in Heq. done.
  - do 2 apply String.app_inj in Heq. by apply str_app_inj_l in Heq.
  - do 3 apply String.app_inj in Heq. by apply str_app_inj_l in Heq.
  - do 4 apply String.app_inj in Heq. by apply str_app_inj_l in Heq.
  - do 5 apply String.app_inj in Heq. by apply str_app_inj_l in Heq.
  - do 6 apply String.app_inj in Heq. by apply port_bytes_inj in Heq.
Qed.

Lemma hash_input_mid l1 r r' l2 :
  hash_input (l1 ++ r :: l2) = hash_input (l1 ++ r' :: l2) ->
  hash_parts_bytes r = hash_parts_bytes r'.
Proof.
  rewrite !hash_input_app. intros H. apply String.app_inj in H.
  unfold hash_input in H. simpl in H. by apply str_app_inj_l in H.
Qed.

(** Two rulesets whose first difference is a different rule id have different
    hash inputs: the sixteen id bytes sit at the same offset. *)
Lemma hash_input_ids_differ l1 r r' l2 l2' :
  hp_id r <> hp_id r' -> hash_input (l1 ++ r :: l2) <> hash_input (l1 ++ r' :: l2').
Proof.
  intros Hne. rewrite !hash_input_app. intros H. apply String.app_inj in H.
  unfold hash_input in H. simpl in H. unfold hash_parts_bytes in H.
  rewrite <- !str_app_assoc in H.
  apply str_app_inj_length in H as [H _]; [by apply uuid_bytes_inj in H|].
  by rewrite !uuid_bytes_length.
Qed.

#[export] Instance RuleHashParts_eq_dec : EqDecision RuleHashParts.
Proof. solve_decision. Defined.

Lemma hash_input_reorder l l' :
  NoDup (hp_id <$> l) -> l ≡ₚ l' -> l <> l' -> hash_input l <> hash_input l'.
Proof.
  intros Hnd Hp Hne. destruct (first_difference l l' Hp Hne)
    as (pre & r & r' & t & t' & Hl & Hl' & Hr).
  assert (r ∈ l) as Hrl by (rewrite Hl; apply elem_of_app; right; left).
  assert (r' ∈ l) as Hrl' by (rewrite Hp, Hl'; apply elem_of_app; right; left).
  rewrite Hl, Hl'. apply hash_input_ids_differ. intros Hid.
  apply Hr. by eapply (NoDup_key_inj hp_id l).
Qed.

(** ** Properties of the drift hash *)

Section drift_hash.
Context {SHA : Sha256}.

Lemma hash_eq_cases l l' :
  compute_rules_hash l = compute_rules_hash l' ->
  hash_input l <> hash_input l' -> sha256_collision.
Proof. intros H Hne. exists (hash_input l), (hash_input l'). by split. Qed.

(** C38. Editing one hashed field of one rule of a policy (its id, action,
    direction, protocol, source CIDR text, destination CIDR text or first
    destination port) changes [compute_rules_hash], unless the two texts are a
    SHA-256 collision: the manager therefore notices the edit on the next
    check-in. *)
Theorem rules_hash_detects_edit (l1 l2 : list RuleHashParts) (r r' : RuleHashParts) :
  field_edit r r' ->
  compute_rules_hash (l1 ++ r :: l2) = compute_rules_hash (l1 ++ r' :: l2) ->
  sha256_collision.
Proof.
  intros He H. apply (hash_eq_cases _ _ H). intros Heq.
  apply hash_input_mid in Heq. by apply (field_edit_bytes r r').
Qed.

(** Rule order is part of [compute_rules_hash]: two different
    arrangements of the same rules (with distinct ids) have the same hash only
    if they exhibit a SHA-256 collision, so reordering groups or rules reaches
    the agents. *)
Theorem rules_hash_detects_reorder (l l' : list RuleHashParts) :
  NoDup (hp_id <$> l) -> l ≡ₚ l' -> l <> l' ->
  compute_rules_hash l = compute_rules_hash l' -> sha256_collision.
Proof. intros Hnd Hp Hne H. apply (hash_eq_cases _ _ H). by apply hash_input_reorder. Qed.

(** The fields are hashed without separators, so a CIDR moved from the
    source to the destination of a rule gives the same hash, whatever the hash
    function: [compute_rules_hash] does not tell "from 10.0.0.0/8" and
    "to 10.0.0.0/8" apart. *)
Theorem rules_hash_src_dst_ambiguous (l1 l2 : list RuleHashParts) i a d p (c : string) q :
  compute_rules_hash (l1 ++ mkParts i a d p (Some c) None q :: l2) =
  compute_rules_hash (l1 ++ mkParts i a d p None (Some c) q :: l2).
Proof.
  unfold compute_rules_hash. f_equal. rewrite !hash_input_app. f_equal.
Qed.
End drift_hash.

(** ** Witnesses *)

(** A checksum with the shape of a digest: 64 hex digits of a polynomial
    accumulation. It stands for SHA-256 in the witnesses only. *)
Definition hex_digit (n : N) : ascii :=
  ascii_of_N (if (n <? 10)%N then 48 + n else 87 + n)%N.

Fixpoint hex_digits (k : nat) (n : N) : string :=
  match k with
  | O => ""
  | S k' => String (hex_digit (N.modulo n 16)) (hex_digits k' (N.div n 16))
  end.

Fixpoint checksum (acc : N) (s : string) : N :=
  match s with
  | "" => acc
  | String c s' => checksum (N.modulo (acc * 1099511628211 + N_of_ascii c + 1) (2 ^ 256)) s'
  end.

Definition toy_sha256 : Sha256 := {| sha256_hex s := hex_digits 64 (checksum 14695981039346656037 s) |}.

Lemma hex_digits_length k n : String.length (hex_digits k n) = k.
Proof. revert n. induction k as [|k IH]; intros n; simpl; [done|]. by rewrite IH. Qed.

Lemma hex_digit_char n : (n < 16)%N ->
  negb (Ascii.is_space (hex_digit n)) && is_line_char (hex_digit n) = true.
Proof.
  intros Hn.
  assert (forallb (fun k => let c := hex_digit (N.of_nat k) in
    negb (Ascii.is_space c) && is_line_char c) (seq 0 16) = true) as Hall by reflexivity.
  rewrite forallb_forall in Hall. specialize (Hall (N.to_nat n)).
  rewrite N2Nat.id in Hall. apply Hall, in_seq. lia.
Qed.

Lemma hex_digits_chars k n :
  str_forallb (fun c => negb (Ascii.is_space c) && is_line_char c) (hex_digits k n) = true.
Proof.
  revert n. induction k as [|k IH]; intros n; cbn [hex_digits str_forallb]; [done|].
  rewrite hex_digit_char, IH; [done|]. apply N.mod_lt. lia.
Qed.

(** The hyphenated form, for the witnesses. *)
Definition byte_hex (c : ascii) : string :=
  String (hex_digit (N_of_ascii c / 16)) (String (hex_digit (N_of_ascii c mod 16)) "").

Definition toy_uuid_to_string (u : Uuid) : string :=
  let 'MkUuid a b c d e f g h i j k l m n o p := u in
  let x := byte_hex in
  x a +:+ x b +:+ x c +:+ x d +:+ "-" +:+ x e +:+ x f +:+ "-" +:+ x g +:+ x h +:+ "-" +:+
  x i +:+ x j +:+ "-" +:+ x k +:+ x l +:+ x m +:+ x n +:+ x o +:+ x p.

Definition unhex (c : ascii) : N :=
  let n := N_of_ascii c in if (n <? 58)%N then n - 48 else n - 87.

Fixpoint unhex_bytes (s : string) : list ascii :=
  match s with
  | String x (String y s' as t) =>
      if bool_decide (x = "-"%char) then unhex_bytes t
      else ascii_of_N (unhex x * 16 + unhex y) :: unhex_bytes s'
  | _ => []
  end.

Definition toy_uuid_parse (s : string) : option Uuid :=
  match unhex_bytes s with
  | [a; b; c; d; e; f; g; h; i; j; k; l; m; n; o; p] => Some (MkUuid a b c d e f g h i j k l m n o p)
  | _ => None
  end.

Definition toy_uuid_text : UuidText :=
  {| uuid_to_string := toy_uuid_to_string; uuid_parse := toy_uuid_parse |}.

Lemma unhex_byte c s : unhex_bytes (byte_hex c +:+ s) = c :: unhex_bytes s.
Proof. destruct c as [[] [] [] [] [] [] [] []]; reflexivity. Qed.

Lemma unhex_hyphen c s : unhex_bytes ("-" +:+ byte_hex c +:+ s) = c :: unhex_bytes s.
Proof. destruct c as [[] [] [] [] [] [] [] []]; reflexivity. Qed.

Lemma byte_hex_hyphen c s :
  str_existsb (fun c => bool_decide (c = "-"%char)) (byte_hex c +:+ s) =
  str_existsb (fun c => bool_decide (c = "-"%char)) s.
Proof. destruct c as [[] [] [] [] [] [] [] []]; reflexivity. Qed.

Lemma byte_hex_chars c s :
  str_forallb (fun c => negb (Ascii.is_space c) && is_line_char c) (byte_hex c +:+ s) =
  str_forallb (fun c => negb (Ascii.is_space c) && is_line_char c) s.
Proof. destruct c as [[] [] [] [] [] [] [] []]; reflexivity. Qed.

Lemma hyphen_chars s :
  str_forallb (fun c => negb (Ascii.is_space c) && is_line_char c) ("-" +:+ s) =
  str_forallb (fun c => negb (Ascii.is_space c) && is_line_char c) s.
Proof. reflexivity. Qed.

Lemma toy_uuid_text_laws : @UuidTextLaws toy_uuid_text.
Proof.
  split; intros [a b c d e f g h i j k l m n o p];
    cbn [uuid_to_string uuid_parse toy_uuid_text toy_uuid_to_string].
  - unfold toy_uuid_parse. rewrite !unhex_byte, unhex_hyphen, !unhex_byte, unhex_hyphen,
      !unhex_byte, unhex_hyphen, !unhex_byte, unhex_hyphen, !unhex_byte.
    rewrite <- (str_app_nil_r (byte_hex p)), unhex_byte. reflexivity.
  - rewrite <- (str_app_nil_r (byte_hex p)).
    repeat (rewrite byte_hex_chars || rewrite hyphen_chars). done.
  - repeat rewrite byte_hex_hyphen. done.
Qed.

Lemma toy_sha256_laws : @Sha256Laws toy_sha256.
Proof. split; intros s; [apply hex_digits_length|apply hex_digits_chars]. Qed.

Definition ex_parts (n : N) (a : string) : RuleHashParts :=
  mkParts (uuid_of n) a "in" "tcp" (Some "10.0.0.0/8") None (Some 22%Z).

(** A digest that forgets everything: it makes the premise of C1 and C2 (equal
    hashes) hold, and the conclusion then exhibits its collision. *)
Definition constant_sha256 : Sha256 := {| sha256_hex _ := hex_digits 64 0 |}.

Lemma rules_hash_detects_edit_witness :
  field_edit (ex_parts 1 "allow") (ex_parts 1 "deny") /\ @sha256_collision constant_sha256.
Proof.
  split; [by constructor|].
  apply (@rules_hash_detects_edit constant_sha256 [] [] (ex_parts 1 "allow") (ex_parts 1 "deny"));
    [by constructor|reflexivity].
Defined.

Lemma rules_hash_detects_reorder_witness :
  [ex_parts 1 "allow"; ex_parts 2 "deny"] ≡ₚ [ex_parts 2 "deny"; ex_parts 1 "allow"] /\
  @sha256_collision constant_sha256.
Proof.
  split; [constructor|].
  apply (@rules_hash_detects_reorder constant_sha256
    [ex_parts 1 "allow"; ex_parts 2 "deny"] [ex_parts 2 "deny"; ex_parts 1 "allow"]).
  - by apply (bool_decide_unpack (NoDup _)); vm_compute.
  - constructor.
  - intros H. by simplify_eq.
  - reflexivity.
Defined.
