(* ===== verification/Processes.v ===== *)
(** * Processes: what the manager's processes do besides handling requests

    [wait_for_migrations] and the heartbeat of [crates/fw-worker/src/main.rs], and the
    request ids of [crates/fw-core/src/request_id.rs]. *)

From S2P Require Import Prelude Text Models.

(** ** The worker's start *)

Definition REQUIRED_MIGRATION_COUNT : Z := 37.
Definition SCHEMA_CHECK_TIMEOUT_SECS : Z := 120.
Definition SECONDS : Z := 1000000000.

(** The process goes on at a poll, or exits with status 1 at one. *)
Inductive SchemaWait := SchemaOk (poll : nat) | SchemaTimeout (poll : nat).

Section wait.
(** The count of the [n]-th poll ([None]: the query failed) and the time after it. *)
Variable count : nat -> option Z.
Variable clock : nat -> Z.
(** The time before the loop. *)
Variable start : Z.

Definition deadline : Z := start + SCHEMA_CHECK_TIMEOUT_SECS * SECONDS.

Fixpoint wait_loop (fuel n : nat) : option SchemaWait :=
  match fuel with
  | O => None
  | S f =>
      if (REQUIRED_MIGRATION_COUNT <=? default 0%Z (count n))%Z then Some (SchemaOk n)
      else if (deadline <? clock n)%Z then Some (SchemaTimeout n)
      else wait_loop f (S n)
  end.

(** 62 polls are enough: see [wait_for_migrations_ends]. *)
Definition wait_for_migrations : option SchemaWait := wait_loop 62 0.

Definition ready (n : nat) : Prop := (REQUIRED_MIGRATION_COUNT <= default 0 (count n))%Z.

Lemma wait_loop_spec fuel n r : wait_loop fuel n = Some r ->
  match r with
  | SchemaOk k => (n <= k)%nat /\ ready k /\ forall i, (n <= i < k)%nat -> ~ ready i /\ (clock i <= deadline)%Z
  | SchemaTimeout k => (n <= k)%nat /\ (deadline < clock k)%Z /\ (forall i, (n <= i < k)%nat -> (clock i <= deadline)%Z) /\
      forall i, (n <= i <= k)%nat -> ~ ready i
  end.
Proof.
  revert n. induction fuel as [|f IH]; intros n; cbn [wait_loop]; [done|].
  destruct (Z.leb_spec REQUIRED_MIGRATION_COUNT (default 0%Z (count n))) as [Hr|Hr].
  { intros [= <-]. split_and!; [lia|exact Hr|]. intros i Hi. lia. }
  destruct (Z.ltb_spec deadline (clock n)) as [Hd|Hd].
  { intros [= <-]. split_and!; [lia|exact Hd|intros i Hi; lia|]. intros i Hi. assert (i = n) as -> by lia. unfold ready. lia. }
  intros H. specialize (IH (S n) H). destruct r as [k|k].
  - destruct IH as (Hk & Hready & Hall). split_and!; [lia|done|]. intros i Hi. destruct (decide (i = n)) as [->|]; [unfold ready; split; lia|apply Hall; lia].
  - destruct IH as (Hk & Hlate & Hbefore & Hall). split_and!; [lia|done| |].
    + intros i Hi. destruct (decide (i = n)) as [->|]; [done|apply Hbefore; lia].
    + intros i Hi. destruct (decide (i = n)) as [->|]; [unfold ready; lia|apply Hall; lia].
Qed.

(** The polls are two seconds apart at least. *)
Hypothesis clock_start : (start <= clock 0)%Z.
Hypothesis clock_sleeps : forall n, (clock n + 2 * SECONDS <= clock (S n))%Z.

Lemma clock_grows n : (start + 2 * SECONDS * Z.of_nat n <= clock n)%Z.
Proof. induction n as [|n IH]; [lia|]. specialize (clock_sleeps n). unfold SECONDS in *. lia. Qed.

Lemma wait_loop_enough fuel n : (61 < fuel + n)%nat -> (0 < fuel)%nat -> exists r, wait_loop fuel n = Some r.
Proof.
  revert n. induction fuel as [|f IH]; intros n Hn Hf; [lia|]. cbn [wait_loop]. destruct (_ <=? _)%Z; [eauto|].
  destruct (Z.ltb_spec deadline (clock n)) as [|Hd]; [eauto|]. pose proof (clock_grows n) as Hg. unfold deadline, SCHEMA_CHECK_TIMEOUT_SECS, SECONDS in *.
  apply IH; lia.
Qed.

(** The worker's wait for the schema ends, within 62 polls: it goes on at the first
    poll that sees all 37 migrations, unless an earlier poll ended more than two
    minutes after the start; then the process exits at that poll, having seen the
    full schema at none. A failed query counts as no migration. *)
Theorem wait_for_migrations_ends :
  match wait_for_migrations with
  | Some (SchemaOk k) => ready k /\ forall i, (i < k)%nat -> ~ ready i /\ (clock i <= deadline)%Z
  | Some (SchemaTimeout k) => (k <= 61)%nat /\ (deadline < clock k)%Z /\ forall i, (i <= k)%nat -> ~ ready i
  | None => False
  end.
Proof.
  destruct (wait_loop_enough 62 0) as [r Hr]; [lia..|]. unfold wait_for_migrations. rewrite Hr. pose proof (wait_loop_spec _ _ _ Hr) as H. destruct r as [k|k].
  - destruct H as (_ & H1 & H2). split; [done|]. intros i Hi. apply H2. lia.
  - destruct H as (_ & H1 & H3 & H2). split_and!; [|done|intros i Hi; apply H2; lia].
    destruct (Nat.le_gt_cases k 61) as [|Hk]; [done|]. specialize (H3 61%nat ltac:(lia)). pose proof (clock_grows 61). unfold deadline, SCHEMA_CHECK_TIMEOUT_SECS, SECONDS in *. lia.
Qed.
End wait.

(** The heartbeat's row. *)
Record Heartbeat := mkHeartbeat { hb_last_seen : DateTime; hb_worker_version : string }.
Definition beat (now : DateTime) (version : string) (row : option Heartbeat) : option Heartbeat := Some (mkHeartbeat now version).

(** ** Request ids *)

Definition visible_ascii (c : ascii) : bool := ((32 <=? N_of_ascii c)%N && (N_of_ascii c <=? 126)%N) || (N_of_ascii c =? 9)%N.
Definition header_byte (c : ascii) : bool := ((32 <=? N_of_ascii c)%N && negb (N_of_ascii c =? 127)%N) || (N_of_ascii c =? 9)%N.

(** [HeaderValue::to_str]. *)
Definition header_to_str (bytes : string) : option string := if str_forallb visible_ascii bytes then Some bytes else None.
(** [s.parse::<HeaderValue>()]. *)
Definition header_parse (s : string) : option string := if str_forallb header_byte s then Some s else None.

(** [Ulid::new().to_string()]: 26 digits of Crockford's alphabet. *)
Class UlidText := { ulid_text : N -> string }.
Class UlidLaws `{!UlidText} := { ulid_visible : forall n, str_forallb visible_ascii (ulid_text n) = true }.

(** The middleware around a handler that gets the id: the reply with the id in its
    header; [None] is a panic of [unwrap]. *)
Definition request_id_middleware `{!UlidText} {R} (draw : N) (header : option string) (next : string -> R) : option (string * R) :=
  let request_id := default (ulid_text draw) (h ← header; header_to_str h) in
  let response := next request_id in
  value ← header_parse request_id; Some (value, response).

(** The middleware never panics: a client's own id is echoed if it is plain text,
    otherwise a fresh one is used, and either can be written into the reply. *)
Theorem request_id_total `{!UlidText, !UlidLaws} {R} draw header (next : string -> R) :
  exists id, request_id_middleware draw header next = Some (id, next id) /\
    (forall h, header = Some h -> str_forallb visible_ascii h = true -> id = h).
Proof.
  assert (forall s, str_forallb visible_ascii s = true -> header_parse s = Some s) as Hp.
  { intros s Hs. unfold header_parse. assert (str_forallb header_byte s = true) as ->; [|done]. induction s as [|c s IH]; [done|]. cbn [str_forallb] in *.
    apply andb_true_iff in Hs as [Hc Hs]. rewrite IH by done. rewrite andb_true_r. unfold visible_ascii, header_byte in *.
    rewrite orb_true_iff, andb_true_iff, N.leb_le, N.leb_le, N.eqb_eq in Hc.
    rewrite orb_true_iff, andb_true_iff, N.leb_le, negb_true_iff, N.eqb_neq, N.eqb_eq. lia. }
  unfold request_id_middleware, header_to_str. destruct header as [h|]; cbn; [destruct (str_forallb visible_ascii h) eqn:Hh|]; cbn.
  - rewrite Hp by done. cbn. exists h. split; [done|]. by intros ? [= <-].
  - rewrite Hp by apply ulid_visible. cbn. eexists. split; [done|]. intros ? [= <-]. congruence.
  - rewrite Hp by apply ulid_visible. cbn. by eexists.
Qed.

(** ** Witness *)

(** A schema complete at the fourth poll, which comes after seven seconds. *)
Lemma wait_for_migrations_ends_witness :
  let count n := if (n <? 3)%nat then Some 12%Z else Some 37%Z in let clock n := (Z.of_nat n * 2333333333)%Z in
  wait_for_migrations count clock 0 = Some (SchemaOk 3) /\ ready count 3 /\ forall i, (i < 3)%nat -> ~ ready count i /\ (clock i <= deadline 0)%Z.
Proof.
  intros count clock. assert (wait_for_migrations count clock 0 = Some (SchemaOk 3)) as Hw by (vm_compute; reflexivity). split; [exact Hw|].
  pose proof (wait_for_migrations_ends count clock 0) as H. rewrite Hw in H. apply H; unfold clock, SECONDS; [cbn; lia|]. intros n. lia.
Defined.
