(* ===== verification/Net.v ===== *)
(** * Net: IP addresses and networks

    [std::net::IpAddr] (parsing, printing, [is_unspecified], [is_ipv4]) as the
    standard library defines it, and the interface of the [ipnet] crate the
    program uses for CIDR blocks, with the laws its documentation states. *)

From S2P Require Import Prelude Text.

Local Open Scope Z_scope.

(** ** Addresses *)

Inductive IpAddr :=
  | V4 (bits : Z)
  | V6 (bits : Z).
#[export] Instance IpAddr_eq_dec : EqDecision IpAddr.
Proof. solve_decision. Defined.

Definition is_ipv4 (ip : IpAddr) : bool := match ip with V4 _ => true | V6 _ => false end.
Definition is_ipv6 (ip : IpAddr) : bool := negb (is_ipv4 ip).
Definition ip_bits (ip : IpAddr) : Z := match ip with V4 b => b | V6 b => b end.
Definition ip_width (ip : IpAddr) : Z := match ip with V4 _ => 32 | V6 _ => 128 end.
Definition is_unspecified (ip : IpAddr) : bool := bool_decide (ip_bits ip = 0).
Definition ip_wf (ip : IpAddr) : Prop := 0 <= ip_bits ip < 2 ^ ip_width ip.

(** ** [IpAddr::from_str] *)

Definition to_digit (radix : Z) (c : ascii) : option Z :=
  let n := Z.of_nat (nat_of_ascii c) in
  let d := if (48 <=? n) && (n <=? 57) then n - 48
           else if (97 <=? n) && (n <=? 122) then n - 87
           else if (65 <=? n) && (n <=? 90) then n - 55
           else 36 in
  if d <? radix then Some d else None.

(** The longest prefix of digits, and what follows it. *)
Fixpoint read_digits (radix : Z) (s : string) : list Z * string :=
  match s with
  | String c s' =>
      match to_digit radix c with
      | Some d => let '(ds, rest) := read_digits radix s' in (d :: ds, rest)
      | None => ([], s)
      end
  | "" => ([], "")
  end.

Definition digits_value (radix : Z) (ds : list Z) : Z :=
  foldl (fun acc d => acc * radix + d) 0 ds.

(** [Parser::read_number]: at most [max_digits] digits, no overflow of the
    target type, and no leading zero unless allowed. *)
Definition read_number (radix : Z) (max_digits : nat) (max_value : Z) (allow_zero_prefix : bool)
    (s : string) : option (Z * string) :=
  let '(ds, rest) := read_digits radix s in
  let v := digits_value radix ds in
  if (length ds =? 0)%nat || (max_digits <? length ds)%nat || (max_value <? v) ||
     (negb allow_zero_prefix && (1 <? length ds)%nat && bool_decide (head ds = Some 0))
  then None else Some (v, rest).

Definition read_given_char (c : ascii) (s : string) : option string :=
  match s with String d s' => if bool_decide (c = d) then Some s' else None | "" => None end.

Definition read_octet (s : string) : option (Z * string) := read_number 10 3 255 false s.

(** [Parser::read_ipv4_addr]: four octets separated by dots. *)
Definition read_ipv4 (s : string) : option (Z * string) :=
  '(a, s) ← read_octet s; s ← read_given_char "." s;
  '(b, s) ← read_octet s; s ← read_given_char "." s;
  '(c, s) ← read_octet s; s ← read_given_char "." s;
  '(d, s) ← read_octet s;
  Some (a * 2^24 + b * 2^16 + c * 2^8 + d, s).

(** [read_separator(':', index, inner)]. *)
Definition read_sep {A} (index : nat) (inner : string -> option (A * string)) (s : string)
  : option (A * string) :=
  match index with
  | O => inner s
  | S _ => s' ← read_given_char ":" s; inner s'
  end.

(** [read_groups]: up to [limit] groups (in reading order), the number read, a
    flag for a trailing embedded IPv4 address, and the rest of the input. *)
Fixpoint read_groups (left index : nat) (s : string) : list Z * bool * string :=
  match left with
  | O => ([], false, s)
  | S left' =>
      let v4 := if (1 <=? left')%nat then read_sep index read_ipv4 s else None in
      match v4 with
      | Some (a, rest) => ([Z.shiftr a 16; Z.land a 65535], true, rest)
      | None =>
          match read_sep index (read_number 16 4 65535 true) s with
          | Some (g, rest) =>
              let '(gs, v4, rest') := read_groups left' (S index) rest in (g :: gs, v4, rest')
          | None => ([], false, s)
          end
      end
  end.

Definition groups_value (gs : list Z) : Z := foldl (fun acc g => acc * 65536 + g) 0 gs.

Definition read_ipv6 (s : string) : option (Z * string) :=
  let '(head, head_v4, s1) := read_groups 8 0 s in
  if (length head =? 8)%nat then Some (groups_value head, s1)
  else if head_v4 then None
  else
    s2 ← read_given_char ":" s1; s3 ← read_given_char ":" s2;
    let '(tail, _, s4) := read_groups (8 - (length head + 1)) 0 s3 in
    let zeros := replicate (8 - length head - length tail) 0 in
    Some (groups_value (head ++ zeros ++ tail), s4).

Definition ip_parse (s : string) : option IpAddr :=
  match read_ipv4 s with
  | Some (a, "") => Some (V4 a)
  | _ => match read_ipv6 s with
         | Some (a, "") => Some (V6 a)
         | _ => None
         end
  end.

(** ** [IpAddr]'s [Display] *)

Definition octet (a : Z) (k : Z) : Z := Z.land (Z.shiftr a (8 * k)) 255.

Definition ipv4_to_string (a : Z) : string :=
  pretty (octet a 3) +:+ "." +:+ pretty (octet a 2) +:+ "." +:+
  pretty (octet a 1) +:+ "." +:+ pretty (octet a 0).

Definition segments (a : Z) : list Z :=
  map (fun k => Z.land (Z.shiftr a (16 * k)) 65535) [7; 6; 5; 4; 3; 2; 1; 0].

Definition hex_char (n : Z) : ascii :=
  ascii_of_nat (Z.to_nat (if n <? 10 then 48 + n else 87 + n)).

(** A 16-bit group in hex without leading zeros ([{:x}]). *)
Definition hex_group (g : Z) : string :=
  let d k := Z.land (Z.shiftr g (4 * k)) 15 in
  if 4096 <=? g then String (hex_char (d 3)) (String (hex_char (d 2)) (String (hex_char (d 1)) (String (hex_char (d 0)) "")))
  else if 256 <=? g then String (hex_char (d 2)) (String (hex_char (d 1)) (String (hex_char (d 0)) ""))
  else if 16 <=? g then String (hex_char (d 1)) (String (hex_char (d 0)) "")
  else String (hex_char (d 0)) "".

(** The first longest run of zero groups: (start, length). *)
Fixpoint zero_runs (gs : list Z) (i : nat) (cur longest : nat * nat) : nat * nat :=
  match gs with
  | [] => longest
  | g :: gs' =>
      if g =? 0 then
        let cur' := if (cur.2 =? 0)%nat then (i, 1%nat) else (cur.1, S cur.2) in
        zero_runs gs' (S i) cur' (if (longest.2 <? cur'.2)%nat then cur' else longest)
      else zero_runs gs' (S i) (0%nat, 0%nat) longest
  end.

Definition ipv6_to_string (a : Z) : string :=
  if Z.shiftr a 32 =? 65535 then "::ffff:" +:+ ipv4_to_string (Z.land a (2^32 - 1))
  else
    let gs := segments a in
    let '(start, len) := zero_runs gs 0 (0%nat, 0%nat) (0%nat, 0%nat) in
    if (1 <? len)%nat then
      join ":" (map hex_group (take start gs)) +:+ "::" +:+
      join ":" (map hex_group (drop (start + len) gs))
    else join ":" (map hex_group gs).

Definition ip_to_string (ip : IpAddr) : string :=
  match ip with V4 a => ipv4_to_string a | V6 a => ipv6_to_string a end.

Example ip_parse_ex4 : ip_parse "10.1.2.3" = Some (V4 167838211).
Proof. reflexivity. Qed.
Example ip_parse_ex6 :
  ip_parse "fe80::1:0.0.0.5" = Some (V6 (0xfe80 * 2^112 + 2^32 + 5)).
Proof. reflexivity. Qed.
Example ip_parse_bad :
  map ip_parse ["[::1]"; "01.2.3.4"; "1.2.3"; ""; "1.2.3.256"; "1:2:3:4:5:6:7::8:9"] = replicate 6 None.
Proof. reflexivity. Qed.
Example ip_show_ex6 :
  map ip_to_string [V6 1; V6 0; V6 (0x20010db8 * 2^96 + 8 * 2^48 + 0x417a); V6 (0xffff * 2^32 + 1)]
  = ["::1"; "::"; "2001:db8::8:0:0:417a"; "::ffff:0.0.0.1"].
Proof. reflexivity. Qed.

(** A bracketed host (the form a URL gives an IPv6 address) is not an address. *)
Lemma ip_parse_bracket s : ip_parse ("[" +:+ s) = None.
Proof. reflexivity. Qed.

(** ** IPv4 text round trip *)

Definition is_dec (c : ascii) : bool := match to_digit 10 c with Some _ => true | None => false end.

Lemma read_digits_app d rest :
  str_forallb is_dec d = true ->
  match rest with String c _ => to_digit 10 c = None | "" => True end ->
  read_digits 10 (d +:+ rest) = ((read_digits 10 d).1, rest).
Proof.
  intros Hd Hrest. induction d as [|c d IH].
  - change ("" +:+ rest) with rest. destruct rest as [|c rest]; simpl; [done|]. by rewrite Hrest.
  - rewrite str_app_cons. simpl in *. apply andb_true_iff in Hd as [Hc Hd].
    unfold is_dec in Hc. destruct (to_digit 10 c); [|done]. rewrite IH by done.
    by destruct (read_digits 10 d).
Qed.

(** Every octet prints as decimal digits that read back as the octet. *)
Definition octet_ok (n : nat) : bool :=
  let s := pretty (Z.of_nat n) in
  str_forallb is_dec s && bool_decide (read_octet s = Some (Z.of_nat n, "")).

Lemma octets_ok : forallb octet_ok (seq 0 256) = true.
Proof. vm_compute. reflexivity. Qed.

Lemma read_octet_pretty o rest :
  0 <= o < 256 ->
  match rest with String c _ => to_digit 10 c = None | "" => True end ->
  read_octet (pretty o +:+ rest) = Some (o, rest).
Proof.
  intros Ho Hrest. pose proof octets_ok as Hall. rewrite forallb_forall in Hall.
  specialize (Hall (Z.to_nat o)). unfold octet_ok in Hall. rewrite Z2Nat.id in Hall by lia.
  assert (List.In (Z.to_nat o) (seq 0 256)) as Hin by (apply in_seq; lia).
  apply Hall, andb_true_iff in Hin as [Hdec Hread]. apply bool_decide_eq_true_1 in Hread.
  revert Hread. unfold read_octet, read_number. rewrite read_digits_app by done.
  destruct (read_digits 10 (pretty o)) as [ds r]. simpl.
  destruct (_ || _); [done|]. intros H. by injection H as ->.
Qed.

Lemma octet_range a k : 0 <= octet a k < 256.
Proof.
  unfold octet. change 255 with (Z.ones 8). rewrite Z.land_ones by lia.
  apply Z.mod_pos_bound. lia.
Qed.

Lemma octets_value a : 0 <= a < 2^32 ->
  octet a 3 * 2^24 + octet a 2 * 2^16 + octet a 1 * 2^8 + octet a 0 = a.
Proof.
  intros Ha. unfold octet. change 255 with (Z.ones 8). rewrite !Z.land_ones, !Z.shiftr_div_pow2 by lia.
  change (2 ^ (8 * 3)) with (2^24). change (2 ^ (8 * 2)) with (2^16).
  change (2 ^ (8 * 1)) with (2^8). change (2 ^ (8 * 0)) with 1.
  Z.div_mod_to_equations. lia.
Qed.

Lemma read_dot rest : read_given_char "." ("." +:+ rest) = Some rest.
Proof. reflexivity. Qed.

Lemma read_ipv4_to_string a : 0 <= a < 2^32 -> read_ipv4 (ipv4_to_string a) = Some (a, "").
Proof.
  intros Ha. unfold read_ipv4, ipv4_to_string, mbind, option_bind.
  do 3 (rewrite read_octet_pretty by (apply octet_range || done); rewrite read_dot).
  rewrite <- (str_app_nil_r (pretty (octet a 0))), read_octet_pretty by (apply octet_range || done).
  by rewrite octets_value.
Qed.

Lemma ip_parse_ipv4_to_string a : 0 <= a < 2^32 -> ip_parse (ip_to_string (V4 a)) = Some (V4 a).
Proof.
  intros Ha. unfold ip_parse, ip_to_string. by rewrite read_ipv4_to_string.
Qed.

(** ** Networks: the interface of the [ipnet] crate *)

(** ** Octets *)

(** The [n] low bytes of a number, most significant first, and back. *)
Fixpoint be_bytes (n : nat) (z : Z) : list ascii :=
  match n with
  | O => []
  | S n' => ascii_of_N (Z.to_N ((z / 256 ^ Z.of_nat n') mod 256)) :: be_bytes n' z
  end.
Definition be_value (bytes : list ascii) : Z := foldl (fun acc c => acc * 256 + Z.of_N (N_of_ascii c)) 0 bytes.

(** [IpAddr]'s octets as a byte string, and [IpAddr::from] of 4 or 16 octets. *)
Definition ip_octets (ip : IpAddr) : string :=
  String.string_of_list_ascii (be_bytes (match ip with V4 _ => 4 | V6 _ => 16 end)%nat (ip_bits ip)).
Definition ip_of_octets (bytes : string) : option IpAddr :=
  match String.length bytes with
  | 4%nat => Some (V4 (be_value (String.list_ascii_of_string bytes)))
  | 16%nat => Some (V6 (be_value (String.list_ascii_of_string bytes)))
  | _ => None
  end.

Lemma length_be_bytes n z : length (be_bytes n z) = n.
Proof. induction n; simpl; congruence. Qed.

Lemma be_value_bytes n z acc :
  foldl (fun acc c => acc * 256 + Z.of_N (N_of_ascii c)) acc (be_bytes n z) = acc * 256 ^ Z.of_nat n + z mod 256 ^ Z.of_nat n.
Proof.
  revert acc. induction n as [|n IH]; intros acc; [simpl; rewrite Z.mod_1_r; lia|].
  cbn [be_bytes foldl]. rewrite IH. clear IH. pose proof (Z.mod_pos_bound (z / 256 ^ Z.of_nat n) 256 ltac:(lia)) as Hb.
  rewrite N_ascii_embedding by lia. rewrite Z2N.id by lia.
  rewrite Nat2Z.inj_succ, Z.pow_succ_r by lia. set (p := 256 ^ Z.of_nat n) in *.
  assert (0 < p) as Hp by (apply Z.pow_pos_nonneg; lia). rewrite (Z.mul_comm 256 p), Z.rem_mul_r by lia. lia.
Qed.

Lemma length_string_of_list l : String.length (String.string_of_list_ascii l) = length l.
Proof. induction l; simpl; congruence. Qed.

Lemma ip_of_octets_octets ip : ip_wf ip -> ip_of_octets (ip_octets ip) = Some ip.
Proof.
  unfold ip_of_octets, ip_octets, ip_wf. intros Hw.
  rewrite length_string_of_list, length_be_bytes, String.list_ascii_of_string_of_list_ascii. unfold be_value. rewrite be_value_bytes.
  destruct ip as [b|b]; simpl ip_bits in *; simpl ip_width in Hw.
  - change (256 ^ Z.of_nat 4) with (2 ^ 32). by rewrite Z.mod_small.
  - change (256 ^ Z.of_nat 16) with (2 ^ 128). by rewrite Z.mod_small.
Qed.

(** ** Parsed addresses are in range *)

Lemma read_digits_range radix s : (0 < radix)%Z ->
  Forall (fun d => 0 <= d < radix)%Z (read_digits radix s).1.
Proof.
  intros Hr. induction s as [|c s IH]; [constructor|]. cbn [read_digits].
  destruct (to_digit radix c) as [d|] eqn:Hd; [|constructor].
  destruct (read_digits radix s) as [ds rest]. constructor; [|done].
  unfold to_digit in Hd.
  match type of Hd with (if (?x <? radix)%Z then _ else _) = _ =>
    assert (0 <= x)%Z as Hx; [|generalize dependent x] end.
  { repeat match goal with |- context [if ?b then _ else _] => destruct b eqn:? end; lia. }
  intros x Hd Hx. destruct (Z.ltb_spec x radix); [by simplify_eq|done].
Qed.

Lemma digits_value_nonneg radix ds : (0 < radix)%Z ->
  Forall (fun d => 0 <= d < radix)%Z ds -> (0 <= digits_value radix ds)%Z.
Proof.
  intros Hr Hds. unfold digits_value.
  assert (forall acc, 0 <= acc -> 0 <= foldl (fun acc d => acc * radix + d) acc ds)%Z as H; [|apply H; lia].
  induction Hds as [|d ds Hd _ IH]; intros acc Hacc; [done|]. simpl. apply IH. nia.
Qed.

Lemma read_number_range radix k m z s v rest : (0 < radix)%Z ->
  read_number radix k m z s = Some (v, rest) -> (0 <= v <= m)%Z.
Proof.
  intros Hr. unfold read_number. pose proof (read_digits_range radix s Hr) as Hds.
  destruct (read_digits radix s) as [ds r]. simpl in Hds.
  pose proof (digits_value_nonneg radix ds Hr Hds).
  destruct (_ || (m <? digits_value radix ds)%Z || _) eqn:Hb; [done|]. intros [= <- <-].
  apply orb_false_iff in Hb as [[_ Hm]%orb_false_iff _]. apply Z.ltb_ge in Hm. lia.
Qed.

Lemma read_ipv4_range s a rest : read_ipv4 s = Some (a, rest) -> (0 <= a < 2^32)%Z.
Proof.
  unfold read_ipv4, read_octet. intros H.
  repeat match type of H with
  | context [read_number 10 3 255 false ?x] =>
      let E := fresh "E" in destruct (read_number 10 3 255 false x) as [[? ?]|] eqn:E; simpl in H;
      [apply read_number_range in E; [|lia]|done]
  | context [read_given_char ?c ?x] => destruct (read_given_char c x); simpl in H; [|done]
  end.
  simplify_eq. lia.
Qed.

Lemma ip_parse_v4_range s a : ip_parse s = Some (V4 a) -> (0 <= a < 2^32)%Z.
Proof.
  unfold ip_parse. destruct (read_ipv4 s) as [[b [|c r]]|] eqn:Hr.
  - intros [= <-]. by eapply read_ipv4_range.
  - by destruct (read_ipv6 s) as [[? []]|].
  - by destruct (read_ipv6 s) as [[? []]|].
Qed.

Lemma read_sep_range {A} (P : A -> Prop) index inner s a rest :
  (forall s a rest, inner s = Some (a, rest) -> P a) -> read_sep index inner s = Some (a, rest) -> P a.
Proof.
  intros HP. unfold read_sep. destruct index; [apply HP|].
  destruct (read_given_char ":" s); simpl; [apply HP|done].
Qed.

Lemma read_groups_range left index s gs v4 rest :
  read_groups left index s = (gs, v4, rest) ->
  Forall (fun g => 0 <= g < 65536)%Z gs /\ (length gs <= left)%nat.
Proof.
  revert index s gs v4 rest. induction left as [|left IH]; intros index s gs v4 rest H; cbn [read_groups] in H.
  - simplify_eq. split; [constructor|simpl; lia].
  - destruct (if (1 <=? left)%nat then read_sep index read_ipv4 s else None) as [[a r]|] eqn:H4.
    + destruct (1 <=? left)%nat eqn:Hl; [|done]. apply Nat.leb_le in Hl. simplify_eq.
      apply (read_sep_range (fun a => 0 <= a < 2^32)%Z) in H4; [|apply read_ipv4_range].
      split; [|simpl; lia]. constructor; [|constructor; [|constructor]].
      * rewrite Z.shiftr_div_pow2 by lia. change (2^16)%Z with 65536%Z. Z.div_mod_to_equations. lia.
      * change 65535%Z with (Z.ones 16). rewrite Z.land_ones by lia. apply Z.mod_pos_bound. lia.
    + destruct (read_sep index (read_number 16 4 65535 true) s) as [[g r]|] eqn:Hg.
      * apply (read_sep_range (fun g => 0 <= g < 65536)%Z) in Hg.
        2: { intros s' a' r' Hr. apply read_number_range in Hr; lia. }
        destruct (read_groups left (S index) r) as [[gs' v4'] r'] eqn:Hrec. simplify_eq.
        apply IH in Hrec as [Hf Hlen]. split; [by constructor|simpl; lia].
      * simplify_eq. split; [constructor|simpl; lia].
Qed.

Lemma groups_value_range gs : Forall (fun g => 0 <= g < 65536)%Z gs ->
  (0 <= groups_value gs < 65536 ^ Z.of_nat (length gs))%Z.
Proof.
  unfold groups_value. intros Hgs. induction gs as [|g gs IH] using rev_ind; [done|].
  apply Forall_app in Hgs as [Hgs Hg]. inversion Hg; subst. specialize (IH Hgs).
  rewrite foldl_app, length_app. cbn [foldl length]. rewrite Nat2Z.inj_add, Z.pow_add_r by lia.
  change (65536 ^ Z.of_nat 1)%Z with 65536%Z. nia.
Qed.

Lemma read_ipv6_range s a rest : read_ipv6 s = Some (a, rest) -> (0 <= a < 2^128)%Z.
Proof.
  unfold read_ipv6. destruct (read_groups 8 0 s) as [[hd h4] s1] eqn:Hh.
  apply read_groups_range in Hh as [Hf Hl].
  change (2^128)%Z with (65536 ^ Z.of_nat 8)%Z.
  destruct (length hd =? 8)%nat eqn:H8; [intros [= <- <-]; apply Nat.eqb_eq in H8; rewrite <- H8;
    by apply groups_value_range|]. apply Nat.eqb_neq in H8.
  destruct h4; [done|]. destruct (read_given_char ":" s1); simpl; [|done].
  destruct (read_given_char ":" s0) as [s3|]; simpl; [|done].
  destruct (read_groups (8 - (length hd + 1)) 0 s3) as [[tl t4] s4] eqn:Ht.
  apply read_groups_range in Ht as [Hf' Hl']. intros [= <- <-].
  assert (length (hd ++ replicate (8 - length hd - length tl) 0%Z ++ tl) = 8%nat) as H8'.
  { rewrite !length_app, length_replicate. lia. }
  revert H8'. generalize (8 - length hd - length tl)%nat. intros k H8'.
  rewrite <- H8'. apply groups_value_range. repeat (apply Forall_app; split); try done.
  by apply Forall_replicate.
Qed.

Lemma ip_parse_wf s ip : ip_parse s = Some ip -> ip_wf ip.
Proof.
  unfold ip_parse, ip_wf.
  assert ((match read_ipv6 s with Some (a, "") => Some (V6 a) | _ => None end) = Some ip ->
    (0 <= ip_bits ip < 2 ^ ip_width ip)%Z) as H6.
  { destruct (read_ipv6 s) as [[a []]|] eqn:Hr; [|done..]. intros [= <-]. by eapply read_ipv6_range. }
  destruct (read_ipv4 s) as [[b [|c r]]|] eqn:Hr; [|done..].
  intros [= <-]. by eapply read_ipv4_range.
Qed.

Class IpNetLib := {
  IpNet : Type;
  ipnet_parse : string -> option IpNet;
  ipnet_network : IpNet -> IpAddr;
  ipnet_contains : IpNet -> IpAddr -> bool;
  ipnet_to_string : IpNet -> string
}.

(** The documented meaning of the operations: an [IpNet] is an address with a
    prefix length; [network] clears the host bits and [contains] compares the
    prefix bits of an address of the same family. *)
Definition prefix_bits (ip : IpAddr) (len : Z) : Z := Z.shiftr (ip_bits ip) (ip_width ip - len).
Definition with_bits (ip : IpAddr) (b : Z) : IpAddr := match ip with V4 _ => V4 b | V6 _ => V6 b end.
Definition mask_addr (ip : IpAddr) (len : Z) : IpAddr :=
  with_bits ip (Z.shiftl (prefix_bits ip len) (ip_width ip - len)).

Class IpNetLaws {LIB : IpNetLib} := {
  ipnet_addr : IpNet -> IpAddr;
  ipnet_prefix_len : IpNet -> Z;
  ipnet_wf : forall n, ip_wf (ipnet_addr n) /\ 0 <= ipnet_prefix_len n <= ip_width (ipnet_addr n);
  ipnet_network_spec : forall n, ipnet_network n = mask_addr (ipnet_addr n) (ipnet_prefix_len n);
  ipnet_contains_spec : forall n ip,
    ipnet_contains n ip =
      Bool.eqb (is_ipv4 ip) (is_ipv4 (ipnet_addr n)) &&
      (prefix_bits ip (ipnet_prefix_len n) =? prefix_bits (ipnet_addr n) (ipnet_prefix_len n))
}.

Section overlap.
Context {LIB : IpNetLib} {LAWS : IpNetLaws}.

Lemma with_bits_ipv4 ip b : is_ipv4 (with_bits ip b) = is_ipv4 ip.
Proof. by destruct ip. Qed.

Lemma with_bits_width ip b : ip_width (with_bits ip b) = ip_width ip.
Proof. by destruct ip. Qed.

Lemma with_bits_bits ip b : ip_bits (with_bits ip b) = b.
Proof. by destruct ip. Qed.

Lemma ip_width_family ip ip' : is_ipv4 ip = is_ipv4 ip' -> ip_width ip = ip_width ip'.
Proof. by destruct ip, ip'. Qed.

(** The prefix bits of a shorter prefix are those of a longer one, shortened. *)
Lemma prefix_bits_shorten ip p q :
  0 <= p <= q -> q <= ip_width ip ->
  prefix_bits ip p = Z.shiftr (prefix_bits ip q) (q - p).
Proof.
  intros Hp Hq. unfold prefix_bits. rewrite Z.shiftr_shiftr by lia. f_equal. lia.
Qed.

Lemma prefix_bits_mask ip p q :
  0 <= p <= q -> q <= ip_width ip -> prefix_bits (mask_addr ip q) p = prefix_bits ip p.
Proof.
  intros Hp Hq.
  assert (prefix_bits (mask_addr ip q) q = prefix_bits ip q) as Hqq.
  { unfold prefix_bits at 1, mask_addr. rewrite with_bits_bits, with_bits_width.
    by rewrite Z.shiftr_shiftl_l, Z.sub_diag, Z.shiftl_0_r by lia. }
  rewrite (prefix_bits_shorten _ p q), Hqq, <- prefix_bits_shorten; try done.
  unfold mask_addr. by rewrite with_bits_width.
Qed.

Lemma network_family n : is_ipv4 (ipnet_network n) = is_ipv4 (ipnet_addr n).
Proof. rewrite ipnet_network_spec. apply with_bits_ipv4. Qed.

(** Two networks share an address. *)
Definition nets_meet (a b : IpNet) : Prop :=
  exists ip, ipnet_contains a ip = true /\ ipnet_contains b ip = true.

Lemma contains_own_network n : ipnet_contains n (ipnet_network n) = true.
Proof.
  pose proof (ipnet_wf n) as [_ Hp].
  rewrite ipnet_contains_spec, network_family, Bool.eqb_reflx, ipnet_network_spec. simpl.
  rewrite prefix_bits_mask by lia. apply Z.eqb_refl.
Qed.

(** If the networks share an address, the shorter prefix contains the network
    address of the longer one. *)
Lemma meet_contains a b ip :
  ipnet_contains a ip = true -> ipnet_contains b ip = true ->
  ipnet_prefix_len a <= ipnet_prefix_len b -> ipnet_contains a (ipnet_network b) = true.
Proof.
  pose proof (ipnet_wf a) as [_ Ha]. pose proof (ipnet_wf b) as [_ Hb].
  rewrite !ipnet_contains_spec, network_family, ipnet_network_spec.
  intros [Hfa%Bool.eqb_prop Hpa%Z.eqb_eq]%andb_true_iff
         [Hfb%Bool.eqb_prop Hpb%Z.eqb_eq]%andb_true_iff Hle.
  apply andb_true_iff. split; [by rewrite <- Hfa, <- Hfb, Bool.eqb_reflx|].
  apply Z.eqb_eq. rewrite prefix_bits_mask by lia. rewrite <- Hpa.
  rewrite (prefix_bits_shorten (ipnet_addr b) _ (ipnet_prefix_len b)) by lia.
  rewrite <- Hpb, <- prefix_bits_shorten; [done|lia|].
  rewrite (ip_width_family ip (ipnet_addr b)); [lia|done].
Qed.

(** The test both sides of the program use ("one contains the other's network
    address") decides whether the two networks share an address. *)
Lemma overlap_test_meet a b :
  ipnet_contains a (ipnet_network b) || ipnet_contains b (ipnet_network a) = true <-> nets_meet a b.
Proof.
  split.
  - intros [H|H]%orb_true_iff.
    + exists (ipnet_network b). split; [done|apply contains_own_network].
    + exists (ipnet_network a). split; [apply contains_own_network|done].
  - intros (ip & Ha & Hb). apply orb_true_iff.
    destruct (Z.le_ge_cases (ipnet_prefix_len a) (ipnet_prefix_len b)).
    + left. by eapply meet_contains.
    + right. by eapply meet_contains.
Qed.

Lemma nets_meet_family a b :
  nets_meet a b -> is_ipv4 (ipnet_network a) = is_ipv4 (ipnet_network b).
Proof.
  intros (ip & Ha & Hb). rewrite ipnet_contains_spec in Ha, Hb.
  apply andb_true_iff in Ha as [Ha%Bool.eqb_prop _], Hb as [Hb%Bool.eqb_prop _].
  rewrite !network_family. congruence.
Qed.
End overlap.

(** ** A concrete library, for the witnesses *)

Record ToyNet := mkToyNet { toy_addr : IpAddr; toy_len : Z; toy_ok : bool_decide
  (0 <= ip_bits toy_addr < 2 ^ ip_width toy_addr /\ 0 <= toy_len <= ip_width toy_addr) = true }.

Definition toy_make (ip : IpAddr) (len : Z) : option ToyNet :=
  match decide (bool_decide (0 <= ip_bits ip < 2 ^ ip_width ip /\ 0 <= len <= ip_width ip) = true) with
  | left H => Some (mkToyNet ip len H)
  | right _ => None
  end.

Definition toy_parse (s : string) : option ToyNet :=
  match split_char "/" s with
  | [a; p] =>
      ip ← ip_parse a;
      match read_number 10 3 255 false p with
      | Some (len, "") => toy_make ip len
      | _ => None
      end
  | _ => None
  end.

Definition toy_contains (n : ToyNet) (ip : IpAddr) : bool :=
  Bool.eqb (is_ipv4 ip) (is_ipv4 (toy_addr n)) &&
  (prefix_bits ip (toy_len n) =? prefix_bits (toy_addr n) (toy_len n)).

Definition toy_ipnet : IpNetLib := {|
  IpNet := ToyNet;
  ipnet_parse := toy_parse;
  ipnet_network n := mask_addr (toy_addr n) (toy_len n);
  ipnet_contains := toy_contains;
  ipnet_to_string n := ip_to_string (toy_addr n) +:+ "/" +:+ pretty (toy_len n)
|}.

Program Definition toy_ipnet_laws : @IpNetLaws toy_ipnet := {|
  ipnet_addr := (toy_addr : @IpNet toy_ipnet -> IpAddr);
  ipnet_prefix_len := (toy_len : @IpNet toy_ipnet -> Z)
|}.
Next Obligation. intros n. exact (bool_decide_eq_true_1 _ (toy_ok n)). Qed.
Next Obligation. done. Qed.
Next Obligation. done. Qed.
