(* ===== verification/Policy.v ===== *)
(** * Policy: the rule policy engine of the manager

    [crates/fw-core/src/policy.rs]: the broad-allow check behind the SEC-003
    assignment gate and the protected-CIDR check behind rule validation. (The
    query [rules_for_policy_set] is modelled with the database, in Db.v.) *)

From S2P Require Import Prelude Text Models Net.

Record PolicyCheckResult := mkPolicyCheckResult {
  allowed : bool;
  requires_approval : bool;
  reason : string
}.

(** [check_rule]'s notion of a broad source. *)
Definition policy_broad_src (r : FirewallRule) : bool :=
  match src_cidr r with
  | Some c => bool_decide (c = "0.0.0.0/0") || bool_decide (c = "::/0") || bool_decide (c = "any")
  | None => true
  end.

Definition policy_broad_dst_port (r : FirewallRule) : bool :=
  bool_decide (dst_port_start r = None) && bool_decide (dst_port_end r = None).

Definition check_rule (r : FirewallRule) : PolicyCheckResult :=
  if bool_decide (rule_action r = Allow) && (policy_broad_src r && policy_broad_dst_port r)
  then mkPolicyCheckResult true true
         "Broad allow rule (any source, any port) requires admin approval"
  else mkPolicyCheckResult true false "Auto-approved".

Definition check_policy_set_for_flagged (rules : list FirewallRule) : list Uuid :=
  map rule_id (List.filter (fun r => requires_approval (check_rule r)) rules).

Section cidrs.
Context {LIB : IpNetLib}.

Definition cidr_overlaps (a b : string) : bool :=
  match ipnet_parse a, ipnet_parse b with
  | Some net_a, Some net_b =>
      if Bool.eqb (is_ipv4 (ipnet_network net_a)) (is_ipv4 (ipnet_network net_b))
      then ipnet_contains net_a (ipnet_network net_b) || ipnet_contains net_b (ipnet_network net_a)
      else false
  | _, _ => false
  end.

Definition check_against_protected_cidrs (r : FirewallRule) (protected_cidrs : list string)
  : PolicyCheckResult :=
  let ok := mkPolicyCheckResult true false "Does not block protected CIDRs" in
  if bool_decide (rule_action r = Deny) || bool_decide (rule_action r = Reject) then
    match src_cidr r with
    | Some src =>
        match List.find (cidr_overlaps src) protected_cidrs with
        | Some p => mkPolicyCheckResult false false
                      ("Rule blocks protected CIDR " +:+ p +:+ " — rejected")
        | None => ok
        end
    | None => ok
    end
  else ok.

(** ** The meaning of the overlap test *)

(** Two CIDR texts denote networks with a common address. *)
Definition cidrs_meet (a b : string) : Prop :=
  exists n m, ipnet_parse a = Some n /\ ipnet_parse b = Some m /\ nets_meet n m.

Context {LAWS : IpNetLaws}.

Lemma cidr_overlaps_meet a b : cidr_overlaps a b = true <-> cidrs_meet a b.
Proof.
  unfold cidr_overlaps, cidrs_meet.
  destruct (ipnet_parse a) as [n|], (ipnet_parse b) as [m|]; try (split; [done|naive_solver]).
  destruct (Bool.eqb _ _) eqn:Hf.
  - rewrite overlap_test_meet. naive_solver.
  - split; [done|]. intros (n' & m' & [= <-] & [= <-] & Hm).
    apply nets_meet_family in Hm. rewrite Hm, Bool.eqb_reflx in Hf. done.
Qed.

Lemma find_overlap_None (src : string) (prot : list string) :
  List.find (cidr_overlaps src) prot = None <-> (forall p, p ∈ prot -> ~ cidrs_meet src p).
Proof.
  induction prot as [|q prot IH]; simpl.
  - split; [intros _ p Hp; by apply not_elem_of_nil in Hp|done].
  - destruct (cidr_overlaps src q) eqn:Hq.
    + split; [done|]. intros Hno. destruct (Hno q); [left|]. by apply cidr_overlaps_meet.
    + rewrite IH. split.
      * intros Hno p [->|Hp]%elem_of_cons; [|by apply Hno].
        rewrite <- cidr_overlaps_meet. congruence.
      * intros Hno p Hp. apply Hno. by right.
Qed.

(** A deny or reject rule whose source network shares an address with a
    protected network. *)
Definition blocks_protected (r : FirewallRule) (prot : list string) : Prop :=
  (rule_action r = Deny \/ rule_action r = Reject) /\
  exists src p, src_cidr r = Some src /\ p ∈ prot /\ cidrs_meet src p.

(** The manager's validation ([check_against_protected_cidrs]) refuses a rule
    exactly when it is a deny or reject rule whose source network has an address
    in common with one of the protected networks. *)
Theorem protected_check_exact (r : FirewallRule) (prot : list string) :
  allowed (check_against_protected_cidrs r prot) = false <-> blocks_protected r prot.
Proof.
  unfold check_against_protected_cidrs, blocks_protected.
  destruct (bool_decide (rule_action r = Deny) || bool_decide (rule_action r = Reject)) eqn:Ha.
  - assert (rule_action r = Deny \/ rule_action r = Reject) as Hact.
    { apply orb_true_iff in Ha as [H%bool_decide_eq_true_1|H%bool_decide_eq_true_1]; auto. }
    destruct (src_cidr r) as [src|] eqn:Hs; [|split; naive_solver].
    destruct (List.find (cidr_overlaps src) prot) as [p|] eqn:Hf; simpl.
    + apply List.find_some in Hf as [Hp Ho]. split; [|done]. intros _. split; [done|].
      exists src, p. split_and!; [done|by apply list_elem_of_In|by apply cidr_overlaps_meet].
    + split; [done|]. intros (_ & src' & p & [= <-] & Hp & Hm).
      rewrite find_overlap_None in Hf. by destruct (Hf p Hp).
  - apply orb_false_iff in Ha as [H1%bool_decide_eq_false_1 H2%bool_decide_eq_false_1].
    split; [done|]. naive_solver.
Qed.
End cidrs.

(** ** The broad-allow gate *)

(** A rule that lets any source reach any port. *)
Definition broad_allow (r : FirewallRule) : Prop :=
  rule_action r = Allow /\
  (src_cidr r = None \/ src_cidr r = Some "0.0.0.0/0" \/ src_cidr r = Some "::/0" \/
   src_cidr r = Some "any") /\
  dst_port_start r = None /\ dst_port_end r = None.

Lemma policy_broad_src_spec r :
  policy_broad_src r = true <->
  src_cidr r = None \/ src_cidr r = Some "0.0.0.0/0" \/ src_cidr r = Some "::/0" \/
  src_cidr r = Some "any".
Proof.
  unfold policy_broad_src. destruct (src_cidr r) as [c|]; [|naive_solver].
  rewrite !orb_true_iff, !bool_decide_eq_true. naive_solver.
Qed.

Lemma check_rule_flags r : requires_approval (check_rule r) = true <-> broad_allow r.
Proof.
  unfold check_rule, broad_allow.
  destruct (bool_decide (rule_action r = Allow) && (policy_broad_src r && policy_broad_dst_port r)) eqn:H.
  - simpl. split; [|done]. intros _. rewrite !andb_true_iff in H.
    destruct H as (Ha%bool_decide_eq_true_1 & Hs%policy_broad_src_spec & Hp).
    unfold policy_broad_dst_port in Hp. rewrite andb_true_iff, !bool_decide_eq_true in Hp. naive_solver.
  - simpl. split; [done|]. intros (Ha & Hs & H1 & H2). exfalso.
    apply not_true_iff_false in H. apply H. rewrite !andb_true_iff.
    rewrite policy_broad_src_spec. unfold policy_broad_dst_port.
    rewrite andb_true_iff, !bool_decide_eq_true. naive_solver.
Qed.

Lemma flagged_elem rules id :
  id ∈ check_policy_set_for_flagged rules <-> exists r, r ∈ rules /\ rule_id r = id /\ broad_allow r.
Proof.
  unfold check_policy_set_for_flagged. rewrite list_elem_of_In, in_map_iff.
  setoid_rewrite List.filter_In. setoid_rewrite check_rule_flags.
  setoid_rewrite list_elem_of_In. naive_solver.
Qed.

Lemma flagged_empty_iff rules :
  check_policy_set_for_flagged rules = [] <-> (forall r, r ∈ rules -> ~ broad_allow r).
Proof.
  split.
  - intros Hnil r Hr Hb.
    assert (rule_id r ∈ check_policy_set_for_flagged rules) as Hin by (apply flagged_elem; eauto).
    rewrite Hnil in Hin. by apply not_elem_of_nil in Hin.
  - intros Hno. destruct (check_policy_set_for_flagged rules) as [|id ids] eqn:Hf; [done|].
    assert (id ∈ check_policy_set_for_flagged rules) as Hin by (rewrite Hf; left).
    apply flagged_elem in Hin as (r & Hr & _ & Hb). by destruct (Hno r Hr).
Qed.

(** ** Witness *)

Lemma protected_check_exact_witness :
  let r := mkRule (uuid_of 1) "r" "" Reject In Any (Some "10.0.0.0/8") None None None None None
             None None "" false 0 None 0 0 in
  allowed (@check_against_protected_cidrs toy_ipnet r ["192.168.0.0/16"; "10.1.2.3/32"]) = false /\
  @blocks_protected toy_ipnet r ["192.168.0.0/16"; "10.1.2.3/32"].
Proof.
  split; [vm_compute; reflexivity|].
  apply (@protected_check_exact toy_ipnet toy_ipnet_laws). vm_compute. reflexivity.
Defined.
