(* ===== verification/ProtectedCidrs.v ===== *)
(** * ProtectedCidrs: the agent's lockout guard

    [crates/fw-agent/src/protected_cidrs.rs], [check_rules_against_protected]:
    before a ruleset is compiled, every rule that would block a protected CIDR,
    or open one to a broad source, is reported and the whole apply is refused. *)

From S2P Require Import Prelude Text Models Net Policy.

Section guard.
Context {LIB : IpNetLib}.

(** The protected CIDR a text overlaps, if any. *)
Fixpoint overlaps_loop (rule_net : IpNet) (protected_cidrs : list string) : option string :=
  match protected_cidrs with
  | [] => None
  | protected :: rest =>
      match ipnet_parse protected with
      | None => overlaps_loop rule_net rest
      | Some protected_net =>
          if negb (Bool.eqb (is_ipv4 (ipnet_network rule_net)) (is_ipv4 (ipnet_network protected_net)))
          then overlaps_loop rule_net rest
          else if ipnet_contains rule_net (ipnet_network protected_net) ||
                  ipnet_contains protected_net (ipnet_network rule_net)
          then Some protected
          else overlaps_loop rule_net rest
      end
  end.

Definition overlaps_protected (cidr : string) (protected_cidrs : list string) : option string :=
  rule_net ← ipnet_parse cidr; overlaps_loop rule_net protected_cidrs.

Definition is_broad_src (src : option string) : bool :=
  match src with
  | None => true
  | Some s =>
      let t := trim s in
      is_empty t || bool_decide (t = "0.0.0.0/0") || bool_decide (t = "::/0") ||
      bool_decide (t = "0.0.0.0") || bool_decide (t = "::")
  end.

(** The violations one rule contributes: check (1), then check (2). *)
Definition rule_violations (r : FirewallRule) (prot : list string) : list string :=
  (match rule_action r, src_cidr r with
   | Deny, Some src | Reject, Some src =>
       match overlaps_protected src prot with
       | Some p => ["Rule '" +:+ rule_name r +:+ "' would block protected CIDR " +:+ p +:+
                    " (" +:+ action_as_str (rule_action r) +:+ ")"]
       | None => []
       end
   | _, _ => []
   end) ++
  (match rule_action r with
   | Allow =>
       if is_broad_src (src_cidr r) then
         match dst_cidr r with
         | Some dst =>
             match overlaps_protected dst prot with
             | Some p => ["Rule '" +:+ rule_name r +:+ "' allows broad traffic to protected CIDR " +:+ p]
             | None => []
             end
         | None => []
         end
       else []
   | _ => []
   end).

Definition check_rules_against_protected (rules : list FirewallRule) (protected_cidrs : list string)
  : result unit (list string) :=
  match protected_cidrs with
  | [] => Ok tt
  | _ =>
      match concat (map (fun r => rule_violations r protected_cidrs) rules) with
      | [] => Ok tt
      | violations => Err violations
      end
  end.

(** ** Specification *)

Context {LAWS : IpNetLaws}.

Lemma overlaps_loop_step n q prot :
  overlaps_loop n (q :: prot) =
    (if match ipnet_parse q with
        | Some m => Bool.eqb (is_ipv4 (ipnet_network n)) (is_ipv4 (ipnet_network m)) &&
                    (ipnet_contains n (ipnet_network m) || ipnet_contains m (ipnet_network n))
        | None => false
        end then Some q else overlaps_loop n prot).
Proof.
  simpl. destruct (ipnet_parse q) as [m|]; [|done].
  by destruct (Bool.eqb _ _); simpl.
Qed.

(** The agent's loop finds the first protected CIDR that shares an address, the
    same test the manager's [cidr_overlaps] makes. *)
Lemma overlaps_protected_find cidr prot :
  overlaps_protected cidr prot = List.find (cidr_overlaps cidr) prot.
Proof.
  unfold overlaps_protected. destruct (ipnet_parse cidr) as [n|] eqn:Hc; simpl.
  - induction prot as [|q prot IH]; [done|]. rewrite overlaps_loop_step. simpl.
    unfold cidr_overlaps at 1. rewrite Hc.
    destruct (ipnet_parse q) as [m|]; [|done].
    by destruct (Bool.eqb _ _); simpl; [destruct (_ || _)|].
  - induction prot as [|q prot IH]; [done|]. simpl. unfold cidr_overlaps at 1. rewrite Hc. done.
Qed.

Lemma overlaps_protected_None cidr prot :
  overlaps_protected cidr prot = None <-> (forall p, p ∈ prot -> ~ cidrs_meet cidr p).
Proof. rewrite overlaps_protected_find. apply find_overlap_None. Qed.

(** A source that is left out, or written as every address. *)
Definition from_anywhere (src : option string) : Prop :=
  match src with None => True | Some s => trim s ∈ [""; "0.0.0.0/0"; "::/0"; "0.0.0.0"; "::"] end.

Lemma is_broad_src_spec src : is_broad_src src = true <-> from_anywhere src.
Proof.
  destruct src as [s|]; [|done]. unfold is_broad_src, from_anywhere. rewrite !orb_true_iff, !bool_decide_eq_true, !elem_of_cons.
  assert (is_empty (trim s) = true <-> trim s = "") as -> by by destruct (trim s).
  split; [|intros [|[|[|[|[|?%not_elem_of_nil]]]]]]; tauto.
Qed.

(** An allow rule from anywhere to a destination that meets a protected network. *)
Definition exposes_protected (r : FirewallRule) (prot : list string) : Prop :=
  rule_action r = Allow /\ from_anywhere (src_cidr r) /\
  exists dst p, dst_cidr r = Some dst /\ p ∈ prot /\ cidrs_meet dst p.

Lemma overlaps_protected_not_None cidr prot :
  overlaps_protected cidr prot <> None <-> (exists p, p ∈ prot /\ cidrs_meet cidr p).
Proof.
  rewrite overlaps_protected_find. split.
  - destruct (List.find _ prot) as [p|] eqn:Hf; [|done]. intros _.
    apply List.find_some in Hf as [Hp Ho]. exists p.
    split; [by apply list_elem_of_In|by apply cidr_overlaps_meet].
  - intros (p & Hp & Hm) Hnone. by destruct (proj1 (find_overlap_None cidr prot) Hnone p Hp).
Qed.

Lemma rule_violations_nil r prot :
  rule_violations r prot = [] <-> ~ blocks_protected r prot /\ ~ exposes_protected r prot.
Proof.
  unfold rule_violations, blocks_protected, exposes_protected. rewrite <- is_broad_src_spec.
  assert (forall c, (exists s p, Some c = Some s /\ p ∈ prot /\ cidrs_meet s p) <->
                    overlaps_protected c prot <> None) as Hov.
  { intros c. rewrite overlaps_protected_not_None. naive_solver. }
  destruct (rule_action r), (src_cidr r) as [src|], (dst_cidr r) as [dst|];
    destruct (is_broad_src _) eqn:Hb; rewrite ?Hov; simpl;
    repeat match goal with
    | |- context [overlaps_protected ?c prot] => destruct (overlaps_protected c prot) eqn:?; simpl
    end; try (split; [|done]); try naive_solver.
Qed.

Lemma concat_map_nil {A B} (f : A -> list B) l :
  concat (map f l) = [] <-> (forall x, x ∈ l -> f x = []).
Proof.
  induction l as [|x l IH]; simpl.
  - split; [intros _ x Hx; by apply not_elem_of_nil in Hx|done].
  - rewrite app_nil, IH. split.
    + intros [Hx Hl] y [->|Hy]%elem_of_cons; auto.
    + intros H. split; [apply H; left|intros y Hy; apply H; by right].
Qed.

Lemma rule_violations_cons r prot : rule_violations r prot <> [] -> blocks_protected r prot \/ exposes_protected r prot.
Proof.
  assert (forall c p, overlaps_protected c prot = Some p -> exists p, p ∈ prot /\ cidrs_meet c p) as Hov.
  { intros c p Hc. apply overlaps_protected_not_None. congruence. }
  unfold rule_violations, blocks_protected, exposes_protected. intros Hne. destruct (rule_action r) eqn:Ha; try done.
  - right. destruct (is_broad_src (src_cidr r)) eqn:Hb; [|done]. apply is_broad_src_spec in Hb. destruct (dst_cidr r) as [dst|]; [|done].
    destruct (overlaps_protected dst prot) as [q|] eqn:Hq; [|done]. apply Hov in Hq as (p & Hp & Hm). split_and!; [done..|]. by exists dst, p.
  - left. destruct (src_cidr r) as [src|]; [|done]. destruct (overlaps_protected src prot) as [q|] eqn:Hq; [|done].
    apply Hov in Hq as (p & Hp & Hm). split; [by left|]. by exists src, p.
  - left. destruct (src_cidr r) as [src|]; [|done]. destruct (overlaps_protected src prot) as [q|] eqn:Hq; [|done].
    apply Hov in Hq as (p & Hp & Hm). split; [by right|]. by exists src, p.
Qed.

Lemma guard_exact (rules : list FirewallRule) (prot : list string) :
  check_rules_against_protected rules prot = Ok tt <->
  (forall r, r ∈ rules -> ~ blocks_protected r prot /\ ~ exposes_protected r prot).
Proof.
  transitivity (concat (map (fun r => rule_violations r prot) rules) = []).
  - unfold check_rules_against_protected. destruct prot as [|q prot].
    + split; [intros _|done]. apply concat_map_nil. intros r _.
      apply rule_violations_nil. split; intros H; unfold blocks_protected, exposes_protected in H;
        destruct_and?; destruct_and?; naive_solver (by eapply not_elem_of_nil).
    + by destruct (concat _).
  - rewrite concat_map_nil. by setoid_rewrite rule_violations_nil.
Qed.

(** C30. What [check_rules_against_protected] refuses. A ruleset is refused exactly
    when it has a deny or reject rule with a source that shares an address with a
    protected network, or an allow rule whose source is left out or written as
    every address and whose destination shares an address with one; one such rule
    refuses the whole ruleset, and nothing else does. So neither the destination of
    a deny or reject rule counts, nor one without a source, which is accepted
    whatever is protected. *)
Theorem agent_guard_exact (rules : list FirewallRule) (prot : list string) :
  ((exists violations, check_rules_against_protected rules prot = Err violations) <->
   (exists r p, r ∈ rules /\ p ∈ prot /\
      (((rule_action r = Deny \/ rule_action r = Reject) /\ exists src, src_cidr r = Some src /\ cidrs_meet src p) \/
       (rule_action r = Allow /\ from_anywhere (src_cidr r) /\ exists dst, dst_cidr r = Some dst /\ cidrs_meet dst p)))) /\
  (forall r, rule_action r = Deny \/ rule_action r = Reject -> src_cidr r = None -> check_rules_against_protected [r] prot = Ok tt).
Proof.
  split; [split|].
  - intros [v Hv]. assert (exists r, r ∈ rules /\ rule_violations r prot <> []) as (r & Hr & Hne).
    { unfold check_rules_against_protected in Hv. destruct prot as [|q prot]; [done|].
      destruct (concat _) as [|x xs] eqn:Hc; [done|]. assert (x ∈ concat (map (fun r => rule_violations r (q :: prot)) rules)) as Hx by (rewrite Hc; left).
      apply list_elem_of_In, in_concat in Hx as (l & Hl & Hx). apply in_map_iff in Hl as (r & <- & Hr). exists r. split; [by apply list_elem_of_In|].
      intros H. by rewrite H in Hx. }
    exists r. apply rule_violations_cons in Hne as [(Ha & src & p & Hs & Hp & Hm)|(Ha & Hb & dst & p & Hd & Hp & Hm)]; exists p;
      (split_and!; [done..|]); [left; split; [done|]; by exists src|right; split_and!; [done..|]; by exists dst].
  - intros (r & p & Hr & Hp & H). destruct (check_rules_against_protected rules prot) as [[]|v] eqn:Hc; [exfalso|by exists v].
    destruct (proj1 (guard_exact rules prot) Hc r Hr) as [H1 H2]. destruct H as [(Ha & src & Hs & Hm)|(Ha & Hb & dst & Hd & Hm)].
    + apply H1. split; [done|]. by exists src, p.
    + apply H2. split; [done|]. split; [done|]. by exists dst, p.
  - intros r Ha Hs. apply guard_exact. intros x ->%list_elem_of_singleton. unfold blocks_protected, exposes_protected. rewrite Hs. split; [by intros (_ & ? & ? & [=] & _)|]. intros (Hx & _). destruct Ha; congruence.
Qed.

(** The two guards agree: a rule the manager's validation refuses is refused
    by the agent too, wherever it stands in the ruleset. *)
Theorem manager_refusal_implies_agent_refusal (rules : list FirewallRule) (r : FirewallRule)
    (prot : list string) :
  r ∈ rules -> allowed (check_against_protected_cidrs r prot) = false ->
  exists violations, check_rules_against_protected rules prot = Err violations.
Proof.
  intros Hr Hm. apply protected_check_exact in Hm.
  destruct (check_rules_against_protected rules prot) as [[]|v] eqn:Hc; [|by exists v].
  apply guard_exact with (r := r) in Hc; [|done]. by destruct Hc.
Qed.
End guard.

(** A deny or reject rule with no source CIDR ("deny from any") matches the
    traffic of every protected network, but neither guard looks at it: the
    agent's [check_rules_against_protected] accepts it for every list of
    protected CIDRs. *)
Theorem deny_from_any_not_refused {LIB : IpNetLib} (r : FirewallRule) (prot : list string) :
  rule_action r = Deny \/ rule_action r = Reject -> src_cidr r = None ->
  check_rules_against_protected [r] prot = Ok tt /\
  allowed (check_against_protected_cidrs r prot) = true.
Proof.
  intros Ha Hs. unfold check_rules_against_protected, check_against_protected_cidrs.
  cbn [map concat]. unfold rule_violations. rewrite Hs.
  destruct Ha as [-> | ->]; by destruct prot.
Qed.

(** ** Witnesses *)

Definition sample_rule (a : FirewallAction) (src dst : option string) : FirewallRule :=
  mkRule (uuid_of 1) "test" "" a In Any src None None dst None None None None "" false 0 None 0 0.

Example guard_ex1 :
  @check_rules_against_protected toy_ipnet [sample_rule Deny (Some "10.0.0.0/8") None] ["10.1.2.3/32"]
  = Err ["Rule 'test' would block protected CIDR 10.1.2.3/32 (deny)"].
Proof. vm_compute. reflexivity. Qed.

Example guard_ex2 :
  @check_rules_against_protected toy_ipnet
    [sample_rule Allow (Some "192.168.1.5/32") (Some "10.1.2.3/32")] ["10.1.2.3/32"] = Ok tt.
Proof. vm_compute. reflexivity. Qed.

Lemma manager_refusal_implies_agent_refusal_witness :
  exists v, @check_rules_against_protected toy_ipnet
    [sample_rule Deny (Some "10.0.0.0/8") None] ["10.1.2.3/32"] = Err v.
Proof.
  apply (@manager_refusal_implies_agent_refusal toy_ipnet toy_ipnet_laws _
           (sample_rule Deny (Some "10.0.0.0/8") None)); [left|vm_compute; reflexivity].
Defined.

Lemma deny_from_any_not_refused_witness :
  @check_rules_against_protected toy_ipnet [sample_rule Deny None None] ["10.1.2.3/32"] = Ok tt /\
  allowed (@check_against_protected_cidrs toy_ipnet (sample_rule Deny None None) ["10.1.2.3/32"]) = true.
Proof. apply (@deny_from_any_not_refused toy_ipnet); [by left|reflexivity]. Defined.

(** A prefix of length zero matches every address, but the guard compares texts: an
    allow rule from it to a protected network is accepted. *)
Theorem zero_prefix_source_accepted {LIB : IpNetLib} (r : FirewallRule) s (prot : list string) :
  rule_action r = Allow -> src_cidr r = Some s -> trim s ∉ [""; "0.0.0.0/0"; "::/0"; "0.0.0.0"; "::"] ->
  check_rules_against_protected [r] prot = Ok tt.
Proof.
  intros Ha Hs Hn. assert (is_broad_src (src_cidr r) = false) as Hb.
  { destruct (is_broad_src _) eqn:Hb; [|done]. apply is_broad_src_spec in Hb. by rewrite Hs in Hb. }
  unfold check_rules_against_protected. destruct prot; [done|]. cbn [map concat]. unfold rule_violations. by rewrite Ha, Hb.
Qed.

Lemma zero_prefix_source_accepted_witness :
  @check_rules_against_protected toy_ipnet [sample_rule Allow (Some "1.2.3.4/0") (Some "10.1.2.3/32")] ["10.1.2.3/32"] = Ok tt.
Proof. apply (@zero_prefix_source_accepted toy_ipnet _ "1.2.3.4/0"); [reflexivity..|]. apply (bool_decide_unpack _). vm_compute. exact I. Defined.

Lemma agent_guard_exact_witness :
  exists v, @check_rules_against_protected toy_ipnet
    [sample_rule Allow (Some "192.168.1.5/32") (Some "10.1.2.3/32"); sample_rule Allow (Some "0.0.0.0/0") (Some "10.1.0.0/16")] ["10.1.2.3/32"] = Err v.
Proof.
  apply (@agent_guard_exact toy_ipnet toy_ipnet_laws). exists (sample_rule Allow (Some "0.0.0.0/0") (Some "10.1.0.0/16")), "10.1.2.3/32".
  split; [right; left|]. split; [left|]. right. split; [reflexivity|]. split; [right; left|]. exists "10.1.0.0/16". split; [reflexivity|].
  apply (@cidr_overlaps_meet toy_ipnet toy_ipnet_laws). vm_compute. reflexivity.
Defined.
