(* ===== verification/Backend.v ===== *)
(** * Backend: the agent's firewall backends

    [crates/fw-agent/src/backend/mod.rs]: compiling typed rules to [ufw] and
    [firewall-cmd] command lines, applying them, snapshotting the live rules and
    resetting. Programs are run on an abstract host ([HostOs]); the word
    splitter of the [shlex] crate is an interface ([Shlex]). *)

From S2P Require Import Prelude Text Models.

(** ** The operating system *)

Record Output := mkOutput { out_success : bool; out_stdout : string; out_stderr : string }.

(** What the agent asks of the host: run a program with arguments (an [Err] is a
    failure to spawn it), delete a file, look at paths and the environment. *)
Class HostOs := {
  Host : Type;
  spawn : string -> list string -> Host -> result Output string * Host;
  remove_file : string -> Host -> bool * Host;
  path_exists : string -> Host -> bool;
  env_is_set : string -> Host -> bool
}.

(** [shlex::split]. *)
Class Shlex := { shlex_split : string -> option (list string) }.

(** ** Data *)

Inductive BackendError :=
  | CommandFailed (msg : string)
  | Io (msg : string).

Record CompiledRules := mkCompiled { commands : list string }.

Record ApplyContext := mkApplyContext {
  manager_ip : string;
  manager_port : Z;
  ctx_default_input_policy : option string;
  ctx_default_output_policy : option string
}.

Record ApplyResult := mkApplyResult {
  applied : nat;
  failed : nat;
  snapshot_hash : string;
  apply_error : option string
}.

Record NormalizedSnapshot := mkSnapshot { snap_rules : list string; snap_hash : string }.

Record BackendStatus := mkBackendStatus {
  active : bool;
  default_policy_in : string;
  default_policy_out : string
}.

(** ** Compiling rules *)

Definition port_range (start end_ : option Z) : option string :=
  match start, end_ with
  | Some s, Some e => if bool_decide (s = e) then Some (pretty s) else Some (pretty s +:+ ":" +:+ pretty e)
  | Some s, None => Some (pretty s)
  | _, _ => None
  end.

Definition compile_ufw_rule (r : FirewallRule) : string :=
  let cmd := "ufw" in
  let cmd := cmd +:+ match rule_action r with
    | Allow => " allow" | Deny => " deny" | Reject => " reject"
    | Limit => " limit" | Masquerade => " masquerade" end in
  let cmd := if bool_decide (rule_direction r = Out) then cmd +:+ " out" else cmd in
  let cmd := if rule_log r then cmd +:+ " log" else cmd in
  let iface := if bool_decide (rule_direction r = Out) then interface_out r else interface_in r in
  let cmd := match iface with Some i => cmd +:+ " on " +:+ i | None => cmd end in
  let cmd := if bool_decide (rule_protocol r <> Any)
             then cmd +:+ " proto " +:+ to_lowercase (protocol_debug (rule_protocol r)) else cmd in
  let src := default "any" (src_cidr r) in
  let dst := default "any" (dst_cidr r) in
  let cmd := cmd +:+ " from " +:+ src in
  let cmd := match port_range (src_port_start r) (src_port_end r) with
             | Some range => cmd +:+ " port " +:+ range | None => cmd end in
  let cmd := cmd +:+ " to " +:+ dst in
  let cmd := match port_range (dst_port_start r) (dst_port_end r) with
             | Some range => cmd +:+ " port " +:+ range | None => cmd end in
  if negb (is_empty (rule_comment r))
  then cmd +:+ " comment '" +:+ remove_char "'" (rule_comment r) +:+ "'"
  else cmd.

(** The outbound allow to the manager, emitted before everything else. *)
Definition umbilical (ctx : ApplyContext) : string :=
  "ufw allow out from any to " +:+ manager_ip ctx +:+ " port " +:+ pretty (manager_port ctx) +:+
  " proto tcp comment 'fw-mgr-umbilical'".

Definition default_commands (ctx : ApplyContext) : list string :=
  match ctx_default_input_policy ctx with
  | Some p => ["ufw default " +:+ p +:+ " incoming"] | None => [] end ++
  match ctx_default_output_policy ctx with
  | Some p => ["ufw default " +:+ p +:+ " outgoing"] | None => [] end.

Definition ufw_compile (rules : list FirewallRule) (ctx : ApplyContext)
  : result CompiledRules BackendError :=
  Ok (mkCompiled (umbilical ctx :: default_commands ctx ++ map compile_ufw_rule rules)).

Definition compile_firewalld_rule (r : FirewallRule) : string :=
  let action := match rule_action r with
    | Allow => "accept" | Deny => "drop" | Reject => "reject"
    | Limit => "accept" | Masquerade => "masquerade" end in
  let proto := match rule_protocol r with
    | Any => "all" | p => to_lowercase (protocol_debug p) end in
  let src := default "0.0.0.0/0" (src_cidr r) in
  let port := match dst_port_start r with Some p => pretty p | None => "" end in
  let head := "firewall-cmd --permanent --add-rich-rule='rule family=ipv4 source address=" +:+
              DQ +:+ src +:+ DQ in
  if is_empty port then head +:+ " " +:+ action +:+ "'"
  else head +:+ " port port=" +:+ DQ +:+ port +:+ DQ +:+ " protocol=" +:+ DQ +:+ proto +:+ DQ +:+
       " " +:+ action +:+ "'".

Definition firewalld_compile (rules : list FirewallRule) (ctx : ApplyContext)
  : result CompiledRules BackendError :=
  Ok (mkCompiled (map compile_firewalld_rule rules)).

(** The backup path in a ufw reset collision error. *)
Definition collided_ufw_backup (stderr : string) : option string :=
  find_map (fun l =>
    s ← strip_prefix "ERROR: '" (trim l); strip_suffix "' already exists. Aborting" s)
    (lines stderr).

Section running.
Context {OS : HostOs} {SH : Shlex} {SHA : Sha256}.

(** [run_cmd]: (success, stdout, stderr); a failure to spawn is a failed command
    whose stderr is the error text. *)
Definition run_cmd {E} (cmd : string) (args : list string) : M Host E (bool * string * string) :=
  fun h => match spawn cmd args h with
           | (Ok o, h') => (Ok (out_success o, out_stdout o, out_stderr o), h')
           | (Err e, h') => (Ok (false, "", e), h')
           end.

(** The bounded retry of [ufw --force reset] after a backup-name collision. *)
Fixpoint ufw_reset_loop {E} (n : nat) (res : bool * string * string)
  : M Host E (bool * string * string) :=
  match n with
  | O => mret res
  | S n' =>
      let '(ok, _, stderr) := res in
      if (ok : bool) then mret res
      else match collided_ufw_backup stderr with
           | None => mret res
           | Some backup =>
               fun h => let '(removed, h') := remove_file backup h in
                        if (removed : bool)
                        then (run_cmd "ufw" ["--force"; "reset"] ≫= ufw_reset_loop n') h'
                        else (Ok res, h')
           end
  end.

Definition ufw_force_reset {E} : M Host E (bool * string * string) :=
  res ← run_cmd "ufw" ["--force"; "reset"]; ufw_reset_loop 8 res.

(** ** Snapshots *)

(** A status line without its [\[ N\] ] number. *)
Definition normalize_line (l : string) : string :=
  let trimmed := trim l in
  match after_char "]" trimmed with
  | Some rest => trim rest
  | None => trimmed
  end.

Definition non_empty_lines (ls : list string) : list string :=
  List.filter (fun l => negb (is_empty l)) ls.

Definition hash_lines (ls : list string) : string :=
  sha256_hex (str_concat (map (fun l => l +:+ newline) ls)).

Definition snapshot_of (normalized : list string) : NormalizedSnapshot :=
  let sorted := merge_sort String.le normalized in
  mkSnapshot sorted (hash_lines sorted).

(** The rules listed by [ufw status numbered], after its two header lines. *)
Definition ufw_live_lines (stdout : string) : list string :=
  non_empty_lines (map normalize_line (drop 2 (lines stdout))).

Definition ufw_snapshot {E} : M Host E NormalizedSnapshot :=
  '(ok, stdout, _) ← run_cmd "ufw" ["status"; "numbered"];
  if (ok : bool)
  then mret (snapshot_of (ufw_live_lines stdout))
  else mret (mkSnapshot [] "").

Definition firewalld_snapshot {E} : M Host E NormalizedSnapshot :=
  '(ok, stdout, _) ← run_cmd "firewall-cmd" ["--list-all"];
  if (ok : bool)
  then mret (snapshot_of (non_empty_lines (map trim (lines stdout))))
  else mret (mkSnapshot [] "").

(** ** Container runtimes *)

Definition which {E} (cmd : string) : M Host E bool := fun h =>
  match spawn "which" [cmd] h with
  | (Ok o, h') => (Ok (out_success o), h')
  | (Err _, h') => (Ok false, h')
  end.

Definition detect_container_runtime {E} : M Host E (option string) :=
  docker ← gets (path_exists "/var/run/docker.sock");
  if (docker : bool) then mret (Some "docker") else
  podman ← which "podman";
  if (podman : bool) then mret (Some "podman") else
  k8s ← gets (env_is_set "KUBERNETES_SERVICE_HOST");
  if (k8s : bool) then mret (Some "kubernetes") else
  containerd ← gets (path_exists "/run/containerd/containerd.sock");
  if (containerd : bool) then mret (Some "containerd") else mret None.

(** ** Applying *)

(** The command loop both backends share: counts of applied and failed commands
    and the error texts. *)
Fixpoint apply_loop {E} (cmds : list string) (applied failed : nat) (errors : list string)
  : M Host E (nat * nat * list string) :=
  match cmds with
  | [] => mret (applied, failed, errors)
  | cmd :: rest =>
      match shlex_split cmd with
      | Some (prog :: args) =>
          '(ok, _, err) ← run_cmd prog args;
          if (ok : bool) then apply_loop rest (S applied) failed errors
          else apply_loop rest applied (S failed) (errors ++ [cmd +:+ ": " +:+ err])
      | _ => apply_loop rest applied (S failed) (errors ++ [cmd +:+ ": malformed command"])
      end
  end.

Definition errors_field (errors : list string) : option string :=
  match errors with [] => None | _ => Some (join "; " errors) end.

Definition ufw_apply (compiled : CompiledRules) : M Host BackendError ApplyResult :=
  _ ← detect_container_runtime;
  '(ok, _, err) ← ufw_force_reset;
  if negb ok then mret (mkApplyResult 0 0 "" (Some ("ufw reset failed: " +:+ err))) else
  '(ok, _, err) ← run_cmd "ufw" ["--force"; "enable"];
  if negb ok then mret (mkApplyResult 0 0 "" (Some ("ufw enable failed: " +:+ err))) else
  '(applied, failed, errors) ← apply_loop (commands compiled) 0 0 [];
  _ ← run_cmd "ufw" ["reload"];
  snapshot ← ufw_snapshot;
  mret (mkApplyResult applied failed (snap_hash snapshot) (errors_field errors)).

Definition firewalld_apply (compiled : CompiledRules) : M Host BackendError ApplyResult :=
  '(applied, failed, errors) ← apply_loop (commands compiled) 0 0 [];
  _ ← run_cmd "firewall-cmd" ["--reload"];
  snapshot ← firewalld_snapshot;
  mret (mkApplyResult applied failed (snap_hash snapshot) (errors_field errors)).

(** ** Reset and status *)

Definition ufw_reset : M Host BackendError unit :=
  '(ok, _, err) ← ufw_force_reset;
  if negb ok then throw (CommandFailed err) else mret tt.

Definition firewalld_reset : M Host BackendError unit :=
  '(ok, _, err) ← run_cmd "firewall-cmd" ["--permanent"; "--load-zone-defaults=public"];
  if negb ok && negb (contains "NO_DEFAULTS" err) then throw (CommandFailed err) else
  _ ← run_cmd "firewall-cmd" ["--reload"];
  mret tt.

Definition ufw_status : M Host BackendError BackendStatus :=
  '(ok, stdout, _) ← run_cmd "ufw" ["status"; "verbose"];
  mret (mkBackendStatus (ok && contains "Status: active" stdout)
          (if contains "deny (incoming)" stdout then "deny" else "allow")
          (if contains "allow (outgoing)" stdout then "allow" else "deny")).

Definition firewalld_status : M Host BackendError BackendStatus :=
  '(ok, stdout, _) ← run_cmd "firewall-cmd" ["--state"];
  '(default_ok, default_out, _) ← run_cmd "firewall-cmd" ["--get-default-zone"];
  let default_zone := if (default_ok : bool) then trim default_out else "public" in
  mret (mkBackendStatus (ok && bool_decide (trim stdout = "running")) default_zone default_zone).

(** ** The trait and its two implementations *)

Record FirewallBackend := mkBackend {
  backend_name : string;
  backend_compile : list FirewallRule -> ApplyContext -> result CompiledRules BackendError;
  backend_apply : CompiledRules -> M Host BackendError ApplyResult;
  backend_snapshot : M Host BackendError NormalizedSnapshot;
  backend_reset : M Host BackendError unit;
  backend_status : M Host BackendError BackendStatus
}.

Definition UfwBackend : FirewallBackend :=
  mkBackend "ufw" ufw_compile ufw_apply ufw_snapshot ufw_reset ufw_status.

Definition FirewalldBackend : FirewallBackend :=
  mkBackend "firewalld" firewalld_compile firewalld_apply firewalld_snapshot
    firewalld_reset firewalld_status.

(** ** Detection *)

Definition ufw_is_active {E} : M Host E bool := fun h =>
  match spawn "ufw" ["status"] h with
  | (Ok o, h') => (Ok (contains "Status: active" (out_stdout o)), h')
  | (Err _, h') => (Ok false, h')
  end.

Definition firewalld_is_active {E} : M Host E bool := fun h =>
  match spawn "firewall-cmd" ["--state"] h with
  | (Ok o, h') => (Ok (bool_decide (trim (out_stdout o) = "running")), h')
  | (Err _, h') => (Ok false, h')
  end.

Definition detect {E} : M Host E (option FirewallBackend) :=
  _ ← detect_container_runtime;
  has_ufw ← which "ufw";
  ufw_on ← (if (has_ufw : bool) then ufw_is_active else mret false);
  if (ufw_on : bool) then mret (Some UfwBackend) else
  has_fwd ← which "firewall-cmd";
  fwd_on ← (if (has_fwd : bool) then firewalld_is_active else mret false);
  if (fwd_on : bool) then mret (Some FirewalldBackend) else mret None.
End running.

Example collided_ex :
  collided_ufw_backup ("ERROR: '/etc/ufw/before.rules.20260827_222613' already exists. Aborting" +:+ newline)
  = Some "/etc/ufw/before.rules.20260827_222613" /\
  collided_ufw_backup "ERROR: something else" = None.
Proof. by vm_compute. Qed.
