(* ===== verification/ShellWords.v ===== *)
(** * ShellWords: what [shlex::split] promises

    The agent splits the command lines it compiled with the [shlex] crate, which
    follows the POSIX shell: words are separated by blanks, and text between
    single quotes is taken literally. This file states that contract as a class
    and gives one splitter that meets it. *)

From S2P Require Import Prelude Text Backend.

(** A word as it is written: pieces of plain text and of single-quoted text. *)
Inductive segment := Bare (s : string) | Quoted (s : string).

Definition seg_text (g : segment) : string := match g with Bare s | Quoted s => s end.
Definition seg_render (g : segment) : string :=
  match g with Bare s => s | Quoted s => "'" +:+ s +:+ "'" end.

(** Characters with no meaning to the shell's word splitting. *)
Definition bare_char (c : ascii) : bool :=
  negb (Ascii.is_space c) && negb (bool_decide (c = "'"%char)) && negb (bool_decide (c = "034"%char)) &&
  negb (bool_decide (c = "\"%char)) && negb (bool_decide (c = "#"%char)).
Definition bare_word (s : string) : bool := negb (is_empty s) && str_forallb bare_char s.
Definition quotable (s : string) : bool :=
  negb (str_existsb (fun d => bool_decide ("'"%char = d)) s).

Definition seg_ok (g : segment) : bool :=
  match g with Bare s => bare_word s | Quoted s => quotable s end.

Definition word_text (w : list segment) : string := str_concat (map seg_text w).
Definition word_render (w : list segment) : string := str_concat (map seg_render w).
Definition word_ok (w : list segment) : Prop := w <> [] /\ Forall (fun g => seg_ok g = true) w.

(** The documented behaviour of [shlex::split] on such words. *)
Class ShlexLaws `{!Shlex} := {
  shlex_words : forall ws, Forall word_ok ws ->
    shlex_split (join " " (map word_render ws)) = Some (map word_text ws)
}.

(** A program and its arguments, each preceded by a blank. *)
Definition spaced (ws : list string) : string := str_concat (map (fun w => " " +:+ w) ws).

Lemma spaced_app l1 l2 : spaced (l1 ++ l2) = spaced l1 +:+ spaced l2.
Proof. unfold spaced. induction l1 as [|w l1 IH]; [done|]. cbn [map app str_concat]. by rewrite IH, str_app_assoc. Qed.

Lemma join_spaced w ws : join " " (w :: ws) = w +:+ spaced ws.
Proof.
  revert w. induction ws as [|v ws IH]; intros w; [by rewrite str_app_nil_r|].
  change (join " " (w :: v :: ws)) with (w +:+ " " +:+ join " " (v :: ws)).
  rewrite IH. unfold spaced. cbn [map str_concat]. by rewrite !str_app_assoc.
Qed.

(** ** A splitter that meets the contract

    A scanner over three states: between words, inside a word, inside single
    quotes. Double quotes and backslashes are outside the contract. *)
Inductive scan := Between | InWord (acc : string) | InQuote (acc : string).

Fixpoint toy_scan (st : scan) (s : string) : option (list string) :=
  match s with
  | "" => match st with Between => Some [] | InWord acc => Some [acc] | InQuote _ => None end
  | String c s' =>
      match st with
      | Between =>
          if Ascii.is_space c then toy_scan Between s'
          else if bool_decide (c = "'"%char) then toy_scan (InQuote "") s'
          else toy_scan (InWord (String c "")) s'
      | InWord acc =>
          if Ascii.is_space c then cons acc <$> toy_scan Between s'
          else if bool_decide (c = "'"%char) then toy_scan (InQuote acc) s'
          else toy_scan (InWord (acc +:+ String c "")) s'
      | InQuote acc =>
          if bool_decide (c = "'"%char) then toy_scan (InWord acc) s'
          else toy_scan (InQuote (acc +:+ String c "")) s'
      end
  end.

Definition toy_shlex : Shlex := {| shlex_split := toy_scan Between |}.

Lemma toy_scan_bare acc s rest : str_forallb bare_char s = true ->
  toy_scan (InWord acc) (s +:+ rest) = toy_scan (InWord (acc +:+ s)) rest.
Proof.
  revert acc. induction s as [|c s IH]; intros acc Hs; [by rewrite str_app_nil_r|].
  simpl in Hs. apply andb_true_iff in Hs as [Hc Hs]. unfold bare_char in Hc.
  rewrite !andb_true_iff, !negb_true_iff in Hc. destruct Hc as [[[[Hsp Hq] _] _] _].
  rewrite str_app_cons. cbn [toy_scan]. rewrite Hsp, Hq, IH by done.
  by rewrite <- str_app_assoc.
Qed.

Lemma toy_scan_quote acc s rest : quotable s = true ->
  toy_scan (InQuote acc) (s +:+ "'" +:+ rest) = toy_scan (InWord (acc +:+ s)) rest.
Proof.
  unfold quotable. rewrite negb_true_iff.
  revert acc. induction s as [|c s IH]; intros acc Hs; [by rewrite str_app_nil_r|].
  simpl in Hs. apply orb_false_iff in Hs as [Hc%bool_decide_eq_false_1 Hs].
  rewrite str_app_cons. cbn [toy_scan]. rewrite bool_decide_eq_false_2 by congruence.
  rewrite IH by done. by rewrite <- str_app_assoc.
Qed.

Lemma toy_scan_segments acc w rest : Forall (fun g => seg_ok g = true) w ->
  toy_scan (InWord acc) (word_render w +:+ rest) = toy_scan (InWord (acc +:+ word_text w)) rest.
Proof.
  intros Hw. revert acc. induction Hw as [|g w Hg _ IH]; intros acc; [by rewrite str_app_nil_r|].
  unfold word_render, word_text in *. cbn [map str_concat]. rewrite <- !str_app_assoc.
  destruct g as [s|s]; simpl in Hg; cbn [seg_render seg_text].
  - apply andb_true_iff in Hg as [_ Hg]. rewrite toy_scan_bare, IH by done. by rewrite !str_app_assoc.
  - rewrite <- !str_app_assoc. change ("'" +:+ ?x) with (String "'" x). cbn [toy_scan].
    change (String "'" ?x) with ("'" +:+ x).
    rewrite toy_scan_quote, IH by done. by rewrite !str_app_assoc.
Qed.

Lemma toy_scan_word w rest : word_ok w ->
  toy_scan Between (word_render w +:+ rest) = toy_scan (InWord (word_text w)) rest.
Proof.
  intros [Hne Hw]. destruct Hw as [|g w Hg Hw]; [done|].
  unfold word_render, word_text. cbn [map str_concat]. rewrite <- !str_app_assoc.
  destruct g as [[|c s]|s]; cbn [seg_render seg_text seg_ok] in *; [done| |].
  - apply andb_true_iff in Hg as [_ [Hc Hs]%andb_true_iff]. unfold bare_char in Hc.
    rewrite !andb_true_iff, !negb_true_iff in Hc. destruct Hc as [[[[Hsp Hq] _] _] _].
    rewrite str_app_cons. cbn [toy_scan]. rewrite Hsp, Hq.
    rewrite toy_scan_bare by done. fold (word_render w) (word_text w).
    by rewrite toy_scan_segments.
  - rewrite <- !str_app_assoc. change ("'" +:+ ?x) with (String "'" x). cbn [toy_scan].
    change (String "'" ?x) with ("'" +:+ x).
    rewrite toy_scan_quote by done. fold (word_render w) (word_text w). by rewrite toy_scan_segments.
Qed.

Lemma toy_shlex_laws : @ShlexLaws toy_shlex.
Proof.
  split. intros ws Hws. simpl. induction Hws as [|w ws Hw Hws IH]; [done|].
  cbn [map]. rewrite join_spaced. rewrite toy_scan_word by done.
  destruct ws as [|v ws]; [done|]. cbn [map] in *. rewrite join_spaced in IH.
  unfold spaced at 1. cbn [map str_concat]. change (str_concat _) with (spaced (map word_render ws)).
  rewrite <- str_app_assoc. change (" " +:+ ?x) with (String " " x). cbn [toy_scan].
  change (Ascii.is_space " ") with true. cbv iota. by rewrite IH.
Qed.
