(* ===== verification/UfwCompile.v ===== *)
(** * UfwCompile: what a compiled ufw command line says

    The argument vectors [ufw] receives once [shlex] has split the lines of
    [compile_ufw_rule] and of the umbilical: one per rule, in rule order, with
    the comment as a single argument. *)

From S2P Require Import Prelude Text Models Backend ShellWords.

(** The words of one rule, as they are written on the command line. *)
Definition ufw_rule_words (r : FirewallRule) : list segment :=
  (Bare <$>
  ([action_as_str (rule_action r)] ++
   (if bool_decide (rule_direction r = Out) then ["out"] else []) ++
   (if rule_log r then ["log"] else []) ++
   (match (if bool_decide (rule_direction r = Out) then interface_out r else interface_in r) with
    | Some i => ["on"; i] | None => [] end) ++
   (if bool_decide (rule_protocol r = Any) then [] else ["proto"; protocol_as_str (rule_protocol r)]) ++
   ["from"; default "any" (src_cidr r)] ++
   (match port_range (src_port_start r) (src_port_end r) with Some p => ["port"; p] | None => [] end) ++
   ["to"; default "any" (dst_cidr r)] ++
   (match port_range (dst_port_start r) (dst_port_end r) with Some p => ["port"; p] | None => [] end))) ++
  (if is_empty (rule_comment r) then []
   else [Bare "comment"; Quoted (remove_char "'" (rule_comment r))]).

(** The arguments [ufw] is run with for a rule. *)
Definition ufw_args (r : FirewallRule) : list string := seg_text <$> ufw_rule_words r.

(** The free-text fields of a rule are single shell words. The manager does not
    enforce this for the interface names. *)
Definition opt_bare (o : option string) : bool := match o with Some s => bare_word s | None => true end.
Definition rule_words_ok (r : FirewallRule) : Prop :=
  opt_bare (src_cidr r) = true /\ opt_bare (dst_cidr r) = true /\
  opt_bare (interface_in r) = true /\ opt_bare (interface_out r) = true.

(** ** The printed line is the words *)

Lemma cmd_opt (cmd : string) (b : bool) (t : string) (ws : list string) :
  t = spaced ws -> (if b then cmd +:+ t else cmd) = cmd +:+ spaced (if b then ws else []).
Proof. intros ->. destruct b; [done|]. by rewrite str_app_nil_r. Qed.

Lemma cmd_match {A} (cmd : string) (o : option A) (t : A -> string) (ws : A -> list string) :
  (forall a, t a = spaced (ws a)) ->
  match o with Some a => cmd +:+ t a | None => cmd end =
  cmd +:+ spaced (match o with Some a => ws a | None => [] end).
Proof. intros H. destruct o; [by rewrite H|]. by rewrite str_app_nil_r. Qed.

Lemma spaced_two a b : spaced [a; b] = " " +:+ a +:+ " " +:+ b.
Proof. unfold spaced. cbn [map str_concat]. by rewrite str_app_nil_r, <- str_app_assoc. Qed.

Lemma lower_debug p : to_lowercase (protocol_debug p) = protocol_as_str p.
Proof. by destruct p. Qed.

Lemma render_bare (l : list string) : map seg_render (Bare <$> l) = l.
Proof. induction l as [|s l IH]; [done|]. rewrite fmap_cons. cbn [map seg_render]. by rewrite IH. Qed.

Lemma text_bare (l : list string) : seg_text <$> (Bare <$> l) = l.
Proof. rewrite <- list_fmap_compose. by rewrite list_fmap_id. Qed.

(** [compile_ufw_rule] prints ["ufw"] followed by the words of the rule. *)
Lemma compile_ufw_rule_words r :
  compile_ufw_rule r = "ufw" +:+ spaced (map seg_render (ufw_rule_words r)).
Proof.
  unfold compile_ufw_rule, ufw_rule_words. cbv zeta.
  rewrite map_app, render_bare, !spaced_app.
  rewrite (cmd_opt _ (bool_decide (rule_direction r = Out)) " out" ["out"]) by done.
  rewrite (cmd_opt _ (rule_log r) " log" ["log"]) by done.
  rewrite (cmd_match _ (if bool_decide _ then _ else _) (fun i => " on " +:+ i) (fun i => ["on"; i]))
    by (intros; by rewrite spaced_two).
  rewrite (cmd_opt _ (bool_decide (rule_protocol r <> Any)) _
             ["proto"; protocol_as_str (rule_protocol r)])
    by (by rewrite spaced_two, lower_debug).
  rewrite !(cmd_match _ (port_range _ _) (fun p => " port " +:+ p) (fun p => ["port"; p]))
    by (intros; by rewrite spaced_two).
  assert ((if bool_decide (rule_protocol r <> Any) then ["proto"; protocol_as_str (rule_protocol r)] else [])
    = (if bool_decide (rule_protocol r = Any) then [] else ["proto"; protocol_as_str (rule_protocol r)])) as ->
    by by destruct (rule_protocol r).
  assert ("ufw" +:+ match rule_action r with
    | Allow => " allow" | Deny => " deny" | Reject => " reject"
    | Limit => " limit" | Masquerade => " masquerade" end
    = "ufw" +:+ spaced [action_as_str (rule_action r)]) as -> by by destruct (rule_action r).
  assert (forall c s, c +:+ " from " +:+ s = c +:+ spaced ["from"; s]) as Hfrom
    by (intros; by rewrite spaced_two).
  assert (forall c s, c +:+ " to " +:+ s = c +:+ spaced ["to"; s]) as Hto
    by (intros; by rewrite spaced_two).
  rewrite Hfrom, Hto. destruct (is_empty (rule_comment r)); cbn [negb map seg_render].
  - by rewrite str_app_nil_r, !str_app_assoc.
  - rewrite !spaced_two. change " comment '" with (" " +:+ "comment" +:+ " " +:+ "'").
    by rewrite !str_app_assoc.
Qed.

(** ** The words are well formed *)

Lemma pretty_digit_char n : (n < 10)%N -> bare_char (pretty_N_char n) = true.
Proof.
  intros Hn.
  assert (forallb (fun k => bare_char (pretty_N_char (N.of_nat k))) (seq 0 10) = true) as Hall by reflexivity.
  rewrite forallb_forall in Hall. specialize (Hall (N.to_nat n)).
  rewrite N2Nat.id in Hall. apply Hall, in_seq. lia.
Qed.

Lemma forallb_app f a b : str_forallb f (a +:+ b) = str_forallb f a && str_forallb f b.
Proof. induction a as [|c a IH]; [done|]. rewrite str_app_cons. simpl. by rewrite IH, andb_assoc. Qed.

Lemma pretty_N_go_bare n s :
  str_forallb bare_char s = true -> str_forallb bare_char (pretty_N_go n s) = true.
Proof.
  revert s. induction (N.lt_wf_0 n) as [n _ IH]; intros s Hs.
  destruct (decide (0 < n)%N) as [Hn|Hn].
  - rewrite pretty_N_go_step by done. apply IH; [apply N.div_lt; lia|].
    cbn [str_forallb]. rewrite pretty_digit_char, Hs; [done|]. apply N.mod_lt. lia.
  - assert (n = 0)%N as -> by lia. by rewrite pretty_N_go_0.
Qed.

Lemma pretty_N_go_nonempty n s : is_empty s = false -> is_empty (pretty_N_go n s) = false.
Proof.
  revert s. induction (N.lt_wf_0 n) as [n _ IH]; intros s Hs.
  destruct (decide (0 < n)%N) as [Hn|Hn].
  - rewrite pretty_N_go_step by done. apply IH; [apply N.div_lt; lia|done].
  - assert (n = 0)%N as -> by lia. by rewrite pretty_N_go_0.
Qed.

Lemma pretty_N_bare (n : N) : bare_word (pretty n) = true.
Proof.
  unfold pretty, pretty_N, bare_word. case_decide as Hn; [done|].
  rewrite pretty_N_go_bare by done. rewrite pretty_N_go_step by lia.
  by rewrite pretty_N_go_nonempty.
Qed.

Lemma bare_word_app a b : bare_word a = true -> str_forallb bare_char b = true ->
  bare_word (a +:+ b) = true.
Proof.
  unfold bare_word. rewrite !andb_true_iff. intros [Hne Ha] Hb. split.
  - by destruct a.
  - rewrite forallb_app. by rewrite Ha, Hb.
Qed.

Lemma pretty_Z_bare (z : Z) : bare_word (pretty z) = true.
Proof.
  unfold pretty, pretty_Z. destruct z as [|p|p]; [done|apply pretty_N_bare|].
  apply (bare_word_app "-"); [done|].
  pose proof (pretty_N_bare (Npos p)) as H. unfold bare_word in H.
  by apply andb_true_iff in H as [_ H].
Qed.

Lemma port_range_bare s e : opt_bare (port_range s e) = true.
Proof.
  unfold port_range. destruct s as [s|], e as [e|]; simpl; [|apply pretty_Z_bare|done|done].
  case_bool_decide; simpl; [apply pretty_Z_bare|].
  apply bare_word_app; [apply pretty_Z_bare|].
  pose proof (pretty_Z_bare e) as He. unfold bare_word in He.
  apply andb_true_iff in He as [_ He]. by rewrite (forallb_app bare_char ":"), He.
Qed.

Lemma remove_quote_quotable s : quotable (remove_char "'" s) = true.
Proof. unfold quotable. by rewrite remove_char_none. Qed.

Lemma ufw_rule_words_ok r : rule_words_ok r -> Forall (fun g => seg_ok g = true) (ufw_rule_words r).
Proof.
  intros (Hs & Hd & Hi & Ho). unfold ufw_rule_words.
  pose proof (port_range_bare (src_port_start r) (src_port_end r)) as Hps.
  pose proof (port_range_bare (dst_port_start r) (dst_port_end r)) as Hpd.
  apply Forall_app. split.
  - apply Forall_fmap. unfold compose. cbn [seg_ok].
    repeat (apply Forall_app; split);
      repeat match goal with
      | |- Forall _ (if ?b then _ else _) => destruct b
      | |- Forall _ (match ?o with Some _ => _ | None => _ end) => destruct o eqn:?
      end; repeat constructor; simplify_eq/=; try done.
    all: try by destruct (rule_action r).
    all: try by destruct (rule_protocol r).
    all: try by destruct (src_cidr r).
    all: try by destruct (dst_cidr r).
    case_bool_decide; [rewrite Heqo in Ho|rewrite Heqo in Hi]; done.
  - destruct (is_empty _); repeat constructor. apply remove_quote_quotable.
Qed.

(** ** Splitting *)

Lemma map_singletons (f : segment -> string) (F : list segment -> string) (gs : list segment) :
  (forall g, F [g] = f g) -> map F ((fun g => [g]) <$> gs) = f <$> gs.
Proof.
  intros HF. induction gs as [|g gs IH]; [done|]. cbn. by rewrite HF; f_equal.
Qed.

Section split.
Context {SH : Shlex} {SHL : ShlexLaws}.

Lemma split_segments prog gs :
  bare_word prog = true -> Forall (fun g => seg_ok g = true) gs ->
  shlex_split (prog +:+ spaced (map seg_render gs)) = Some (prog :: (seg_text <$> gs)).
Proof.
  intros Hp Hgs. rewrite <- join_spaced.
  pose proof (shlex_words ([Bare prog] :: ((fun g => [g]) <$> gs))) as H.
  assert (Forall word_ok ([Bare prog] :: ((fun g => [g]) <$> gs))) as Hok.
  { constructor; [split; [done|by repeat constructor]|].
    apply Forall_fmap. eapply Forall_impl; [exact Hgs|]. intros g Hg.
    split; [done|by repeat constructor]. }
  specialize (H Hok). cbn [map] in H.
  rewrite (map_singletons seg_render), (map_singletons seg_text) in H.
  - unfold word_render, word_text in H. cbn [map str_concat seg_render seg_text] in H.
    rewrite !str_app_nil_r in H. exact H.
  - intros g. unfold word_text. cbn [map str_concat]. apply str_app_nil_r.
  - intros g. unfold word_render. cbn [map str_concat]. apply str_app_nil_r.
Qed.

(** [shlex::split] of a compiled ufw rule gives exactly the argument vector
    of the rule: action, direction, interface, protocol, addresses and port
    ranges each as their own arguments and the comment, whatever it holds, as a
    single last argument. So a comment cannot smuggle arguments into [ufw]. *)
Theorem ufw_rule_argv (r : FirewallRule) :
  rule_words_ok r -> shlex_split (compile_ufw_rule r) = Some ("ufw" :: ufw_args r).
Proof.
  intros Hr. rewrite compile_ufw_rule_words. apply split_segments; [done|].
  by apply ufw_rule_words_ok.
Qed.
End split.
