(* ===== verification/UfwApply.v ===== *)
(** * UfwApply: what an apply leaves on the host

    Properties of [UfwBackend::apply], of the retried reset and of the
    snapshots of [crates/fw-agent/src/backend/mod.rs]. The [ufw] program is
    known through [UfwLaws], its documented behaviour on its rule list. *)

From S2P Require Import Prelude Text Models Backend ShellWords UfwCompile.

(** ** The [ufw] program *)

Definition ufw_reset_args : list string := ["--force"; "reset"].
Definition ufw_rule_verbs : list string := ["allow"; "deny"; "reject"; "limit"; "masquerade"].
Definition is_rule_args (args : list string) : bool :=
  match args with v :: _ => bool_decide (v ∈ ufw_rule_verbs) | [] => false end.

(** The commands an apply runs besides the reset and the rules. *)
Definition is_keeping_args (args : list string) : bool :=
  bool_decide (args ∈ [["--force"; "enable"]; ["reload"]; ["status"; "numbered"]]) ||
  match args with [sub; _; _] => bool_decide (sub = "default") | _ => false end.

(** [ufw]'s own rule list, as the argument vectors that entered it. A successful
    reset empties it; a successful rule command whose match ([ufw_tuple]: the
    command less its action and comment) is new appends to it ([ufw] replaces a
    rule with the same match in place); the other commands of an apply, which switch
    the firewall on, reload it, set a default policy or ask for its status, leave
    the list as it is. *)
Class UfwLaws `{!HostOs} := {
  ufw_active_rules : Host -> list (list string);
  ufw_tuple : list string -> list string;
  ufw_reset_empties : forall h o h', spawn "ufw" ufw_reset_args h = (Ok o, h') ->
    out_success o = true -> ufw_active_rules h' = [];
  ufw_rule_appends : forall args h o h', spawn "ufw" args h = (Ok o, h') ->
    out_success o = true -> is_rule_args args = true ->
    ufw_tuple args ∉ (ufw_tuple <$> ufw_active_rules h) ->
    ufw_active_rules h' = ufw_active_rules h ++ [args];
  ufw_other_keeps : forall args h r h', spawn "ufw" args h = (r, h') ->
    is_keeping_args args = true -> ufw_active_rules h' = ufw_active_rules h
}.

(** The arguments of the umbilical. *)
Definition umbilical_args (ctx : ApplyContext) : list string :=
  ["allow"; "out"; "from"; "any"; "to"; manager_ip ctx; "port"; pretty (manager_port ctx);
   "proto"; "tcp"; "comment"; "fw-mgr-umbilical"].

Definition default_args (ctx : ApplyContext) : list (list string) :=
  match ctx_default_input_policy ctx with Some p => [["default"; p; "incoming"]] | None => [] end ++
  match ctx_default_output_policy ctx with Some p => [["default"; p; "outgoing"]] | None => [] end.

Definition ctx_words_ok (ctx : ApplyContext) : Prop :=
  bare_word (manager_ip ctx) = true /\ opt_bare (ctx_default_input_policy ctx) = true /\
  opt_bare (ctx_default_output_policy ctx) = true.

Section facts.
Context {OS : HostOs} {SH : Shlex} {SHA : Sha256}.

Lemma run_cmd_total {E} c args h : exists r h', @run_cmd _ E c args h = (Ok r, h').
Proof. unfold run_cmd. destruct (spawn c args h) as [[o|e] h']; eauto. Qed.

(** ** Accounting *)

(** The loop never fails, counts every command once, and records one error text
    per failed command. *)
Lemma apply_loop_counts {E} cmds a f errs h :
  exists a' f' errs' h',
    apply_loop (E:=E) cmds a f errs h = (Ok (a', f', errs ++ errs'), h') /\
    a' + f' = a + f + length cmds /\ f' = f + length errs'.
Proof.
  revert a f errs h. induction cmds as [|c cmds IH]; intros a f errs h.
  - exists a, f, [], h. rewrite app_nil_r. simpl. split_and!; [done|lia|lia].
  - assert (forall msg, exists a' f' errs' h',
      apply_loop (E:=E) cmds a (S f) (errs ++ [msg]) h = (Ok (a', f', errs ++ errs'), h') /\
      a' + f' = a + f + S (length cmds) /\ f' = f + length errs') as Hfail.
    { intros msg. destruct (IH a (S f) (errs ++ [msg]) h) as (a' & f' & es & h' & H & ? & ?).
      exists a', f', (msg :: es), h'. rewrite <- app_assoc in H. simpl. split_and!; [done|lia|lia]. }
    simpl. destruct (shlex_split c) as [[|prog args]|]; [apply Hfail| |apply Hfail].
    destruct (run_cmd_total (E:=E) prog args h) as ([[ok out] err] & h1 & Hrun).
    erewrite bind_ok by exact Hrun. destruct ok.
    + destruct (IH (S a) f errs h1) as (a' & f' & es & h' & H & ? & ?).
      exists a', f', es, h'. simpl. split_and!; [done|lia|lia].
    + destruct (IH a (S f) (errs ++ [c +:+ ": " +:+ err]) h1) as (a' & f' & es & h' & H & ? & ?).
      exists a', f', ((c +:+ ": " +:+ err) :: es), h'. rewrite <- app_assoc in H.
      simpl. split_and!; [done|lia|lia].
Qed.

Lemma errors_field_None errs : errors_field errs = None <-> errs = [].
Proof. by destruct errs. Qed.

Lemma ufw_snapshot_total {E} h : exists s h', ufw_snapshot (E:=E) h = (Ok s, h').
Proof.
  unfold ufw_snapshot.
  destruct (run_cmd_total (E:=E) "ufw" ["status"; "numbered"] h) as ([[ok out] err] & h1 & Hrun).
  erewrite bind_ok by exact Hrun. destruct ok; eexists _, _; reflexivity.
Qed.

Lemma ufw_reset_loop_total {E} n res h : exists r h', ufw_reset_loop (E:=E) n res h = (Ok r, h').
Proof.
  revert res h. induction n as [|n IH]; intros [[ok out] err] h; simpl; [by eexists _, _|].
  destruct ok; [by eexists _, _|]. destruct (collided_ufw_backup err) as [b|]; [|by eexists _, _].
  destruct (remove_file b h) as [[] h1]; [|by eexists _, _].
  destruct (run_cmd_total (E:=E) "ufw" ["--force"; "reset"] h1) as (r & h2 & Hrun).
  erewrite bind_ok by exact Hrun. apply IH.
Qed.

Lemma ufw_force_reset_total {E} h : exists r h', ufw_force_reset (E:=E) h = (Ok r, h').
Proof.
  unfold ufw_force_reset.
  destruct (run_cmd_total (E:=E) "ufw" ["--force"; "reset"] h) as (r & h2 & Hrun).
  erewrite bind_ok by exact Hrun. apply ufw_reset_loop_total.
Qed.

Lemma which_total {E} c h : exists b h', @which _ E c h = (Ok b, h').
Proof. unfold which. destruct (spawn "which" [c] h) as [[o|e] h']; eauto. Qed.

Lemma detect_container_total {E} h : exists rt, detect_container_runtime (E:=E) h =
  (Ok rt, final (detect_container_runtime (E:=E)) h).
Proof.
  unfold final, detect_container_runtime, gets, mbind, M_bind.
  destruct (path_exists "/var/run/docker.sock" h); [by eexists|].
  destruct (which_total (E:=E) "podman" h) as (b & h1 & ->). destruct b; [by eexists|].
  destruct (env_is_set _ h1); [by eexists|]. destruct (path_exists _ h1); by eexists.
Qed.

(** The host an apply starts its reset from: container detection runs first. *)
Definition after_detect (h : Host) : Host := final (detect_container_runtime (E:=BackendError)) h.

(** The shape of every ufw apply: which of its three exits it takes. *)
Inductive ufw_apply_run (c : CompiledRules) (h : Host) : ApplyResult -> Host -> Prop :=
  | run_reset_failed out err h1 :
      ufw_force_reset (E:=BackendError) (after_detect h) = (Ok (false, out, err), h1) ->
      ufw_apply_run c h (mkApplyResult 0 0 "" (Some ("ufw reset failed: " +:+ err))) h1
  | run_enable_failed ro out err h1 h2 :
      ufw_force_reset (E:=BackendError) (after_detect h) = (Ok (true, ro.1, ro.2), h1) ->
      run_cmd (E:=BackendError) "ufw" ["--force"; "enable"] h1 = (Ok (false, out, err), h2) ->
      ufw_apply_run c h (mkApplyResult 0 0 "" (Some ("ufw enable failed: " +:+ err))) h2
  | run_done ro eo rl a f errs snap h1 h2 h3 h4 h5 :
      ufw_force_reset (E:=BackendError) (after_detect h) = (Ok (true, ro.1, ro.2), h1) ->
      run_cmd (E:=BackendError) "ufw" ["--force"; "enable"] h1 = (Ok (true, eo.1, eo.2), h2) ->
      apply_loop (E:=BackendError) (commands c) 0 0 [] h2 = (Ok (a, f, errs), h3) ->
      a + f = length (commands c) -> f = length errs ->
      run_cmd (E:=BackendError) "ufw" ["reload"] h3 = (Ok rl, h4) ->
      ufw_snapshot (E:=BackendError) h4 = (Ok snap, h5) ->
      ufw_apply_run c h (mkApplyResult a f (snap_hash snap) (errors_field errs)) h5.

Lemma ufw_apply_inv c h : exists r h', ufw_apply c h = (Ok r, h') /\ ufw_apply_run c h r h'.
Proof.
  unfold ufw_apply. destruct (detect_container_total (E:=BackendError) h) as [rt Hrt].
  erewrite bind_ok by exact Hrt. fold (after_detect h).
  destruct (ufw_force_reset_total (E:=BackendError) (after_detect h)) as ([[ok out] err] & h1 & Hr).
  erewrite bind_ok by exact Hr. destruct ok; simpl; [|eexists _, _; by split; [|econstructor]].
  destruct (run_cmd_total (E:=BackendError) "ufw" ["--force"; "enable"] h1) as ([[ok' out'] err'] & h2 & He).
  erewrite bind_ok by exact He. destruct ok'; simpl.
  2: { eexists _, _. split; [done|]. by eapply (run_enable_failed c h (out, err)). }
  destruct (apply_loop_counts (E:=BackendError) (commands c) 0 0 [] h2) as (a & f & errs & h3 & Hl & Hn & Hf).
  erewrite bind_ok by exact Hl.
  destruct (run_cmd_total (E:=BackendError) "ufw" ["reload"] h3) as (rl & h4 & Hrl).
  erewrite bind_ok by exact Hrl.
  destruct (ufw_snapshot_total (E:=BackendError) h4) as (s & h5 & Hs).
  erewrite bind_ok by exact Hs. eexists _, _. split; [done|].
  by eapply (run_done c h (out, err) (out', err')).
Qed.

(** An apply always returns a result (never an error value), and its counts
    are honest: either the reset or the enable failed, no command ran and the
    result carries that error (with [failed = 0]), or every compiled command is
    counted exactly once as applied or failed and an error text is present
    exactly when a command failed. *)
Theorem ufw_apply_accounting (c : CompiledRules) (h : Host) :
  exists r h', ufw_apply c h = (Ok r, h') /\
    ((applied r = 0 /\ failed r = 0 /\ snapshot_hash r = "" /\ is_Some (apply_error r)) \/
     (applied r + failed r = length (commands c) /\
      (apply_error r = None <-> failed r = 0))).
Proof.
  destruct (ufw_apply_inv c h) as (r & h' & Hrun & Hr). exists r, h'. split; [done|].
  destruct Hr as [| |ro eo rl a f errs snap]; simpl; [left; eauto|left; eauto|right].
  split; [done|]. rewrite errors_field_None. subst f. by destruct errs.
Qed.

(** ** The retried reset *)

(** [collides k h h']: from [h], [k] resets in a row fail because a backup file is
    in the way, each of which can be deleted, and the next reset succeeds. *)
Inductive collides : nat -> Host -> Host -> Prop :=
  | collides_done h o h' :
      spawn "ufw" ufw_reset_args h = (Ok o, h') -> out_success o = true -> collides 0 h h'
  | collides_again k h o b h1 h2 h' :
      spawn "ufw" ufw_reset_args h = (Ok o, h1) -> out_success o = false ->
      collided_ufw_backup (out_stderr o) = Some b -> remove_file b h1 = (true, h2) ->
      collides k h2 h' -> collides (S k) h h'.

Lemma reset_loop_collides {E} n k h h' :
  collides k h h' ->
  exists r h'', (run_cmd "ufw" ["--force"; "reset"] ≫= ufw_reset_loop (E:=E) n) h = (Ok r, h'') /\
    r.1.1 = bool_decide (k <= n) /\ (k <= n -> h'' = h').
Proof.
  intros Hc. revert n. induction Hc as [h o h' Hs Ho|k h o b h1 h2 h' Hs Ho Hb Hrm Hc IH]; intros n;
    unfold ufw_reset_args in Hs.
  - eexists (_, _, _), h'. erewrite bind_ok by (unfold run_cmd; rewrite Hs; done).
    rewrite Ho. split_and!; [by destruct n|by rewrite bool_decide_eq_true_2 by lia|done].
  - erewrite bind_ok by (unfold run_cmd; rewrite Hs; done). rewrite Ho.
    destruct n as [|n]; simpl.
    + eexists (_, _, _), _. split_and!; [done|done|lia].
    + rewrite Hb, Hrm. destruct (IH n) as (r & h'' & Hrun & Hr & Hh). exists r, h''.
      split_and!; [done|rewrite Hr; apply bool_decide_ext; lia|intros; apply Hh; lia].
Qed.

(** [ufw_force_reset] recovers from backup-name collisions, and gives up after
    a bounded number of them: when [k] resets in a row collide with a deletable
    backup file and the next one would succeed, it reports success exactly if
    [k <= 8], leaving the host that reset produced. *)
Theorem ufw_force_reset_recovers (k : nat) (h h' : Host) :
  collides k h h' ->
  exists ok out err h'', ufw_force_reset (E:=BackendError) h = (Ok (ok, out, err), h'') /\
    (ok = true <-> k <= 8) /\ (k <= 8 -> h'' = h').
Proof.
  intros Hc. destruct (reset_loop_collides (E:=BackendError) 8 k h h' Hc) as ([[ok out] err] & h'' & Hr & Hok & Hh).
  exists ok, out, err, h''. split_and!; [exact Hr| |done].
  simpl in Hok. rewrite Hok. apply bool_decide_eq_true.
Qed.
End facts.

(** ** The rules an apply installs *)

Section install.
Context {OS : HostOs} {SH : Shlex} {SHA : Sha256} {UFW : UfwLaws} {SHL : ShlexLaws}.

Lemma umbilical_split ctx : bare_word (manager_ip ctx) = true ->
  shlex_split (umbilical ctx) = Some ("ufw" :: umbilical_args ctx).
Proof.
  intros Hip.
  assert (umbilical ctx = "ufw" +:+ spaced (map seg_render
    ((Bare <$> take 11 (umbilical_args ctx)) ++ [Quoted "fw-mgr-umbilical"]))) as ->.
  - unfold umbilical, spaced. cbn [umbilical_args take fmap list_fmap app map seg_render str_concat].
    rewrite str_app_nil_r, <- !str_app_assoc. done.
  - apply split_segments; [done|].
    repeat constructor; cbn [seg_ok]; [done|apply pretty_Z_bare].
Qed.

Lemma default_split p dir : bare_word p = true -> bare_word dir = true ->
  shlex_split ("ufw default " +:+ p +:+ " " +:+ dir) = Some ["ufw"; "default"; p; dir].
Proof.
  intros Hp Hd. assert ("ufw default " +:+ p +:+ " " +:+ dir =
    "ufw" +:+ spaced (map seg_render [Bare "default"; Bare p; Bare dir])) as ->.
  - unfold spaced. cbn [map str_concat seg_render]. rewrite str_app_nil_r, <- !str_app_assoc. done.
  - apply split_segments; [done|by repeat constructor].
Qed.

(** The argument vectors of a whole compiled policy. *)
Definition policy_args (rules : list FirewallRule) (ctx : ApplyContext) : list (list string) :=
  umbilical_args ctx :: default_args ctx ++ (ufw_args <$> rules).

Definition splits_to (cmd : string) (args : list string) : Prop :=
  shlex_split cmd = Some ("ufw" :: args).

Lemma default_commands_split ctx : ctx_words_ok ctx ->
  Forall2 splits_to (default_commands ctx) (default_args ctx).
Proof.
  intros (_ & Hi & Ho). unfold default_commands, default_args. apply Forall2_app;
    [destruct (ctx_default_input_policy ctx) as [p|]|destruct (ctx_default_output_policy ctx) as [p|]];
    repeat constructor; by apply default_split.
Qed.

Lemma policy_commands_split rules ctx :
  ctx_words_ok ctx -> Forall rule_words_ok rules ->
  Forall2 splits_to (umbilical ctx :: default_commands ctx ++ map compile_ufw_rule rules)
    (policy_args rules ctx).
Proof.
  intros Hctx Hrules. constructor; [by apply umbilical_split, Hctx|].
  apply Forall2_app; [by apply default_commands_split|].
  induction Hrules as [|r rules Hr _ IH]; constructor; [|done].
  unfold splits_to. rewrite compile_ufw_rule_words. apply split_segments; [done|].
  by apply ufw_rule_words_ok.
Qed.

(** Running such a command list without an error installs its rule commands, in
    order, after the rules already present. *)
Lemma apply_loop_installs {E} cmds argvs a f errs h a' f' h' :
  Forall2 splits_to cmds argvs -> Forall (fun x => is_rule_args x = false -> is_keeping_args x = true) argvs ->
  NoDup (ufw_tuple <$> (ufw_active_rules h ++ filter (fun x => is_rule_args x = true) argvs)) ->
  apply_loop (E:=E) cmds a f errs h = (Ok (a', f', errs), h') ->
  ufw_active_rules h' = ufw_active_rules h ++ filter (fun x => is_rule_args x = true) argvs.
Proof.
  intros Hs. revert a f errs h. induction Hs as [|cmd args cmds argvs Hc _ IH];
    intros a f errs h Hne Hnd Hrun; [inv_ret Hrun; by rewrite filter_nil, app_nil_r|].
  inversion Hne as [|? ? Hna Hne']; subst.
  simpl in Hrun. rewrite Hc in Hrun. unfold mbind, M_bind, run_cmd in Hrun.
  destruct (spawn "ufw" args h) as [[o|e] h1] eqn:Hsp; simpl in Hrun.
  - destruct (out_success o) eqn:Ho.
    + destruct (is_rule_args args) eqn:Hra.
      * rewrite filter_cons_True in Hnd |- * by done.
        assert (ufw_active_rules h1 = ufw_active_rules h ++ [args]) as Hh1.
        { eapply ufw_rule_appends; [done..|]. intros Hin.
          rewrite fmap_app, fmap_cons in Hnd. apply NoDup_app in Hnd as (_ & Hd & _).
          apply (Hd _ Hin). left. }
        erewrite (IH (S a)); [|done|by rewrite Hh1, <- app_assoc|done].
        by rewrite Hh1, <- app_assoc.
      * rewrite filter_cons_False in Hnd |- * by congruence.
        assert (ufw_active_rules h1 = ufw_active_rules h) as Hh1 by (eapply ufw_other_keeps; [done|by apply Hna]).
        erewrite (IH (S a)); [|done|by rewrite Hh1|done]. by rewrite Hh1.
    + destruct (apply_loop_counts (E:=E) cmds a (S f) (errs ++ [cmd +:+ ": " +:+ out_stderr o]) h1)
        as (? & ? & es & ? & Hl & _). rewrite Hl, <- app_assoc in Hrun.
      injection Hrun as _ _ Hbad _. by apply list_app_grow in Hbad.
  - destruct (apply_loop_counts (E:=E) cmds a (S f) (errs ++ [cmd +:+ ": " +:+ e]) h1)
      as (? & ? & es & ? & Hl & _). rewrite Hl, <- app_assoc in Hrun.
      injection Hrun as _ _ Hbad _. by apply list_app_grow in Hbad.
Qed.

Lemma run_ufw_keeps {E} args h r h' :
  run_cmd (E:=E) "ufw" args h = (Ok r, h') -> is_keeping_args args = true ->
  ufw_active_rules h' = ufw_active_rules h.
Proof.
  unfold run_cmd. destruct (spawn "ufw" args h) as [[o|e] h1] eqn:Hs; intros [= <- <-] Ha;
    by eapply ufw_other_keeps.
Qed.

Lemma ufw_snapshot_keeps {E} h s h' :
  ufw_snapshot (E:=E) h = (Ok s, h') -> ufw_active_rules h' = ufw_active_rules h.
Proof.
  unfold ufw_snapshot. intros H. apply bind_inv_ok in H as ([[ok out] err] & h1 & Hrun & H).
  apply run_ufw_keeps in Hrun; [|done..]. by destruct ok; inv_ret H.
Qed.

Lemma ufw_reset_loop_empties {E} n res h out err h' :
  (res.1.1 = true -> ufw_active_rules h = []) ->
  ufw_reset_loop (E:=E) n res h = (Ok (true, out, err), h') -> ufw_active_rules h' = [].
Proof.
  revert res h. induction n as [|n IH]; intros [[ok o] e] h Hres H; simpl in *.
  - inv_ret H. by apply Hres.
  - destruct ok; [inv_ret H; by apply Hres|].
    destruct (collided_ufw_backup e) as [b|]; [|inv_ret H].
    destruct (remove_file b h) as [[] h1]; [|inv_ret H].
    apply bind_inv_ok in H as (r & h2 & Hrun & H). apply (IH _ _) in H; [done|].
    unfold run_cmd in Hrun. destruct (spawn _ _ h1) as [[oo|ee] h3] eqn:Hs; simplify_eq/=; [|done].
    intros Hok. by eapply ufw_reset_empties.
Qed.

Lemma ufw_force_reset_empties {E} h out err h' :
  ufw_force_reset (E:=E) h = (Ok (true, out, err), h') -> ufw_active_rules h' = [].
Proof.
  unfold ufw_force_reset. intros H. apply bind_inv_ok in H as (r & h1 & Hrun & H).
  eapply ufw_reset_loop_empties; [|exact H]. unfold run_cmd in Hrun.
  destruct (spawn _ _ h) as [[oo|ee] h3] eqn:Hs; simplify_eq/=; [|done].
  intros Hok. by eapply ufw_reset_empties.
Qed.

Lemma ufw_args_is_rule r : is_rule_args (ufw_args r) = true.
Proof. unfold ufw_args, ufw_rule_words. by destruct (rule_action r). Qed.

Lemma filter_policy_args rules ctx :
  filter (fun x => is_rule_args x = true) (policy_args rules ctx) =
  umbilical_args ctx :: (ufw_args <$> rules).
Proof.
  unfold policy_args. rewrite filter_cons_True by done. f_equal. rewrite filter_app.
  assert (filter (fun x => is_rule_args x = true) (default_args ctx) = []) as ->.
  { unfold default_args. by destruct (ctx_default_input_policy ctx), (ctx_default_output_policy ctx). }
  simpl. induction rules as [|r rules IH]; [done|].
  rewrite fmap_cons, filter_cons_True by apply ufw_args_is_rule. by rewrite IH.
Qed.

Lemma policy_args_keep rules ctx : Forall (fun x => is_rule_args x = false -> is_keeping_args x = true) (policy_args rules ctx).
Proof.
  constructor; [done|]. apply Forall_app. split.
  - unfold default_args. destruct (ctx_default_input_policy ctx), (ctx_default_output_policy ctx);
      by repeat constructor.
  - apply Forall_fmap, Forall_true. intros r Heq. unfold compose in Heq. by rewrite ufw_args_is_rule in Heq.
Qed.

Lemma ufw_apply_installs_aux (rules : list FirewallRule) (ctx : ApplyContext) c h r h' :
  ctx_words_ok ctx -> Forall rule_words_ok rules ->
  NoDup (ufw_tuple <$> (umbilical_args ctx :: (ufw_args <$> rules))) ->
  ufw_compile rules ctx = Ok c -> ufw_apply c h = (Ok r, h') -> apply_error r = None ->
  ufw_active_rules h' = umbilical_args ctx :: (ufw_args <$> rules).
Proof.
  intros Hctx Hrules Hnd [= <-] Hrun Herr.
  destruct (ufw_apply_inv (mkCompiled (umbilical ctx :: default_commands ctx ++ map compile_ufw_rule rules)) h)
    as (r' & h'' & Hrun' & Hr). rewrite Hrun in Hrun'. simplify_eq.
  destruct Hr as [| |ro eo rl a f errs snap h1 h2 h3 h4 h5 Hreset Hen Hloop _ _ Hrl Hsn]; [done..|].
  cbn [commands apply_error] in *. apply errors_field_None in Herr as ->.
  apply ufw_force_reset_empties in Hreset. apply run_ufw_keeps in Hen; [|done..].
  rewrite Hreset in Hen.
  apply (apply_loop_installs _ (policy_args rules ctx)) in Hloop.
  - rewrite Hen, filter_policy_args in Hloop. apply run_ufw_keeps in Hrl; [|done..].
    apply ufw_snapshot_keeps in Hsn. by rewrite Hsn, Hrl, Hloop.
  - by apply policy_commands_split.
  - apply policy_args_keep.
  - by rewrite Hen, filter_policy_args.
Qed.

(** A ufw apply that reports no error has replaced the host's whole rule
    list: afterwards [ufw]'s active rules are exactly the umbilical to the
    manager, first, followed by one rule per policy rule in policy order (when
    no two of them have the same match). First match wins, so no policy rule
    can cut the host off from its manager. *)
Theorem ufw_apply_installs (rules : list FirewallRule) (ctx : ApplyContext) c h r h' :
  ctx_words_ok ctx -> Forall rule_words_ok rules ->
  NoDup (ufw_tuple <$> (umbilical_args ctx :: (ufw_args <$> rules))) ->
  ufw_compile rules ctx = Ok c -> ufw_apply c h = (Ok r, h') -> apply_error r = None ->
  ufw_active_rules h' = umbilical_args ctx :: (ufw_args <$> rules).
Proof. apply ufw_apply_installs_aux. Qed.
End install.

(** ** Snapshots *)

Section snapshots.
Context {SHA : Sha256}.

Definition no_lf (s : string) : Prop := str_existsb (fun d => bool_decide (LF = d)) s = false.

Lemma lf_line_inj l l' r r' : no_lf l -> no_lf l' ->
  l +:+ newline +:+ r = l' +:+ newline +:+ r' -> l = l' /\ r = r'.
Proof.
  unfold no_lf. revert l'. induction l as [|c l IH]; intros [|c' l'] Hl Hl' H; simpl in Hl, Hl'.
  - split; [done|]. by do 2 apply String.app_inj in H.
  - injection H as <- _. by rewrite bool_decide_eq_true_2 in Hl'.
  - injection H as -> _. by rewrite bool_decide_eq_true_2 in Hl.
  - rewrite !str_app_cons in H. injection H as -> H.
    apply orb_false_iff in Hl as [_ Hl]. apply orb_false_iff in Hl' as [_ Hl'].
    destruct (IH l' Hl Hl' H) as [-> ->]. done.
Qed.

Definition lines_text (ls : list string) : string := str_concat (map (fun l => l +:+ newline) ls).

Lemma lines_text_inj ls ls' : Forall no_lf ls -> Forall no_lf ls' -> lines_text ls = lines_text ls' -> ls = ls'.
Proof.
  unfold lines_text. intros Hls. revert ls'. induction Hls as [|l ls Hl _ IH]; intros ls' Hls' H.
  - destruct ls' as [|l' ls']; [done|]. by destruct l'.
  - destruct Hls' as [|l' ls' Hl' Hls']; [by destruct l|].
    cbn [map str_concat] in H. rewrite <- !str_app_assoc in H.
    apply lf_line_inj in H as [-> H]; [|done..]. f_equal. by apply IH.
Qed.

#[local] Instance str_le_anti : AntiSymm (=) String.le.
Proof. apply _. Qed.

Lemma snapshot_perm l l' : l ≡ₚ l' -> snapshot_of l = snapshot_of l'.
Proof.
  intros Hp. unfold snapshot_of. assert (merge_sort String.le l = merge_sort String.le l') as ->; [|done].
  apply (StronglySorted_unique String.le); try apply StronglySorted_merge_sort; try apply _.
  by rewrite !merge_sort_Permutation.
Qed.

Lemma snapshot_collision l l' : Forall no_lf l -> Forall no_lf l' ->
  snap_hash (snapshot_of l) = snap_hash (snapshot_of l') -> l ≡ₚ l' \/ sha256_collision.
Proof.
  intros Hl Hl' H. cbn [snapshot_of snap_hash] in H. unfold hash_lines in H.
  fold (lines_text (merge_sort String.le l)) (lines_text (merge_sort String.le l')) in H.
  destruct (decide (lines_text (merge_sort String.le l) = lines_text (merge_sort String.le l'))) as [Heq|Hne].
  - left. apply lines_text_inj in Heq; [|by rewrite merge_sort_Permutation..].
    by rewrite <- (merge_sort_Permutation String.le l), Heq, merge_sort_Permutation.
  - right. eexists _, _. split; [exact Hne|done].
Qed.

Lemma lines_no_lf s : Forall no_lf (lines s).
Proof.
  unfold no_lf. induction s as [|c s IH]; cbn [lines]; [constructor|].
  case_bool_decide as Hc; [by constructor|].
  destruct (bool_decide (c = CR) && starts_with newline s); [done|].
  destruct IH as [|l ls Hl Hls].
  - repeat constructor. simpl. by rewrite bool_decide_eq_false_2 by congruence.
  - constructor; [|done]. simpl. by rewrite bool_decide_eq_false_2 by congruence.
Qed.

Lemma trim_start_no_lf s : no_lf s -> no_lf (trim_start s).
Proof.
  unfold no_lf. induction s as [|c s IH]; [done|]. simpl. intros Hs.
  destruct (Ascii.is_space c); [|done]. apply IH. by apply orb_false_iff in Hs as [_ Hs].
Qed.

Lemma trim_end_no_lf s : no_lf s -> no_lf (trim_end s).
Proof.
  unfold no_lf. induction s as [|c s IH]; [done|]. simpl. intros [Hc Hs]%orb_false_iff.
  specialize (IH Hs). destruct (trim_end s) as [|d t].
  - destruct (Ascii.is_space c); [done|]. simpl. by rewrite Hc.
  - simpl in *. by rewrite Hc, IH.
Qed.

Lemma trim_no_lf s : no_lf s -> no_lf (trim s).
Proof. intros Hs. by apply trim_end_no_lf, trim_start_no_lf. Qed.

Lemma after_char_no_lf c s t : after_char c s = Some t -> no_lf s -> no_lf t.
Proof.
  unfold no_lf. induction s as [|d s IH]; [done|]. simpl. intros Ha [_ Hs]%orb_false_iff.
  case_bool_decide; [by simplify_eq|]. by apply IH.
Qed.

Lemma ufw_live_lines_no_lf stdout : Forall no_lf (ufw_live_lines stdout).
Proof.
  unfold ufw_live_lines, non_empty_lines.
  apply Forall_forall. intros l Hl. apply list_elem_of_In, List.filter_In in Hl as [Hl _].
  apply in_map_iff in Hl as (l0 & <- & Hl0). apply list_elem_of_In in Hl0.
  assert (no_lf l0) as Hn.
  { pose proof (Forall_drop _ 2 _ (lines_no_lf stdout)) as Hf. rewrite Forall_forall in Hf. by apply Hf. }
  unfold normalize_line. destruct (after_char "]" (trim l0)) as [t|] eqn:Ha; [|by apply trim_no_lf].
  apply trim_no_lf. by eapply after_char_no_lf, trim_no_lf.
Qed.

Context {OS : HostOs}.

(** Two snapshots of a ufw host have the same hash exactly when
    [ufw status numbered] lists the same rules with the same multiplicities, up
    to a SHA-256 collision: adding, removing or editing a live rule behind the
    agent's back is seen as drift; reordering the live rules is not. *)
Theorem ufw_snapshot_multiset {E} (h1 h2 : Host) o1 o2 h1' h2' s1 s2 k1 k2 :
  spawn "ufw" ["status"; "numbered"] h1 = (Ok o1, h1') -> out_success o1 = true ->
  spawn "ufw" ["status"; "numbered"] h2 = (Ok o2, h2') -> out_success o2 = true ->
  ufw_snapshot (E:=E) h1 = (Ok s1, k1) -> ufw_snapshot (E:=E) h2 = (Ok s2, k2) ->
  (ufw_live_lines (out_stdout o1) ≡ₚ ufw_live_lines (out_stdout o2) -> snap_hash s1 = snap_hash s2) /\
  (snap_hash s1 = snap_hash s2 ->
   ufw_live_lines (out_stdout o1) ≡ₚ ufw_live_lines (out_stdout o2) \/ sha256_collision).
Proof.
  intros H1 Ho1 H2 Ho2 Hs1 Hs2. unfold ufw_snapshot, run_cmd, mbind, M_bind in Hs1, Hs2.
  rewrite H1, Ho1 in Hs1. rewrite H2, Ho2 in Hs2. inv_ret Hs1. inv_ret Hs2. split.
  - intros Hp. exact (f_equal snap_hash (snapshot_perm _ _ Hp)).
  - apply snapshot_collision; apply ufw_live_lines_no_lf.
Qed.
End snapshots.

(** ** Witnesses: a host with a small [ufw] *)

(** The rules, and the backup files a reset would collide with. *)
Record ToyHost := mkToyHost { toy_rules : list (list string); toy_backups : list string }.

Definition toy_tuple (args : list string) : list string :=
  let body := drop 1 args in
  if bool_decide (body !! (length body - 2) = Some "comment") then take (length body - 2) body else body.

Definition toy_ok (out : string) : result Output string := Ok (mkOutput true out "").

Definition toy_status (h : ToyHost) : string :=
  "Status: active" +:+ newline +:+ newline +:+
  str_concat (map (fun r => "[ 1] " +:+ join " " r +:+ newline) (toy_rules h)).

Definition toy_spawn (prog : string) (args : list string) (h : ToyHost) : result Output string * ToyHost :=
  if negb (bool_decide (prog = "ufw")) then (Err "not found", h)
  else if bool_decide (args = ufw_reset_args) then
    match toy_backups h with
    | b :: _ => (Ok (mkOutput false "" ("ERROR: '" +:+ b +:+ "' already exists. Aborting")), h)
    | [] => (toy_ok "", mkToyHost [] [])
    end
  else if is_rule_args args then
    if bool_decide (toy_tuple args ∈ (toy_tuple <$> toy_rules h)) then (toy_ok "", h)
    else (toy_ok "", mkToyHost (toy_rules h ++ [args]) (toy_backups h))
  else (toy_ok (toy_status h), h).

Definition toy_os : HostOs := {|
  Host := ToyHost;
  spawn := toy_spawn;
  remove_file p h :=
    if bool_decide (p ∈ toy_backups h)
    then (true, mkToyHost (toy_rules h) (List.filter (fun b => negb (bool_decide (b = p))) (toy_backups h)))
    else (false, h);
  path_exists _ _ := false;
  env_is_set _ _ := false
|}.

Lemma toy_spawn_reset h o h' :
  toy_spawn "ufw" ufw_reset_args h = (Ok o, h') -> out_success o = true -> toy_rules h' = [].
Proof.
  unfold toy_spawn. rewrite (bool_decide_eq_true_2 (ufw_reset_args = ufw_reset_args)) by done.
  simpl. destruct (toy_backups h); intros [= <- <-]; done.
Qed.

Lemma toy_spawn_rule args h o h' :
  toy_spawn "ufw" args h = (Ok o, h') -> out_success o = true -> is_rule_args args = true ->
  toy_tuple args ∉ (toy_tuple <$> toy_rules h) -> toy_rules h' = toy_rules h ++ [args].
Proof.
  unfold toy_spawn. simpl. intros H Ho Ha Hn. rewrite Ha in H.
  rewrite (bool_decide_eq_false_2 (args = _)) in H by (intros ->; done).
  rewrite bool_decide_eq_false_2 in H by done. by inversion H.
Qed.

Lemma toy_spawn_other args h r h' :
  toy_spawn "ufw" args h = (r, h') -> is_keeping_args args = true ->
  toy_rules h' = toy_rules h.
Proof.
  unfold toy_spawn, is_keeping_args. intros H Ha. assert (is_rule_args args = false /\ args <> ufw_reset_args) as [Hr Hn].
  { apply orb_true_iff in Ha as [Ha%bool_decide_eq_true|Ha].
    - apply list_elem_of_In in Ha as [<-|[<-|[<-|[]]]]; done.
    - destruct args as [|x [|? [|? []]]]; try done. apply bool_decide_eq_true in Ha as ->. done. }
  simpl in H. rewrite Hr, (bool_decide_eq_false_2 (args = _)) in H by done. by inversion H.
Qed.

Definition toy_ufw : @UfwLaws toy_os :=
  @Build_UfwLaws toy_os toy_rules toy_tuple toy_spawn_reset toy_spawn_rule toy_spawn_other.

Definition ex_rule (n : N) (a : FirewallAction) (port : Z) : FirewallRule :=
  mkRule (uuid_of n) "r" "" a In Tcp (Some "10.0.0.0/8") None None None (Some port) None None None
    "it's a rule" false 0 None 0 0.
Definition ex_ctx : ApplyContext := mkApplyContext "192.0.2.10" 8444 (Some "deny") None.

Lemma ex_rule_words n a p : rule_words_ok (ex_rule n a p).
Proof. by split_and!. Qed.

Lemma ufw_rule_argv_witness :
  @shlex_split toy_shlex (compile_ufw_rule (ex_rule 1 Allow 22)) =
  Some ["ufw"; "allow"; "proto"; "tcp"; "from"; "10.0.0.0/8"; "to"; "any"; "port"; "22";
        "comment"; "its a rule"].
Proof. rewrite (@ufw_rule_argv toy_shlex toy_shlex_laws); [reflexivity|apply ex_rule_words]. Defined.

Definition ex_rules : list FirewallRule := [ex_rule 1 Allow 22; ex_rule 2 Deny 80].

Definition ex_compiled : CompiledRules :=
  mkCompiled (umbilical ex_ctx :: default_commands ex_ctx ++ map compile_ufw_rule ex_rules).

Lemma ufw_apply_installs_witness :
  exists r h', @ufw_apply toy_os toy_shlex toy_sha256 ex_compiled (mkToyHost [["deny"]] ["/b"]) = (Ok r, h') /\
    toy_rules h' = umbilical_args ex_ctx :: (ufw_args <$> ex_rules).
Proof.
  destruct (@ufw_apply toy_os toy_shlex toy_sha256 ex_compiled (mkToyHost [["deny"]] ["/b"]))
    as [[r|e] h'] eqn:Hrun; [|exfalso; revert Hrun; vm_compute; discriminate].
  exists r, h'. split; [done|].
  apply (@ufw_apply_installs toy_os toy_shlex toy_sha256 toy_ufw toy_shlex_laws
           ex_rules ex_ctx ex_compiled (mkToyHost [["deny"]] ["/b"]) r h').
  - by split_and!.
  - repeat constructor; apply ex_rule_words.
  - apply (bool_decide_unpack _). vm_compute. exact I.
  - reflexivity.
  - exact Hrun.
  - revert Hrun. vm_compute. intros H. by inversion H.
Defined.

Lemma ufw_force_reset_recovers_witness :
  exists ok out err h'',
    @ufw_force_reset toy_os BackendError (mkToyHost [["deny"]] ["/b"; "/c"]) = (Ok (ok, out, err), h'') /\
    (ok = true <-> 2 <= 8) /\ (2 <= 8 -> h'' = mkToyHost [] []).
Proof.
  apply (@ufw_force_reset_recovers toy_os 2 (mkToyHost [["deny"]] ["/b"; "/c"]) (mkToyHost [] [])).
  eapply (@collides_again toy_os 1); [reflexivity|reflexivity|reflexivity|reflexivity|].
  eapply (@collides_again toy_os 0); [reflexivity|reflexivity|reflexivity|reflexivity|].
  eapply (@collides_done toy_os); reflexivity.
Defined.

Lemma ufw_snapshot_multiset_witness :
  let h1 := mkToyHost [["allow"; "22"]; ["deny"; "80"]] [] in
  let h2 := mkToyHost [["deny"; "80"]; ["allow"; "22"]] [] in
  exists s1 s2, @ufw_snapshot toy_os toy_sha256 unit h1 = (Ok s1, h1) /\
    @ufw_snapshot toy_os toy_sha256 unit h2 = (Ok s2, h2) /\ snap_hash s1 = snap_hash s2.
Proof.
  intros h1 h2.
  destruct (@ufw_snapshot toy_os toy_sha256 unit h1) as [[s1|e] k1] eqn:H1; [|done].
  destruct (@ufw_snapshot toy_os toy_sha256 unit h2) as [[s2|e] k2] eqn:H2; [|done].
  assert (k1 = h1) as -> by (revert H1; vm_compute; congruence).
  assert (k2 = h2) as -> by (revert H2; vm_compute; congruence).
  exists s1, s2. split_and!; [done..|].
  apply (@ufw_snapshot_multiset toy_sha256 toy_os unit h1 h2 _ _ h1 h2 s1 s2 h1 h2
           eq_refl eq_refl eq_refl eq_refl H1 H2).
  apply (bool_decide_unpack _). vm_compute. exact I.
Defined.
