(* ===== verification/Firewalld.v ===== *)
(** * Firewalld: what an apply leaves on a firewalld host

    Properties of [FirewalldBackend] of [crates/fw-agent/src/backend/mod.rs]. The
    [firewall-cmd] program is known through [FirewalldLaws], its documented
    behaviour on the rich rules of the default zone. *)

From S2P Require Import Prelude Text Models Backend ShellWords UfwCompile UfwApply.

(** ** The [firewall-cmd] program *)

Definition add_rich_args (rule : string) : list string := ["--permanent"; "--add-rich-rule=" +:+ rule].
Definition query_args : list (list string) := [["--list-all"]; ["--state"]; ["--get-default-zone"]].

(** The permanent and the running rich rules. Adding one that is there already is a
    success with a warning; a reload makes the permanent ones the running ones; a
    command that fails changes nothing. *)
Class FirewalldLaws `{!HostOs} := {
  fwd_permanent : Host -> gset string;
  fwd_runtime : Host -> gset string;
  fwd_add : forall rule h o h', spawn "firewall-cmd" (add_rich_args rule) h = (Ok o, h') -> out_success o = true ->
    fwd_permanent h' = {[rule]} ∪ fwd_permanent h /\ fwd_runtime h' = fwd_runtime h;
  fwd_add_fails : forall rule h r h', spawn "firewall-cmd" (add_rich_args rule) h = (r, h') ->
    (forall o, r = Ok o -> out_success o = false) -> fwd_permanent h' = fwd_permanent h /\ fwd_runtime h' = fwd_runtime h;
  fwd_reload : forall h o h', spawn "firewall-cmd" ["--reload"] h = (Ok o, h') -> out_success o = true ->
    fwd_permanent h' = fwd_permanent h /\ fwd_runtime h' = fwd_permanent h;
  fwd_reload_fails : forall h r h', spawn "firewall-cmd" ["--reload"] h = (r, h') ->
    (forall o, r = Ok o -> out_success o = false) -> fwd_permanent h' = fwd_permanent h /\ fwd_runtime h' = fwd_runtime h;
  fwd_query : forall args h r h', args ∈ query_args -> spawn "firewall-cmd" args h = (r, h') ->
    fwd_permanent h' = fwd_permanent h /\ fwd_runtime h' = fwd_runtime h
}.

(** ** The rule *)

Definition fwd_action (r : FirewallRule) : string :=
  match rule_action r with Allow => "accept" | Deny => "drop" | Reject => "reject" | Limit => "accept" | Masquerade => "masquerade" end.
Definition fwd_protocol (r : FirewallRule) : string :=
  match rule_protocol r with Any => "all" | p => protocol_as_str p end.

(** The rich rule a rule compiles to. *)
Definition rich_rule (r : FirewallRule) : string :=
  "rule family=ipv4 source address=" +:+ DQ +:+ default "0.0.0.0/0" (src_cidr r) +:+ DQ +:+
  match dst_port_start r with
  | Some p => " port port=" +:+ DQ +:+ pretty p +:+ DQ +:+ " protocol=" +:+ DQ +:+ fwd_protocol r +:+ DQ
  | None => ""
  end +:+ " " +:+ fwd_action r.

Lemma pretty_Z_nonempty (z : Z) : is_empty (pretty z) = false.
Proof. pose proof (pretty_Z_bare z) as H. unfold bare_word in H. apply andb_true_iff in H as [H _]. by apply negb_true_iff in H. Qed.

Lemma compile_firewalld_rich r :
  compile_firewalld_rule r = "firewall-cmd --permanent --add-rich-rule='" +:+ rich_rule r +:+ "'".
Proof.
  unfold compile_firewalld_rule, rich_rule, fwd_action, fwd_protocol.
  assert (match rule_protocol r with Any => "all" | p => to_lowercase (protocol_debug p) end =
    match rule_protocol r with Any => "all" | p => protocol_as_str p end) as -> by by destruct (rule_protocol r).
  destruct (dst_port_start r) as [p|]; [rewrite pretty_Z_nonempty|cbn [is_empty]]; rewrite <- ?str_app_assoc; reflexivity.
Qed.

(** ** Quoting *)

Lemma quotable_app a b : quotable (a +:+ b) = quotable a && quotable b.
Proof.
  unfold quotable. induction a as [|c a IH]; [done|]. change (String c a +:+ b) with (String c (a +:+ b)). cbn [str_existsb].
  rewrite !negb_orb, IH. by rewrite andb_assoc.
Qed.

Lemma bare_quotable s : bare_word s = true -> quotable s = true.
Proof.
  unfold bare_word, quotable. intros [_ H]%andb_true_iff. induction s as [|c s IH]; [done|]. cbn [str_forallb str_existsb] in *.
  apply andb_true_iff in H as [Hc Hs]. rewrite negb_orb, IH by done. rewrite andb_true_r. unfold bare_char in Hc.
  rewrite !andb_true_iff, !negb_true_iff, !bool_decide_eq_false in Hc. destruct Hc as [[[[_ Hq] _] _] _].
  apply negb_true_iff, bool_decide_eq_false. congruence.
Qed.

Lemma rich_rule_quotable r : quotable (default "0.0.0.0/0" (src_cidr r)) = true -> quotable (rich_rule r) = true.
Proof.
  intros Hs. unfold rich_rule. rewrite !quotable_app, Hs.
  assert (quotable (fwd_action r) = true) as -> by (unfold fwd_action; by destruct (rule_action r)).
  destruct (dst_port_start r) as [p|]; [|done]. rewrite !quotable_app, (bare_quotable _ (pretty_Z_bare p)).
  assert (quotable (fwd_protocol r) = true) as -> by (unfold fwd_protocol; by destruct (rule_protocol r)). done.
Qed.

Section facts.
Context {OS : HostOs} {SH : Shlex} {SHA : Sha256} {SHL : ShlexLaws} {FWD : FirewalldLaws}.

(** The arguments [firewall-cmd] is run with for a rule. *)
Lemma firewalld_argv r : quotable (default "0.0.0.0/0" (src_cidr r)) = true ->
  shlex_split (compile_firewalld_rule r) = Some ("firewall-cmd" :: add_rich_args (rich_rule r)).
Proof.
  intros Hq. rewrite compile_firewalld_rich.
  pose proof (shlex_words [[Bare "firewall-cmd"]; [Bare "--permanent"]; [Bare "--add-rich-rule="; Quoted (rich_rule r)]]) as H.
  assert (join " " (map word_render [[Bare "firewall-cmd"]; [Bare "--permanent"]; [Bare "--add-rich-rule="; Quoted (rich_rule r)]]) =
    "firewall-cmd --permanent --add-rich-rule='" +:+ rich_rule r +:+ "'") as Hj.
  { unfold word_render. cbn [map seg_render str_concat join]. rewrite !str_app_nil_r. reflexivity. }
  rewrite Hj in H. rewrite H.
  - unfold word_text. cbn [map seg_text str_concat]. by rewrite !str_app_nil_r.
  - repeat constructor; try done. cbn [seg_ok]. by apply rich_rule_quotable.
Qed.

Lemma apply_loop_failed {E} cmds a f errs h a' f' errs' h' : apply_loop (E:=E) cmds a f errs h = (Ok (a', f', errs'), h') -> (f <= f')%nat.
Proof. intros H. destruct (apply_loop_counts (E:=E) cmds a f errs h) as (? & ? & ? & ? & H' & _ & Hf). rewrite H in H'. simplify_eq. lia. Qed.

Definition source_quotable (r : FirewallRule) : Prop := quotable (default "0.0.0.0/0" (src_cidr r)) = true.

Lemma firewalld_loop {E} rules a f errs h a' errs' h' : Forall source_quotable rules ->
  apply_loop (E:=E) (map compile_firewalld_rule rules) a f errs h = (Ok (a', 0%nat, errs'), h') ->
  fwd_permanent h' = list_to_set (map rich_rule rules) ∪ fwd_permanent h /\ fwd_runtime h' = fwd_runtime h.
Proof.
  intros Hq. revert a f errs h. induction Hq as [|r rules Hr _ IH]; intros a f errs h; cbn [map apply_loop list_to_set].
  - intros [= _ _ _ <-]. by rewrite (left_id_L ∅ (∪)).
  - rewrite (firewalld_argv r Hr). intros H. unfold run_cmd, mbind, M_bind in H.
    destruct (spawn "firewall-cmd" (add_rich_args (rich_rule r)) h) as [[o|e] h1] eqn:Hs; [destruct (out_success o) eqn:Ho|].
    + destruct (fwd_add _ _ _ _ Hs Ho) as [Hp1 Hr1]. destruct (IH _ _ _ _ H) as [Hp Hrt]. split; [|by rewrite Hrt].
      rewrite Hp, Hp1, (assoc_L (∪)). f_equal. apply (comm_L (∪)).
    + apply apply_loop_failed in H. lia.
    + apply apply_loop_failed in H. lia.
Qed.

(** [firewalld_snapshot] only asks. *)
Lemma firewalld_snapshot_keeps {E} h r h' : firewalld_snapshot (E:=E) h = (r, h') ->
  fwd_permanent h' = fwd_permanent h /\ fwd_runtime h' = fwd_runtime h.
Proof.
  unfold firewalld_snapshot, run_cmd, mbind, M_bind. destruct (spawn "firewall-cmd" ["--list-all"] h) as [x h1] eqn:Hs.
  apply fwd_query in Hs; [|by left]. destruct x as [o|e]; cbn.
  - destruct (out_success o); intros H; inv_ret H; exact Hs.
  - intros H. inv_ret H. exact Hs.
Qed.

Lemma reload_keeps {E} h r h' : run_cmd (E:=E) "firewall-cmd" ["--reload"] h = (r, h') ->
  fwd_permanent h' = fwd_permanent h /\ (fwd_runtime h' = fwd_permanent h \/ fwd_runtime h' = fwd_runtime h).
Proof.
  unfold run_cmd. destruct (spawn "firewall-cmd" ["--reload"] h) as [[o|e] h1] eqn:Hs.
  - intros [= _ <-]. destruct (out_success o) eqn:Ho; [destruct (fwd_reload _ _ _ Hs Ho); auto|].
    destruct (fwd_reload_fails _ _ _ Hs); [by intros ? [= <-]|auto].
  - intros [= _ <-]. destruct (fwd_reload_fails _ _ _ Hs); [done|auto].
Qed.

Lemma firewalld_apply_adds rules ctx compiled h res h' : Forall source_quotable rules ->
  firewalld_compile rules ctx = Ok compiled -> firewalld_apply compiled h = (Ok res, h') -> failed res = 0%nat ->
  fwd_permanent h' = list_to_set (map rich_rule rules) ∪ fwd_permanent h /\
  (fwd_runtime h' = fwd_permanent h' \/ fwd_runtime h' = fwd_runtime h).
Proof.
  intros Hq [= <-] H Hf. unfold firewalld_apply in H. apply bind_inv_ok in H as ([[a f] errs] & h1 & Hl & H).
  apply bind_inv_ok in H as (x & h2 & Hr & H). apply bind_inv_ok in H as (sn & h3 & Hsn & H). inv_ret H.
  destruct (firewalld_loop _ _ _ _ _ _ _ _ Hq Hl) as [Hp1 Hr1]. apply reload_keeps in Hr as [Hp2 Hr2].
  apply firewalld_snapshot_keeps in Hsn as [Hp3 Hr3]. rewrite Hp3, Hr3, Hp2, Hp1. split; [done|].
  destruct Hr2 as [->| ->]; [left; by rewrite Hp1|by right].
Qed.

(** Rulesets one after the other on a host, each applied without a failed command. *)
Inductive applied_all (ctx : ApplyContext) : list (list FirewallRule) -> Host -> Host -> Prop :=
  | aa_nil h : applied_all ctx [] h h
  | aa_cons rules rest compiled res h h1 h2 : firewalld_compile rules ctx = Ok compiled -> firewalld_apply compiled h = (Ok res, h1) ->
      failed res = 0%nat -> applied_all ctx rest h1 h2 -> applied_all ctx (rules :: rest) h h2.

(** C31. A firewalld host only gains rules: after any sequence of successful applies,
    its permanent rich rules are those it had and those of every ruleset it was
    ever sent. In particular a rule the manager has since removed or changed is
    still there, while the apply reports success. *)
Theorem firewalld_only_adds ctx (history : list (list FirewallRule)) (h h' : Host) :
  Forall (Forall source_quotable) history -> applied_all ctx history h h' ->
  fwd_permanent h' = list_to_set (map rich_rule (concat history)) ∪ fwd_permanent h.
Proof.
  intros Hq Ha. induction Ha as [h|rules rest compiled res h h1 h2 Hc Hap Hf Ha IH]; cbn [concat map list_to_set].
  - by rewrite (left_id_L ∅ (∪)).
  - apply Forall_cons in Hq as [Hq1 Hq2]. rewrite IH by done. destruct (firewalld_apply_adds _ _ _ _ _ _ Hq1 Hc Hap Hf) as [-> _].
    rewrite map_app, list_to_set_app_L, !(assoc_L (∪)). f_equal. apply (comm_L (∪)).
Qed.
End facts.

(** What the rich rule leaves out: the direction, the destination, the end of the
    port range, source ports, interfaces and logging. Two rules that differ only
    there are the same rule to the host, so a rule for outgoing traffic is
    enforced on incoming traffic. *)
Lemma firewalld_blind r r' : rule_action r = rule_action r' -> rule_protocol r = rule_protocol r' -> src_cidr r = src_cidr r' ->
  dst_port_start r = dst_port_start r' -> compile_firewalld_rule r = compile_firewalld_rule r'.
Proof. intros H1 H2 H3 H4. unfold compile_firewalld_rule. by rewrite H1, H2, H3, H4. Qed.

(** ** Witness *)

(** A [firewall-cmd] on two lists of rich rules. *)
Definition FwdHost : Type := list string * list string.
Definition fwd_spawn (prog : string) (args : list string) (h : FwdHost) : result Output string * FwdHost :=
  let done_with h' := (Ok (mkOutput true "ok" ""), h') in
  if negb (bool_decide (prog = "firewall-cmd")) then (Err "No such file or directory", h)
  else match args with
       | [a; b] => match strip_prefix "--add-rich-rule=" b with
                   | Some rule => if bool_decide (a = "--permanent") then done_with (rule :: h.1, h.2) else done_with h
                   | None => done_with h
                   end
       | [a] => if bool_decide (a = "--reload") then done_with (h.1, h.1) else done_with h
       | _ => done_with h
       end.
Definition fwd_os : HostOs := {|
  Host := FwdHost; spawn := fwd_spawn; remove_file _ h := (true, h); path_exists _ _ := false; env_is_set _ _ := false
|}.

Lemma fwd_spawn_add rule h : fwd_spawn "firewall-cmd" (add_rich_args rule) h = (Ok (mkOutput true "ok" ""), (rule :: h.1, h.2)).
Proof.
  unfold fwd_spawn, add_rich_args. rewrite bool_decide_eq_true_2 by done. cbn [negb].
  by rewrite (proj2 (strip_prefix_Some "--add-rich-rule=" _ rule) eq_refl), bool_decide_eq_true_2.
Qed.

Definition fwd_laws : @FirewalldLaws fwd_os.
Proof.
  refine (@Build_FirewalldLaws fwd_os (fun h : @Host fwd_os => list_to_set (fst (h : FwdHost)))
    (fun h : @Host fwd_os => list_to_set (snd (h : FwdHost))) _ _ _ _ _); cbn [Host spawn fwd_os].
  - intros rule h o h'. rewrite fwd_spawn_add. by intros [= <- <-] _.
  - intros rule h r h'. rewrite fwd_spawn_add. intros [= <- <-] Hf. by specialize (Hf _ eq_refl).
  - intros h o h' [= <- <-] _. done.
  - intros h r h' [= <- <-] Hf. by specialize (Hf _ eq_refl).
  - intros args h r h' Hin. unfold query_args in Hin.
    repeat (apply elem_of_cons in Hin as [->|Hin]; [by intros [= <- <-]|]). by apply not_elem_of_nil in Hin.
Defined.

Definition fwd_ctx : ApplyContext := mkApplyContext "192.0.2.9" 8443 None None.
Definition fwd_run (r : FirewallRule) : M FwdHost BackendError ApplyResult :=
  @firewalld_apply fwd_os toy_shlex toy_sha256 (mkCompiled (map compile_firewalld_rule [r])).
Definition fwd_old : FirewallRule := ex_rule 1 Allow 22.
Definition fwd_new : FirewallRule := ex_rule 2 Allow 443.

Lemma fwd_runs : exists res1 h1 res2 h2, fwd_run fwd_old ([], []) = (Ok res1, h1) /\ failed res1 = 0%nat /\
  fwd_run fwd_new h1 = (Ok res2, h2) /\ failed res2 = 0%nat.
Proof. do 4 eexists. split_and!; [vm_compute; reflexivity|reflexivity|vm_compute; reflexivity|reflexivity]. Qed.

Lemma firewalld_only_adds_witness :
  exists h', @applied_all fwd_os toy_shlex toy_sha256 fwd_ctx [[fwd_old]; [fwd_new]] ([], []) h' /\
    rich_rule fwd_old ∈ @fwd_permanent fwd_os fwd_laws h'.
Proof.
  destruct fwd_runs as (res1 & h1 & res2 & h2 & H1 & F1 & H2 & F2).
  assert (@applied_all fwd_os toy_shlex toy_sha256 fwd_ctx [[fwd_old]; [fwd_new]] ([], []) h2) as Ha.
  { eapply aa_cons; [reflexivity|exact H1|exact F1|]. eapply aa_cons; [reflexivity|exact H2|exact F2|apply aa_nil]. }
  exists h2. split; [exact Ha|].
  rewrite (@firewalld_only_adds fwd_os toy_shlex toy_sha256 toy_shlex_laws fwd_laws fwd_ctx [[fwd_old]; [fwd_new]] ([], []) h2
    ltac:(repeat constructor) Ha).
  apply elem_of_union_l, elem_of_list_to_set. left.
Defined.
