(* ===== verification/AgentState.v ===== *)
(** * AgentState: what the agent keeps in memory and on disk

    The agent's world, its configuration ([config.rs]), the expected snapshot
    hash ([drift.rs]), safe mode and the last applied ruleset ([safe_mode.rs])
    and the cache of executed actions ([replay_cache.rs]) of
    [crates/fw-agent/src]. *)

From S2P Require Import Prelude Text Files Models Backend.

(** ** Data *)

Record PullConfig := mkPullConfig {
  check_in_interval_secs : Z;
  manager_agent_url : string;
  config_version : Z
}.

Record AgentConfig := mkAgentConfig {
  manager_url : string;
  fqdn : string;
  host_id : option string;
  cert_dir : string;
  config_dir : string;
  log_dir : string;
  safe_mode_enabled : bool;
  safe_mode_timeout_secs : Z;
  protected_cidrs : list string;
  pull : PullConfig
}.

Definition default_check_in_interval : Z := 900.
Definition default_safe_mode_timeout : Z := 1800.

Definition AgentConfig_default : AgentConfig :=
  mkAgentConfig "" "" None "/etc/firewall-agent/certs" "/etc/firewall-agent" "/var/log/firewall-agent"
    false default_safe_mode_timeout [] (mkPullConfig default_check_in_interval "" 0).

Record LastDefaults := mkLastDefaults {
  ld_input_policy : option string;
  ld_output_policy : option string
}.
#[export] Instance LastDefaults_eq_dec : EqDecision LastDefaults.
Proof. solve_decision. Defined.

Definition LastDefaults_default : LastDefaults := mkLastDefaults None None.

(** The text formats of the state files ([serde_json] and [toml]), and their
    documented round trips. *)
Class AgentCodec := {
  rules_to_json : list FirewallRule -> string;
  rules_of_json : string -> option (list FirewallRule);
  defaults_to_json : LastDefaults -> string;
  defaults_of_json : string -> option LastDefaults;
  config_to_toml : AgentConfig -> option string;
  config_of_toml : string -> option AgentConfig
}.
Class AgentCodecLaws `{!AgentCodec} := {
  rules_json_roundtrip : forall l, rules_of_json (rules_to_json l) = Some l;
  defaults_json_roundtrip : forall d, defaults_of_json (defaults_to_json d) = Some d;
  config_toml_roundtrip : forall c, exists s, config_to_toml c = Some s /\ config_of_toml s = Some c
}.

(** ** The agent's world *)

(** The manager as the agent sees it is in PullLoop.v; here it is the component
    [Net] of the world. [aw_unwritable] holds the paths on which the operating
    system refuses to create or write (a full or read-only disk). *)
Record AgentWorld {OS : HostOs} {Net : Type} := mkAgentWorld {
  aw_os : Host;
  aw_net : Net;
  aw_fs : gmap string File;
  aw_unwritable : gset string;
  aw_lock_free : bool;
  aw_exe : option string;
  aw_uptime : Z;
  aw_now : DateTime;
  aw_config : AgentConfig;
  aw_interval : Z;
  aw_config_version : Z;
  aw_last_contact : option DateTime;
  aw_safe_mode_active : bool;
  aw_safe_mode_timeout : Z
}.
Arguments AgentWorld {OS} Net.

Section state.
Context {OS : HostOs} {Net : Type} {COD : AgentCodec}.
Notation W := (AgentWorld Net).

Definition set_os (h : Host) (w : W) : W :=
  mkAgentWorld _ _ h (aw_net w) (aw_fs w) (aw_unwritable w) (aw_lock_free w) (aw_exe w) (aw_uptime w)
    (aw_now w) (aw_config w) (aw_interval w) (aw_config_version w) (aw_last_contact w)
    (aw_safe_mode_active w) (aw_safe_mode_timeout w).
Definition set_net (n : Net) (w : W) : W :=
  mkAgentWorld _ _ (aw_os w) n (aw_fs w) (aw_unwritable w) (aw_lock_free w) (aw_exe w) (aw_uptime w)
    (aw_now w) (aw_config w) (aw_interval w) (aw_config_version w) (aw_last_contact w)
    (aw_safe_mode_active w) (aw_safe_mode_timeout w).
Definition set_fs (fs : gmap string File) (w : W) : W :=
  mkAgentWorld _ _ (aw_os w) (aw_net w) fs (aw_unwritable w) (aw_lock_free w) (aw_exe w) (aw_uptime w)
    (aw_now w) (aw_config w) (aw_interval w) (aw_config_version w) (aw_last_contact w)
    (aw_safe_mode_active w) (aw_safe_mode_timeout w).
Definition set_config (c : AgentConfig) (interval version : Z) (w : W) : W :=
  mkAgentWorld _ _ (aw_os w) (aw_net w) (aw_fs w) (aw_unwritable w) (aw_lock_free w) (aw_exe w) (aw_uptime w)
    (aw_now w) c interval version (aw_last_contact w) (aw_safe_mode_active w) (aw_safe_mode_timeout w).
Definition set_contact (t : option DateTime) (active : bool) (w : W) : W :=
  mkAgentWorld _ _ (aw_os w) (aw_net w) (aw_fs w) (aw_unwritable w) (aw_lock_free w) (aw_exe w) (aw_uptime w)
    (aw_now w) (aw_config w) (aw_interval w) (aw_config_version w) t active (aw_safe_mode_timeout w).

(** Run an operation of the host inside the agent. *)
Definition on_host {E F A} (m : M Host E A) : M W F (result A E) := fun w =>
  let '(r, h) := m (aw_os w) in (Ok r, set_os h w).

(** ** Files *)

Definition read_to_string (path : string) (w : W) : option string := f_content <$> aw_fs w !! path.
Definition file_exists (path : string) (w : W) : bool := bool_decide (is_Some (aw_fs w !! path)).

(** A new file gets the umask's mode; an existing one keeps its own. *)
Definition file_mode (path : string) (w : W) : Z := from_option f_mode 420%Z (aw_fs w !! path).

(** [std::fs::write]. *)
Definition fs_write (path content : string) : M W string unit := fun w =>
  if bool_decide (path ∈ aw_unwritable w) then (Err "io error", w)
  else (Ok tt, set_fs (<[path := mkFile content (file_mode path w)]> (aw_fs w)) w).

(** Append to a file opened with [create(true).append(true)]. *)
Definition fs_append (path text : string) : M W string unit := fun w =>
  if bool_decide (path ∈ aw_unwritable w) then (Err "io error", w)
  else (Ok tt, set_fs (<[path := mkFile (default "" (read_to_string path w) +:+ text)
                                        (file_mode path w)]> (aw_fs w)) w).

(** [std::fs::set_permissions]. *)
Definition fs_chmod (path : string) (mode : Z) : M W string unit := fun w =>
  match aw_fs w !! path with
  | Some f => (Ok tt, set_fs (<[path := mkFile (f_content f) mode]> (aw_fs w)) w)
  | None => (Err "io error", w)
  end.

(** [std::fs::remove_file]. *)
Definition fs_remove (path : string) : M W string unit := fun w =>
  match aw_fs w !! path with
  | Some _ => (Ok tt, set_fs (delete path (aw_fs w)) w)
  | None => (Err "io error", w)
  end.

(** ** Configuration *)

Definition config_path : string := "/etc/firewall-agent/config.toml".

Definition config_load (w : W) : option AgentConfig :=
  content ← read_to_string config_path w; config_of_toml content.

Definition config_save (c : AgentConfig) : M W string unit :=
  _ ← fs_write config_path (default "" (config_to_toml c));
  fs_chmod config_path 384.

(** ** Expected hash *)

Definition EXPECTED_HASH_PATH : string := "/var/lib/firewall-agent/expected_hash".

Definition load_expected_hash (w : W) : option string :=
  s ← read_to_string EXPECTED_HASH_PATH w;
  let t := trim s in if is_empty t then None else Some t.

Definition save_expected_hash (hash : string) : M W string unit := fs_write EXPECTED_HASH_PATH hash.

(** ** Safe mode *)

Definition LAST_GOOD_PATH : string := "/var/lib/firewall-agent/last_good.rules.json".
Definition LAST_DEFAULTS_PATH : string := "/var/lib/firewall-agent/last_defaults.json".

Definition record_manager_contact : M W string unit :=
  modify (fun w => set_contact (Some (aw_now w)) false w).

Definition elapsed_secs (w : W) : Z :=
  match aw_last_contact w with
  | Some t => ((aw_now w - t) / 1000000000)%Z
  | None => 0%Z
  end.

Definition safe_mode_check : M W string bool := fun w =>
  if (aw_safe_mode_timeout w <? elapsed_secs w)%Z
  then (Ok true, set_contact (aw_last_contact w) true w)
  else (Ok false, w).

Definition save_last_good (rules : list FirewallRule) : M W string unit :=
  fs_write LAST_GOOD_PATH (rules_to_json rules).
Definition load_last_good (w : W) : option (list FirewallRule) :=
  json ← read_to_string LAST_GOOD_PATH w; rules_of_json json.

Definition save_last_defaults (d : LastDefaults) : M W string unit :=
  fs_write LAST_DEFAULTS_PATH (defaults_to_json d).
Definition load_last_defaults (w : W) : option LastDefaults :=
  json ← read_to_string LAST_DEFAULTS_PATH w; defaults_of_json json.

(** ** Replay cache *)

Definition REPLAY_PATH : string := "/var/lib/firewall-agent/executed_actions.log".

Definition already_executed (action_id : string) (w : W) : bool :=
  match read_to_string REPLAY_PATH w with
  | None => false
  | Some content => existsb (fun line => bool_decide (trim line = action_id)) (lines content)
  end.

Definition record (action_id : string) : M W string unit := fs_append REPLAY_PATH (action_id +:+ newline).

(** ** Facts *)

Lemma read_after_write path s w w' :
  fs_write path s w = (Ok tt, w') -> read_to_string path w' = Some s.
Proof.
  unfold fs_write, read_to_string. case_bool_decide; intros [= <-]. simpl. by rewrite lookup_insert_eq.
Qed.

Lemma read_other_write path path' s w :
  path <> path' -> read_to_string path' (final (fs_write path s) w) = read_to_string path' w.
Proof.
  intros Hne. unfold fs_write, read_to_string, final. case_bool_decide; [done|]. simpl.
  by rewrite lookup_insert_ne.
Qed.

(** Every state file keeps what the last successful write put there. *)
Lemma last_good_roundtrip {CODL : AgentCodecLaws} rules w w' :
  save_last_good rules w = (Ok tt, w') -> load_last_good w' = Some rules.
Proof.
  intros H. unfold load_last_good. rewrite (read_after_write _ _ _ _ H). simpl.
  apply rules_json_roundtrip.
Qed.

Lemma last_defaults_roundtrip {CODL : AgentCodecLaws} d w w' :
  save_last_defaults d w = (Ok tt, w') -> load_last_defaults w' = Some d.
Proof.
  intros H. unfold load_last_defaults. rewrite (read_after_write _ _ _ _ H). simpl.
  apply defaults_json_roundtrip.
Qed.

Definition hash_text (s : string) : Prop :=
  is_empty s = false /\ str_forallb (fun c => negb (Ascii.is_space c)) s = true.

Lemma expected_hash_roundtrip h w w' :
  hash_text h -> save_expected_hash h w = (Ok tt, w') -> load_expected_hash w' = Some h.
Proof.
  intros [Hne Hc] H. unfold load_expected_hash. rewrite (read_after_write _ _ _ _ H). simpl.
  rewrite trim_nonblank by done. by rewrite Hne.
Qed.

Lemma config_save_load_aux {CODL : AgentCodecLaws} (c : AgentConfig) (w w' : W) :
  config_save c w = (Ok tt, w') ->
  config_load w' = Some c /\ f_mode <$> aw_fs w' !! config_path = Some 384%Z.
Proof.
  unfold config_save. intros H. apply bind_inv_ok in H as ([] & w1 & Hw & Hc).
  apply read_after_write in Hw. unfold read_to_string in Hw. unfold fs_chmod in Hc.
  destruct (aw_fs w1 !! config_path) as [f|]; [|done]. simplify_eq/=.
  destruct (config_toml_roundtrip c) as (s & Hs & Hl).
  split; [|by rewrite lookup_insert_eq].
  unfold config_load, read_to_string. simpl. rewrite lookup_insert_eq. simpl. by rewrite Hw, Hs.
Qed.

(** A saved configuration is read back unchanged by the next [load] (a daemon
    restart continues with the configuration it was running), and its file is
    readable by its owner only (mode 0600). *)
Theorem config_save_load {CODL : AgentCodecLaws} (c : AgentConfig) (w w' : W) :
  config_save c w = (Ok tt, w') ->
  config_load w' = Some c /\ f_mode <$> aw_fs w' !! config_path = Some 384%Z.
Proof. apply config_save_load_aux. Qed.

(** Safe mode engages exactly when more than the configured number of whole
    seconds has passed since the last successful contact with the manager, and a
    successful contact disengages it, so the next check within the timeout
    reports no safe mode. *)
Theorem safe_mode_exact (w : W) (t : DateTime) :
  aw_last_contact w = Some t ->
  outcome safe_mode_check w = Ok (bool_decide (aw_safe_mode_timeout w < (aw_now w - t) / 1000000000)%Z) /\
  aw_safe_mode_active (final record_manager_contact w) = false /\
  (0 <= aw_safe_mode_timeout w -> outcome safe_mode_check (final record_manager_contact w) = Ok false)%Z.
Proof.
  intros Ht. unfold safe_mode_check, outcome, elapsed_secs. rewrite Ht. split_and!.
  - case_bool_decide as Hlt; [apply Z.ltb_lt in Hlt|apply Z.ltb_nlt in Hlt]; by rewrite Hlt.
  - done.
  - intros H0. simpl. rewrite Z.sub_diag. change (0 / 1000000000)%Z with 0%Z.
    destruct (Z.ltb_spec (aw_safe_mode_timeout w) 0); [lia|done].
Qed.

(** ** The replay cache as a set *)

(** The cache file holds exactly these action ids, one per line. *)
Definition replay_log (w : W) (ids : list string) : Prop :=
  Forall (fun i => str_forallb (fun c => negb (Ascii.is_space c) && is_line_char c) i = true) ids /\
  default "" (read_to_string REPLAY_PATH w) = str_concat (map (fun l => l +:+ newline) ids).

Lemma plain_line i :
  str_forallb (fun c => negb (Ascii.is_space c) && is_line_char c) i = true ->
  str_forallb is_line_char i = true /\ trim i = i.
Proof.
  intros Hi. assert (forall f g s, str_forallb (fun c => f c && g c) s = true ->
    str_forallb f s = true /\ str_forallb g s = true) as Hsplit.
  { intros f g s. induction s as [|c s IH]; [done|]. simpl. rewrite !andb_true_iff.
    intros [[Hf Hg] Hs]. destruct (IH Hs) as [-> ->]. done. }
  apply Hsplit in Hi as [H1 H2]. split; [done|]. by apply trim_nonblank.
Qed.

Lemma already_executed_log w ids i :
  replay_log w ids -> already_executed i w = bool_decide (i ∈ ids).
Proof.
  intros [Hids Hc]. unfold already_executed.
  assert (lines (default "" (read_to_string REPLAY_PATH w)) = ids) as Hl.
  { rewrite Hc, <- (str_app_nil_r (str_concat _)), lines_concat; [by rewrite app_nil_r|].
    eapply Forall_impl; [exact Hids|]. intros x Hx. by apply plain_line. }
  destruct (read_to_string REPLAY_PATH w) as [content|]; simpl in Hl.
  - rewrite Hl. clear Hl Hc. induction Hids as [|j ids Hj _ IH]; [done|]. simpl. rewrite IH.
    rewrite (proj2 (plain_line j Hj)).
    destruct (decide (j = i)) as [->|Hne].
    + rewrite (bool_decide_eq_true_2 (i = i)) by done. symmetry. apply bool_decide_eq_true_2. left.
    + rewrite (bool_decide_eq_false_2 (j = i)) by done. simpl. apply bool_decide_ext. set_solver.
  - subst ids. done.
Qed.

Lemma record_log w ids i w' :
  str_forallb (fun c => negb (Ascii.is_space c) && is_line_char c) i = true ->
  replay_log w ids -> record i w = (Ok tt, w') -> replay_log w' (ids ++ [i]).
Proof.
  intros Hi [Hids Hc] H. unfold record, fs_append in H. case_bool_decide as Hw; [done|]. simplify_eq.
  split; [apply Forall_app; by split; [|constructor]|].
  unfold read_to_string at 1. simpl. rewrite lookup_insert_eq. simpl.
  rewrite Hc, map_app, str_concat_app. cbn [map str_concat]. by rewrite str_app_nil_r.
Qed.

(** The replay cache is an exact set: after a successful [record], an action
    id is reported as already executed exactly if it is the recorded one or was
    reported before, so no other action is ever suppressed. *)
Theorem replay_cache_exact {UT : UuidText} {UTL : UuidTextLaws} (w w' : W) ids (u : Uuid) :
  replay_log w ids -> record (uuid_to_string u) w = (Ok tt, w') ->
  forall v, already_executed (uuid_to_string v) w' =
    bool_decide (v = u) || already_executed (uuid_to_string v) w.
Proof.
  intros Hl Hr v. rewrite (already_executed_log w ids _ Hl).
  apply (record_log w ids) in Hr; [|apply uuid_to_string_chars|done].
  rewrite (already_executed_log w' _ _ Hr). destruct (decide (v = u)) as [->|Hne].
  - rewrite (bool_decide_eq_true_2 (u = u)) by done. apply bool_decide_eq_true_2. set_solver.
  - rewrite (bool_decide_eq_false_2 (v = u)) by done. simpl. apply bool_decide_ext.
    rewrite elem_of_app, list_elem_of_singleton. split; [|by left].
    intros [H|H%uuid_to_string_inj]; done.
Qed.
End state.
