(* ===== verification/AgentToy.v ===== *)
(** * AgentToy: a concrete codec and host for the agent's witnesses

    Instances of the agent's interfaces: state files written as the binary
    digits of stdpp's [Countable] encoding. They show that the interfaces'
    laws can hold together, and give the witnesses something to run. *)

From S2P Require Import Prelude Text Models Backend ShellWords UfwCompile UfwApply Files AgentState Codec.

(** ** Encodings *)

#[export] Instance FirewallAction_countable : Countable FirewallAction.
Proof.
  refine (inj_countable' (fun a => match a with Allow => 0 | Deny => 1 | Reject => 2 | Limit => 3 | Masquerade => 4 end)
    (fun n => match n with 0 => Allow | 1 => Deny | 2 => Reject | 3 => Limit | _ => Masquerade end) _).
  by intros [].
Defined.

#[export] Instance FirewallDirection_countable : Countable FirewallDirection.
Proof.
  refine (inj_countable' (fun a => match a with In => 0 | Out => 1 | Forward => 2 end)
    (fun n => match n with 0 => In | 1 => Out | _ => Forward end) _).
  by intros [].
Defined.

#[export] Instance FirewallProtocol_countable : Countable FirewallProtocol.
Proof.
  refine (inj_countable' (fun a => match a with
      Any => 0 | Tcp => 1 | Udp => 2 | Icmp => 3 | Icmpv6 => 4 | Gre => 5 | Esp => 6 | Ah => 7 | Sctp => 8 end)
    (fun n => match n with
      0 => Any | 1 => Tcp | 2 => Udp | 3 => Icmp | 4 => Icmpv6 | 5 => Gre | 6 => Esp | 7 => Ah | _ => Sctp end) _).
  by intros [].
Defined.

#[export] Instance FirewallRule_eq_dec : EqDecision FirewallRule.
Proof. solve_decision. Defined.

#[export] Instance FirewallRule_countable : Countable FirewallRule.
Proof.
  refine (inj_countable'
    (fun r => ((rule_id r, rule_name r, rule_description r, rule_action r, rule_direction r, rule_protocol r),
      (src_cidr r, src_port_start r, src_port_end r, dst_cidr r, dst_port_start r, dst_port_end r),
      (interface_in r, interface_out r, rule_comment r, rule_log r, rule_priority r, rule_created_by r),
      (rule_created_at r, rule_updated_at r)))
    (fun '((a, b, c, d, e, f), (g, h, i, j, k, l), (m, n, o, p, q, s), (t, u)) =>
      mkRule a b c d e f g h i j k l m n o p q s t u) _).
  by intros [].
Defined.

#[export] Instance PullConfig_eq_dec : EqDecision PullConfig.
Proof. solve_decision. Defined.
#[export] Instance PullConfig_countable : Countable PullConfig.
Proof.
  refine (inj_countable' (fun p => (check_in_interval_secs p, manager_agent_url p, config_version p))
    (fun '(a, b, c) => mkPullConfig a b c) _). by intros [].
Defined.

#[export] Instance AgentConfig_eq_dec : EqDecision AgentConfig.
Proof. solve_decision. Defined.
#[export] Instance AgentConfig_countable : Countable AgentConfig.
Proof.
  refine (inj_countable'
    (fun c => ((manager_url c, fqdn c, host_id c, cert_dir c, config_dir c),
               (log_dir c, safe_mode_enabled c, safe_mode_timeout_secs c, protected_cidrs c, pull c)))
    (fun '((a, b, c, d, e), (f, g, h, i, j)) => mkAgentConfig a b c d e f g h i j) _). by intros [].
Defined.

#[export] Instance LastDefaults_countable : Countable LastDefaults.
Proof.
  refine (inj_countable' (fun d => (ld_input_policy d, ld_output_policy d))
    (fun '(a, b) => mkLastDefaults a b) _). by intros [].
Defined.

Definition toy_codec : AgentCodec := {|
  rules_to_json := to_text; rules_of_json := of_text;
  defaults_to_json := to_text; defaults_of_json := of_text;
  config_to_toml c := Some (to_text c); config_of_toml := of_text
|}.

Lemma toy_codec_laws : @AgentCodecLaws toy_codec.
Proof.
  split; [intros l; apply of_to_text|intros d; apply of_to_text|].
  intros c. eexists. split; [reflexivity|apply of_to_text].
Qed.

(** ** A starting world *)

Definition toy_world {Net} (n : Net) (c : AgentConfig) (h : ToyHost) : @AgentWorld toy_os Net :=
  @mkAgentWorld toy_os Net h n ∅ ∅ true (Some "elf") 17 5000000000000 c
    (check_in_interval_secs (pull c)) (config_version (pull c)) (Some 0%Z) false
    (safe_mode_timeout_secs c).

(** ** Witnesses for AgentState *)

Definition ex_config : AgentConfig :=
  mkAgentConfig "https://m.example" "h.example" None "/c" "/d" "/l" true 1800 ["10.1.2.3/32"]
    (mkPullConfig 900 "https://192.0.2.10:8444" 3).

Lemma config_save_load_witness :
  let w := toy_world tt ex_config (mkToyHost [] []) in
  exists w', @config_save toy_os unit toy_codec ex_config w = (Ok tt, w') /\
    @config_load toy_os unit toy_codec w' = Some ex_config /\
    f_mode <$> aw_fs w' !! config_path = Some 384%Z.
Proof.
  intros w. eexists. split; [reflexivity|].
  apply (@config_save_load toy_os unit toy_codec toy_codec_laws ex_config w). reflexivity.
Defined.

Lemma safe_mode_exact_witness :
  let w := toy_world tt ex_config (mkToyHost [] []) in
  outcome safe_mode_check w = Ok true /\
  outcome safe_mode_check (final record_manager_contact w) = Ok false.
Proof.
  intros w. destruct (@safe_mode_exact toy_os unit w 0%Z eq_refl) as (H1 & _ & H2).
  split; [rewrite H1; reflexivity|apply H2; vm_compute; discriminate].
Defined.

Lemma replay_cache_exact_witness :
  let w := toy_world tt ex_config (mkToyHost [] []) in
  let u := uuid_of 7 in
  exists w', @record toy_os unit (@uuid_to_string toy_uuid_text u) w = (Ok tt, w') /\
    already_executed (@uuid_to_string toy_uuid_text u) w' = true /\
    already_executed (@uuid_to_string toy_uuid_text (uuid_of 8)) w' = false.
Proof.
  intros w u.
  destruct (@record toy_os unit (@uuid_to_string toy_uuid_text u) w) as [[[]|e] w'] eqn:Hr; [|done].
  exists w'. split; [done|].
  assert (@replay_log toy_os unit w []) as Hl by by split; [constructor|].
  split.
  - rewrite (@replay_cache_exact toy_os unit toy_uuid_text toy_uuid_text_laws w w' [] u Hl Hr u).
    rewrite bool_decide_eq_true_2 by done. done.
  - rewrite (@replay_cache_exact toy_os unit toy_uuid_text toy_uuid_text_laws w w' [] u Hl Hr (uuid_of 8)).
    rewrite bool_decide_eq_false_2 by done. reflexivity.
Defined.
