(* ===== verification/Wire.v ===== *)
(** * Wire: the messages of the agent API

    The JSON bodies exchanged between the agent ([crates/fw-agent/src/pull_client.rs])
    and the manager ([crates/fw-web/src/routes/agent_api.rs]). Both sides declare
    the same structs; where one side has a field the other ignores
    ([host_id] and [agent_binary_hash] are ignored by the manager, [push_enabled]
    by the agent) the record has it and the other side does not read it. *)

From S2P Require Import Prelude Text Models.

Record CheckInRequest := mkCheckInRequest {
  req_host_id : Uuid;
  req_rules_hash : string;
  req_agent_version : string;
  req_backend_type : string;
  req_os_info : Json;
  req_uptime_seconds : Z;
  req_config_version : Z;
  req_local_drift : bool;
  req_agent_binary_hash : option string
}.

Record RuleDto := mkRuleDto {
  dto_id : Uuid;
  dto_name : string;
  dto_action : string;
  dto_direction : string;
  dto_protocol : string;
  dto_src_cidr : option string;
  dto_src_port_start : option Z;
  dto_src_port_end : option Z;
  dto_dst_cidr : option string;
  dto_dst_port_start : option Z;
  dto_dst_port_end : option Z;
  dto_interface_in : option string;
  dto_interface_out : option string;
  dto_priority : Z;
  dto_log : bool
}.

Record ConfigUpdate := mkConfigUpdate {
  cu_check_in_interval_secs : Z;
  cu_push_enabled : bool;
  cu_safe_mode_enabled : bool;
  cu_backend_override : option string;
  cu_config_version : Z
}.

Record PendingActionDto := mkPendingActionDto {
  pa_dto_id : Uuid;
  pa_dto_action_type : string;
  pa_dto_payload : Json;
  pa_dto_reason : string
}.

Record CheckInResponse := mkCheckInResponse {
  resp_rules_changed : bool;
  resp_rules : list RuleDto;
  resp_config : option ConfigUpdate;
  resp_pending_actions : list PendingActionDto;
  resp_default_input_policy : option string;
  resp_default_output_policy : option string
}.

Record CheckInResultRequest := mkCheckInResultRequest {
  res_host_id : Uuid;
  res_action_id : option Uuid;
  res_success : bool;
  res_error_message : option string;
  res_new_rules_hash : string
}.

(** The manager's hash parts of a rule on the wire ([check_in]). *)
Definition dto_hash_parts (d : RuleDto) : RuleHashParts :=
  mkParts (dto_id d) (dto_action d) (dto_direction d) (dto_protocol d) (dto_src_cidr d)
    (dto_dst_cidr d) (dto_dst_port_start d).
