(* ===== verification/WireJson.v ===== *)
(** * WireJson: the agent API's messages as JSON

    What [serde] derives for the structs of [crates/fw-agent/src/pull_client.rs] and
    [crates/fw-web/src/routes/agent_api.rs]: how each side writes a message and how
    the other one reads it. The two sides declare the structs separately, so that
    the fields agree, in name, type and optionality, is a theorem. Objects are read
    by name (the derived readers also take arrays, which neither side writes). *)

From S2P Require Import Prelude Text Models Wire.

(** ** Replies *)

Record HttpReply := mkReply { hr_status : Z; hr_body : string }.

(** [StatusCode::is_success]. *)
Definition is_success (status : Z) : bool := (200 <=? status)%Z && (status <? 300)%Z.

(** ** Text

    [serde_json::to_vec] and the tokens [from_slice] reads: an object is the list of
    its fields as they stand in the text. *)
Class SerdeBody {JS : SerdeJson} := { body_parse : string -> option Json }.

(** The numbers [serde_json] writes as integers. *)
Fixpoint json_writable (j : Json) : bool :=
  match j with
  | JNum z => (- 2 ^ 63 <=? z)%Z && (z <? 2 ^ 64)%Z
  | JArr l => forallb json_writable l
  | JObj fields => forallb (fun '(_, v) => json_writable v) fields
  | JNull | JBool _ | JStr _ => true
  end.
Class SerdeBodyLaws `{!SerdeJson, !SerdeBody} := {
  body_parse_to_string : forall j, json_writable j = true -> body_parse (json_to_string j) = Some j
}.

(** ** Reading values *)

Definition de_str (j : Json) : option string := match j with JStr s => Some s | _ => None end.
Definition de_bool (j : Json) : option bool := match j with JBool b => Some b | _ => None end.
Definition de_int (bits : Z) (j : Json) : option Z :=
  match j with JNum z => if (- 2 ^ (bits - 1) <=? z)%Z && (z <? 2 ^ (bits - 1))%Z then Some z else None | _ => None end.
Definition de_i32 := de_int 32.
Definition de_i64 := de_int 64.
Definition de_list {A} (de : Json -> option A) (j : Json) : option (list A) :=
  match j with JArr l => mapM de l | _ => None end.
Definition de_opt {A} (de : Json -> option A) (j : Json) : option (option A) :=
  match j with JNull => Some None | _ => Some <$> de j end.

(** [serde_json::Value]: an object becomes a map ordered by key, in which a later
    field replaces an earlier one of the same name. *)
Fixpoint insert_key (k : string) (v : Json) (l : list (string * Json)) : list (string * Json) :=
  match l with
  | [] => [(k, v)]
  | (k', v') :: r =>
      if bool_decide (k = k') then (k, v) :: r
      else if String.ltb k k' then (k, v) :: l else (k', v') :: insert_key k v r
  end.
Fixpoint json_normal (j : Json) : Json :=
  match j with
  | JArr l => JArr (map json_normal l)
  | JObj fields => JObj (foldl (fun acc '(k, v) => insert_key k (json_normal v) acc) [] fields)
  | _ => j
  end.
Definition de_value (j : Json) : option Json := Some (json_normal j).

(** ** Reading structs *)

(** The field of a name; a name that occurs twice is an error ([None]). *)
Definition lookup_field (k : string) (fields : list (string * Json)) : option (option Json) :=
  match List.filter (fun f => bool_decide (f.1 = k)) fields with
  | [] => Some None
  | [f] => Some (Some f.2)
  | _ => None
  end.
Definition de_field {A} (de : Json -> option A) (k : string) (fields : list (string * Json)) : option A :=
  o ← lookup_field k fields; v ← o; de v.
(** An [Option] field may be absent. *)
Definition de_opt_field {A} (de : Json -> option A) (k : string) (fields : list (string * Json)) : option (option A) :=
  o ← lookup_field k fields; match o with None => Some None | Some v => de_opt de v end.
(** [#[serde(default)]]. *)
Definition de_default_field {A} (de : Json -> option A) (d : A) (k : string) (fields : list (string * Json)) : option A :=
  o ← lookup_field k fields; match o with None => Some d | Some v => de v end.

(** ** Writing *)

Definition ser_opt {A} (ser : A -> Json) (o : option A) : Json := match o with Some a => ser a | None => JNull end.
Definition ser_list {A} (ser : A -> Json) (l : list A) : Json := JArr (map ser l).

Section wire.
Context {UT : UuidText}.

Definition ser_uuid (u : Uuid) : Json := JStr (uuid_to_string u).
Definition de_uuid (j : Json) : option Uuid := s ← de_str j; uuid_parse s.

(** ** From the agent to the manager *)

Definition ser_check_in_request (r : CheckInRequest) : Json := JObj ([
  ("host_id", ser_uuid (req_host_id r)); ("rules_hash", JStr (req_rules_hash r)); ("agent_version", JStr (req_agent_version r));
  ("backend_type", JStr (req_backend_type r)); ("os_info", req_os_info r); ("uptime_seconds", JNum (req_uptime_seconds r));
  ("config_version", JNum (req_config_version r)); ("local_drift", JBool (req_local_drift r))] ++
  match req_agent_binary_hash r with Some h => [("agent_binary_hash", JStr h)] | None => [] end).

(** The manager's struct has neither [host_id] nor [agent_binary_hash]. *)
Definition de_check_in_request (j : Json) : option CheckInRequest :=
  match j with
  | JObj fs =>
      hash ← de_field de_str "rules_hash" fs; version ← de_field de_str "agent_version" fs;
      backend ← de_field de_str "backend_type" fs; os_info ← de_field de_value "os_info" fs;
      uptime ← de_field de_i64 "uptime_seconds" fs; config ← de_field de_i32 "config_version" fs;
      drift ← de_default_field de_bool false "local_drift" fs;
      Some (mkCheckInRequest (uuid_of 0) hash version backend os_info uptime config drift None)
  | _ => None
  end.

Definition ser_check_in_result (r : CheckInResultRequest) : Json := JObj [
  ("host_id", ser_uuid (res_host_id r)); ("action_id", ser_opt ser_uuid (res_action_id r)); ("success", JBool (res_success r));
  ("error_message", ser_opt JStr (res_error_message r)); ("new_rules_hash", JStr (res_new_rules_hash r))].

Definition de_check_in_result (j : Json) : option CheckInResultRequest :=
  match j with
  | JObj fs =>
      action ← de_opt_field de_uuid "action_id" fs; success ← de_field de_bool "success" fs;
      error ← de_opt_field de_str "error_message" fs; hash ← de_field de_str "new_rules_hash" fs;
      Some (mkCheckInResultRequest (uuid_of 0) action success error hash)
  | _ => None
  end.

(** ** From the manager to the agent *)

Definition ser_rule_dto (r : RuleDto) : Json := JObj [
  ("id", ser_uuid (dto_id r)); ("name", JStr (dto_name r)); ("action", JStr (dto_action r)); ("direction", JStr (dto_direction r));
  ("protocol", JStr (dto_protocol r)); ("src_cidr", ser_opt JStr (dto_src_cidr r)); ("src_port_start", ser_opt JNum (dto_src_port_start r));
  ("src_port_end", ser_opt JNum (dto_src_port_end r)); ("dst_cidr", ser_opt JStr (dto_dst_cidr r));
  ("dst_port_start", ser_opt JNum (dto_dst_port_start r)); ("dst_port_end", ser_opt JNum (dto_dst_port_end r));
  ("interface_in", ser_opt JStr (dto_interface_in r)); ("interface_out", ser_opt JStr (dto_interface_out r));
  ("priority", JNum (dto_priority r)); ("log", JBool (dto_log r))].

Definition de_rule_dto (j : Json) : option RuleDto :=
  match j with
  | JObj fs =>
      id ← de_field de_uuid "id" fs; name ← de_field de_str "name" fs; action ← de_field de_str "action" fs;
      direction ← de_field de_str "direction" fs; protocol ← de_field de_str "protocol" fs;
      src ← de_opt_field de_str "src_cidr" fs; sps ← de_opt_field de_i32 "src_port_start" fs; spe ← de_opt_field de_i32 "src_port_end" fs;
      dst ← de_opt_field de_str "dst_cidr" fs; dps ← de_opt_field de_i32 "dst_port_start" fs; dpe ← de_opt_field de_i32 "dst_port_end" fs;
      ifin ← de_opt_field de_str "interface_in" fs; ifout ← de_opt_field de_str "interface_out" fs;
      priority ← de_field de_i32 "priority" fs; log ← de_field de_bool "log" fs;
      Some (mkRuleDto id name action direction protocol src sps spe dst dps dpe ifin ifout priority log)
  | _ => None
  end.

Definition ser_config_update (c : ConfigUpdate) : Json := JObj [
  ("check_in_interval_secs", JNum (cu_check_in_interval_secs c)); ("push_enabled", JBool (cu_push_enabled c));
  ("safe_mode_enabled", JBool (cu_safe_mode_enabled c)); ("backend_override", ser_opt JStr (cu_backend_override c));
  ("config_version", JNum (cu_config_version c))].

(** The agent's struct has no [push_enabled]. *)
Definition de_config_update (j : Json) : option ConfigUpdate :=
  match j with
  | JObj fs =>
      interval ← de_field de_i32 "check_in_interval_secs" fs; safe ← de_field de_bool "safe_mode_enabled" fs;
      backend ← de_opt_field de_str "backend_override" fs; version ← de_field de_i32 "config_version" fs;
      Some (mkConfigUpdate interval false safe backend version)
  | _ => None
  end.

Definition ser_pending_action (a : PendingActionDto) : Json := JObj [
  ("id", ser_uuid (pa_dto_id a)); ("action_type", JStr (pa_dto_action_type a)); ("payload", pa_dto_payload a); ("reason", JStr (pa_dto_reason a))].

Definition de_pending_action (j : Json) : option PendingActionDto :=
  match j with
  | JObj fs =>
      id ← de_field de_uuid "id" fs; type ← de_field de_str "action_type" fs; payload ← de_field de_value "payload" fs;
      reason ← de_field de_str "reason" fs; Some (mkPendingActionDto id type payload reason)
  | _ => None
  end.

Definition ser_check_in_response (r : CheckInResponse) : Json := JObj [
  ("rules_changed", JBool (resp_rules_changed r)); ("rules", ser_list ser_rule_dto (resp_rules r));
  ("config", ser_opt ser_config_update (resp_config r)); ("pending_actions", ser_list ser_pending_action (resp_pending_actions r));
  ("default_input_policy", ser_opt JStr (resp_default_input_policy r)); ("default_output_policy", ser_opt JStr (resp_default_output_policy r))].

Definition de_check_in_response (j : Json) : option CheckInResponse :=
  match j with
  | JObj fs =>
      changed ← de_field de_bool "rules_changed" fs; rules ← de_field (de_list de_rule_dto) "rules" fs;
      config ← de_opt_field de_config_update "config" fs; actions ← de_field (de_list de_pending_action) "pending_actions" fs;
      input ← de_opt_field de_str "default_input_policy" fs; output ← de_opt_field de_str "default_output_policy" fs;
      Some (mkCheckInResponse changed rules config actions input output)
  | _ => None
  end.

(** ** What arrives *)

Definition received_request (r : CheckInRequest) : CheckInRequest :=
  mkCheckInRequest (uuid_of 0) (req_rules_hash r) (req_agent_version r) (req_backend_type r) (json_normal (req_os_info r))
    (req_uptime_seconds r) (req_config_version r) (req_local_drift r) None.
Definition received_result (r : CheckInResultRequest) : CheckInResultRequest :=
  mkCheckInResultRequest (uuid_of 0) (res_action_id r) (res_success r) (res_error_message r) (res_new_rules_hash r).
Definition received_config (c : ConfigUpdate) : ConfigUpdate :=
  mkConfigUpdate (cu_check_in_interval_secs c) false (cu_safe_mode_enabled c) (cu_backend_override c) (cu_config_version c).
Definition received_action (a : PendingActionDto) : PendingActionDto :=
  mkPendingActionDto (pa_dto_id a) (pa_dto_action_type a) (json_normal (pa_dto_payload a)) (pa_dto_reason a).
Definition received_response (r : CheckInResponse) : CheckInResponse :=
  mkCheckInResponse (resp_rules_changed r) (resp_rules r) (received_config <$> resp_config r) (map received_action (resp_pending_actions r))
    (resp_default_input_policy r) (resp_default_output_policy r).

(** The integers of a message have the width of their fields. *)
Definition fits (bits : Z) (z : Z) : Prop := (- 2 ^ (bits - 1) <= z < 2 ^ (bits - 1))%Z.
Definition opt_fits (bits : Z) (o : option Z) : Prop := match o with Some z => fits bits z | None => True end.

Definition request_fits (r : CheckInRequest) : Prop :=
  fits 64 (req_uptime_seconds r) /\ fits 32 (req_config_version r) /\ json_writable (req_os_info r) = true.
Definition rule_fits (r : RuleDto) : Prop :=
  opt_fits 32 (dto_src_port_start r) /\ opt_fits 32 (dto_src_port_end r) /\ opt_fits 32 (dto_dst_port_start r) /\
  opt_fits 32 (dto_dst_port_end r) /\ fits 32 (dto_priority r).
Definition config_fits (c : ConfigUpdate) : Prop := fits 32 (cu_check_in_interval_secs c) /\ fits 32 (cu_config_version c).
Definition response_fits (r : CheckInResponse) : Prop :=
  Forall rule_fits (resp_rules r) /\ (forall c, resp_config r = Some c -> config_fits c) /\
  Forall (fun a => json_writable (pa_dto_payload a) = true) (resp_pending_actions r).

(** ** Round trips *)

Context {UTL : UuidTextLaws}.

Lemma de_ser_uuid u : de_uuid (ser_uuid u) = Some u.
Proof. apply uuid_parse_to_string. Qed.

Lemma de_int_fits bits z : fits bits z -> de_int bits (JNum z) = Some z.
Proof.
  intros [H1 H2]. unfold de_int. by rewrite (proj2 (Z.leb_le _ _) H1), (proj2 (Z.ltb_lt _ _) H2).
Qed.

Lemma de_opt_int bits o : opt_fits bits o -> de_opt (de_int bits) (ser_opt JNum o) = Some o.
Proof. destruct o as [z|]; [|done]. intros H. cbn [ser_opt de_opt]. by rewrite de_int_fits. Qed.

Lemma de_opt_str o : de_opt de_str (ser_opt JStr o) = Some o.
Proof. by destruct o. Qed.

Lemma de_opt_uuid o : de_opt de_uuid (ser_opt ser_uuid o) = Some o.
Proof. destruct o as [u|]; [|done]. cbn [ser_opt]. unfold de_opt, ser_uuid at 1. by rewrite de_ser_uuid. Qed.

Lemma de_ser_list {A B} (ser : A -> Json) (de : Json -> option B) (f : A -> B) (l : list A) :
  Forall (fun a => de (ser a) = Some (f a)) l -> de_list de (ser_list ser l) = Some (map f l).
Proof. unfold de_list, ser_list. induction 1 as [|a l Ha _ IH]; [done|]. cbn in *. by rewrite Ha; cbn; rewrite IH. Qed.

Lemma lookup_skip k k' v fs : k' <> k -> lookup_field k ((k', v) :: fs) = lookup_field k fs.
Proof. intros Hk. unfold lookup_field. cbn [List.filter fst]. by rewrite bool_decide_eq_false_2. Qed.

Lemma lookup_hit k v fs : Forall (fun f => f.1 <> k) fs -> lookup_field k ((k, v) :: fs) = Some (Some v).
Proof.
  intros Hf. unfold lookup_field. cbn [List.filter fst]. rewrite bool_decide_eq_true_2 by done.
  assert (List.filter (fun f => bool_decide (f.1 = k)) fs = []) as ->; [|done].
  induction Hf as [|f fs Hk _ IH]; [done|]. cbn [List.filter]. by rewrite bool_decide_eq_false_2.
Qed.

Lemma de_field_at {A} (de : Json -> option A) k fs v : lookup_field k fs = Some (Some v) -> de_field de k fs = de v.
Proof. intros H. unfold de_field. by rewrite H. Qed.
Lemma de_opt_field_at {A} (de : Json -> option A) k fs v : lookup_field k fs = Some (Some v) -> de_opt_field de k fs = de_opt de v.
Proof. intros H. unfold de_opt_field. by rewrite H. Qed.
Lemma de_default_field_at {A} (de : Json -> option A) d k fs v : lookup_field k fs = Some (Some v) -> de_default_field de d k fs = de v.
Proof. intros H. unfold de_default_field. by rewrite H. Qed.

(** Reading the next field of a struct, with what is known of its value. *)
Ltac find_field := repeat (rewrite lookup_skip by discriminate); apply lookup_hit; repeat constructor; discriminate.
Ltac read_field :=
  match goal with
  | |- mbind _ (de_field ?de ?k ?fs) = _ => erewrite (de_field_at de k fs) by find_field
  | |- mbind _ (de_opt_field ?de ?k ?fs) = _ => erewrite (de_opt_field_at de k fs) by find_field
  | |- mbind _ (de_default_field ?de ?d ?k ?fs) = _ => erewrite (de_default_field_at de d k fs) by find_field
  end;
  rewrite ?de_opt_str, ?de_ser_uuid, ?de_opt_uuid, ?de_int_fits, ?de_opt_int by done;
  cbn [de_str de_bool de_value mbind option_bind].

Lemma check_in_request_read r : request_fits r -> de_check_in_request (ser_check_in_request r) = Some (received_request r).
Proof.
  intros (Hu & Hc & _). unfold ser_check_in_request, de_check_in_request, de_i64, de_i32. cbn [app].
  by destruct (req_agent_binary_hash r); do 7 read_field.
Qed.

Lemma check_in_result_read r : de_check_in_result (ser_check_in_result r) = Some (received_result r).
Proof. unfold ser_check_in_result, de_check_in_result. by do 4 read_field. Qed.

Lemma rule_dto_read r : rule_fits r -> de_rule_dto (ser_rule_dto r) = Some r.
Proof.
  intros (H1 & H2 & H3 & H4 & H5). unfold ser_rule_dto, de_rule_dto, de_i32. do 15 read_field. by destruct r.
Qed.

Lemma config_update_read c : config_fits c -> de_config_update (ser_config_update c) = Some (received_config c).
Proof. intros (H1 & H2). unfold ser_config_update, de_config_update, de_i32. by do 4 read_field. Qed.

Lemma pending_action_read a : de_pending_action (ser_pending_action a) = Some (received_action a).
Proof. unfold ser_pending_action, de_pending_action. by do 4 read_field. Qed.

Lemma check_in_response_read r : response_fits r -> de_check_in_response (ser_check_in_response r) = Some (received_response r).
Proof.
  intros (Hr & Hc & _). unfold ser_check_in_response, de_check_in_response. read_field. read_field.
  rewrite (de_ser_list ser_rule_dto de_rule_dto id) by (eapply Forall_impl; [exact Hr|]; intros x Hx; by apply rule_dto_read). cbn [mbind option_bind].
  rewrite map_id. read_field.
  assert (de_opt de_config_update (ser_opt ser_config_update (resp_config r)) = Some (received_config <$> resp_config r)) as ->.
  { destruct (resp_config r) as [c|]; [|done]. cbn [ser_opt]. unfold de_opt, ser_config_update at 1. by rewrite config_update_read by by apply Hc. }
  cbn [mbind option_bind]. read_field. rewrite (de_ser_list ser_pending_action de_pending_action received_action) by (apply Forall_true; apply pending_action_read).
  cbn [mbind option_bind]. by do 2 read_field.
Qed.

(** ** The messages can be written *)

Lemma json_writable_i64 z : fits 64 z -> json_writable (JNum z) = true.
Proof. unfold fits. intros [H1 H2]. change (64 - 1)%Z with 63%Z in *. cbn. apply andb_true_iff. rewrite Z.leb_le, Z.ltb_lt. lia. Qed.

Lemma json_writable_i32 z : fits 32 z -> json_writable (JNum z) = true.
Proof. intros [H1 H2]. apply json_writable_i64. unfold fits. change (64 - 1)%Z with 63%Z. change (32 - 1)%Z with 31%Z in *. lia. Qed.

Lemma json_writable_opt {A} (ser : A -> Json) o : (forall a, o = Some a -> json_writable (ser a) = true) -> json_writable (ser_opt ser o) = true.
Proof. destruct o as [a|]; [|done]. intros H. by apply H. Qed.

Lemma json_writable_opt_str o : json_writable (ser_opt JStr o) = true.
Proof. by apply json_writable_opt. Qed.

Lemma json_writable_opt_i32 o : opt_fits 32 o -> json_writable (ser_opt JNum o) = true.
Proof. intros H. apply json_writable_opt. intros z ->. by apply json_writable_i32. Qed.

Lemma json_writable_list {A} (ser : A -> Json) l : Forall (fun a => json_writable (ser a) = true) l -> json_writable (ser_list ser l) = true.
Proof. intros H. cbn. apply forallb_forall. intros j (a & <- & Ha)%in_map_iff. rewrite Forall_forall in H. apply H, list_elem_of_In, Ha. Qed.

(** Check the fields of an object one by one. *)
Lemma json_writable_obj fs : Forall (fun f => json_writable f.2 = true) fs -> json_writable (JObj fs) = true.
Proof. intros H. cbn. apply forallb_forall. intros [k v] Hin%list_elem_of_In. rewrite Forall_forall in H. exact (H _ Hin). Qed.

Ltac tree_fields := apply json_writable_obj; repeat (apply Forall_cons; split); try apply Forall_nil; try exact I; cbn [snd];
  try (reflexivity || apply json_writable_opt_str || (by apply json_writable_i64) || (by apply json_writable_i32) || (by apply json_writable_opt_i32) ||
       (by apply json_writable_opt) || done).

Lemma check_in_request_tree r : request_fits r -> json_writable (ser_check_in_request r) = true.
Proof. intros (Hu & Hc & Ho). unfold ser_check_in_request. destruct (req_agent_binary_hash r); cbn [app]; tree_fields. Qed.

Lemma check_in_result_tree r : json_writable (ser_check_in_result r) = true.
Proof. unfold ser_check_in_result. tree_fields. Qed.

Lemma rule_dto_tree r : rule_fits r -> json_writable (ser_rule_dto r) = true.
Proof. intros (H1 & H2 & H3 & H4 & H5). unfold ser_rule_dto. tree_fields. Qed.

Lemma config_update_tree c : config_fits c -> json_writable (ser_config_update c) = true.
Proof. intros (H1 & H2). unfold ser_config_update. tree_fields. Qed.

Lemma check_in_response_tree r : response_fits r -> json_writable (ser_check_in_response r) = true.
Proof.
  intros (Hr & Hc & Ha). unfold ser_check_in_response. tree_fields.
  - apply json_writable_list. eapply Forall_impl; [exact Hr|]. intros x. apply rule_dto_tree.
  - apply json_writable_opt. intros c Hcu. by apply config_update_tree, Hc.
  - apply json_writable_list. eapply Forall_impl; [exact Ha|]. intros a Hp. unfold ser_pending_action. tree_fields.
Qed.

(** ** Reading a message from its text *)

Context {JS : SerdeJson} {SB : SerdeBody} {SBL : SerdeBodyLaws}.

Lemma request_text_read r : request_fits r ->
  body_parse (json_to_string (ser_check_in_request r)) ≫= de_check_in_request = Some (received_request r).
Proof. intros Hr. rewrite body_parse_to_string by by apply check_in_request_tree. by apply check_in_request_read. Qed.

Lemma result_text_read r : body_parse (json_to_string (ser_check_in_result r)) ≫= de_check_in_result = Some (received_result r).
Proof. rewrite body_parse_to_string by apply check_in_result_tree. apply check_in_result_read. Qed.

Lemma response_text_read r : response_fits r ->
  body_parse (json_to_string (ser_check_in_response r)) ≫= de_check_in_response = Some (received_response r).
Proof. intros Hr. rewrite body_parse_to_string by by apply check_in_response_tree. by apply check_in_response_read. Qed.

Lemma rules_text_read l : Forall rule_fits l -> body_parse (json_to_string (ser_list ser_rule_dto l)) ≫= de_list de_rule_dto = Some l.
Proof.
  intros Hl. rewrite body_parse_to_string by (apply json_writable_list; eapply Forall_impl; [exact Hl|]; apply rule_dto_tree).
  cbn [mbind option_bind]. rewrite (de_ser_list _ _ id), map_id; [done|]. eapply Forall_impl; [exact Hl|]. apply rule_dto_read.
Qed.

(** C24. The two sides understand each other: whatever the agent sends, and whatever
    the manager answers, with integers of the width of their fields, the other
    side reads from the text as sent, up to the fields it has no use for
    ([host_id], [agent_binary_hash], [push_enabled]) and the order of the keys of
    free-form values. *)
Theorem messages_understood :
  (forall r, request_fits r -> body_parse (json_to_string (ser_check_in_request r)) ≫= de_check_in_request = Some (received_request r)) /\
  (forall r, body_parse (json_to_string (ser_check_in_result r)) ≫= de_check_in_result = Some (received_result r)) /\
  (forall r, response_fits r -> body_parse (json_to_string (ser_check_in_response r)) ≫= de_check_in_response = Some (received_response r)) /\
  (forall l, Forall rule_fits l -> body_parse (json_to_string (ser_list ser_rule_dto l)) ≫= de_list de_rule_dto = Some l).
Proof. split_and!; [apply request_text_read|apply result_text_read|apply response_text_read|apply rules_text_read]. Qed.
End wire.
