(* ===== verification/PullClient.v ===== *)
(** * PullClient: the agent's events stream

    [run_events_stream] and [parse_sse_event] of
    [crates/fw-agent/src/pull_client.rs]: the server-sent events the agent waits
    on between cycles. The chunks of the HTTP body are given as a list, each as the
    text [String::from_utf8_lossy] makes of it (the bytes themselves for the ASCII
    the manager writes), with how the body ends: closed by the server, or broken off
    by a read error. *)

From S2P Require Import Prelude Text.

(** ** One frame *)

Definition sse_line (event : option string) (line : string) : option string :=
  if starts_with ":" line then event
  else match strip_prefix "event:" line with
       | Some rest => Some (trim rest)
       | None => event
       end.

Definition parse_sse_event (frame : string) : option string := foldl sse_line None (lines frame).

(** ** The stream *)

(** [buf.find("\n\n")]: the text before the first blank line, and the text after it. *)
Fixpoint next_frame (buf : string) : option (string * string) :=
  match buf with
  | "" => None
  | String c s =>
      match bool_decide (c = LF), s with
      | true, String d s' =>
          if bool_decide (d = LF) then Some ("", s')
          else '(f, r) ← next_frame s; Some (String c f, r)
      | _, _ => '(f, r) ← next_frame s; Some (String c f, r)
      end
  end.

(** The inner [while let]: every complete frame of the buffer, and what is left. *)
Fixpoint drain_frames (fuel : nat) (buf : string) : list string * string :=
  match fuel with
  | O => ([], buf)
  | S n => match next_frame buf with
           | None => ([], buf)
           | Some (f, rest) => let '(fs, b) := drain_frames n rest in (f :: fs, b)
           end
  end.

Definition frames_of (buf : string) : list string * string := drain_frames (String.length buf) buf.

(** [notify.notify_one()] calls made for a list of frames. *)
Definition check_in_signals (frames : list string) : nat :=
  length (filter (fun f => parse_sse_event f = Some "check-in") frames).

(** The outer loop over the chunks, with the signals it makes and its result: the
    end of the stream signals once more, a chunk that cannot be read ends the loop
    with an error and no signal. *)
Definition read_error : string := "Failed to read SSE chunk".

Fixpoint events_loop (buf : string) (chunks : list string) (broken : bool) : nat * result unit string :=
  match chunks with
  | [] => if broken then (0, Err read_error) else (1, Ok tt)
  | c :: chunks' =>
      let '(fs, b) := frames_of (buf +:+ c) in
      let '(n, r) := events_loop b chunks' broken in ((check_in_signals fs + n)%nat, r)
  end.

(** What opening the stream gives: no connection, or a status and a body. *)
Inductive StreamReply :=
  | NoConnection
  | Answered (status : Z) (chunks : list string) (broken : bool).

(** [error_for_status]. *)
Definition status_error (status : Z) : bool := (400 <=? status)%Z && (status <? 600)%Z.

Definition run_events_stream (reply : StreamReply) : nat * result unit string :=
  match reply with
  | NoConnection => (0, Err "Failed to open SSE events stream")
  | Answered status chunks broken =>
      if status_error status then (0, Err "SSE events stream rejected") else events_loop "" chunks broken
  end.

(** ** The chunks do not matter *)

Lemma next_frame_shorter s f r : next_frame s = Some (f, r) -> (String.length r < String.length s)%nat.
Proof.
  revert f. induction s as [|c s IH]; intros f H; cbn [next_frame] in H; [done|]. cbn [String.length].
  assert (forall x, (('(f, r) ← next_frame s; Some (String c f, r)) = Some (x, r)) ->
    (String.length r < S (String.length s))%nat) as Hrec.
  { intros x Hx. destruct (next_frame s) as [[f' r']|] eqn:Hn; simplify_eq/=.
    specialize (IH _ eq_refl). lia. }
  case_bool_decide; [|by eapply Hrec].
  destruct s as [|d s']; [by eapply Hrec|]. case_bool_decide; [|by eapply Hrec].
  simplify_eq/=. lia.
Qed.

Lemma drain_fuel n m s : (String.length s <= n)%nat -> (String.length s <= m)%nat ->
  drain_frames n s = drain_frames m s.
Proof.
  revert m s. induction n as [|n IH]; intros m s Hn Hm.
  - destruct s; [|simpl in Hn; lia]. by destruct m.
  - destruct m as [|m]; [destruct s; [done|simpl in Hm; lia]|]. simpl.
    destruct (next_frame s) as [[f r]|] eqn:Hf; [|done].
    apply next_frame_shorter in Hf. rewrite (IH m r) by lia. done.
Qed.

Lemma frames_of_step s :
  frames_of s = match next_frame s with
                | None => ([], s)
                | Some (f, r) => let '(fs, b) := frames_of r in (f :: fs, b)
                end.
Proof.
  unfold frames_of. destruct s as [|c s]; [done|].
  change (String.length (String c s)) with (S (String.length s)). cbn [drain_frames].
  destruct (next_frame (String c s)) as [[f r]|] eqn:Hn; [|done].
  apply next_frame_shorter in Hn. simpl in Hn.
  by rewrite (drain_fuel (String.length s) (String.length r) r) by lia.
Qed.

Lemma next_frame_app s t f r : next_frame s = Some (f, r) -> next_frame (s +:+ t) = Some (f, r +:+ t).
Proof.
  revert f. induction s as [|c s IH]; intros f H; cbn [next_frame] in H; [done|].
  rewrite str_app_cons. cbn [next_frame].
  assert (forall x, (('(f, r) ← next_frame s; Some (String c f, r)) = Some (x, r)) ->
    ('(f, r) ← next_frame (s +:+ t); Some (String c f, r)) = Some (x, r +:+ t)) as Hrec.
  { intros x Hx. destruct (next_frame s) as [[f' r']|] eqn:Hn; simplify_eq/=.
    by rewrite (IH _ eq_refl). }
  case_bool_decide; [|by apply Hrec].
  destruct s as [|d s']; [done|]. rewrite str_app_cons.
  case_bool_decide; [by simplify_eq|]. rewrite <- str_app_cons. by apply Hrec.
Qed.

Lemma frames_of_app s t :
  frames_of (s +:+ t) = (let '(fs, b) := frames_of s in
                         let '(fs', b') := frames_of (b +:+ t) in (fs ++ fs', b')).
Proof.
  remember (String.length s) as n eqn:Hn. assert (String.length s <= n)%nat as Hle by lia. clear Hn.
  revert s Hle. induction n as [|n IH]; intros s Hle.
  - destruct s; [|simpl in Hle; lia]. cbn. change ("" +:+ t) with t. destruct (frames_of t) as [fs b]. done.
  - rewrite (frames_of_step s). destruct (next_frame s) as [[f r]|] eqn:Hs.
    + rewrite frames_of_step, (next_frame_app _ _ _ _ Hs).
      apply next_frame_shorter in Hs. rewrite IH by lia.
      destruct (frames_of r) as [fs b]. by destruct (frames_of (b +:+ t)).
    + by destruct (frames_of (s +:+ t)).
Qed.

Lemma check_in_signals_app a b : check_in_signals (a ++ b) = (check_in_signals a + check_in_signals b)%nat.
Proof. unfold check_in_signals. by rewrite filter_app, length_app. Qed.

(** What is left in the buffer holds no complete frame. *)
Lemma frames_of_rest s fs b : frames_of s = (fs, b) -> next_frame b = None.
Proof.
  remember (String.length s) as n eqn:Hn. assert (String.length s <= n)%nat as Hle by lia. clear Hn.
  revert s fs b Hle. induction n as [|n IH]; intros s fs b Hle Hf.
  - destruct s; [|simpl in Hle; lia]. cbn in Hf. by simplify_eq.
  - rewrite frames_of_step in Hf. destruct (next_frame s) as [[f r]|] eqn:Hs; [|by simplify_eq].
    apply next_frame_shorter in Hs. destruct (frames_of r) as [fs1 b1] eqn:Hr. simplify_eq.
    eapply (IH r); [lia|exact Hr].
Qed.

(** How a stream that was read ends: its last signal and its result. *)
Definition stream_end (broken : bool) : nat * result unit string := if broken then (0, Err read_error) else (1, Ok tt).

Lemma events_loop_whole buf chunks broken :
  next_frame buf = None ->
  events_loop buf chunks broken =
    ((check_in_signals (frames_of (buf +:+ str_concat chunks)).1 + (stream_end broken).1)%nat, (stream_end broken).2).
Proof.
  revert buf. induction chunks as [|c chunks IH]; intros buf Hb; cbn [events_loop str_concat].
  - rewrite str_app_nil_r, frames_of_step, Hb. by destruct broken.
  - rewrite str_app_assoc, (frames_of_app (buf +:+ c)). destruct (frames_of (buf +:+ c)) as [fs b] eqn:Hf.
    rewrite IH.
    + destruct (frames_of (b +:+ str_concat chunks)) as [fs' b']. cbn [fst].
      rewrite check_in_signals_app. f_equal. lia.
    + by eapply frames_of_rest.
Qed.

(** However the network splits the events stream into chunks, the agent sees
    the same frames: two deliveries of the same bytes signal the pull loop the
    same number of times, once per [check-in] event plus once for the end of
    the stream (unless a read error ends it), so a forced check-in is never lost to
    a chunk boundary. *)
Theorem events_stream_chunking (status : Z) (chunks : list string) (broken : bool) : status_error status = false ->
  run_events_stream (Answered status chunks broken) =
    ((check_in_signals (frames_of (str_concat chunks)).1 + (stream_end broken).1)%nat, (stream_end broken).2).
Proof. intros H. cbn [run_events_stream]. by rewrite H, events_loop_whole. Qed.

Example events_ex :
  run_events_stream (Answered 200 ["event:check"; "-in" +:+ newline +:+ "data:now" +:+ newline; newline +:+ ": keep"] false) = (2, Ok tt).
Proof. reflexivity. Qed.
