(* ===== verification/PullLoop.v ===== *)
(** * PullLoop: the agent's check-in cycle

    [crates/fw-agent/src/pull_loop.rs]: the manager endpoint, the apply path
    with its guards, pending actions and the whole cycle. The manager is a
    parameter ([ManagerLink]): what the two HTTP calls of [PullClient] return;
    Fleet.v instantiates it with the manager's own handlers. *)

From S2P Require Import Prelude Text Models Net Policy ProtectedCidrs Backend Files AgentState Wire.

(** [env!(CARGO_PKG_VERSION)], the workspace version. *)
Definition AGENT_VERSION : string := "0.3.6".

(** ** Interfaces *)

(** The [url] crate: parsing, scheme, [host_str] (an IPv6 host keeps its
    brackets) and [port_or_known_default]. *)
Class UrlLib := {
  Url : Type;
  url_parse : string -> result Url string;
  url_scheme : Url -> string;
  url_host_str : Url -> option string;
  url_port : Url -> option Z
}.

(** The two calls of the pull client; an [Err] is a transport error, a status
    other than success or an unreadable body. *)
Class ManagerLink (Net : Type) := {
  net_check_in : CheckInRequest -> Net -> result CheckInResponse string * Net;
  net_report_result : CheckInResultRequest -> Net -> result unit string * Net
}.

(** ** The manager endpoint *)

Definition manager_endpoint {U : UrlLib} (manager_url : string) : result (string * Z) string :=
  match url_parse manager_url with
  | Err e => Err ("invalid manager_agent_url: " +:+ e)
  | Ok parsed =>
      match url_host_str parsed with
      | None => Err "manager_agent_url has no host"
      | Some host =>
          match url_port parsed with
          | None => Err "manager_agent_url has no port"
          | Some port =>
              match ip_parse host with
              | None => Err ("manager_agent_url host is not an IP (got " +:+ host +:+
                             "); re-enroll with an IP manager address")
              | Some ip =>
                  if is_unspecified ip
                  then Err ("manager_agent_url is an unspecified address (" +:+ ip_to_string ip +:+
                            "); re-enroll with a specific IP")
                  else Ok (ip_to_string ip, port)
              end
          end
      end
  end.

(** ** Wire to domain *)

Definition action_of_str (s : string) : FirewallAction :=
  if bool_decide (s = "allow") then Allow else if bool_decide (s = "deny") then Deny
  else if bool_decide (s = "reject") then Reject else if bool_decide (s = "limit") then Limit
  else if bool_decide (s = "masquerade") then Masquerade else Allow.

Definition direction_of_str (s : string) : FirewallDirection :=
  if bool_decide (s = "in") then In else if bool_decide (s = "out") then Out
  else if bool_decide (s = "forward") then Forward else In.

Definition protocol_of_str (s : string) : FirewallProtocol :=
  if bool_decide (s = "any") then Any else if bool_decide (s = "tcp") then Tcp
  else if bool_decide (s = "udp") then Udp else if bool_decide (s = "icmp") then Icmp
  else if bool_decide (s = "icmpv6") then Icmpv6 else if bool_decide (s = "gre") then Gre
  else if bool_decide (s = "esp") then Esp else if bool_decide (s = "ah") then Ah
  else if bool_decide (s = "sctp") then Sctp else Any.

Definition dto_to_rule (now : DateTime) (dto : RuleDto) : FirewallRule := {|
  rule_id := dto_id dto; rule_name := dto_name dto; rule_description := "";
  rule_action := action_of_str (dto_action dto);
  rule_direction := direction_of_str (dto_direction dto);
  rule_protocol := protocol_of_str (dto_protocol dto);
  src_cidr := dto_src_cidr dto; src_port_start := dto_src_port_start dto;
  src_port_end := dto_src_port_end dto; dst_cidr := dto_dst_cidr dto;
  dst_port_start := dto_dst_port_start dto; dst_port_end := dto_dst_port_end dto;
  interface_in := dto_interface_in dto; interface_out := dto_interface_out dto;
  rule_comment := dto_name dto; rule_log := dto_log dto; rule_priority := dto_priority dto;
  rule_created_by := None; rule_created_at := now; rule_updated_at := now
|}.

(** [BackendError]'s [Display]. *)
Definition backend_error_text (e : BackendError) : string :=
  match e with
  | CommandFailed m => "command failed: " +:+ m
  | Io m => "io error: " +:+ m
  end.

Section loop.
Context {OS : HostOs} {Net : Type} {COD : AgentCodec} {SHA : Sha256} {IPN : IpNetLib} {U : UrlLib}
  {UT : UuidText} {MGR : ManagerLink Net}.
Notation W := (AgentWorld Net).
Notation MW := (M W string).

(** [m.await.map_err(|e| anyhow!("<prefix>: {e}"))?] for a backend operation. *)
Definition backend_try {A} (prefix : string) (m : M Host BackendError A) : MW A :=
  r ← on_host m;
  match r with
  | Ok a => mret a
  | Err e => throw (prefix +:+ backend_error_text e)
  end.

(** ** The apply path *)

(** The safety gate: the umbilical's address is a specific IP. *)
Definition umbilical_ok (ctx : ApplyContext) : bool :=
  match ip_parse (manager_ip ctx) with
  | Some ip => negb (is_unspecified ip)
  | None => false
  end.

Definition acquire_apply_lock : MW unit :=
  free ← gets aw_lock_free;
  if (free : bool) then mret tt else throw "acquire apply lock: lock unavailable".

Definition apply_rules (backend : FirewallBackend) (rules : list FirewallRule)
    (protected : list string) (ctx : ApplyContext) : MW string :=
  match check_rules_against_protected rules protected with
  | Err violations => throw ("protected CIDR violations: " +:+ join "; " violations)
  | Ok _ =>
      if negb (umbilical_ok ctx)
      then throw ("cannot establish manager umbilical: manager_ip is not a specific IP (got " +:+ DQ +:+
                  manager_ip ctx +:+ DQ +:+ ") — refusing to apply; re-enroll with an IP manager address")
      else
        _ ← acquire_apply_lock;
        match backend_compile backend rules ctx with
        | Err e => throw ("Compile failed: " +:+ backend_error_text e)
        | Ok compiled =>
            result ← backend_try "Apply failed: " (backend_apply backend compiled);
            if (0 <? failed result)%nat
            then throw (pretty (failed result) +:+ " rules failed to apply")
            else
              _ ← ignore (save_last_good rules);
              mret (snapshot_hash result)
        end
  end.

Definition apply_rules_from_dto (backend : FirewallBackend) (dtos : list RuleDto)
    (protected : list string) (ctx : ApplyContext) : MW string := fun w =>
  apply_rules backend (map (dto_to_rule (aw_now w)) dtos) protected ctx w.

(** ** Pending actions *)

Definition execute_pending_action (backend : FirewallBackend) (action : PendingActionDto)
  : MW (bool * option string) :=
  let t := pa_dto_action_type action in
  if bool_decide (t = "rollback") then
    r ← on_host (backend_reset backend);
    match r with
    | Ok _ => mret (true, None)
    | Err e => mret (false, Some (backend_error_text e))
    end
  else if bool_decide (t = "safe_mode_on") || bool_decide (t = "safe_mode_off") ||
          bool_decide (t = "reload_config") || bool_decide (t = "agent_upgrade") ||
          bool_decide (t = "apply_rules")
  then mret (true, None)
  else mret (false, Some ("Unknown action type: " +:+ t)).

Definition net_call {A} (f : Net -> result A string * Net) : MW (result A string) := fun w =>
  let '(r, n) := f (aw_net w) in (Ok r, set_net n w).

(** [if let Err(e) = pull_client.report_result(..).await { warn!(..) }]. *)
Definition report (req : CheckInResultRequest) : MW unit :=
  _ ← net_call (net_report_result req); mret tt.

(** One iteration of the pending-action loop. *)
Definition run_pending_action (backend : FirewallBackend) (host : Uuid) (live_hash : string)
    (action : PendingActionDto) : MW unit :=
  replayed ← gets (already_executed (uuid_to_string (pa_dto_id action)));
  if (replayed : bool)
  then report (mkCheckInResultRequest host (Some (pa_dto_id action)) true None live_hash)
  else
    '(success, error_msg) ← execute_pending_action backend action;
    _ ← (if (success : bool) then ignore (record (uuid_to_string (pa_dto_id action))) else mret tt);
    report (mkCheckInResultRequest host (Some (pa_dto_id action)) success error_msg live_hash).

(** ** Information sent on check-in *)

(** The field hash of the ruleset last applied; empty when there is none. *)
Definition reported_rules_hash (w : W) : string :=
  match load_last_good w with
  | Some applied => compute_rules_hash (map rule_hash_parts applied)
  | None => ""
  end.

Definition local_drift (live_hash : string) (w : W) : bool :=
  match load_expected_hash w with
  | Some expected => negb (bool_decide (expected = live_hash))
  | None => false
  end.

Definition agent_binary_hash (w : W) : option string := sha256_hex <$> aw_exe w.

Definition hostname : M Host string string := fun h =>
  match spawn "hostname" [] h with
  | (Ok o, h') => (Ok (if utf8_valid (out_stdout o) then trim (out_stdout o) else "unknown"), h')
  | (Err _, h') => (Ok "unknown", h')
  end.

Definition gather_os_info : M Host string Json :=
  container_runtime ← detect_container_runtime;
  name ← hostname;
  mret (JObj ([("hostname", JStr name); ("os", JStr "linux"); ("arch", JStr "x86_64")] ++
              match container_runtime with
              | Some r => [("container_runtime", JStr r)]
              | None => []
              end)).

(** ** The parts of a cycle *)

(** Manager unreachable: revert to the last good ruleset if safe mode says so. *)
Definition safe_mode_revert (backend : FirewallBackend) : MW unit :=
  last_good ← gets load_last_good;
  match last_good with
  | Some ((_ :: _) as rules) =>
      protected ← gets (fun w => protected_cidrs (aw_config w));
      cached ← gets (fun w => default LastDefaults_default (load_last_defaults w));
      url ← gets (fun w => manager_agent_url (pull (aw_config w)));
      match manager_endpoint url with
      | Err _ => mret tt
      | Ok (ip, port) =>
          ignore (apply_rules backend rules protected
                    (mkApplyContext ip port (ld_input_policy cached) (ld_output_policy cached)))
      end
  | _ => mret tt
  end.

Definition on_check_in_error (backend : FirewallBackend) (enabled : bool) : MW bool :=
  engaged ← (if enabled then safe_mode_check else mret false);
  _ ← (if (engaged : bool) then safe_mode_revert backend else mret tt);
  mret false.

(** Step 4: take over a configuration update and save it. *)
Definition apply_config_update (u : ConfigUpdate) : MW unit :=
  _ ← modify (fun w =>
        let c := aw_config w in
        let interval := u32_of_i32 (cu_check_in_interval_secs u) in
        let version := cu_config_version u in
        set_config
          (mkAgentConfig (manager_url c) (fqdn c) (host_id c) (cert_dir c) (config_dir c) (log_dir c)
             (cu_safe_mode_enabled u) (safe_mode_timeout_secs c) (protected_cidrs c)
             (mkPullConfig interval (manager_agent_url (pull c)) version))
          interval version w);
  c ← gets aw_config;
  ignore (config_save c).

(** Step 5: at most one apply, chosen by what changed. *)
Definition decide_apply (backend : FirewallBackend) (response : CheckInResponse) (drift : bool)
  : MW (option (result string string) * LastDefaults) :=
  cached ← gets (fun w => default LastDefaults_default (load_last_defaults w));
  let wanted := mkLastDefaults (resp_default_input_policy response) (resp_default_output_policy response) in
  let defaults_changed := negb (bool_decide (cached = wanted)) in
  url ← gets (fun w => manager_agent_url (pull (aw_config w)));
  let '(ip, port) := match manager_endpoint url with Ok ep => ep | Err _ => ("", 0%Z) end in
  protected ← gets (fun w => protected_cidrs (aw_config w));
  if negb (bool_decide (resp_rules response = [])) && (resp_rules_changed response || defaults_changed)
  then
    r ← attempt (apply_rules_from_dto backend (resp_rules response) protected
                   (mkApplyContext ip port (ld_input_policy wanted) (ld_output_policy wanted)));
    mret (Some r, wanted)
  else if drift then
    last_good ← gets load_last_good;
    match last_good with
    | Some ((_ :: _) as rules) =>
        r ← attempt (apply_rules backend rules protected
                       (mkApplyContext ip port (ld_input_policy cached) (ld_output_policy cached)));
        mret (Some r, cached)
    | _ => mret (None, cached)
    end
  else mret (None, cached).

Definition report_apply (host : Uuid) (live_hash : string)
    (o : option (result string string) * LastDefaults) : MW unit :=
  match o with
  | (None, _) => mret tt
  | (Some (Ok new_hash), applied_defaults) =>
      _ ← ignore (save_expected_hash new_hash);
      _ ← ignore (save_last_defaults applied_defaults);
      report (mkCheckInResultRequest host None true None new_hash)
  | (Some (Err e), _) =>
      report (mkCheckInResultRequest host None false (Some e) live_hash)
  end.

(** ** The cycle *)

Definition on_response (backend : FirewallBackend) (host : Uuid) (live_hash : string) (drift : bool)
    (response : CheckInResponse) : MW bool :=
  _ ← record_manager_contact;
  _ ← match resp_config response with Some u => apply_config_update u | None => mret tt end;
  o ← decide_apply backend response drift;
  _ ← report_apply host live_hash o;
  _ ← for_each (run_pending_action backend host live_hash) (resp_pending_actions response);
  mret drift.

Definition run_pull_cycle (backend : FirewallBackend) (host : Uuid) : MW bool :=
  snapshot ← backend_try "Failed to get backend snapshot: " (backend_snapshot backend);
  let live_hash := snap_hash snapshot in
  reported ← gets reported_rules_hash;
  drift ← gets (local_drift live_hash);
  _ ← backend_try "Failed to get backend status: " (backend_status backend);
  os_info_r ← on_host gather_os_info;
  uptime ← gets aw_uptime;
  version ← gets aw_config_version;
  bin_hash ← gets agent_binary_hash;
  enabled ← gets (fun w => safe_mode_enabled (aw_config w));
  let req := mkCheckInRequest host reported AGENT_VERSION (backend_name backend)
               (unwrap_or JNull os_info_r) uptime version drift bin_hash in
  r ← net_call (net_check_in req);
  match r with
  | Err _ => on_check_in_error backend enabled
  | Ok response => on_response backend host live_hash drift response
  end.

(** The host id the loop runs under; an unreadable one is the nil UUID. *)
Definition loop_host_id (c : AgentConfig) : Uuid := default (uuid_of 0) (host_id c ≫= uuid_parse).

(** One turn of [run_pull_loop]: the cycle, then the wait before the next one
    ([wait_for_next_cycle] waits at least a minute unless it is woken). *)
Definition wait_for_next_cycle (interval_secs : Z) : Z := Z.max interval_secs 60.

Definition pull_loop_turn (backend : FirewallBackend) : MW Z :=
  host ← gets (fun w => loop_host_id (aw_config w));
  r ← attempt (run_pull_cycle backend host);
  interval ← gets aw_interval;
  mret (wait_for_next_cycle (if (unwrap_or false r : bool) then 30%Z else interval)).
End loop.
