(* ===== verification/PullHttp.v ===== *)
(** * PullHttp: the agent's HTTP client

    [PullClient] of [crates/fw-agent/src/pull_client.rs]: the requests it sends, the
    statuses and bodies it accepts, and with them the [ManagerLink] of the pull
    loop. The transport (reqwest over mutual TLS) is the [Http] interface. *)

From S2P Require Import Prelude Text Models Net Wire WireJson Backend Files AgentState PullLoop.

(** Sending a request: the reply, or a transport error. *)
Class Http (Net : Type) := {
  http_post : string -> string -> Net -> result HttpReply string * Net;
  http_get : string -> Net -> result HttpReply string * Net
}.

(** The text of a status ([404 Not Found]). *)
Class StatusText := { status_text : Z -> string }.

Record PullClient := mkPullClient { pc_manager_url : string; pc_host_id : Uuid }.

Section client.
Context {Net : Type} {JS : SerdeJson} {SB : SerdeBody} {UT : UuidText} {HTTP : Http Net} {ST : StatusText}.
Notation NET := (M Net string).

(** [.send().await.context(msg)?], then [if !resp.status().is_success() { bail!(..) }]. *)
Definition accepted (send_error what : string) (call : Net -> result HttpReply string * Net) : NET string := fun n =>
  match call n with
  | (Err _, n') => (Err send_error, n')
  | (Ok r, n') =>
      if is_success (hr_status r) then (Ok (hr_body r), n')
      else (Err (what +:+ " failed: " +:+ status_text (hr_status r) +:+ " - " +:+ hr_body r), n')
  end.

(** [resp.json::<T>().await.context(msg)]. *)
Definition parsed {A} (de : Json -> option A) (msg : string) (body : string) : NET A :=
  lift_result (ok_or (body_parse body ≫= de) msg).

Definition client_check_in (c : PullClient) (req : CheckInRequest) : NET CheckInResponse :=
  body ← accepted "Failed to send check-in request" "Check-in"
    (http_post (pc_manager_url c +:+ "/api/v1/agent/check-in") (json_to_string (ser_check_in_request req)));
  parsed de_check_in_response "Failed to parse check-in response" body.

Definition client_report_result (c : PullClient) (req : CheckInResultRequest) : NET unit :=
  _ ← accepted "Failed to send result report" "Result report"
    (http_post (pc_manager_url c +:+ "/api/v1/agent/check-in/result") (json_to_string (ser_check_in_result req)));
  mret tt.

Definition client_fetch_policy (c : PullClient) : NET (list RuleDto) :=
  body ← accepted "Failed to fetch policy" "Policy fetch"
    (http_get (pc_manager_url c +:+ "/api/v1/agent/policy?host_id=" +:+ uuid_to_string (pc_host_id c)));
  parsed (de_list de_rule_dto) "Failed to parse policy response" body.

(** The pull loop's link to the manager. *)
Definition http_link (c : PullClient) : ManagerLink Net := {|
  net_check_in := client_check_in c; net_report_result := client_report_result c
|}.

(** A reply with an error status or a body that is not the expected message is an
    error of the call. *)
Lemma client_check_in_spec c req n r n' :
  http_post (pc_manager_url c +:+ "/api/v1/agent/check-in") (json_to_string (ser_check_in_request req)) n = (Ok r, n') ->
  client_check_in c req n =
    (if is_success (hr_status r) then ok_or (body_parse (hr_body r) ≫= de_check_in_response) "Failed to parse check-in response"
     else Err ("Check-in failed: " +:+ status_text (hr_status r) +:+ " - " +:+ hr_body r), n').
Proof.
  intros H. unfold client_check_in, accepted, parsed, lift_result, mbind, M_bind. rewrite H. by destruct (is_success _).
Qed.
End client.
