(* ===== verification/ManagerUrl.v ===== *)
(** * ManagerUrl: the manager's address, from enrollment to the umbilical

    [normalize_manager_url_to_ip] and [auto_detect_manager_cidr] of
    [crates/fw-agent/src/protected_cidrs.rs], which enrollment uses to fix the
    manager's address, against [manager_endpoint] of [pull_loop.rs], which every
    apply uses to read it back. DNS is a parameter. *)

From S2P Require Import Prelude Text Net Files AgentState PullLoop.

(** [ToSocketAddrs] on ["host:port"]: the resolver's answer. *)
Class Dns := { to_socket_addrs : string -> result (list IpAddr) string }.

Section urls.
Context {U : UrlLib} {DNS : Dns}.

Definition auto_detect_manager_cidr (manager_url : string) : option string :=
  parsed ← result_ok (url_parse manager_url);
  host ← url_host_str parsed;
  addrs ← result_ok (to_socket_addrs (host +:+ ":443"));
  ip_to_string <$> head addrs.

(** The address of a host name: an IP literal, or the first usable answer. *)
Definition resolve_host (host : string) (port : Z) : result IpAddr string :=
  match ip_parse host with
  | Some ip => Ok ip
  | None =>
      match to_socket_addrs (host +:+ ":" +:+ pretty port) with
      | Err e => Err ("failed to resolve manager hostname " +:+ host +:+ ": " +:+ e)
      | Ok addrs =>
          ok_or (List.find (fun ip => negb (is_unspecified ip)) addrs)
            ("manager hostname " +:+ host +:+ " resolved to no usable IP")
      end
  end.

Definition host_repr (ip : IpAddr) : string :=
  if is_ipv6 ip then "[" +:+ ip_to_string ip +:+ "]" else ip_to_string ip.

Definition normalize_manager_url_to_ip (raw : string) : result string string :=
  match url_parse raw with
  | Err e => Err ("invalid manager URL: " +:+ e)
  | Ok parsed =>
      let scheme := url_scheme parsed in
      if negb (bool_decide (scheme = "https")) && negb (bool_decide (scheme = "http"))
      then Err ("unsupported manager URL scheme: " +:+ scheme) else
      match url_host_str parsed with
      | None => Err "manager URL has no host"
      | Some host =>
          match url_port parsed with
          | None => Err "manager URL has no port"
          | Some port =>
              match resolve_host host port with
              | Err e => Err e
              | Ok ip =>
                  if is_unspecified ip
                  then Err ("manager address must be a specific IP, got " +:+ ip_to_string ip +:+
                            " — set the manager server.host to a real address, not a bind address")
                  else Ok (scheme +:+ "://" +:+ host_repr ip +:+ ":" +:+ pretty port)
              end
          end
      end
  end.
End urls.

(** ** Documented behaviour of the [url] crate and the resolver *)

(** A URL with an IPv4 literal and a port is split into them; the host of one
    with an IPv6 literal is returned in brackets; ports are 16 bits. *)
Class UrlLaws `{!UrlLib} := {
  url_ipv4 : forall scheme a port, scheme = "https" \/ scheme = "http" ->
    (0 <= a < 2^32)%Z -> (0 <= port < 65536)%Z ->
    exists u, url_parse (scheme +:+ "://" +:+ ip_to_string (V4 a) +:+ ":" +:+ pretty port) = Ok u /\
      url_host_str u = Some (ip_to_string (V4 a)) /\ url_port u = Some port;
  url_ipv6 : forall scheme a port, scheme = "https" \/ scheme = "http" ->
    (0 <= a < 2^128)%Z -> (0 <= port < 65536)%Z ->
    exists u h, url_parse (scheme +:+ "://[" +:+ ip_to_string (V6 a) +:+ "]:" +:+ pretty port) = Ok u /\
      url_host_str u = Some ("[" +:+ h) /\ url_port u = Some port;
  url_port_u16 : forall u p, url_port u = Some p -> (0 <= p < 65536)%Z
}.
Class DnsLaws `{!Dns} := {
  resolved_wf : forall s l ip, to_socket_addrs s = Ok l -> ip ∈ l -> ip_wf ip
}.

Section normalized.
Context {U : UrlLib} {DNS : Dns} {UL : UrlLaws} {DL : DnsLaws}.

Lemma resolve_host_wf host port ip : resolve_host host port = Ok ip -> ip_wf ip.
Proof.
  unfold resolve_host. destruct (ip_parse host) as [i|] eqn:Hp; [intros [= <-]; by eapply ip_parse_wf|].
  destruct (to_socket_addrs _) as [l|] eqn:Hd; [|done].
  destruct (List.find _ l) as [i|] eqn:Hf; simpl; [|done]. intros [= <-].
  apply List.find_some in Hf as [Hin _]. eapply resolved_wf; [done|by apply list_elem_of_In].
Qed.

(** Enrollment turns the manager's URL into one with a specific IP, and on an
    IPv4 address the apply path reads back exactly that address and port and
    lets the umbilical through; on an IPv6 address the same URL is rejected by
    [manager_endpoint] (its host comes back in brackets), so such a host never
    applies a ruleset. *)
Theorem normalized_url_endpoint (raw url : string) :
  normalize_manager_url_to_ip raw = Ok url ->
  exists ip port, is_unspecified ip = false /\
    (is_ipv4 ip = true ->
       manager_endpoint url = Ok (ip_to_string ip, port) /\
       forall i o, umbilical_ok (Backend.mkApplyContext (ip_to_string ip) port i o) = true) /\
    (is_ipv6 ip = true -> exists e, manager_endpoint url = Err e).
Proof.
  unfold normalize_manager_url_to_ip. destruct (url_parse raw) as [u|]; [|done].
  destruct (_ && _) eqn:Hs; [done|]. destruct (url_host_str u) as [host|]; [|done].
  destruct (url_port u) as [port|] eqn:Hport; [|done]. apply url_port_u16 in Hport.
  destruct (resolve_host host port) as [ip|] eqn:Hip; [|done]. apply resolve_host_wf in Hip.
  destruct (is_unspecified ip) eqn:Hun; [done|]. intros [= <-]. exists ip, port.
  assert (url_scheme u = "https" \/ url_scheme u = "http") as Hsch.
  { apply andb_false_iff in Hs as [Hs|Hs]; apply negb_false_iff, bool_decide_eq_true_1 in Hs; auto. }
  split; [done|]. destruct ip as [a|a]; (split; [intros Hv|intros Hv]); try done.
  - destruct (url_ipv4 (url_scheme u) a port Hsch Hip Hport) as (v & Hv1 & Hv2 & Hv3).
    unfold host_repr. cbn [is_ipv6 is_ipv4 negb]. unfold manager_endpoint, umbilical_ok.
    rewrite Hv1, Hv2, Hv3, ip_parse_ipv4_to_string, Hun by done. split; [done|].
    intros i o. cbn [Backend.manager_ip]. by rewrite ip_parse_ipv4_to_string, Hun.
  - destruct (url_ipv6 (url_scheme u) a port Hsch Hip Hport) as (v & h & Hv1 & Hv2 & Hv3).
    unfold host_repr. cbn [is_ipv6 is_ipv4 negb].
    replace (url_scheme u +:+ "://" +:+ ("[" +:+ ip_to_string (V6 a) +:+ "]") +:+ ":" +:+ pretty port)
      with (url_scheme u +:+ "://[" +:+ ip_to_string (V6 a) +:+ "]:" +:+ pretty port).
    2: { f_equal. rewrite <- !str_app_assoc. reflexivity. }
    unfold manager_endpoint. rewrite Hv1, Hv2, Hv3, ip_parse_bracket. eauto.
Qed.
End normalized.

(** ** Witness: a small URL parser *)

(** Split at the last [c]. *)
Fixpoint split_last (c : ascii) (s : string) : option (string * string) :=
  match s with
  | "" => None
  | String d s' =>
      match split_last c s' with
      | Some (a, b) => Some (String d a, b)
      | None => if bool_decide (c = d) then Some ("", s') else None
      end
  end.

Lemma split_last_none c s : str_forallb (fun d => negb (bool_decide (c = d))) s = true -> split_last c s = None.
Proof.
  induction s as [|d s IH]; [done|]. simpl. intros [Hd Hs]%andb_true_iff. rewrite IH by done.
  apply negb_true_iff in Hd. by rewrite Hd.
Qed.

Lemma split_last_app c x p : str_forallb (fun d => negb (bool_decide (c = d))) p = true ->
  split_last c (x +:+ String c p) = Some (x, p).
Proof.
  intros Hp. induction x as [|d x IH].
  - change ("" +:+ String c p) with (String c p). cbn [split_last].
    rewrite split_last_none by done. by rewrite bool_decide_eq_true_2.
  - rewrite str_app_cons. cbn [split_last]. by rewrite IH.
Qed.

Definition toy_url_parse (s : string) : result (string * string * Z) string :=
  let authority scheme rest :=
    match split_last ":" rest with
    | Some (host, p) =>
        match read_number 10 5 65535 true p with
        | Some (port, "") => Ok (scheme, host, port)
        | _ => Err "invalid port number"
        end
    | None => Err "no port"
    end in
  match strip_prefix "https://" s with
  | Some rest => authority "https" rest
  | None => match strip_prefix "http://" s with
            | Some rest => authority "http" rest
            | None => Err "relative URL without a base"
            end
  end.

Definition toy_url : UrlLib := {|
  Url := string * string * Z; url_parse := toy_url_parse; url_scheme u := u.1.1;
  url_host_str u := Some u.1.2;
  url_port u := if (0 <=? u.2)%Z && (u.2 <? 65536)%Z then Some u.2 else None
|}.

Definition port_ok (p : Z) : bool :=
  str_forallb (fun d => negb (bool_decide (":"%char = d))) (pretty p) &&
  bool_decide (read_number 10 5 65535 true (pretty p) = Some (p, "")).

Fixpoint ports_ok (n : nat) (p : Z) : bool :=
  match n with O => true | S n' => port_ok p && ports_ok n' (p + 1) end.

(** The ports in blocks of 256. *)
Lemma all_ports_ok : forallb (fun k => ports_ok 256 (256 * Z.of_nat k)) (seq 0 256) = true.
Proof. vm_compute. reflexivity. Qed.

Lemma ports_ok_elem n p q : ports_ok n p = true -> (p <= q < p + Z.of_nat n)%Z -> port_ok q = true.
Proof.
  revert p. induction n as [|n IH]; intros p H Hq; [lia|]. cbn [ports_ok] in H.
  apply andb_true_iff in H as [Hp H]. destruct (decide (q = p)) as [->|Hne]; [done|].
  apply (IH (p + 1)%Z); [done|lia].
Qed.

Lemma port_roundtrip p : (0 <= p < 65536)%Z -> port_ok p = true.
Proof.
  intros Hp. pose proof all_ports_ok as Hall. rewrite forallb_forall in Hall.
  specialize (Hall (Z.to_nat (p / 256))).
  eapply ports_ok_elem; [apply Hall, in_seq|]; Z.div_mod_to_equations; lia.
Qed.

Lemma toy_url_parse_authority scheme host port :
  scheme = "https" \/ scheme = "http" -> (0 <= port < 65536)%Z ->
  toy_url_parse (scheme +:+ "://" +:+ host +:+ ":" +:+ pretty port) = Ok (scheme, host, port).
Proof.
  intros Hs Hp. apply port_roundtrip, andb_true_iff in Hp as [Hc Hr]. apply bool_decide_eq_true_1 in Hr.
  unfold toy_url_parse. change (":" +:+ pretty port) with (String ":" (pretty port)).
  destruct Hs as [-> | ->].
  - rewrite (proj2 (strip_prefix_Some "https://" _ (host +:+ String ":" (pretty port)))) by done.
    by rewrite split_last_app, Hr.
  - rewrite (proj2 (strip_prefix_Some "http://" _ (host +:+ String ":" (pretty port)))) by done.
    destruct (strip_prefix "https://" _) eqn:Hx; [by vm_compute in Hx|].
    by rewrite split_last_app, Hr.
Qed.

Lemma toy_port_range p : (0 <= p < 65536)%Z -> (0 <=? p)%Z && (p <? 65536)%Z = true.
Proof. intros Hp. apply andb_true_iff. rewrite Z.leb_le, Z.ltb_lt. lia. Qed.

Lemma toy_url_laws : @UrlLaws toy_url.
Proof.
  split.
  - intros scheme a port Hs Ha Hp. exists (scheme, ip_to_string (V4 a), port).
    cbn [url_parse url_host_str url_port toy_url fst snd].
    rewrite toy_port_range by done. by rewrite toy_url_parse_authority.
  - intros scheme a port Hs Ha Hp. exists (scheme, "[" +:+ ip_to_string (V6 a) +:+ "]", port), (ip_to_string (V6 a) +:+ "]").
    cbn [url_parse url_host_str url_port toy_url fst snd].
    rewrite toy_port_range by done. split_and!; [|done..].
    etrans; [|by apply (toy_url_parse_authority scheme ("[" +:+ ip_to_string (V6 a) +:+ "]") port)].
    do 2 f_equal. rewrite <- !str_app_assoc. done.
  - intros [[s h] q] p. cbn [url_port toy_url snd].
    destruct (_ && _) eqn:Hb; [|done]. intros [= <-].
    rewrite andb_true_iff, Z.leb_le, Z.ltb_lt in Hb. lia.
Qed.

Definition toy_dns : Dns := {| to_socket_addrs _ := Ok [V4 0; V6 1; V4 3221225994] |}.

Lemma toy_dns_laws : @DnsLaws toy_dns.
Proof.
  split. intros s l ip [= <-] Hin.
  repeat (apply elem_of_cons in Hin as [->|Hin]; [by vm_compute; split|]). by apply not_elem_of_nil in Hin.
Qed.

Lemma normalized_url_endpoint_witness :
  @normalize_manager_url_to_ip toy_url toy_dns "https://192.0.2.10:8444" = Ok "https://192.0.2.10:8444" /\
  exists ip port, is_unspecified ip = false /\
    (is_ipv4 ip = true ->
       @manager_endpoint toy_url "https://192.0.2.10:8444" = Ok (ip_to_string ip, port) /\
       forall i o, umbilical_ok (Backend.mkApplyContext (ip_to_string ip) port i o) = true) /\
    (is_ipv6 ip = true -> exists e, @manager_endpoint toy_url "https://192.0.2.10:8444" = Err e).
Proof.
  split; [vm_compute; reflexivity|].
  apply (@normalized_url_endpoint toy_url toy_dns toy_url_laws toy_dns_laws "https://192.0.2.10:8444").
  vm_compute. reflexivity.
Defined.

Example normalized_v6_rejected :
  @normalize_manager_url_to_ip toy_url toy_dns "https://manager:8444" = Ok "https://[::1]:8444" /\
  is_ok (@manager_endpoint toy_url "https://[::1]:8444") = false.
Proof. vm_compute. split; reflexivity. Qed.
