(* ===== verification/PullLoopFacts.v ===== *)
(** * PullLoopFacts: what a check-in cycle can and cannot do

    Safety of the apply path, the replay cache across deliveries, safe mode and
    the steady state, for [PullLoop]. *)

From S2P Require Import Prelude Text Models Net Policy ProtectedCidrs Backend ShellWords UfwCompile UfwApply.
From S2P Require Import Files AgentState AgentToy Wire PullLoop ManagerUrl.

Section facts.
Context {OS : HostOs} {Net : Type} {COD : AgentCodec} {SHA : Sha256} {IPN : IpNetLib} {U : UrlLib}
  {UT : UuidText} {MGR : ManagerLink Net} {SH : Shlex}.
Notation W := (AgentWorld Net).

(** ** The guards *)

Lemma apply_rules_guarded (backend : FirewallBackend) rules prot ctx (w : W) :
  (exists v, check_rules_against_protected rules prot = Err v) \/ umbilical_ok ctx = false \/ aw_lock_free w = false ->
  exists e, apply_rules backend rules prot ctx w = (Err e, w).
Proof.
  intros Hbad. unfold apply_rules.
  destruct (check_rules_against_protected rules prot) as [[]|v]; [|by eexists].
  destruct Hbad as [[v Hv]|Hbad]; [done|]. destruct (umbilical_ok ctx) eqn:Hu; [|by eexists]. destruct Hbad as [|Hl]; [done|].
  cbn [negb]. unfold acquire_apply_lock, gets, mbind, M_bind. rewrite Hl. by eexists.
Qed.

Lemma umbilical_specific ctx : umbilical_ok ctx = true -> exists ip, ip_parse (manager_ip ctx) = Some ip /\ ip <> V4 0 /\ ip <> V6 0.
Proof.
  unfold umbilical_ok. destruct (ip_parse (manager_ip ctx)) as [ip|]; [|done]. intros Hn. exists ip. split; [done|]. by split; intros ->.
Qed.


(** ** Applying with ufw *)

Lemma apply_rules_passed backend rules prot ctx (w : W) :
  check_rules_against_protected rules prot = Ok tt -> umbilical_ok ctx = true -> aw_lock_free w = true ->
  apply_rules backend rules prot ctx w =
    match backend_compile backend rules ctx with
    | Err e => (Err ("Compile failed: " +:+ backend_error_text e), w)
    | Ok compiled =>
        (result ← backend_try "Apply failed: " (backend_apply backend compiled);
         if (0 <? failed result)%nat then throw (pretty (failed result) +:+ " rules failed to apply")
         else _ ← ignore (save_last_good rules); mret (snapshot_hash result)) w
    end.
Proof.
  intros Hc Hu Hl. unfold apply_rules. rewrite Hc, Hu. simpl.
  erewrite bind_ok by (unfold acquire_apply_lock, gets, mbind, M_bind; rewrite Hl; reflexivity).
  by destruct (backend_compile backend rules ctx).
Qed.

Lemma backend_try_ok {A} p (m : M Host BackendError A) (w : W) a h :
  m (aw_os w) = (Ok a, h) -> backend_try p m w = (Ok a, set_os h w).
Proof. intros Hm. unfold backend_try, on_host, mbind, M_bind. by rewrite Hm. Qed.

(** The apply path with ufw, once the guards are passed. *)
Lemma apply_rules_ufw rules prot ctx (w : W) :
  check_rules_against_protected rules prot = Ok tt -> umbilical_ok ctx = true -> aw_lock_free w = true ->
  exists c r h, ufw_compile rules ctx = Ok c /\ ufw_apply c (aw_os w) = (Ok r, h) /\
    ufw_apply_run c (aw_os w) r h /\
    apply_rules UfwBackend rules prot ctx w =
      if (0 <? failed r)%nat
      then (Err (pretty (failed r) +:+ " rules failed to apply"), set_os h w)
      else (Ok (snapshot_hash r), final (save_last_good rules) (set_os h w)).
Proof.
  intros Hc Hu Hl. rewrite (apply_rules_passed _ _ _ _ _ Hc Hu Hl). cbn [backend_compile UfwBackend].
  eexists. unfold ufw_compile at 2.
  set (c := mkCompiled _). destruct (ufw_apply_inv c (aw_os w)) as (r & h & Hrun & Hr).
  exists r, h. split_and!; [done..|].
  erewrite bind_ok by (apply backend_try_ok; exact Hrun).
  by destruct (0 <? failed r)%nat.
Qed.

Lemma save_last_good_ok rules (w : W) :
  LAST_GOOD_PATH ∉ aw_unwritable w -> exists w', save_last_good rules w = (Ok tt, w').
Proof.
  intros Hw. unfold save_last_good, fs_write. rewrite bool_decide_eq_false_2 by done. by eexists.
Qed.

(** An apply that succeeded has passed the guards. *)
Lemma apply_rules_ok_guards backend rules prot ctx (w w' : W) hash : apply_rules backend rules prot ctx w = (Ok hash, w') ->
  check_rules_against_protected rules prot = Ok tt /\ umbilical_ok ctx = true /\ aw_lock_free w = true.
Proof.
  unfold apply_rules. intros Hrun. destruct (check_rules_against_protected rules prot) as [[]|]; [|done].
  destruct (umbilical_ok ctx); [|done]. simpl in Hrun. split_and!; [done..|].
  unfold acquire_apply_lock, gets, mbind, M_bind in Hrun. by destruct (aw_lock_free w).
Qed.

(** What a clean apply leaves on the host and in the agent's record. *)
Lemma apply_rules_clean {UFW : UfwLaws} {SHL : ShlexLaws} {CODL : AgentCodecLaws}
    (rules : list FirewallRule) prot ctx (w w' : W) hash c r h :
  ctx_words_ok ctx -> Forall rule_words_ok rules ->
  NoDup (ufw_tuple <$> (umbilical_args ctx :: (ufw_args <$> rules))) ->
  LAST_GOOD_PATH ∉ aw_unwritable w ->
  apply_rules UfwBackend rules prot ctx w = (Ok hash, w') ->
  ufw_compile rules ctx = Ok c -> ufw_apply c (aw_os w) = (Ok r, h) -> apply_error r = None ->
  ufw_active_rules (aw_os w') = umbilical_args ctx :: (ufw_args <$> rules) /\
  load_last_good w' = Some rules.
Proof.
  intros Hctx Hrules Hnd Hw Hrun Hcomp Happ Herr.
  destruct (apply_rules_ok_guards _ _ _ _ _ _ _ Hrun) as (Hc & Hu & Hl).
  destruct (apply_rules_ufw rules prot ctx w Hc Hu Hl) as (c' & r' & h' & Hcomp' & Happ' & Hr & Heq).
  rewrite Hcomp in Hcomp'. injection Hcomp' as <-. rewrite Happ in Happ'. injection Happ' as <- <-.
  rewrite Heq in Hrun. destruct (0 <? failed r)%nat; [done|].
  destruct (save_last_good_ok rules (set_os h w)) as [w1 Hs]; [done|].
  unfold final in Hrun. rewrite Hs in Hrun. injection Hrun as _ <-.
  split; [|by eapply last_good_roundtrip].
  assert (aw_os w1 = h) as ->.
  { unfold save_last_good, fs_write in Hs. case_bool_decide; by simplify_eq/=. }
  by apply (ufw_apply_installs_aux rules ctx c (aw_os w) r h).
Qed.

(** C4. When the ufw apply ran to the end without a failing command, the agent's
    record and the host agree: the rules [ufw] enforces are the umbilical and the
    given ruleset, in its order and nothing else, and that ruleset is what the agent
    will report, self-heal and revert to ([last_good]). This is for rulesets in which
    no two rules, the umbilical among them, have the same match, since [ufw] then
    replaces the earlier one, and whose networks and interfaces, like the manager's
    address and the default policies, are single words of the command line; and
    [last_good] can be written. *)
Theorem apply_rules_installs {UFW : UfwLaws} {SHL : ShlexLaws} {CODL : AgentCodecLaws}
    (rules : list FirewallRule) prot ctx (w w' : W) hash c r h :
  ctx_words_ok ctx -> Forall rule_words_ok rules ->
  NoDup (ufw_tuple <$> (umbilical_args ctx :: (ufw_args <$> rules))) ->
  LAST_GOOD_PATH ∉ aw_unwritable w ->
  apply_rules UfwBackend rules prot ctx w = (Ok hash, w') ->
  ufw_compile rules ctx = Ok c -> ufw_apply c (aw_os w) = (Ok r, h) -> apply_error r = None ->
  ufw_active_rules (aw_os w') = umbilical_args ctx :: (ufw_args <$> rules) /\
  load_last_good w' = Some rules.
Proof. apply apply_rules_clean. Qed.

(** When [ufw --force reset] fails, nothing is installed, yet the apply is
    reported as a success with an empty snapshot hash and the ruleset is saved
    as the last good one: the agent then reports the hash of rules the host does
    not run. *)
Theorem apply_rules_masks_reset_failure {CODL : AgentCodecLaws}
    (rules : list FirewallRule) prot ctx (w : W) out err h :
  check_rules_against_protected rules prot = Ok tt -> umbilical_ok ctx = true -> aw_lock_free w = true ->
  LAST_GOOD_PATH ∉ aw_unwritable w ->
  ufw_force_reset (E:=BackendError) (after_detect (aw_os w)) = (Ok (false, out, err), h) ->
  exists w', apply_rules UfwBackend rules prot ctx w = (Ok "", w') /\
    aw_os w' = h /\ load_last_good w' = Some rules.
Proof.
  intros Hc Hu Hl Hw Hreset.
  destruct (apply_rules_ufw rules prot ctx w Hc Hu Hl) as (c & r & h' & _ & _ & Hr & Heq).
  destruct Hr as [out' err' h1 Hr| ro out' err' h1 h2 Hr|ro eo rl a f errs snap h1 h2 h3 h4 h5 Hr];
    rewrite Hreset in Hr; simplify_eq.
  destruct (save_last_good_ok rules (set_os h1 w)) as [w1 Hs]; [done|].
  exists w1. split_and!.
  - rewrite Heq. simpl. unfold final. by rewrite Hs.
  - unfold save_last_good, fs_write in Hs. case_bool_decide; by simplify_eq/=.
  - by eapply last_good_roundtrip.
Qed.

(** ** Pending actions and replays *)

Lemma report_keeps req (w : W) :
  exists n, report req w = (Ok tt, set_net n w).
Proof.
  unfold report, net_call, mbind, M_bind. destruct (net_report_result req (aw_net w)) as [r n].
  by exists n.
Qed.

Lemma replayed_noop backend host live a (w : W) :
  already_executed (uuid_to_string (pa_dto_id a)) w = true ->
  exists n, run_pending_action backend host live a w = (Ok tt, set_net n w).
Proof.
  intros Hr. unfold run_pending_action. erewrite bind_ok by (unfold gets; reflexivity).
  rewrite Hr. apply report_keeps.
Qed.

Lemma execute_total backend a (w : W) :
  exists s e h, execute_pending_action backend a w = (Ok (s, e), set_os h w).
Proof.
  unfold execute_pending_action, on_host, mbind, M_bind. repeat case_bool_decide; simpl;
    try (eexists _, _, (aw_os w); by destruct w).
  all: destruct (backend_reset backend (aw_os w)) as [[[]|e] h]; by eexists _, _, h.
Qed.

Lemma record_monotone `{!UuidTextLaws} u v (w : W) ids :
  replay_log w ids -> exists ids', replay_log (final (ignore (F:=string) (record (uuid_to_string u))) w) ids' /\
    (uuid_to_string v ∈ ids -> uuid_to_string v ∈ ids') /\
    (REPLAY_PATH ∉ aw_unwritable w -> uuid_to_string u ∈ ids').
Proof.
  intros Hl. unfold final, ignore. simpl.
  destruct (record (uuid_to_string u) w) as [[[]|e] w'] eqn:Hr.
  - exists (ids ++ [uuid_to_string u]). split_and!; [|set_solver|set_solver].
    eapply record_log; [apply uuid_to_string_chars|done|done].
  - exists ids. unfold record, fs_append in Hr. case_bool_decide; simplify_eq/=. done.
Qed.

(** The replay log only grows over a run of pending actions. *)
Lemma run_pending_log {UTL : UuidTextLaws} backend host live a (w : W) ids v :
  replay_log w ids ->
  exists ids' w', run_pending_action backend host live a w = (Ok tt, w') /\ replay_log w' ids' /\
    aw_unwritable w' = aw_unwritable w /\
    (uuid_to_string v ∈ ids -> uuid_to_string v ∈ ids') /\
    (forall e w1, execute_pending_action backend a w = (Ok (true, e), w1) ->
     REPLAY_PATH ∉ aw_unwritable w -> uuid_to_string (pa_dto_id a) ∈ ids').
Proof.
  intros Hl. unfold run_pending_action. erewrite bind_ok by (unfold gets; reflexivity).
  destruct (already_executed (uuid_to_string (pa_dto_id a)) w) eqn:Ha.
  - destruct (report_keeps (mkCheckInResultRequest host (Some (pa_dto_id a)) true None live) w) as [n Hn].
    exists ids, (set_net n w). split_and!; [done|by destruct w|by destruct w|done|].
    rewrite (already_executed_log w ids _ Hl) in Ha. apply bool_decide_eq_true_1 in Ha. done.
  - destruct (execute_total backend a w) as (sc & e & h & He).
    erewrite bind_ok by exact He. destruct sc.
    + destruct (record_monotone (pa_dto_id a) v (set_os h w) ids) as (ids' & Hl' & Hmono & Hin); [by destruct w|].
      erewrite bind_ok by (unfold ignore; reflexivity).
      unfold final, ignore in Hl'. simpl in Hl'.
      set (w2 := snd (record (uuid_to_string (pa_dto_id a)) (set_os h w))) in *.
      destruct (report_keeps (mkCheckInResultRequest host (Some (pa_dto_id a)) true e live) w2) as [n Hn].
      exists ids', (set_net n w2). split_and!; [done|by destruct w2| |done|intros; by apply Hin].
      subst w2. unfold record, fs_append. by case_bool_decide.
    + erewrite bind_ok by (unfold mret, M_ret; reflexivity).
      destruct (report_keeps (mkCheckInResultRequest host (Some (pa_dto_id a)) false e live) (set_os h w)) as [n Hn].
      exists ids, (set_net n (set_os h w)). split_and!; [done|by destruct w|by destruct w|done|].
      intros e' w1 H. rewrite He in H. by simplify_eq.
Qed.

Lemma run_pendings_log {UTL : UuidTextLaws} backend host live acts (w : W) ids v :
  replay_log w ids ->
  exists ids' w', for_each (run_pending_action backend host live) acts w = (Ok tt, w') /\
    replay_log w' ids' /\ (uuid_to_string v ∈ ids -> uuid_to_string v ∈ ids').
Proof.
  revert w ids. induction acts as [|a acts IH]; intros w ids Hl; [by exists ids, w|].
  destruct (run_pending_log backend host live a w ids v Hl) as (ids1 & w1 & Hr & Hl1 & _ & Hm & _).
  destruct (IH w1 ids1 Hl1) as (ids2 & w2 & Hr2 & Hl2 & Hm2).
  exists ids2, w2. cbn [for_each]. erewrite bind_ok by exact Hr. auto.
Qed.


(** ** Which applies a response causes *)

(** The one apply a response leads to, if any: the ruleset and the defaults. *)
Definition planned_apply (response : CheckInResponse) (drift : bool) (w : W)
  : option (list FirewallRule * LastDefaults) :=
  let cached := default LastDefaults_default (load_last_defaults w) in
  let wanted := mkLastDefaults (resp_default_input_policy response) (resp_default_output_policy response) in
  match resp_rules response with
  | _ :: _ =>
      if resp_rules_changed response || negb (bool_decide (cached = wanted))
      then Some (map (dto_to_rule (aw_now w)) (resp_rules response), wanted)
      else if drift then match load_last_good w with Some (r :: rs) => Some (r :: rs, cached) | _ => None end
      else None
  | [] => if drift then match load_last_good w with Some (r :: rs) => Some (r :: rs, cached) | _ => None end
          else None
  end.

Definition cycle_ctx (d : LastDefaults) (w : W) : ApplyContext :=
  let '(ip, port) := match manager_endpoint (manager_agent_url (pull (aw_config w))) with
                     | Ok ep => ep | Err _ => ("", 0%Z) end in
  mkApplyContext ip port (ld_input_policy d) (ld_output_policy d).

Lemma decide_apply_spec (backend : FirewallBackend) response drift (w : W) :
  decide_apply backend response drift w =
  match planned_apply response drift w with
  | None => (Ok (None, default LastDefaults_default (load_last_defaults w)), w)
  | Some (rules, defaults) =>
      let '(r, w') := apply_rules backend rules (protected_cidrs (aw_config w)) (cycle_ctx defaults w) w in
      (Ok (Some r, defaults), w')
  end.
Proof.
  unfold decide_apply, planned_apply, cycle_ctx, gets, mbind, M_bind. simpl.
  set (wanted := mkLastDefaults _ _). set (cached := default _ _).
  destruct (match manager_endpoint _ with Ok ep => ep | Err _ => _ end) as [ip port].
  destruct (resp_rules response) as [|d ds] eqn:Hrules;
    [rewrite bool_decide_eq_true_2 by done|rewrite bool_decide_eq_false_2 by done]; simpl.
  2: destruct (resp_rules_changed response || negb (bool_decide (cached = wanted))).
  2: { unfold attempt, apply_rules_from_dto. simpl. by destruct (apply_rules _ _ _ _ w). }
  all: destruct drift; [|done]; destruct (load_last_good w) as [[|r rs]|]; try done;
    unfold attempt; by destruct (apply_rules _ _ _ _ w).
Qed.

(** A response causes at most one apply, and exactly the right one: the
    manager's ruleset with the manager's defaults when the policy or its defaults
    changed, otherwise the cached ruleset with the cached defaults when the live
    rules drifted, otherwise none at all (the agent's world is unchanged). *)
Theorem decide_apply_exact (backend : FirewallBackend) response drift (w : W) :
  decide_apply backend response drift w =
  match planned_apply response drift w with
  | None => (Ok (None, default LastDefaults_default (load_last_defaults w)), w)
  | Some (rules, defaults) =>
      let '(r, w') := apply_rules backend rules (protected_cidrs (aw_config w)) (cycle_ctx defaults w) w in
      (Ok (Some r, defaults), w')
  end.
Proof. apply decide_apply_spec. Qed.

Lemma decide_apply_none backend response drift (w : W) :
  planned_apply response drift w = None ->
  decide_apply backend response drift w = (Ok (None, default LastDefaults_default (load_last_defaults w)), w).
Proof. intros H. by rewrite decide_apply_spec, H. Qed.

(** Steady state: when the manager reports no rule change, the same defaults,
    no configuration and no actions, and the live rules have not drifted, the
    cycle only records the contact with the manager; no rule command runs and no
    file is written. *)
Theorem steady_state_no_apply (backend : FirewallBackend) host live response (w : W) :
  resp_rules_changed response = false -> resp_config response = None ->
  resp_pending_actions response = [] ->
  default LastDefaults_default (load_last_defaults w) =
    mkLastDefaults (resp_default_input_policy response) (resp_default_output_policy response) ->
  on_response backend host live false response w = (Ok false, set_contact (Some (aw_now w)) false w).
Proof.
  intros Hch Hcfg Hact Hd. unfold on_response.
  erewrite bind_ok by (unfold record_manager_contact, modify; reflexivity).
  rewrite Hcfg, Hact. erewrite bind_ok by (unfold mret, M_ret; reflexivity).
  erewrite bind_ok by (apply decide_apply_none; unfold planned_apply; simpl;
    change (load_last_defaults (set_contact _ _ w)) with (load_last_defaults w); rewrite Hd, Hch;
    rewrite bool_decide_eq_true_2 by done; by destruct (resp_rules response)).
  done.
Qed.

(** A policy that became empty is never applied: whatever the manager says
    about changed rules, a response without rules leaves the host's rules and
    files alone (without drift), so a host whose policy set is emptied or
    unassigned keeps enforcing its old ruleset. *)
Theorem empty_policy_never_applied (backend : FirewallBackend) response (w : W) :
  resp_rules response = [] ->
  decide_apply backend response false w = (Ok (None, default LastDefaults_default (load_last_defaults w)), w).
Proof. intros Hr. apply decide_apply_none. unfold planned_apply. by rewrite Hr. Qed.

(** ** Manager unreachable *)

(** An unreachable manager alone changes nothing: a failed check-in leaves the
    host, the files and the configuration as they were unless safe mode is enabled
    and more than the configured timeout has passed since the last contact. *)
Theorem unreachable_keeps_rules (backend : FirewallBackend) enabled (w : W) :
  enabled = false \/ (elapsed_secs w <= aw_safe_mode_timeout w)%Z ->
  on_check_in_error backend enabled w = (Ok false, w).
Proof.
  intros H. unfold on_check_in_error, safe_mode_check, mbind, M_bind.
  destruct enabled; [|done]. destruct H as [|H]; [done|].
  destruct (Z.ltb_spec (aw_safe_mode_timeout w) (elapsed_secs w)); [lia|done].
Qed.

(** ** Configuration updates *)

(** A configuration update takes effect in memory and, when the file can be
    written, on disk: the interval the loop uses, the version it reports and safe
    mode are the manager's, everything else of the configuration is kept, and a
    restart reads the same configuration back. *)
Theorem config_update_applied {CODL : AgentCodecLaws} (u : ConfigUpdate) (w : W) :
  config_path ∉ aw_unwritable w -> (0 <= cu_check_in_interval_secs u < 2^31)%Z ->
  exists w', apply_config_update u w = (Ok tt, w') /\
    aw_interval w' = cu_check_in_interval_secs u /\ aw_config_version w' = cu_config_version u /\
    safe_mode_enabled (aw_config w') = cu_safe_mode_enabled u /\
    protected_cidrs (aw_config w') = protected_cidrs (aw_config w) /\
    manager_agent_url (pull (aw_config w')) = manager_agent_url (pull (aw_config w)) /\
    config_load w' = Some (aw_config w') /\ aw_os w' = aw_os w.
Proof.
  intros Hw Hi. unfold apply_config_update.
  erewrite bind_ok by (unfold modify; reflexivity). erewrite bind_ok by (unfold gets; reflexivity).
  rewrite u32_of_i32_nonneg by done. cbn [aw_config set_config].
  set (c := mkAgentConfig _ _ _ _ _ _ _ _ _ _). set (w1 := set_config c _ _ w).
  unfold ignore. eexists. split; [reflexivity|].
  destruct (config_save c w1) as [[[]|e] w2] eqn:Hs.
  - assert (config_load w2 = Some c) as Hload by by eapply config_save_load_aux.
    unfold config_save, mbind, M_bind, fs_write, fs_chmod in Hs. simpl in Hs.
    rewrite bool_decide_eq_false_2 in Hs by done. simpl in Hs. rewrite lookup_insert_eq in Hs.
    simplify_eq/=. done.
  - exfalso. unfold config_save, mbind, M_bind, fs_write, fs_chmod in Hs. simpl in Hs.
    rewrite bool_decide_eq_false_2 in Hs by done. simpl in Hs. by rewrite lookup_insert_eq in Hs.
Qed.
End facts.

(** ** Witnesses *)

(** A manager that answers every check-in with [resp] and keeps the reports. *)
Definition toy_link (resp : result CheckInResponse string) : ManagerLink (list CheckInResultRequest) := {|
  net_check_in _ n := (resp, n);
  net_report_result r n := (Ok tt, n ++ [r])
|}.

Notation ToyW := (@AgentWorld toy_os (list CheckInResultRequest)).

Definition ex_world (h : ToyHost) : ToyW := toy_world [] ex_config h.
Definition ex_response (changed : bool) (rules : list RuleDto) : CheckInResponse :=
  mkCheckInResponse changed rules None [] None None.
Definition toy_backend : @FirewallBackend toy_os := @UfwBackend toy_os toy_shlex toy_sha256.
Definition no_link : ManagerLink (list CheckInResultRequest) := toy_link (Err "refused").


Lemma apply_rules_installs_witness :
  exists hash w', @apply_rules toy_os _ toy_codec toy_ipnet toy_backend ex_rules ["192.168.0.1/32"] ex_ctx
      (ex_world (mkToyHost [["deny"]] [])) = (Ok hash, w') /\
    toy_rules (aw_os w') = umbilical_args ex_ctx :: (ufw_args <$> ex_rules) /\
    @load_last_good toy_os _ toy_codec w' = Some ex_rules.
Proof.
  assert (is_ok (@apply_rules toy_os _ toy_codec toy_ipnet toy_backend ex_rules ["192.168.0.1/32"] ex_ctx
    (ex_world (mkToyHost [["deny"]] []))).1 = true) as Hok by (vm_compute; reflexivity).
  destruct (@apply_rules toy_os _ toy_codec toy_ipnet toy_backend ex_rules ["192.168.0.1/32"] ex_ctx
    (ex_world (mkToyHost [["deny"]] []))) as [[hash|e] w'] eqn:Hrun; [|discriminate Hok].
  exists hash, w'. split; [done|].
  destruct (@ufw_apply toy_os toy_shlex toy_sha256 ex_compiled (mkToyHost [["deny"]] []))
    as [[r|e] h'] eqn:Happ; [|exfalso; revert Happ; vm_compute; discriminate].
  apply (@apply_rules_installs toy_os _ toy_codec toy_sha256 toy_ipnet toy_shlex
    toy_ufw toy_shlex_laws toy_codec_laws ex_rules ["192.168.0.1/32"] ex_ctx
    (ex_world (mkToyHost [["deny"]] [])) w' hash ex_compiled r h').
  - by split_and!.
  - repeat constructor; apply ex_rule_words.
  - apply (bool_decide_unpack _). vm_compute. exact I.
  - apply not_elem_of_empty.
  - exact Hrun.
  - reflexivity.
  - exact Happ.
  - revert Happ. vm_compute. intros H. by inversion H.
Defined.

(** A host whose reset always fails: a ninth collision. *)
Definition stuck_host : ToyHost :=
  mkToyHost [["deny"]] ["/1"; "/2"; "/3"; "/4"; "/5"; "/6"; "/7"; "/8"; "/9"; "/a"].

Lemma apply_rules_masks_reset_failure_witness :
  exists w', @apply_rules toy_os _ toy_codec toy_ipnet toy_backend ex_rules [] ex_ctx (ex_world stuck_host)
      = (Ok "", w') /\
    toy_rules (aw_os w') = [["deny"]] /\ @load_last_good toy_os _ toy_codec w' = Some ex_rules.
Proof.
  destruct (@ufw_force_reset toy_os BackendError stuck_host) as [[[[[] out] err]|e] h] eqn:Hr;
    [exfalso; revert Hr; vm_compute; discriminate| |exfalso; revert Hr; vm_compute; discriminate].
  destruct (@apply_rules_masks_reset_failure toy_os _ toy_codec toy_sha256 toy_ipnet toy_shlex
    toy_codec_laws ex_rules [] ex_ctx (ex_world stuck_host) out err h) as (w' & H1 & H2 & H3).
  - reflexivity.
  - vm_compute. reflexivity.
  - reflexivity.
  - apply not_elem_of_empty.
  - exact Hr.
  - exists w'. split_and!; [done| |done]. rewrite H2. revert Hr. vm_compute. intros H. by inversion H.
Defined.

Definition rollback_action : PendingActionDto := mkPendingActionDto (uuid_of 9) "rollback" JNull "".
Definition reload_action : PendingActionDto := mkPendingActionDto (uuid_of 10) "reload_config" JNull "".


Lemma steady_state_no_apply_witness :
  let w := ex_world (mkToyHost [["deny"]] []) in
  @on_response toy_os _ toy_codec toy_ipnet toy_url toy_uuid_text no_link
    toy_backend (uuid_of 1) "h" false (ex_response false []) w
  = (Ok false, set_contact (Some (aw_now w)) false w).
Proof. intros w. apply steady_state_no_apply; reflexivity. Defined.

Lemma empty_policy_never_applied_witness :
  let w := ex_world (mkToyHost [["deny"]] []) in
  @decide_apply toy_os _ toy_codec toy_ipnet toy_url toy_backend (ex_response true []) false w
  = (Ok (None, LastDefaults_default), w).
Proof. intros w. by rewrite empty_policy_never_applied. Defined.

Lemma unreachable_keeps_rules_witness :
  let w := set_contact (Some 4999000000000%Z) false (ex_world (mkToyHost [["deny"]] [])) in
  @on_check_in_error toy_os _ toy_codec toy_ipnet toy_url toy_backend true w = (Ok false, w).
Proof. intros w. apply unreachable_keeps_rules. right. vm_compute. discriminate. Defined.

Lemma config_update_applied_witness :
  let w := ex_world (mkToyHost [] []) in
  exists w', @apply_config_update toy_os _ toy_codec (mkConfigUpdate 300 true false None 4) w = (Ok tt, w') /\
    aw_interval w' = 300%Z /\ @config_load toy_os _ toy_codec w' = Some (aw_config w').
Proof.
  intros w.
  destruct (@config_update_applied toy_os _ toy_codec toy_codec_laws
    (mkConfigUpdate 300 true false None 4) w) as (w' & H1 & H2 & _ & _ & _ & _ & H3 & _).
  - apply not_elem_of_empty.
  - simpl. lia.
  - by exists w'.
Defined.
