(* ===== verification/AgentCli.v ===== *)
(** * AgentCli: the agent's reporting commands

    The subcommands of [crates/fw-agent/src/main.rs] that only report ([status],
    [apply], the help text) and [drift::check] of [crates/fw-agent/src/drift.rs]. What
    a command prints is the list of its lines. [enroll] and [run] are in [AgentEnroll]. *)

From S2P Require Import Prelude Text Models Net Policy ProtectedCidrs Backend ShellWords UfwCompile UfwApply Files AgentState AgentToy Wire PullLoop.
From S2P Require Import ManagerUrl PullLoopFacts.

(** ** Commands *)

Inductive Commands :=
  | Enroll (manager_url token fqdn : string)
  | Run
  | Status
  | Apply (dry_run : bool)
  | DriftCheck.

Definition CERT_DIR : string := "/etc/firewall-agent/certs".
Definition help_lines : list string := [
  "fw-agent — Linux Host Firewall Manager agent"; ""; "Usage: fw-agent <COMMAND>"; ""; "Commands:";
  "  enroll       Enroll this host with a firewall manager"; "  run          Run the agent daemon (normally started by systemd)";
  "  status       Show agent status: enrollment, backend, last sync"; "  apply        Preview or apply rules (--dry-run to preview only)";
  "  drift-check  Check for rule drift"; ""; "Run 'fw-agent <command> --help' for more information."].

Definition present (b : bool) : string := if b then "present" else "missing".
Definition bool_text (b : bool) : string := if b then "true" else "false".

Definition config_lines (o : option AgentConfig) : list string :=
  match o with
  | Some c =>
      ["Manager URL: " +:+ manager_url c; "FQDN: " +:+ fqdn c] ++
      match host_id c with Some id => ["Host ID: " +:+ id] | None => [] end ++
      ["Safe mode: " +:+ (if safe_mode_enabled c then "enabled" else "disabled") +:+ " (timeout: " +:+ pretty (safe_mode_timeout_secs c) +:+ "s)"] ++
      match protected_cidrs c with [] => [] | l => ["Protected CIDRs: " +:+ join ", " l] end
  | None =>
      ["Not enrolled (no config found at " +:+ config_path +:+ ")";
       "Run: fw-agent enroll --manager-url https://fwm.internal --token <TOKEN> --fqdn <FQDN>"]
  end.

Section cli.
Context {OS : HostOs} {Net : Type} {COD : AgentCodec} {SH : Shlex} {SHA : Sha256}.
Notation W := (AgentWorld Net).
Notation MW := (M W string).

Definition cert_lines (w : W) : list string :=
  ["Certificates:"; "  CA:         " +:+ present (file_exists (CERT_DIR +:+ "/ca.pem") w);
   "  Server cert: " +:+ present (file_exists (CERT_DIR +:+ "/server.pem") w);
   "  Server key:  " +:+ present (file_exists (CERT_DIR +:+ "/server.key.pem") w)].

(** [backend::detect()], which cannot fail. *)
Definition detected : MW (option FirewallBackend) :=
  r ← on_host (E:=string) detect; mret (mjoin (result_ok r)).

Definition backend_lines : MW (list string) :=
  o ← detected;
  match o with
  | Some b =>
      s ← on_host (backend_status b);
      mret ([ "Backend: " +:+ backend_name b ] ++
        match s with
        | Ok st => ["  Active: " +:+ bool_text (active st); "  Default policy (in):  " +:+ default_policy_in st;
                    "  Default policy (out): " +:+ default_policy_out st]
        | Err _ => []
        end)
  | None => mret ["Backend: none detected"]
  end.

Definition container_lines : MW (list string) :=
  r ← on_host (E:=string) detect_container_runtime;
  mret (match mjoin (result_ok r) with
        | Some runtime => ["Container runtime: " +:+ runtime +:+ " (WARNING: UFW may conflict)"]
        | None => ["Container runtime: none detected"]
        end).

Definition status_report : MW (list string) :=
  cfg ← gets config_load;
  certs ← gets cert_lines;
  backend ← backend_lines;
  container ← container_lines;
  mret (config_lines cfg ++ [""] ++ certs ++ [""] ++ backend ++ [""] ++ container).

Definition drift_check : MW (list string) :=
  o ← detected;
  match o with
  | Some b =>
      r ← on_host (backend_snapshot b);
      match r with
      | Ok s => mret [if is_empty (snap_hash s) then "No rules currently active (empty snapshot)"
                      else "Current snapshot hash: " +:+ snap_hash s +:+ " (" +:+ pretty (length (snap_rules s)) +:+ " rules)"]
      | Err e => throw (backend_error_text e)
      end
  | None => mret ["No firewall backend detected"]
  end.

(** [main] for the commands that only report; [None] for the others. *)
Definition report_command (c : option Commands) : option (MW (list string)) :=
  match c with
  | Some (Enroll _ _ _) | Some Run => None
  | Some Status => Some status_report
  | Some (Apply true) => Some (mret ["Dry-run: would apply rules from next job"])
  | Some (Apply false) => Some (mret ["Manual apply not supported in daemon mode — use the manager UI"])
  | Some DriftCheck => Some drift_check
  | None => Some (mret help_lines)
  end.

(** ** They only ask *)

(** The programs the reports run. *)
Definition queries : list (string * list string) :=
  [("which", ["podman"]); ("which", ["ufw"]); ("which", ["firewall-cmd"]); ("ufw", ["status"]); ("ufw", ["status"; "verbose"]);
   ("ufw", ["status"; "numbered"]); ("firewall-cmd", ["--state"]); ("firewall-cmd", ["--get-default-zone"]); ("firewall-cmd", ["--list-all"])].

Section frame.
Context (P : Host -> Prop).
Hypothesis query_keeps : forall prog args h r h', (prog, args) ∈ queries -> spawn prog args h = (r, h') -> P h -> P h'.

Ltac is_query := unfold queries; rewrite !elem_of_cons; tauto.

Lemma run_query_keeps {E} prog args : (prog, args) ∈ queries -> keeps P (run_cmd (E:=E) prog args).
Proof. intros Hq h Hh. unfold final, run_cmd. destruct (spawn prog args h) as [[o|e] h'] eqn:Hs; exact (query_keeps _ _ _ _ _ Hq Hs Hh). Qed.
Lemma which_keeps {E} cmd : ("which", [cmd]) ∈ queries -> keeps P (which (E:=E) cmd).
Proof. intros Hq h Hh. unfold final, which. destruct (spawn "which" [cmd] h) as [[o|e] h'] eqn:Hs; exact (query_keeps _ _ _ _ _ Hq Hs Hh). Qed.
Lemma ufw_is_active_keeps {E} : keeps P (ufw_is_active (E:=E)).
Proof. intros h Hh. unfold final, ufw_is_active. destruct (spawn "ufw" ["status"] h) as [[o|e] h'] eqn:Hs; refine (query_keeps _ _ _ _ _ _ Hs Hh); is_query. Qed.
Lemma firewalld_is_active_keeps {E} : keeps P (firewalld_is_active (E:=E)).
Proof. intros h Hh. unfold final, firewalld_is_active. destruct (spawn "firewall-cmd" ["--state"] h) as [[o|e] h'] eqn:Hs; refine (query_keeps _ _ _ _ _ _ Hs Hh); is_query. Qed.

(** One step of a program of queries. *)
Ltac query_step :=
  match goal with
  | |- keeps _ (run_cmd _ _) => apply run_query_keeps; is_query
  | |- keeps _ (which _) => apply which_keeps; is_query
  | |- keeps _ ufw_is_active => apply ufw_is_active_keeps
  | |- keeps _ firewalld_is_active => apply firewalld_is_active_keeps
  | |- keeps _ (let '(_, _) := ?x in _) => destruct x
  | _ => keeps_step
  end.

Lemma container_keeps {E} : keeps P (detect_container_runtime (E:=E)).
Proof. unfold detect_container_runtime. repeat query_step. Qed.

Lemma detect_keeps {E} : keeps P (detect (E:=E)).
Proof. unfold detect. apply keeps_bind; [apply container_keeps|intros _]. repeat query_step. Qed.

(** The backends [detect] can give. *)
Definition a_backend (b : FirewallBackend) : Prop := b = UfwBackend \/ b = FirewalldBackend.

Lemma detect_gives {E} h b h' : detect (E:=E) h = (Ok (Some b), h') -> a_backend b.
Proof.
  unfold detect. intros H. do 3 (apply bind_inv_ok in H as (? & ? & _ & H)). case_match; [inv_ret H; by left|].
  do 2 (apply bind_inv_ok in H as (? & ? & _ & H)). case_match; inv_ret H. by right.
Qed.

Lemma status_keeps b : a_backend b -> keeps P (backend_status b).
Proof. intros [-> | ->]; cbn; unfold ufw_status, firewalld_status; repeat query_step. Qed.

Lemma snapshot_keeps b : a_backend b -> keeps P (backend_snapshot b).
Proof. intros [-> | ->]; cbn; unfold ufw_snapshot, firewalld_snapshot; repeat query_step. Qed.

(** The agent's own state is as it was, but for the host. *)
Definition only_asked (w0 w : W) : Prop := P (aw_os w) /\ set_os (aw_os w0) w = w0.

Lemma on_host_asks {E A} (m : M Host E A) w0 : keeps P m -> keeps (only_asked w0) (on_host m : MW (result A E)).
Proof.
  intros Hm w [HP Hw]. specialize (Hm (aw_os w) HP). unfold final, on_host in *. destruct (m (aw_os w)) as [r h]. cbn in *. split; [done|].
  rewrite <- Hw at 2. by destruct w.
Qed.

Lemma detected_asks w0 : keeps (only_asked w0) detected.
Proof. unfold detected. apply keeps_bind; [apply on_host_asks, detect_keeps|intros; apply keeps_ret]. Qed.

Lemma detected_gives w b w' : detected w = (Ok (Some b), w') -> a_backend b.
Proof.
  unfold detected. intros H. apply bind_inv_ok in H as (r & w1 & Hd & H). unfold on_host in Hd. destruct (detect (aw_os w)) as [r' h] eqn:Hr.
  injection Hd as <- <-. inv_ret H. destruct r' as [o|e]; cbn in *; [|done]. subst o. by eapply detect_gives.
Qed.

(** With a backend [detect] gave. *)
Lemma detected_bind {A} w0 (f : option FirewallBackend -> MW A) :
  (forall b, a_backend b -> keeps (only_asked w0) (f (Some b))) -> keeps (only_asked w0) (f None) -> keeps (only_asked w0) (detected ≫= f).
Proof.
  intros Hs Hn w Hw. pose proof (detected_asks w0 w Hw) as Hd. unfold final, mbind, M_bind in *. destruct (detected w) as [[[b|]|e] w1] eqn:He; [|exact (Hn w1 Hd)|exact Hd].
  exact (Hs b (detected_gives _ _ _ He) w1 Hd).
Qed.

Lemma backend_lines_asks w0 : keeps (only_asked w0) backend_lines.
Proof.
  unfold backend_lines. apply detected_bind; [|apply keeps_ret]. intros b Hb. apply keeps_bind; [by apply on_host_asks, status_keeps|intros; apply keeps_ret].
Qed.

Lemma report_command_asks c m w0 : report_command c = Some m -> keeps (only_asked w0) m.
Proof.
  destruct c as [[| | |[]|]|]; cbn; intros [= <-]; try apply keeps_ret.
  - unfold status_report, container_lines. do 2 (apply keeps_bind; [apply keeps_gets|intros]). apply keeps_bind; [apply backend_lines_asks|intros].
    apply keeps_bind; [|intros; apply keeps_ret]. apply keeps_bind; [apply on_host_asks, container_keeps|intros; apply keeps_ret].
  - unfold drift_check. apply detected_bind; [|apply keeps_ret]. intros b Hb. apply keeps_bind; [by apply on_host_asks, snapshot_keeps|].
    intros [s|e]; [apply keeps_ret|apply keeps_throw].
Qed.
End frame.

(** The reporting commands change nothing: [status], [apply] (with or without
    [--dry-run]), [drift-check] and the help text leave the agent's files,
    configuration and counters as they were, and whatever of the host the nine
    queries of [queries] leave alone they leave alone. *)
Theorem reports_only_ask (P : Host -> Prop) c m (w : W) :
  (forall prog args h r h', (prog, args) ∈ queries -> spawn prog args h = (r, h') -> P h -> P h') ->
  report_command c = Some m -> P (aw_os w) ->
  P (aw_os (final m w)) /\ set_os (aw_os w) (final m w) = w.
Proof.
  intros Hq Hc Hw. apply (report_command_asks P Hq c m w Hc w). split; [done|]. by destruct w.
Qed.
End cli.

(** ** Witness *)

(** A host with [ufw] installed. *)
Definition cli_os : HostOs := {|
  Host := ToyHost; spawn prog args h := if bool_decide (prog = "which") then (Ok (mkOutput (bool_decide (args = ["ufw"])) "" ""), h) else toy_spawn prog args h;
  remove_file _ h := (false, h); path_exists _ _ := false; env_is_set _ _ := false
|}.
Definition cli_world : @AgentWorld cli_os unit :=
  mkAgentWorld cli_os unit (mkToyHost [["deny"]] []) tt ∅ ∅ true None 0 0 ex_config 900 0 None false 900.

Lemma cli_queries prog args (h : @Host cli_os) r h' : (prog, args) ∈ queries -> @spawn cli_os prog args h = (r, h') -> h' = h.
Proof.
  intros Hin. unfold queries in Hin. repeat (apply elem_of_cons in Hin as [[= -> ->]|Hin]; [cbn; by intros [= _ <-]|]). by apply not_elem_of_nil in Hin.
Qed.

Lemma reports_only_ask_witness :
  exists m, @report_command cli_os unit toy_codec toy_shlex toy_sha256 (Some DriftCheck) = Some m /\
    (match fst (m cli_world) with Ok [line] => starts_with "Current snapshot hash: " line | _ => false end) = true /\
    toy_rules (aw_os (final m cli_world)) = [["deny"]] /\ set_os (aw_os cli_world) (final m cli_world) = cli_world.
Proof.
  eexists. split; [reflexivity|]. split; [vm_compute; reflexivity|].
  apply (@reports_only_ask cli_os unit toy_codec toy_shlex toy_sha256 (fun h => toy_rules h = [["deny"]]) (Some DriftCheck)).
  - intros prog args h r h' Hq Hs Hp. rewrite (cli_queries _ _ _ _ _ Hq Hs). exact Hp.
  - reflexivity.
  - reflexivity.
Defined.
