(* ===== verification/AgentEnroll.v ===== *)
(** * AgentEnroll: the agent's enrollment and start

    [crates/fw-agent/src/enrollment.rs] (the CSR, the submission, the polling, the
    certificates and the configuration it leaves on disk) and the daemon part of
    [crates/fw-agent/src/main.rs] (waiting for enrollment, and what the pull loop is
    started with). The manager's two enrollment endpoints, as the HTTP client shows
    them, are a parameter ([EnrollLink]); so are the keys and requests of [rcgen]
    ([CsrLib]) and the certificate parsing of [reqwest] ([HttpIdentity]). *)

From S2P Require Import Prelude Text Models Net Files Backend AgentState PullLoop ManagerUrl.

(** ** Data *)

Record BundlePullConfig := mkBundlePull {
  bp_check_in_interval_secs : Z; bp_push_enabled : bool; bp_config_version : Z; bp_manager_agent_url : string
}.
Record AgentPkiBundle := mkAgentBundle {
  ab_ca_chain : list string; ab_server_cert : string; ab_crl_pem : option string; ab_pull_config : option BundlePullConfig
}.
Record EnrollmentStatusResponse := mkStatusResponse {
  es_status : string; es_pki_bundle : option AgentPkiBundle; es_host_id : option string
}.
Record SubmitBody := mkSubmitBody {
  sb_token : string; sb_csr : string; sb_fqdn : string; sb_ip_address : string; sb_hostname : string; sb_os_details : Json
}.

(** A response: its status, its text, and what reading it as JSON gives. *)
Record HttpResponse (A : Type) := mkResponse { hr_status : Z; hr_text : string; hr_json : result A string }.
Arguments mkResponse {A} _ _ _.
Arguments hr_status {A} _.
Arguments hr_text {A} _.
Arguments hr_json {A} _.

(** [POST url] with the submission (read as the polling token), [GET url], and the
    passing of time while the agent sleeps. *)
Class EnrollLink (Net : Type) := {
  post_enroll : string -> SubmitBody -> Net -> result (HttpResponse string) string * Net;
  get_status : string -> Net -> result (HttpResponse EnrollmentStatusResponse) string * Net;
  net_sleep : Z -> Net -> Net
}.

(** A fresh key's PEM from a random draw, and the PEM of a request for a name with it
    (or the step that failed). *)
Class CsrLib := { key_pem_new : N -> result string string; csr_pem_new : string -> string -> result string string }.

(** [reqwest]: reading an identity (certificate and key) and a CA certificate, and
    building a client of both, with a timeout in seconds or none. *)
Class HttpIdentity := {
  identity_check : string -> string -> result unit string;
  ca_check : string -> result unit string;
  client_build : option Z -> string -> string -> string -> result unit string
}.

(** ** Reading the host *)

(** [trim_matches(c)]. *)
Fixpoint trim_start_char (c : ascii) (s : string) : string :=
  match s with String a s' => if bool_decide (a = c) then trim_start_char c s' else s | "" => "" end.
Fixpoint trim_end_char (c : ascii) (s : string) : string :=
  match s with
  | "" => ""
  | String a s' => match trim_end_char c s' with
                   | "" => if bool_decide (a = c) then "" else String a ""
                   | t => String a t
                   end
  end.
Definition trim_matches (c : ascii) (s : string) : string := trim_end_char c (trim_start_char c s).

(** The address in the output of [ip -4 addr show scope global]. *)
Definition inet_of_line (line : string) : option string :=
  addr ← strip_prefix "inet " (trim line); head (split_char "/" addr).

(** The last value of a field of [/etc/os-release], without its quotes. *)
Definition os_release_field (key content : string) : string :=
  foldl (fun acc line => match strip_prefix key line with Some v => trim_matches "034"%char v | None => acc end) "" (lines content).

Section enroll.
Context {OS : HostOs} {Net : Type} {COD : AgentCodec} {U : UrlLib} {DNS : Dns} {UT : UuidText} {LINK : EnrollLink Net} {CSR : CsrLib}
  {HID : HttpIdentity} {SH : Shlex} {SHA : Sha256}.
Notation W := (AgentWorld Net).
Notation MW := (M W string).

(** The standard output of a program, when it could be run ([from_utf8_lossy] keeps
    well-formed text). *)
Definition stdout_of {E} (prog : string) (args : list string) : M W E (option string) :=
  r ← on_host (F:=E) (spawn prog args);
  mret (out_stdout <$> result_ok r).

Definition detect_local_ip {E} : M W E string :=
  out ← stdout_of "ip" ["-4"; "addr"; "show"; "scope"; "global"];
  mret (default "127.0.0.1" (out ≫= fun s => find_map inet_of_line (lines s))).

Definition detect_os_details {E} : M W E Json :=
  release ← stdout_of "cat" ["/etc/os-release"];
  arch ← stdout_of "uname" ["-m"];
  kernel ← stdout_of "uname" ["-r"];
  let field key s := (key, JStr s) in
  mret (JObj (from_option (fun s => [field "arch" (trim s)]) [] arch ++ from_option (fun s => [field "kernel" (trim s)]) [] kernel ++
              from_option (fun s => [field "os_id" (os_release_field "ID=" s); field "os_name" (os_release_field "NAME=" s);
                                     field "os_version" (os_release_field "VERSION=" s)]) [] release)).

(** ** What enrollment leaves on disk *)

Definition CERT_DIR : string := "/etc/firewall-agent/certs".

(** [create_dir_all]. *)
Definition fs_mkdir (path : string) : MW unit := fun w =>
  if bool_decide (path ∈ aw_unwritable w) then (Err "io error", w) else (Ok tt, w).

(** [.context(c)?]: the outermost text of the error. *)
Definition context {A} (c : string) (m : MW A) : MW A := fun w => let '(r, w') := m w in (map_err (fun _ => c) r, w').

Definition write_pki_bundle (bundle : AgentPkiBundle) (server_key_pem : string) : MW unit :=
  _ ← context "Failed to create cert directory" (fs_mkdir CERT_DIR);
  _ ← context "Failed to write ca.pem" (fs_write (CERT_DIR +:+ "/ca.pem") (join newline (ab_ca_chain bundle)));
  _ ← context "Failed to write server.pem" (fs_write (CERT_DIR +:+ "/server.pem") (ab_server_cert bundle));
  _ ← context "Failed to write server.key.pem" (fs_write (CERT_DIR +:+ "/server.key.pem") server_key_pem);
  _ ← fs_chmod (CERT_DIR +:+ "/server.key.pem") 384;
  match ab_crl_pem bundle with
  | Some crl => context "Failed to write crl.pem" (fs_write (CERT_DIR +:+ "/crl.pem") crl)
  | None => mret tt
  end.

(** The manager's address as a protected CIDR, once. *)
Definition seed_cidrs (manager_url : string) (cidrs : list string) : list string :=
  match auto_detect_manager_cidr manager_url with
  | Some ip => let cidr := ip +:+ "/32" in if bool_decide (cidr ∈ cidrs) then cidrs else cidrs ++ [cidr]
  | None => cidrs
  end.

(** The configuration enrollment saves, layered on the one that was there. *)
Definition enrolled_config (base : AgentConfig) (manager_url fqdn : string) (pull_cfg : option BundlePullConfig) (host : option string)
  : result AgentConfig string :=
  let? new_pull :=
    match pull_cfg with
    | Some p =>
        let? url := map_err (fun e => "manager handed an unusable agent URL (" +:+ bp_manager_agent_url p +:+ "): " +:+ e)
                      (normalize_manager_url_to_ip (bp_manager_agent_url p)) in
        Ok (mkPullConfig (bp_check_in_interval_secs p) url (bp_config_version p))
    | None => Ok (pull base)
    end in
  Ok (mkAgentConfig manager_url fqdn (match host with Some id => Some id | None => host_id base end) (cert_dir base) (config_dir base)
        (log_dir base) (safe_mode_enabled base) (safe_mode_timeout_secs base) (seed_cidrs manager_url (protected_cidrs base)) new_pull).

Definition save_config (manager_url fqdn : string) (pull_cfg : option BundlePullConfig) (host : option string) : MW unit :=
  base ← gets (fun w => default AgentConfig_default (config_load w));
  c ← lift_result (enrolled_config base manager_url fqdn pull_cfg host);
  context "Failed to save agent config" (config_save c).

(** ** Submission and polling *)

Definition is_success (status : Z) : bool := (200 <=? status)%Z && (status <? 300)%Z.

Definition link_call {A} (f : Net -> result A string * Net) : MW (result A string) := fun w =>
  let '(r, n) := f (aw_net w) in (Ok r, set_net n w).
Definition sleep (secs : Z) : MW unit := modify (fun w => set_net (net_sleep secs (aw_net w)) w).

(** One attempt, after its minute of waiting: [true] when enrollment is done. *)
Definition poll_turn (manager_url fqdn key_pem poll_url : string) : MW bool :=
  _ ← sleep 60;
  r ← link_call (get_status poll_url);
  match r with
  | Err _ => mret false
  | Ok resp =>
      let status := hr_status resp in
      if (status =? 202)%Z then mret false
      else if (status =? 403)%Z then throw "Enrollment denied by administrator"
      else if (status =? 404)%Z then throw "Enrollment expired or not found"
      else if is_success status then
        s ← lift_result (map_err (fun _ => "Failed to parse approval response") (hr_json resp));
        match (if bool_decide (es_status s = "approved") then es_pki_bundle s else None) with
        | Some bundle =>
            _ ← write_pki_bundle bundle key_pem;
            _ ← save_config manager_url fqdn (ab_pull_config bundle) (es_host_id s);
            mret true
        | None => mret false
        end
      else mret false
  end.

Fixpoint poll_loop (attempts : nat) (manager_url fqdn key_pem poll_url : string) : MW unit :=
  match attempts with
  | O => throw "Enrollment timed out after 24 hours"
  | S rest =>
      done_ ← poll_turn manager_url fqdn key_pem poll_url;
      if (done_ : bool) then mret tt else poll_loop rest manager_url fqdn key_pem poll_url
  end.

Definition MAX_ATTEMPTS : nat := 1440.

(** [enroll], with the random draw its key is made from and the host's name. *)
Definition enroll (draw : N) (host_name : string) (manager_url token fqdn : string) : MW unit :=
  key_pem ← lift_result (map_err (fun _ => "Failed to generate Ed25519 keypair") (key_pem_new draw));
  csr ← lift_result (csr_pem_new fqdn key_pem);
  ip ← detect_local_ip;
  details ← detect_os_details;
  r ← link_call (post_enroll (manager_url +:+ "/api/v1/enroll") (mkSubmitBody token csr fqdn ip host_name details));
  resp ← lift_result (map_err (fun _ => "Failed to submit enrollment request") r);
  _ ← guard_or (is_success (hr_status resp)) ("Enrollment submission failed: " +:+ hr_text resp);
  polling_token ← lift_result (map_err (fun _ => "Failed to parse enrollment response") (hr_json resp));
  poll_loop MAX_ATTEMPTS manager_url fqdn key_pem (manager_url +:+ "/api/v1/enroll/status/" +:+ polling_token).

(** ** The daemon *)

Definition is_enrolled (cfg : AgentConfig) (w : W) : bool :=
  bool_decide (is_Some (host_id cfg ≫= uuid_parse)) &&
  let d := cert_dir cfg in
  ((file_exists (d +:+ "/server.pem") w || file_exists (d +:+ "/agent.pem") w) &&
   (file_exists (d +:+ "/server.key.pem") w || file_exists (d +:+ "/agent.key.pem") w) && file_exists (d +:+ "/ca.pem") w).

Definition ENROLL_TOKEN_PATH : string := "/etc/firewall-agent/enroll.token".

(** What one turn of [wait_for_enrollment] does next. *)
Inductive WaitStep := Ready (cfg : AgentConfig) | SleepFor (secs : Z) | Again.

Definition wait_turn (draw : N) (host_name : string) : M W string WaitStep :=
  w ← get;
  match config_load w with
  | None => mret (SleepFor 15)
  | Some cfg =>
      if is_enrolled cfg w then mret (Ready cfg)
      else match read_to_string ENROLL_TOKEN_PATH w with
           | Some token =>
               if is_empty (trim token) then mret (SleepFor 30)
               else if is_empty (manager_url cfg) || is_empty (fqdn cfg) then mret (SleepFor 30)
               else r ← attempt (enroll draw host_name (manager_url cfg) (trim token) (fqdn cfg));
                    mret (match r with Ok _ => Again | Err _ => SleepFor 60 end)
           | None => mret (SleepFor 30)
           end
  end.

(** [read_to_string(a).or_else(|_| read_to_string(b))]. *)
Definition read_either (a b : string) (w : W) : option string :=
  match read_to_string a w with Some s => Some s | None => read_to_string b w end.

(** What [run_daemon] hands the pull loop: the host, the manager's URL and the TLS
    material, and the backend. *)
Record DaemonStart := mkDaemonStart {
  dm_host_id : Uuid; dm_manager_url : string; dm_client_cert : string; dm_client_key : string; dm_ca_cert : string;
  dm_backend : FirewallBackend
}.

(** [trim_end_matches('/')]. *)
Definition client_base (url : string) : string := trim_end_char "/" url.

(** [PullClient::new]: one client for requests, one for the events stream. *)
Definition PullClient_new (url : string) (host : Uuid) (cert key ca : string) : result (string * Uuid) string :=
  let? _ := map_err (fun _ => "Failed to create mTLS identity") (identity_check cert key) in
  let? _ := map_err (fun _ => "Failed to parse CA certificate") (ca_check ca) in
  let? _ := map_err (fun _ => "Failed to build HTTP client") (client_build (Some 30%Z) cert key ca) in
  let? _ := map_err (fun _ => "Failed to create mTLS identity") (identity_check cert key) in
  let? _ := map_err (fun _ => "Failed to parse CA certificate") (ca_check ca) in
  let? _ := map_err (fun _ => "Failed to build streaming HTTP client") (client_build None cert key ca) in
  Ok (client_base url, host).

Definition start_daemon (cfg : AgentConfig) : MW DaemonStart :=
  host ← lift_result (ok_or (host_id cfg ≫= uuid_parse) "No host_id in config — re-enroll required");
  w ← get;
  let d := cert_dir cfg in
  cert ← lift_result (ok_or (read_either (d +:+ "/server.pem") (d +:+ "/agent.pem") w) "Failed to read client certificate");
  key ← lift_result (ok_or (read_either (d +:+ "/server.key.pem") (d +:+ "/agent.key.pem") w) "Failed to read client key");
  ca ← lift_result (ok_or (read_to_string (d +:+ "/ca.pem") w) "Failed to read CA certificate");
  let url := manager_agent_url (pull cfg) in
  _ ← guard_or (negb (is_empty url)) "manager_agent_url is not set in config — run 'fw-agent enroll' first";
  client ← lift_result (PullClient_new url host cert key ca);
  found ← on_host (E:=string) detect;
  backend ← lift_result (ok_or (mjoin (result_ok found)) "No firewall backend detected (ufw/firewalld/nftables required)");
  mret (mkDaemonStart client.2 client.1 cert key ca backend).
End enroll.
