(* ===== verification/AgentEnrollFacts.v ===== *)
(** * AgentEnrollFacts: what enrollment ends in

    Polling ends, after at most 1440 attempts and for a stated reason; a success
    leaves the certificates and a configuration from which the daemon starts, as
    long as the certificate directory is the default one. *)

From S2P Require Import Prelude Text Models Net Files Backend AgentState PullLoop ManagerUrl AgentEnroll.

Section facts.
Context {OS : HostOs} {Net : Type} {COD : AgentCodec} {U : UrlLib} {DNS : Dns} {UT : UuidText} {LINK : EnrollLink Net} {CSR : CsrLib}
  {CODL : AgentCodecLaws}.
Notation W := (AgentWorld Net).
Notation MW := (M W string).

(** ** Polling ends *)

Section polling.
Variables manager_url fqdn key_pem poll_url : string.
Notation turn := (poll_turn manager_url fqdn key_pem poll_url).

(** An attempt that decides nothing. *)
Definition undecided (w w' : W) : Prop := turn w = (Ok false, w').

Lemma poll_loop_ends n w : exists k w_k, (k <= n)%nat /\ nsteps undecided k w w_k /\
  ((k = n /\ poll_loop n manager_url fqdn key_pem poll_url w = (Err "Enrollment timed out after 24 hours", w_k)) \/
   (k < n)%nat /\ exists w', (turn w_k = (Ok true, w') /\ poll_loop n manager_url fqdn key_pem poll_url w = (Ok tt, w')) \/
      exists e, turn w_k = (Err e, w') /\ poll_loop n manager_url fqdn key_pem poll_url w = (Err e, w')).
Proof.
  revert w. induction n as [|n IH]; intros w; cbn [poll_loop].
  - exists 0%nat, w. split; [done|]. split; [constructor|]. by left.
  - destruct (turn w) as [[b|e] w1] eqn:Ht.
    + destruct b.
      * exists 0%nat, w. split; [lia|]. split; [constructor|]. right. split; [lia|]. exists w1. left. split; [done|]. by erewrite bind_ok by exact Ht.
      * destruct (IH w1) as (k & w_k & Hk & Hn & H). exists (S k), w_k. split; [lia|]. split; [by eapply nsteps_l|].
        erewrite bind_ok by exact Ht. destruct H as [[-> H]|[Hlt H]]; [by left|]. right. split; [lia|done].
    + exists 0%nat, w. split; [lia|]. split; [constructor|]. right. split; [lia|]. exists w1. right. exists e. split; [done|]. by erewrite bind_err by exact Ht.
Qed.
End polling.

(** ** Files *)

Lemma fs_write_inv path content (w : W) u (w' : W) : fs_write path content w = (Ok u, w') ->
  aw_fs w' = <[path := mkFile content (file_mode path w)]> (aw_fs w).
Proof. unfold fs_write. case_bool_decide; [done|]. by intros [= _ <-]. Qed.

Lemma context_inv {A} c (m : MW A) w a w' : context c m w = (Ok a, w') -> m w = (Ok a, w').
Proof. unfold context. destruct (m w) as [[x|] w1]; cbn; [|done]. by intros [= -> ->]. Qed.

(** The certificate files after a bundle is written. *)
Definition certs_on_disk (bundle : AgentPkiBundle) (key : string) (w : W) : Prop :=
  read_to_string (CERT_DIR +:+ "/ca.pem") w = Some (join newline (ab_ca_chain bundle)) /\
  read_to_string (CERT_DIR +:+ "/server.pem") w = Some (ab_server_cert bundle) /\
  aw_fs w !! (CERT_DIR +:+ "/server.key.pem") = Some (mkFile key 384).

Lemma write_pki_inv bundle key w u w' : write_pki_bundle bundle key w = (Ok u, w') ->
  certs_on_disk bundle key w' /\ (forall p, starts_with (CERT_DIR +:+ "/") p = false -> aw_fs w' !! p = aw_fs w !! p).
Proof.
  unfold write_pki_bundle. intros H.
  apply bind_inv_ok in H as ([] & w1 & H1%context_inv & H). unfold fs_mkdir in H1. case_bool_decide; [done|]. injection H1 as <-.
  apply bind_inv_ok in H as ([] & w2 & H2%context_inv%fs_write_inv & H).
  apply bind_inv_ok in H as ([] & w3 & H3%context_inv%fs_write_inv & H).
  apply bind_inv_ok in H as ([] & w4 & H4%context_inv%fs_write_inv & H).
  apply bind_inv_ok in H as ([] & w5 & H5 & H). unfold fs_chmod in H5. rewrite H4, lookup_insert_eq in H5. injection H5 as <-.
  assert (exists extra, aw_fs w' = extra /\ (forall p, p <> CERT_DIR +:+ "/crl.pem" ->
    extra !! p = (<[CERT_DIR +:+ "/server.key.pem" := mkFile key 384]> (aw_fs w4)) !! p)) as (extra & He & Hx).
  { destruct (ab_crl_pem bundle); [|inv_ret H; eexists; split; [reflexivity|]; intros p _; cbn; by rewrite H4]. apply context_inv, fs_write_inv in H. eexists. split; [exact H|].
    intros p Hp. rewrite lookup_insert_ne by done. cbn. by rewrite H4. }
  unfold certs_on_disk, read_to_string. rewrite He. split.
  - rewrite !Hx by done. rewrite lookup_insert_eq. rewrite !(lookup_insert_ne _ (CERT_DIR +:+ "/server.key.pem")) by done.
    rewrite H4, !(lookup_insert_ne _ (CERT_DIR +:+ "/server.key.pem")) by done.
    rewrite H3, lookup_insert_eq, lookup_insert_ne by done. rewrite H2, lookup_insert_eq. done.
  - intros p Hp. assert (forall f, p <> CERT_DIR +:+ "/" +:+ f) as Hne.
    { intros f ->. rewrite str_app_assoc in Hp. by rewrite starts_with_app in Hp. }
    rewrite Hx by apply (Hne "crl.pem"). rewrite lookup_insert_ne by (symmetry; apply (Hne "server.key.pem")).
    rewrite H4, lookup_insert_ne by (symmetry; apply (Hne "server.key.pem")).
    rewrite H3, lookup_insert_ne by (symmetry; apply (Hne "server.pem")).
    by rewrite H2, lookup_insert_ne by (symmetry; apply (Hne "ca.pem")).
Qed.

(** ** Success *)

(** An undecided attempt touches no file. *)
Lemma undecided_fs url fq key purl (w w' : W) : undecided url fq key purl w w' -> aw_fs w' = aw_fs w.
Proof.
  unfold undecided, poll_turn, sleep, link_call, mbind, M_bind, modify. cbn. destruct (get_status _ _) as [[resp|e] n]; [|by intros [= <-]].
  destruct (_ =? 202)%Z; [by intros [= <-]|]. destruct (_ =? 403)%Z; [done|]. destruct (_ =? 404)%Z; [done|].
  destruct (is_success _); [|by intros [= <-]]. unfold lift_result. destruct (hr_json resp) as [s|]; [|done]. cbn.
  destruct (if bool_decide _ then _ else _) as [b|]; [|by intros [= <-]].
  destruct (write_pki_bundle _ _ _) as [[]]; [|done]. by destruct (save_config _ _ _ _ _) as [[]].
Qed.

Lemma undecided_steps_fs url fq key purl k (w w' : W) : nsteps (undecided url fq key purl) k w w' -> aw_fs w' = aw_fs w.
Proof. induction 1 as [|k x y z Hxy _ IH]; [done|]. by rewrite IH, (undecided_fs _ _ _ _ _ _ Hxy). Qed.

Lemma config_load_fs (w w' : W) : aw_fs w' !! config_path = aw_fs w !! config_path -> config_load w' = config_load w.
Proof. intros H. unfold config_load, read_to_string. by rewrite H. Qed.

(** The attempt that completes enrollment. *)
Lemma poll_turn_done url fq key purl (w w' : W) : poll_turn url fq key purl w = (Ok true, w') ->
  exists s bundle cfg, es_status s = "approved" /\ es_pki_bundle s = Some bundle /\
    enrolled_config (default AgentConfig_default (config_load w)) url fq (ab_pull_config bundle) (es_host_id s) = Ok cfg /\
    config_load w' = Some cfg /\ certs_on_disk bundle key w'.
Proof.
  unfold poll_turn. intros H. apply bind_inv_ok in H as ([] & w1 & H1 & H). unfold sleep, modify in H1. injection H1 as <-.
  apply bind_inv_ok in H as (r & w2 & H2 & H). unfold link_call in H2. destruct (get_status _ _) as [r' n]. injection H2 as <- <-.
  destruct r' as [resp|e]; [|by inv_ret H].
  destruct (_ =? 202)%Z; [by inv_ret H|]. destruct (_ =? 403)%Z; [done|]. destruct (_ =? 404)%Z; [done|].
  destruct (is_success _); [|by inv_ret H]. apply bind_inv_ok in H as (s & w3 & H3 & H). unfold lift_result in H3. injection H3 as _ <-.
  case_bool_decide as Hs; [|by inv_ret H]. destruct (es_pki_bundle s) as [bundle|] eqn:Hb; [|by inv_ret H].
  apply bind_inv_ok in H as ([] & w4 & H4 & H). apply write_pki_inv in H4 as [Hc Ho].
  apply bind_inv_ok in H as ([] & w5 & H5 & H). inv_ret H. unfold save_config in H5.
  apply bind_inv_ok in H5 as (base & w6 & H6 & H5). unfold gets in H6. injection H6 as <- <-.
  apply bind_inv_ok in H5 as (cfg & w7 & H7 & H5). unfold lift_result in H7. injection H7 as Hcfg <-.
  apply context_inv in H5. exists s, bundle, cfg. split_and!; [done|done| |by eapply config_save_load_aux|].
  - rewrite <- Hcfg. f_equal. f_equal. symmetry. apply config_load_fs. by apply Ho.
  - unfold config_save in H5. apply bind_inv_ok in H5 as ([] & w8 & H8%fs_write_inv & H5). unfold fs_chmod in H5.
    rewrite H8, lookup_insert_eq in H5. injection H5 as <-. unfold certs_on_disk, read_to_string in *. cbn.
    rewrite !lookup_insert_ne by done. exact Hc.
Qed.

(** On a writable disk the files are written. *)
Lemma fs_write_ok path content (w : W) : aw_unwritable w = ∅ ->
  exists w', fs_write path content w = (Ok tt, w') /\ aw_unwritable w' = ∅ /\ aw_net w' = aw_net w /\ is_Some (aw_fs w' !! path).
Proof.
  intros Hu. unfold fs_write. rewrite Hu, bool_decide_eq_false_2 by set_solver. eexists. split; [reflexivity|].
  split_and!; [done|done|]. cbn. by rewrite lookup_insert_eq.
Qed.

Lemma fs_chmod_ok path mode (w : W) : is_Some (aw_fs w !! path) ->
  exists w', fs_chmod path mode w = (Ok tt, w') /\ aw_unwritable w' = aw_unwritable w /\ aw_net w' = aw_net w.
Proof. intros [f Hf]. unfold fs_chmod. rewrite Hf. eexists. by split. Qed.

Lemma context_ok {A} c (m : MW A) w a w' : m w = (Ok a, w') -> context c m w = (Ok a, w').
Proof. intros H. unfold context. by rewrite H. Qed.

Lemma write_pki_ok bundle key (w : W) : aw_unwritable w = ∅ ->
  exists w', write_pki_bundle bundle key w = (Ok tt, w') /\ aw_unwritable w' = ∅ /\ aw_net w' = aw_net w.
Proof.
  intros Hu. unfold write_pki_bundle.
  erewrite bind_ok by (apply context_ok; unfold fs_mkdir; rewrite Hu, bool_decide_eq_false_2 by set_solver; reflexivity).
  destruct (fs_write_ok (CERT_DIR +:+ "/ca.pem") (join newline (ab_ca_chain bundle)) w Hu) as (w1 & H1 & Hu1 & Hn1 & _).
  erewrite bind_ok by (apply context_ok; exact H1).
  destruct (fs_write_ok (CERT_DIR +:+ "/server.pem") (ab_server_cert bundle) w1 Hu1) as (w2 & H2 & Hu2 & Hn2 & _).
  erewrite bind_ok by (apply context_ok; exact H2).
  destruct (fs_write_ok (CERT_DIR +:+ "/server.key.pem") key w2 Hu2) as (w3 & H3 & Hu3 & Hn3 & Hs3).
  erewrite bind_ok by (apply context_ok; exact H3). destruct (fs_chmod_ok _ 384 w3 Hs3) as (w4 & H4 & Hu4 & Hn4).
  erewrite bind_ok by exact H4. destruct (ab_crl_pem bundle) as [crl|].
  - destruct (fs_write_ok (CERT_DIR +:+ "/crl.pem") crl w4 ltac:(congruence)) as (w5 & H5 & Hu5 & Hn5 & _).
    exists w5. split; [by apply context_ok|]. split; [done|congruence].
  - exists w4. split; [done|]. split; congruence.
Qed.

Lemma is_success_spec z : is_success z = true <-> (200 <= z < 300)%Z.
Proof. unfold is_success. rewrite andb_true_iff, Z.leb_le, Z.ltb_lt. done. Qed.

(** An approving answer completes the attempt. *)
Lemma poll_turn_approved url fq key purl (w : W) resp n s bundle cfg : aw_unwritable w = ∅ ->
  get_status purl (net_sleep 60 (aw_net w)) = (Ok resp, n) -> (200 <= hr_status resp < 300)%Z -> hr_status resp <> 202%Z -> hr_json resp = Ok s ->
  es_status s = "approved" -> es_pki_bundle s = Some bundle ->
  enrolled_config (default AgentConfig_default (config_load w)) url fq (ab_pull_config bundle) (es_host_id s) = Ok cfg ->
  exists w', poll_turn url fq key purl w = (Ok true, w') /\ aw_net w' = n /\ config_load w' = Some cfg /\ certs_on_disk bundle key w'.
Proof.
  intros Hu Hget Hst H202 Hj Happ Hb Hcfg. set (w1 := set_net n (set_net (net_sleep 60 (aw_net w)) w)).
  destruct (write_pki_ok bundle key w1 Hu) as (w2 & H2 & Hu2 & Hn2). destruct (write_pki_inv _ _ _ _ _ H2) as [Hc Ho].
  destruct (fs_write_ok config_path (default "" (config_to_toml cfg)) w2 Hu2) as (w3 & H3 & Hu3 & Hn3 & Hs3).
  destruct (fs_chmod_ok _ 384 w3 Hs3) as (w4 & H4 & Hu4 & Hn4).
  assert (config_save cfg w2 = (Ok tt, w4)) as Hsave by (unfold config_save; by erewrite bind_ok by exact H3).
  exists w4. split_and!.
  - unfold poll_turn, sleep. erewrite bind_ok by (unfold modify; reflexivity).
    erewrite bind_ok by (unfold link_call; cbn [aw_net set_net]; rewrite Hget; reflexivity). cbv beta iota zeta.
    destruct (Z.eqb_spec (hr_status resp) 202); [done|]. destruct (Z.eqb_spec (hr_status resp) 403); [lia|].
    destruct (Z.eqb_spec (hr_status resp) 404); [lia|]. rewrite (proj2 (is_success_spec _)) by done. erewrite bind_ok by (unfold lift_result; rewrite Hj; reflexivity).
    rewrite Happ, bool_decide_eq_true_2, Hb by done. erewrite bind_ok by exact H2. erewrite bind_ok; [reflexivity|].
    unfold save_config. erewrite bind_ok by (unfold gets; reflexivity). rewrite (config_load_fs w w2) by by apply Ho.
    erewrite bind_ok by (unfold lift_result; rewrite Hcfg; reflexivity). by apply context_ok.
  - rewrite Hn4, Hn3, Hn2. done.
  - by eapply config_save_load_aux.
  - apply fs_write_inv in H3. unfold fs_chmod in H4. rewrite H3, lookup_insert_eq in H4. injection H4 as <-.
    unfold certs_on_disk, read_to_string in *. cbn. rewrite !lookup_insert_ne by done. exact Hc.
Qed.

(** Reading the host changes no file. *)
Lemma stdout_of_fs {E} prog args (w : W) : exists o w', stdout_of (E:=E) prog args w = (Ok o, w') /\ aw_fs w' = aw_fs w.
Proof.
  unfold stdout_of, mbind, M_bind, on_host. destruct (spawn prog args (aw_os w)) as [r h]. by eexists _, _.
Qed.

Lemma enroll_done draw hn url token fq (w w' : W) : enroll draw hn url token fq w = (Ok tt, w') ->
  exists key s bundle cfg, key_pem_new draw = Ok key /\ es_status s = "approved" /\ es_pki_bundle s = Some bundle /\
    enrolled_config (default AgentConfig_default (config_load w)) url fq (ab_pull_config bundle) (es_host_id s) = Ok cfg /\
    config_load w' = Some cfg /\ certs_on_disk bundle key w'.
Proof.
  unfold enroll. intros H. apply bind_inv_ok in H as (key & w1 & H1 & H). unfold lift_result in H1. injection H1 as H1 <-.
  apply bind_inv_ok in H as (csr & w2 & H2 & H). unfold lift_result in H2. injection H2 as _ <-.
  apply bind_inv_ok in H as (ip & w3 & H3 & H). unfold detect_local_ip in H3.
  destruct (stdout_of_fs (E:=string) "ip" ["-4"; "addr"; "show"; "scope"; "global"] w) as (o1 & x1 & Hx1 & Hf1).
  erewrite bind_ok in H3 by exact Hx1. injection H3 as _ <-.
  apply bind_inv_ok in H as (det & w4 & H4 & H). unfold detect_os_details in H4.
  destruct (stdout_of_fs (E:=string) "cat" ["/etc/os-release"] x1) as (o2 & x2 & Hx2 & Hf2). erewrite bind_ok in H4 by exact Hx2.
  destruct (stdout_of_fs (E:=string) "uname" ["-m"] x2) as (o3 & x3 & Hx3 & Hf3). erewrite bind_ok in H4 by exact Hx3.
  destruct (stdout_of_fs (E:=string) "uname" ["-r"] x3) as (o4 & x4 & Hx4 & Hf4). erewrite bind_ok in H4 by exact Hx4. injection H4 as _ <-.
  apply bind_inv_ok in H as (r & w5 & H5 & H). unfold link_call in H5. destruct (post_enroll _ _ _) as [r' n]. injection H5 as <- <-.
  apply bind_inv_ok in H as (resp & w6 & H6 & H). unfold lift_result in H6. injection H6 as _ <-.
  apply bind_inv_ok in H as ([] & w7 & H7 & H). unfold guard_or in H7. destruct (is_success _); [|done]. injection H7 as <-.
  apply bind_inv_ok in H as (pt & w8 & H8 & H). unfold lift_result in H8. injection H8 as _ <-.
  match type of H with poll_loop _ ?a ?b ?c ?d ?x = _ => destruct (poll_loop_ends a b c d MAX_ATTEMPTS x) as (k & wk & _ & Hsteps & Hend) end.
  rewrite H in Hend. destruct Hend as [[_ He]|[_ (w9 & [[Ht He]|(e & _ & He)])]]; [done| |done]. injection He as <-.
  apply undecided_steps_fs in Hsteps. destruct (poll_turn_done _ _ _ _ _ _ Ht) as (s & bundle & cfg & Hs & Hb & Hcfg & Hl & Hc).
  exists key, s, bundle, cfg. split_and!; try done; [by destruct (key_pem_new draw); cbn in H1; simplify_eq|].
  rewrite <- Hcfg. f_equal. f_equal. symmetry. apply config_load_fs. by rewrite Hsteps; cbn; rewrite Hf4, Hf3, Hf2, Hf1.
Qed.

(** ** What the answers of the manager decide *)

(** An answer that leaves the agent waiting: none at all, 202, a status that is
    neither a success nor a refusal, or a readable success that is not an approval
    with a bundle. *)
Definition keeps_waiting (r : result (HttpResponse EnrollmentStatusResponse) string) : Prop :=
  match r with
  | Err _ => True
  | Ok resp =>
      hr_status resp = 202%Z \/
      (hr_status resp <> 403 /\ hr_status resp <> 404 /\ ~ (200 <= hr_status resp < 300))%Z \/
      ((200 <= hr_status resp < 300)%Z /\ exists s, hr_json resp = Ok s /\ (es_status s <> "approved" \/ es_pki_bundle s = None))
  end.

(** A minute passes and the manager's answer leaves the agent waiting. *)
Definition waits (purl : string) (n n' : Net) : Prop :=
  exists r, get_status purl (net_sleep 60 n) = (r, n') /\ keeps_waiting r.

Section answers.
Variables url fq key purl : string.
Notation loop n := (poll_loop n url fq key purl).

Lemma poll_turn_answer (w : W) r n' : get_status purl (net_sleep 60 (aw_net w)) = (r, n') ->
  poll_turn url fq key purl w =
  match r with
  | Err _ => (Ok false, set_net n' w)
  | Ok resp =>
      if (hr_status resp =? 202)%Z then (Ok false, set_net n' w)
      else if (hr_status resp =? 403)%Z then (Err "Enrollment denied by administrator", set_net n' w)
      else if (hr_status resp =? 404)%Z then (Err "Enrollment expired or not found", set_net n' w)
      else if is_success (hr_status resp) then
        match hr_json resp with
        | Err _ => (Err "Failed to parse approval response", set_net n' w)
        | Ok s => match (if bool_decide (es_status s = "approved") then es_pki_bundle s else None) with
                  | Some bundle => (_ ← write_pki_bundle bundle key; _ ← save_config url fq (ab_pull_config bundle) (es_host_id s); mret true) (set_net n' w)
                  | None => (Ok false, set_net n' w)
                  end
        end
      else (Ok false, set_net n' w)
  end.
Proof.
  intros H. unfold poll_turn, sleep. erewrite bind_ok by (unfold modify; reflexivity).
  erewrite bind_ok by (unfold link_call; cbn [aw_net set_net]; rewrite H; reflexivity).
  destruct r as [resp|]; [|done]. cbv beta iota zeta. repeat (case_match; [done|]). case_match; [|done].
  destruct (hr_json resp) as [s0|e]; [erewrite bind_ok by reflexivity|by erewrite bind_err by reflexivity]. by case_match.
Qed.

Lemma waits_turn (w : W) n' : waits purl (aw_net w) n' -> poll_turn url fq key purl w = (Ok false, set_net n' w).
Proof.
  intros (r & Hr & Hk). rewrite (poll_turn_answer w r n' Hr). destruct r as [resp|]; [|done]. cbn in Hk.
  destruct Hk as [->|[(H3 & H4 & Hs)|(Hs & s0 & Hj & Hn)]]; [done|..].
  - destruct (Z.eqb_spec (hr_status resp) 202); [done|]. destruct (Z.eqb_spec (hr_status resp) 403); [done|].
    destruct (Z.eqb_spec (hr_status resp) 404); [done|]. destruct (is_success _) eqn:He; [|done]. by apply is_success_spec in He.
  - destruct (Z.eqb_spec (hr_status resp) 202); [done|]. destruct (Z.eqb_spec (hr_status resp) 403); [lia|].
    destruct (Z.eqb_spec (hr_status resp) 404); [lia|]. rewrite (proj2 (is_success_spec _)), Hj by done.
    destruct Hn as [Hn|Hn]; [by rewrite bool_decide_eq_false_2|]. rewrite Hn. by destruct (bool_decide _).
Qed.

Lemma waits_loop k m (w : W) n' : nsteps (waits purl) k (aw_net w) n' -> loop (k + m) w = loop m (set_net n' w).
Proof.
  revert w. induction k as [|k IH]; intros w H; inversion H as [|? ? n1 ? H1 H2]; subst.
  - cbn. by destruct w.
  - cbn [poll_loop Nat.add]. erewrite bind_ok by (by apply waits_turn). cbn beta iota. by rewrite (IH (set_net n1 w)).
Qed.

(** The first answer that does not leave the agent waiting ends the polling. *)
Lemma decided_loop k (w : W) n1 r w' : (k < 1440)%nat -> nsteps (waits purl) k (aw_net w) n1 ->
  poll_turn url fq key purl (set_net n1 w) = (r, w') -> (r <> Ok false) ->
  loop MAX_ATTEMPTS w = (match r with Ok _ => Ok tt | Err e => Err e end, w').
Proof.
  intros Hk Hn Ht Hr. unfold MAX_ATTEMPTS. replace 1440%nat with (k + S (1439 - k))%nat by lia. rewrite (waits_loop _ _ _ _ Hn). cbn [poll_loop].
  destruct r as [[]|e]; [|done|]; [by erewrite bind_ok by exact Ht|by erewrite bind_err by exact Ht].
Qed.

Lemma polling_decided k (w : W) : exists j n1, (j <= k)%nat /\ nsteps (waits purl) j (aw_net w) n1 /\
  (j = k \/ exists resp n2, get_status purl (net_sleep 60 n1) = (Ok resp, n2) /\
     (hr_status resp = 403 \/ hr_status resp = 404 \/ ((200 <= hr_status resp < 300) /\ hr_status resp <> 202 /\
       ((exists e, hr_json resp = Err e) \/ exists s b, hr_json resp = Ok s /\ es_status s = "approved" /\ es_pki_bundle s = Some b)))%Z).
Proof.
  generalize (aw_net w). clear w. induction k as [|k IH]; intros n; [exists 0%nat, n; split_and!; [done|constructor|by left]|].
  destruct (get_status purl (net_sleep 60 n)) as [r n'] eqn:Hg.
  assert (keeps_waiting r \/ exists resp, r = Ok resp /\ (hr_status resp = 403 \/ hr_status resp = 404 \/ ((200 <= hr_status resp < 300) /\ hr_status resp <> 202 /\
    ((exists e, hr_json resp = Err e) \/ exists s b, hr_json resp = Ok s /\ es_status s = "approved" /\ es_pki_bundle s = Some b)))%Z) as [Hw|(resp & -> & Hd)].
  { destruct r as [resp|e]; [|by left]. destruct (decide (hr_status resp = 403%Z)); [right; eauto|]. destruct (decide (hr_status resp = 404%Z)); [right; eauto|].
    destruct (decide (hr_status resp = 202%Z)); [left; by left|]. destruct (decide (200 <= hr_status resp < 300)%Z) as [Hs|Hs]; [|left; right; left; done].
    destruct (hr_json resp) as [s0|e] eqn:Hj; [|right; exists resp; split; [done|]; right; right; split_and!; [lia|lia|done|]; left; eauto].
    destruct (decide (es_status s0 = "approved")) as [Ha|Ha]; [|left; right; right; split; [done|]; eauto].
    destruct (es_pki_bundle s0) as [b|] eqn:Hb; [|left; right; right; split; [done|]; eauto].
    right. exists resp. split; [done|]. right. right. split_and!; [lia|lia|done|]. right. by exists s0, b. }
  - destruct (IH n') as (j & n1 & Hj & Hn & H). exists (S j), n1. split; [lia|]. split; [eapply nsteps_l; [by exists r|exact Hn]|].
    destruct H as [->|H]; [by left|by right].
  - exists 0%nat, n. split_and!; [lia|constructor|]. right. by exists resp, n'.
Qed.
End answers.

(** C36. Polling for approval follows the manager's answers, a minute apart, and ends.
    (1) It always comes to an end: 1440 answers leave the agent waiting, or before
    that there is a first one that does not, which is 403, 404, an unreadable success
    or an approval with a bundle. (2) After 1440 answers that leave it waiting it fails
    with the timeout. (3) The first other answer decides: 403 fails as denied and 404
    as expired or unknown, a success that cannot be read as unreadable, with nothing
    of the agent's files touched in these cases; and an approval with a bundle, on a
    writable disk and with a manager address that can be used, succeeds and leaves
    that bundle's certificates, the agent's own key and the configuration with the
    bundle's host on disk. *)
Theorem polling_follows_answers url fq key purl (w : W) :
  (exists k n1, (k <= 1440)%nat /\ nsteps (waits purl) k (aw_net w) n1 /\
     (k = 1440%nat \/ exists resp n2, get_status purl (net_sleep 60 n1) = (Ok resp, n2) /\
        (hr_status resp = 403 \/ hr_status resp = 404 \/ ((200 <= hr_status resp < 300) /\ hr_status resp <> 202 /\
          ((exists e, hr_json resp = Err e) \/ exists s b, hr_json resp = Ok s /\ es_status s = "approved" /\ es_pki_bundle s = Some b)))%Z)) /\
  (forall n', nsteps (waits purl) 1440 (aw_net w) n' ->
     poll_loop MAX_ATTEMPTS url fq key purl w = (Err "Enrollment timed out after 24 hours", set_net n' w)) /\
  (forall k n1 resp n2, (k < 1440)%nat -> nsteps (waits purl) k (aw_net w) n1 -> get_status purl (net_sleep 60 n1) = (Ok resp, n2) ->
     (hr_status resp = 403%Z -> poll_loop MAX_ATTEMPTS url fq key purl w = (Err "Enrollment denied by administrator", set_net n2 w)) /\
     (hr_status resp = 404%Z -> poll_loop MAX_ATTEMPTS url fq key purl w = (Err "Enrollment expired or not found", set_net n2 w)) /\
     ((200 <= hr_status resp < 300)%Z -> hr_status resp <> 202%Z ->
        (forall e, hr_json resp = Err e -> poll_loop MAX_ATTEMPTS url fq key purl w = (Err "Failed to parse approval response", set_net n2 w)) /\
        (forall s bundle cfg, hr_json resp = Ok s -> es_status s = "approved" -> es_pki_bundle s = Some bundle -> aw_unwritable w = ∅ ->
           enrolled_config (default AgentConfig_default (config_load w)) url fq (ab_pull_config bundle) (es_host_id s) = Ok cfg ->
           exists w', poll_loop MAX_ATTEMPTS url fq key purl w = (Ok tt, w') /\ aw_net w' = n2 /\ config_load w' = Some cfg /\ certs_on_disk bundle key w'))).
Proof.
  split; [apply polling_decided|]. split.
  - intros n' Hn. unfold MAX_ATTEMPTS. rewrite (waits_loop url fq key purl 1440 0 w n' Hn : poll_loop 1440 _ _ _ _ w = _). done.
  - intros k n1 resp n2 Hk Hn Hg. pose proof (poll_turn_answer url fq key purl (set_net n1 w) (Ok resp) n2 Hg) as Ht. cbv iota in Ht. split_and!.
    + intros Hs. rewrite Hs in Ht. by apply (decided_loop url fq key purl k w n1 _ _ Hk Hn Ht).
    + intros Hs. rewrite Hs in Ht. by apply (decided_loop url fq key purl k w n1 _ _ Hk Hn Ht).
    + intros Hs H202. destruct (Z.eqb_spec (hr_status resp) 202); [done|]. destruct (Z.eqb_spec (hr_status resp) 403); [lia|].
      destruct (Z.eqb_spec (hr_status resp) 404); [lia|]. rewrite (proj2 (is_success_spec _)) in Ht by done. split.
      * intros e He. rewrite He in Ht. by apply (decided_loop url fq key purl k w n1 _ _ Hk Hn Ht).
      * intros s bundle cfg Hj Ha Hb Hu Hcfg. destruct (poll_turn_approved url fq key purl (set_net n1 w) resp n2 s bundle cfg) as (w' & Ht' & Hrest); try done.
        apply (decided_loop url fq key purl k w n1 _ _ Hk Hn) in Ht'; [|done]. by exists w'.
Qed.

Lemma enrolled_config_inv base url fq p h cfg : enrolled_config base url fq p h = Ok cfg ->
  cert_dir cfg = cert_dir base /\ host_id cfg = match h with Some id => Some id | None => host_id base end /\
  match p with
  | Some p => exists u, normalize_manager_url_to_ip (bp_manager_agent_url p) = Ok u /\
      pull cfg = mkPullConfig (bp_check_in_interval_secs p) u (bp_config_version p)
  | None => pull cfg = pull base
  end /\
  safe_mode_enabled cfg = safe_mode_enabled base /\ safe_mode_timeout_secs cfg = safe_mode_timeout_secs base /\
  log_dir cfg = log_dir base /\ forall c, c ∈ protected_cidrs base -> c ∈ protected_cidrs cfg.
Proof.
  unfold enrolled_config. intros (np & Hnp & [= <-])%and_then_ok. cbn. split_and!; try done.
  - destruct p as [p|]; [|by injection Hnp as <-]. apply and_then_ok in Hnp as (u & Hu & [= <-]). exists u. split; [|done].
    by destruct (normalize_manager_url_to_ip _); cbn in Hu; simplify_eq.
  - intros c Hc. unfold seed_cidrs. destruct (auto_detect_manager_cidr url); [|done]. case_bool_decide; [done|]. apply elem_of_app. by left.
Qed.

Lemma normalized_nonempty raw u : normalize_manager_url_to_ip raw = Ok u -> is_empty u = false.
Proof.
  unfold normalize_manager_url_to_ip. destruct (url_parse raw) as [pu|]; [|done].
  destruct (negb _ && negb _) eqn:Hsch; [done|]. repeat case_match; try done. intros [= <-].
  apply andb_false_iff in Hsch as [Hs|Hs]; apply negb_false_iff, bool_decide_eq_true in Hs; by rewrite Hs.
Qed.

(** Files in the certificate directory make an agent enrolled. *)
Lemma certs_enrolled cfg bundle key (w : W) : certs_on_disk bundle key w -> cert_dir cfg = CERT_DIR ->
  is_Some (host_id cfg ≫= uuid_parse) -> is_enrolled cfg w = true.
Proof.
  intros (Hca & Hcert & Hkey) Hd Hh. unfold is_enrolled. rewrite bool_decide_eq_true_2 by done. rewrite Hd. cbn [andb].
  assert (forall p s, read_to_string p w = Some s -> file_exists p w = true) as Hex.
  { intros p s Hp. apply bool_decide_eq_true_2. unfold read_to_string in Hp. by destruct (aw_fs w !! p). }
  rewrite (Hex _ _ Hca), (Hex _ _ Hcert). assert (file_exists (CERT_DIR +:+ "/server.key.pem") w = true) as ->; [|done].
  apply bool_decide_eq_true_2. by rewrite Hkey.
Qed.

Context {HID : HttpIdentity} {SH : Shlex} {SHA : Sha256}.

(** A successful enrollment leaves an agent that can run: with the default
    certificate directory, an approval that carries a host id and a pull
    configuration makes the next look of the daemon find it enrolled, and the daemon
    then starts as that host, against the manager's address as an IP, with the
    certificate it was sent, the key it made itself (readable by its owner only) and
    the CA chain it was sent. *)
Theorem enroll_then_daemon_starts {UTL : UuidTextLaws} draw hn url token fq (w w' : W) :
  enroll draw hn url token fq w = (Ok tt, w') -> cert_dir (default AgentConfig_default (config_load w)) = CERT_DIR ->
  exists key s bundle cfg, key_pem_new draw = Ok key /\ es_pki_bundle s = Some bundle /\
    aw_fs w' !! (CERT_DIR +:+ "/server.key.pem") = Some (mkFile key 384) /\
    forall h p, es_host_id s = Some (uuid_to_string h) -> ab_pull_config bundle = Some p ->
      (forall n hn', wait_turn n hn' w' = (Ok (Ready cfg), w')) /\
      exists u, normalize_manager_url_to_ip (bp_manager_agent_url p) = Ok u /\
        pull cfg = mkPullConfig (bp_check_in_interval_secs p) u (bp_config_version p) /\
        (identity_check (ab_server_cert bundle) key = Ok tt -> ca_check (join newline (ab_ca_chain bundle)) = Ok tt ->
         (forall timeout, client_build timeout (ab_server_cert bundle) key (join newline (ab_ca_chain bundle)) = Ok tt) ->
         forall b, outcome (E:=string) detect (aw_os w') = Ok (Some b) ->
         outcome (start_daemon cfg) w' =
           Ok (mkDaemonStart h (client_base u) (ab_server_cert bundle) key (join newline (ab_ca_chain bundle)) b)).
Proof.
  intros H Hdir. destruct (enroll_done _ _ _ _ _ _ _ H) as (key & s & bundle & cfg & Hk & _ & Hb & Hcfg & Hl & Hc).
  exists key, s, bundle, cfg. split_and!; [done|done|apply Hc|]. intros h p Hh Hp.
  destruct (enrolled_config_inv _ _ _ _ _ _ Hcfg) as (Hcd & Hid & Hpull & _). rewrite Hp in Hpull. rewrite Hh in Hid. cbn in Hid.
  assert (host_id cfg ≫= uuid_parse = Some h) as Huid by (rewrite Hid; apply uuid_parse_to_string).
  rewrite Hdir in Hcd. pose proof (certs_enrolled cfg bundle key w' Hc Hcd ltac:(by rewrite Huid)) as He. split.
  { intros n hn'. unfold wait_turn. erewrite bind_ok by (unfold get; reflexivity). by rewrite Hl, He. }
  destruct Hpull as (u & Hu & Hpc). exists u. split_and!; [done|done|]. intros Hi Hca Hbuild b Hdet.
  destruct Hc as (Hca' & Hcert & Hkey). unfold outcome, start_daemon.
  erewrite bind_ok by (unfold lift_result; rewrite Huid; reflexivity). erewrite bind_ok by (unfold get; reflexivity).
  unfold read_either. rewrite Hcd, Hcert. erewrite bind_ok by (unfold lift_result; reflexivity).
  assert (read_to_string (CERT_DIR +:+ "/server.key.pem") w' = Some key) as -> by (unfold read_to_string; by rewrite Hkey).
  erewrite bind_ok by (unfold lift_result; reflexivity). rewrite Hca'. erewrite bind_ok by (unfold lift_result; reflexivity).
  rewrite Hpc. cbn [manager_agent_url]. rewrite (normalized_nonempty _ _ Hu). erewrite bind_ok by reflexivity.
  unfold PullClient_new. rewrite Hi, Hca, !Hbuild. erewrite bind_ok by reflexivity. unfold on_host.
  unfold outcome in Hdet. unfold mbind, M_bind. destruct (detect (aw_os w')) as [r hst]. cbn in Hdet. subst r. done.
Qed.

(** With another certificate directory in the configuration, enrollment succeeds and
    the daemon still does not find itself enrolled. *)
Theorem custom_cert_dir_not_enrolled draw hn url token fq (w w' : W) d : enroll draw hn url token fq w = (Ok tt, w') ->
  cert_dir (default AgentConfig_default (config_load w)) = d -> aw_fs w' !! (d +:+ "/ca.pem") = None ->
  exists cfg, config_load w' = Some cfg /\ is_enrolled cfg w' = false.
Proof.
  intros H Hd Hno. destruct (enroll_done _ _ _ _ _ _ _ H) as (key & s & bundle & cfg & _ & _ & _ & Hcfg & Hl & _). exists cfg. split; [done|].
  destruct (enrolled_config_inv _ _ _ _ _ _ Hcfg) as (Hcd & _). unfold is_enrolled. rewrite Hcd, Hd.
  assert (file_exists (d +:+ "/ca.pem") w' = false) as -> by (apply bool_decide_eq_false_2; rewrite Hno; by intros []).
  by rewrite !andb_false_r.
Qed.
End facts.
