(* ===== verification/Db.v ===== *)
(** * Db: the manager's database

    The PostgreSQL tables the manager's handlers read and write (schema of
    [migrations/]), one list of rows per table, and the shape of a [sqlx] query:
    every query may fail with a database error, and a failed query changes
    nothing. The order in which a query returns rows its ORDER BY does not
    decide is the server's choice ([Sql]). *)

From S2P Require Import Prelude Text Models Net.

(** ** Errors of the manager *)

Inductive AppError :=
  | NotFound (msg : string)
  | Unauthorized (msg : string)
  | Forbidden (msg : string)
  | BadRequest (msg : string)
  | Conflict (msg : string)
  | UnprocessableEntity (msg : string)
  | Database
  | Internal (msg : string)
  | Config (msg : string).
#[export] Instance AppError_eq_dec : EqDecision AppError.
Proof. solve_decision. Defined.

(** The status code and the error code of the HTTP response. *)
Definition into_response (e : AppError) : Z * string :=
  match e with
  | NotFound _ => (404%Z, "not_found")
  | Unauthorized _ => (401%Z, "unauthorized")
  | Forbidden _ => (403%Z, "forbidden")
  | BadRequest _ => (400%Z, "bad_request")
  | Conflict _ => (409%Z, "conflict")
  | UnprocessableEntity _ => (422%Z, "unprocessable_entity")
  | Database => (500%Z, "database_error")
  | Internal _ => (500%Z, "internal_error")
  | Config _ => (500%Z, "config_error")
  end.

(** ** Rows

    The columns of the row structs of [models.rs]. A surrogate key that no statement
    of the program refers to (the [id] of a decision, an anchor or a refresh token)
    is left out. *)

Record HostRow := mkHost {
  h_id : Uuid; h_fqdn : string; h_ip_address : string; h_display_name : string;
  h_os_family : option string; h_os_name : option string; h_arch : option string;
  h_agent_version : option string; h_health_status : HostHealthStatus;
  h_last_health_at : option DateTime; h_last_sync_at : option DateTime; h_agent_port : Z;
  h_notes : string; h_registered_at : DateTime; h_updated_at : DateTime
}.

Record HostPolicyAssignment := mkAssignment {
  hpa_host_id : Uuid; hpa_policy_set_id : Uuid; hpa_assigned_by : option Uuid; hpa_assigned_at : DateTime
}.

Record FirewallPolicySet := mkPolicySet {
  ps_id : Uuid; ps_name : string; ps_description : string; ps_created_by : option Uuid;
  ps_created_at : DateTime; ps_updated_at : DateTime;
  ps_default_input_policy : option FirewallDefaultPolicy;
  ps_default_output_policy : option FirewallDefaultPolicy
}.

Record FirewallPolicySetRuleGroup := mkSetGroup {
  psrg_policy_set_id : Uuid; psrg_rule_group_id : Uuid; psrg_set_group_order : Z
}.

Record FirewallRuleGroup := mkRuleGroup {
  rg_id : Uuid; rg_name : string; rg_description : string; rg_created_by : option Uuid;
  rg_created_at : DateTime; rg_updated_at : DateTime
}.

(** A row of [firewall_rules]: the rule and its place in its group. *)
Record RuleRow := mkRuleRow { rr_rule : FirewallRule; rr_group_id : Uuid; rr_group_order : Z }.

Record CheckInRow := mkCheckIn {
  ci_id : Uuid; ci_host_id : Uuid; ci_rules_hash : string; ci_agent_version : string; ci_backend_type : string;
  ci_os_info : Json; ci_uptime_seconds : Z; ci_config_version : Z; ci_pending_results : Json;
  ci_checked_in_at : DateTime; ci_apply_success : option bool; ci_apply_error : option string;
  ci_applied_rule_count : option Z; ci_applied_at : option DateTime
}.

Record ConfigOverrideRow := mkOverride {
  co_host_id : Uuid; co_check_in_interval_secs : Z; co_push_enabled : bool;
  co_safe_mode_enabled : bool; co_backend_override : option string; co_config_version : Z;
  co_last_known_good_hash : option string; co_updated_at : DateTime
}.

Record PendingActionRow := mkPending {
  pa_id : Uuid; pa_host_id : Uuid; pa_action_type : PendingActionType; pa_payload : Json;
  pa_reason : string; pa_priority : Z; pa_status : PendingActionStatus;
  pa_attempts : Z; pa_max_attempts : Z; pa_created_at : DateTime; pa_first_attempt_at : option DateTime;
  pa_delivered_at : option DateTime; pa_executed_at : option DateTime;
  pa_expires_at : DateTime
}.

Record DriftSnapshot := mkDrift {
  dr_id : Uuid; dr_host_id : Uuid; dr_snapshot_hash : string; dr_rule_count : Z; dr_source : string;
  dr_captured_at : DateTime
}.

Record ProtectedCidr := mkProtected {
  pc_host_id : Uuid; pc_cidr : string; pc_label : string; pc_created_by : option Uuid;
  pc_created_at : DateTime
}.

Record Group := mkGroup {
  g_id : Uuid; g_name : string; g_description : string; g_created_at : DateTime; g_updated_at : DateTime
}.

Record RulePolicyDecision := mkDecision {
  rpd_rule_id : option Uuid; rpd_policy_set_id : option Uuid; rpd_decision : string; rpd_reason : string;
  rpd_reviewer_id : option Uuid; rpd_reviewed_at : option DateTime; rpd_created_at : DateTime
}.

Record AuditRow := mkAudit {
  ar_id : Z; ar_action : string; ar_row_hash : string; ar_prev_hash : string;
  ar_actor_user_id : option Uuid; ar_actor_username : option string;
  ar_target_type : option string; ar_target_id : option string; ar_details : Json;
  ar_ip_address : option string; ar_request_id : option string; ar_created_at : DateTime
}.

Record AuditAnchor := mkAnchor {
  an_chain_head : string; an_anchored_at : DateTime; an_anchor_type : string; an_anchor_ref : string;
  an_verified_at : option DateTime; an_verified_ok : option bool
}.

Record EnrollmentToken := mkToken {
  et_token_hash : string; et_host_fqdn : string; et_host_ip : option string; et_created_by : Uuid;
  et_expires_at : DateTime; et_used_at : option DateTime; et_revoked_at : option DateTime
}.

Record EnrollmentRequest := mkEnrollmentRequest {
  er_id : Uuid; er_machine_id : string; er_fqdn : string; er_ip_address : string;
  er_hostname : option string; er_os_details : Json; er_polling_token : string;
  er_csr : option string; er_created_at : DateTime; er_expires_at : DateTime
}.

Inductive CertStatus := CertActive | CertRevoked | CertExpired.

Record CertRow := mkCert {
  ct_id : Uuid; ct_host_id : option Uuid; ct_serial_number : string; ct_common_name : string; ct_status : CertStatus;
  ct_issued_at : DateTime; ct_expires_at : DateTime; ct_revoked_at : option DateTime;
  ct_cert_pem : string; ct_ca_tier : string; ct_parent_cert_id : option Uuid;
  ct_issuer_serial : option string
}.

(** The columns of [refresh_tokens] the program names ([user_agent] and
    [ip_address] are always NULL). *)
Record RefreshTokenRow := mkRefresh {
  rt_user_id : Uuid; rt_token_hash : string; rt_issued_at : DateTime; rt_last_used_at : DateTime;
  rt_expires_at : DateTime; rt_revoked : bool; rt_revoked_at : option DateTime; rt_jti : option string
}.

Record OidcConfigRow := mkOidc {
  oc_id : Z; oc_enabled : bool; oc_provider_type : string; oc_display_name : string; oc_discovery_url : string;
  oc_client_id : string
}.

Inductive AuthProvider := Local | AzureSso | Keycloak | Oidc.

Record UserRow := mkUser {
  u_id : Uuid; u_username : string; u_display_name : string; u_email : string; u_role : UserRole;
  u_auth_provider : AuthProvider; u_password_hash : option string; u_mfa_enabled : bool;
  u_is_active : bool; u_force_password_reset : bool; u_last_login_at : option DateTime;
  u_created_at : DateTime; u_updated_at : DateTime; u_failed_login_attempts : Z;
  u_locked_until : option DateTime
}.

(** ** The database *)

(** [db_faults] says which of the coming queries fail (none, once it is empty);
    [db_next_uuid] supplies [gen_random_uuid()], [Uuid::new_v4()] and the other
    random draws of the manager's process (salts, keys): only that they differ
    matters. The rows of [audit_log] are kept in id order.
    [db_coerces_text] says whether the server and the driver let text stand for an
    [inet], [jsonb] or enum column, in a bound parameter or a decoded row: the
    manager relies on it wherever a statement lacks the casts [FIREWALL_RULE_COLS]
    and [$N::inet] (models.rs) exist for. *)
Record Db := mkDb {
  db_hosts : list HostRow;
  db_assignments : list HostPolicyAssignment;
  db_policy_sets : list FirewallPolicySet;
  db_set_groups : list FirewallPolicySetRuleGroup;
  db_rule_groups : list FirewallRuleGroup;
  db_rules : list RuleRow;
  db_check_ins : list CheckInRow;
  db_overrides : list ConfigOverrideRow;
  db_pending : list PendingActionRow;
  db_drift : list DriftSnapshot;
  db_protected : list ProtectedCidr;
  db_groups : list Group;
  db_host_groups : list (Uuid * Uuid);
  db_operator_groups : list (Uuid * Uuid);
  db_decisions : list RulePolicyDecision;
  db_audit : list AuditRow;
  db_anchors : list AuditAnchor;
  db_tokens : list EnrollmentToken;
  db_requests : list EnrollmentRequest;
  db_certs : list CertRow;
  db_refresh : list RefreshTokenRow;
  db_users : list UserRow;
  db_config : list (string * string);
  db_crl_counter : list (string * Z);
  db_oidc : list OidcConfigRow;
  db_coerces_text : bool;
  db_audit_seq : Z;
  db_next_uuid : N;
  db_now : DateTime;
  db_faults : list bool
}.

Definition set_db_hosts (x : list HostRow) (d : Db) : Db :=
  mkDb x (db_assignments d) (db_policy_sets d) (db_set_groups d) (db_rule_groups d) (db_rules
    d) (db_check_ins d) (db_overrides d) (db_pending d) (db_drift d) (db_protected d) (db_groups
    d) (db_host_groups d) (db_operator_groups d) (db_decisions d) (db_audit d) (db_anchors d)
    (db_tokens d) (db_requests d) (db_certs d) (db_refresh d) (db_users d) (db_config d)
    (db_crl_counter d) (db_oidc d) (db_coerces_text d) (db_audit_seq d) (db_next_uuid d) (db_now
    d) (db_faults d).
Definition set_db_assignments (x : list HostPolicyAssignment) (d : Db) : Db :=
  mkDb (db_hosts d) x (db_policy_sets d) (db_set_groups d) (db_rule_groups d) (db_rules d)
    (db_check_ins d) (db_overrides d) (db_pending d) (db_drift d) (db_protected d) (db_groups d)
    (db_host_groups d) (db_operator_groups d) (db_decisions d) (db_audit d) (db_anchors d)
    (db_tokens d) (db_requests d) (db_certs d) (db_refresh d) (db_users d) (db_config d)
    (db_crl_counter d) (db_oidc d) (db_coerces_text d) (db_audit_seq d) (db_next_uuid d) (db_now
    d) (db_faults d).
Definition set_db_policy_sets (x : list FirewallPolicySet) (d : Db) : Db :=
  mkDb (db_hosts d) (db_assignments d) x (db_set_groups d) (db_rule_groups d) (db_rules d)
    (db_check_ins d) (db_overrides d) (db_pending d) (db_drift d) (db_protected d) (db_groups d)
    (db_host_groups d) (db_operator_groups d) (db_decisions d) (db_audit d) (db_anchors d)
    (db_tokens d) (db_requests d) (db_certs d) (db_refresh d) (db_users d) (db_config d)
    (db_crl_counter d) (db_oidc d) (db_coerces_text d) (db_audit_seq d) (db_next_uuid d) (db_now
    d) (db_faults d).
Definition set_db_set_groups (x : list FirewallPolicySetRuleGroup) (d : Db) : Db :=
  mkDb (db_hosts d) (db_assignments d) (db_policy_sets d) x (db_rule_groups d) (db_rules d)
    (db_check_ins d) (db_overrides d) (db_pending d) (db_drift d) (db_protected d) (db_groups d)
    (db_host_groups d) (db_operator_groups d) (db_decisions d) (db_audit d) (db_anchors d)
    (db_tokens d) (db_requests d) (db_certs d) (db_refresh d) (db_users d) (db_config d)
    (db_crl_counter d) (db_oidc d) (db_coerces_text d) (db_audit_seq d) (db_next_uuid d) (db_now
    d) (db_faults d).
Definition set_db_rule_groups (x : list FirewallRuleGroup) (d : Db) : Db :=
  mkDb (db_hosts d) (db_assignments d) (db_policy_sets d) (db_set_groups d) x (db_rules d)
    (db_check_ins d) (db_overrides d) (db_pending d) (db_drift d) (db_protected d) (db_groups d)
    (db_host_groups d) (db_operator_groups d) (db_decisions d) (db_audit d) (db_anchors d)
    (db_tokens d) (db_requests d) (db_certs d) (db_refresh d) (db_users d) (db_config d)
    (db_crl_counter d) (db_oidc d) (db_coerces_text d) (db_audit_seq d) (db_next_uuid d) (db_now
    d) (db_faults d).
Definition set_db_rules (x : list RuleRow) (d : Db) : Db :=
  mkDb (db_hosts d) (db_assignments d) (db_policy_sets d) (db_set_groups d) (db_rule_groups d)
    x (db_check_ins d) (db_overrides d) (db_pending d) (db_drift d) (db_protected d) (db_groups
    d) (db_host_groups d) (db_operator_groups d) (db_decisions d) (db_audit d) (db_anchors d)
    (db_tokens d) (db_requests d) (db_certs d) (db_refresh d) (db_users d) (db_config d)
    (db_crl_counter d) (db_oidc d) (db_coerces_text d) (db_audit_seq d) (db_next_uuid d) (db_now
    d) (db_faults d).
Definition set_db_check_ins (x : list CheckInRow) (d : Db) : Db :=
  mkDb (db_hosts d) (db_assignments d) (db_policy_sets d) (db_set_groups d) (db_rule_groups d)
    (db_rules d) x (db_overrides d) (db_pending d) (db_drift d) (db_protected d) (db_groups d)
    (db_host_groups d) (db_operator_groups d) (db_decisions d) (db_audit d) (db_anchors d)
    (db_tokens d) (db_requests d) (db_certs d) (db_refresh d) (db_users d) (db_config d)
    (db_crl_counter d) (db_oidc d) (db_coerces_text d) (db_audit_seq d) (db_next_uuid d) (db_now
    d) (db_faults d).
Definition set_db_overrides (x : list ConfigOverrideRow) (d : Db) : Db :=
  mkDb (db_hosts d) (db_assignments d) (db_policy_sets d) (db_set_groups d) (db_rule_groups d)
    (db_rules d) (db_check_ins d) x (db_pending d) (db_drift d) (db_protected d) (db_groups d)
    (db_host_groups d) (db_operator_groups d) (db_decisions d) (db_audit d) (db_anchors d)
    (db_tokens d) (db_requests d) (db_certs d) (db_refresh d) (db_users d) (db_config d)
    (db_crl_counter d) (db_oidc d) (db_coerces_text d) (db_audit_seq d) (db_next_uuid d) (db_now
    d) (db_faults d).
Definition set_db_pending (x : list PendingActionRow) (d : Db) : Db :=
  mkDb (db_hosts d) (db_assignments d) (db_policy_sets d) (db_set_groups d) (db_rule_groups d)
    (db_rules d) (db_check_ins d) (db_overrides d) x (db_drift d) (db_protected d) (db_groups d)
    (db_host_groups d) (db_operator_groups d) (db_decisions d) (db_audit d) (db_anchors d)
    (db_tokens d) (db_requests d) (db_certs d) (db_refresh d) (db_users d) (db_config d)
    (db_crl_counter d) (db_oidc d) (db_coerces_text d) (db_audit_seq d) (db_next_uuid d) (db_now
    d) (db_faults d).
Definition set_db_drift (x : list DriftSnapshot) (d : Db) : Db :=
  mkDb (db_hosts d) (db_assignments d) (db_policy_sets d) (db_set_groups d) (db_rule_groups d)
    (db_rules d) (db_check_ins d) (db_overrides d) (db_pending d) x (db_protected d) (db_groups
    d) (db_host_groups d) (db_operator_groups d) (db_decisions d) (db_audit d) (db_anchors d)
    (db_tokens d) (db_requests d) (db_certs d) (db_refresh d) (db_users d) (db_config d)
    (db_crl_counter d) (db_oidc d) (db_coerces_text d) (db_audit_seq d) (db_next_uuid d) (db_now
    d) (db_faults d).
Definition set_db_protected (x : list ProtectedCidr) (d : Db) : Db :=
  mkDb (db_hosts d) (db_assignments d) (db_policy_sets d) (db_set_groups d) (db_rule_groups d)
    (db_rules d) (db_check_ins d) (db_overrides d) (db_pending d) (db_drift d) x (db_groups d)
    (db_host_groups d) (db_operator_groups d) (db_decisions d) (db_audit d) (db_anchors d)
    (db_tokens d) (db_requests d) (db_certs d) (db_refresh d) (db_users d) (db_config d)
    (db_crl_counter d) (db_oidc d) (db_coerces_text d) (db_audit_seq d) (db_next_uuid d) (db_now
    d) (db_faults d).
Definition set_db_groups (x : list Group) (d : Db) : Db :=
  mkDb (db_hosts d) (db_assignments d) (db_policy_sets d) (db_set_groups d) (db_rule_groups d)
    (db_rules d) (db_check_ins d) (db_overrides d) (db_pending d) (db_drift d) (db_protected d)
    x (db_host_groups d) (db_operator_groups d) (db_decisions d) (db_audit d) (db_anchors d)
    (db_tokens d) (db_requests d) (db_certs d) (db_refresh d) (db_users d) (db_config d)
    (db_crl_counter d) (db_oidc d) (db_coerces_text d) (db_audit_seq d) (db_next_uuid d) (db_now
    d) (db_faults d).
Definition set_db_host_groups (x : list (Uuid * Uuid)) (d : Db) : Db :=
  mkDb (db_hosts d) (db_assignments d) (db_policy_sets d) (db_set_groups d) (db_rule_groups d)
    (db_rules d) (db_check_ins d) (db_overrides d) (db_pending d) (db_drift d) (db_protected d)
    (db_groups d) x (db_operator_groups d) (db_decisions d) (db_audit d) (db_anchors d)
    (db_tokens d) (db_requests d) (db_certs d) (db_refresh d) (db_users d) (db_config d)
    (db_crl_counter d) (db_oidc d) (db_coerces_text d) (db_audit_seq d) (db_next_uuid d) (db_now
    d) (db_faults d).
Definition set_db_operator_groups (x : list (Uuid * Uuid)) (d : Db) : Db :=
  mkDb (db_hosts d) (db_assignments d) (db_policy_sets d) (db_set_groups d) (db_rule_groups d)
    (db_rules d) (db_check_ins d) (db_overrides d) (db_pending d) (db_drift d) (db_protected d)
    (db_groups d) (db_host_groups d) x (db_decisions d) (db_audit d) (db_anchors d) (db_tokens
    d) (db_requests d) (db_certs d) (db_refresh d) (db_users d) (db_config d) (db_crl_counter d)
    (db_oidc d) (db_coerces_text d) (db_audit_seq d) (db_next_uuid d) (db_now d) (db_faults d).
Definition set_db_decisions (x : list RulePolicyDecision) (d : Db) : Db :=
  mkDb (db_hosts d) (db_assignments d) (db_policy_sets d) (db_set_groups d) (db_rule_groups d)
    (db_rules d) (db_check_ins d) (db_overrides d) (db_pending d) (db_drift d) (db_protected d)
    (db_groups d) (db_host_groups d) (db_operator_groups d) x (db_audit d) (db_anchors d)
    (db_tokens d) (db_requests d) (db_certs d) (db_refresh d) (db_users d) (db_config d)
    (db_crl_counter d) (db_oidc d) (db_coerces_text d) (db_audit_seq d) (db_next_uuid d) (db_now
    d) (db_faults d).
Definition set_db_audit (x : list AuditRow) (d : Db) : Db :=
  mkDb (db_hosts d) (db_assignments d) (db_policy_sets d) (db_set_groups d) (db_rule_groups d)
    (db_rules d) (db_check_ins d) (db_overrides d) (db_pending d) (db_drift d) (db_protected d)
    (db_groups d) (db_host_groups d) (db_operator_groups d) (db_decisions d) x (db_anchors d)
    (db_tokens d) (db_requests d) (db_certs d) (db_refresh d) (db_users d) (db_config d)
    (db_crl_counter d) (db_oidc d) (db_coerces_text d) (db_audit_seq d) (db_next_uuid d) (db_now
    d) (db_faults d).
Definition set_db_anchors (x : list AuditAnchor) (d : Db) : Db :=
  mkDb (db_hosts d) (db_assignments d) (db_policy_sets d) (db_set_groups d) (db_rule_groups d)
    (db_rules d) (db_check_ins d) (db_overrides d) (db_pending d) (db_drift d) (db_protected d)
    (db_groups d) (db_host_groups d) (db_operator_groups d) (db_decisions d) (db_audit d) x
    (db_tokens d) (db_requests d) (db_certs d) (db_refresh d) (db_users d) (db_config d)
    (db_crl_counter d) (db_oidc d) (db_coerces_text d) (db_audit_seq d) (db_next_uuid d) (db_now
    d) (db_faults d).
Definition set_db_tokens (x : list EnrollmentToken) (d : Db) : Db :=
  mkDb (db_hosts d) (db_assignments d) (db_policy_sets d) (db_set_groups d) (db_rule_groups d)
    (db_rules d) (db_check_ins d) (db_overrides d) (db_pending d) (db_drift d) (db_protected d)
    (db_groups d) (db_host_groups d) (db_operator_groups d) (db_decisions d) (db_audit d)
    (db_anchors d) x (db_requests d) (db_certs d) (db_refresh d) (db_users d) (db_config d)
    (db_crl_counter d) (db_oidc d) (db_coerces_text d) (db_audit_seq d) (db_next_uuid d) (db_now
    d) (db_faults d).
Definition set_db_requests (x : list EnrollmentRequest) (d : Db) : Db :=
  mkDb (db_hosts d) (db_assignments d) (db_policy_sets d) (db_set_groups d) (db_rule_groups d)
    (db_rules d) (db_check_ins d) (db_overrides d) (db_pending d) (db_drift d) (db_protected d)
    (db_groups d) (db_host_groups d) (db_operator_groups d) (db_decisions d) (db_audit d)
    (db_anchors d) (db_tokens d) x (db_certs d) (db_refresh d) (db_users d) (db_config d)
    (db_crl_counter d) (db_oidc d) (db_coerces_text d) (db_audit_seq d) (db_next_uuid d) (db_now
    d) (db_faults d).
Definition set_db_certs (x : list CertRow) (d : Db) : Db :=
  mkDb (db_hosts d) (db_assignments d) (db_policy_sets d) (db_set_groups d) (db_rule_groups d)
    (db_rules d) (db_check_ins d) (db_overrides d) (db_pending d) (db_drift d) (db_protected d)
    (db_groups d) (db_host_groups d) (db_operator_groups d) (db_decisions d) (db_audit d)
    (db_anchors d) (db_tokens d) (db_requests d) x (db_refresh d) (db_users d) (db_config d)
    (db_crl_counter d) (db_oidc d) (db_coerces_text d) (db_audit_seq d) (db_next_uuid d) (db_now
    d) (db_faults d).
Definition set_db_refresh (x : list RefreshTokenRow) (d : Db) : Db :=
  mkDb (db_hosts d) (db_assignments d) (db_policy_sets d) (db_set_groups d) (db_rule_groups d)
    (db_rules d) (db_check_ins d) (db_overrides d) (db_pending d) (db_drift d) (db_protected d)
    (db_groups d) (db_host_groups d) (db_operator_groups d) (db_decisions d) (db_audit d)
    (db_anchors d) (db_tokens d) (db_requests d) (db_certs d) x (db_users d) (db_config d)
    (db_crl_counter d) (db_oidc d) (db_coerces_text d) (db_audit_seq d) (db_next_uuid d) (db_now
    d) (db_faults d).
Definition set_db_users (x : list UserRow) (d : Db) : Db :=
  mkDb (db_hosts d) (db_assignments d) (db_policy_sets d) (db_set_groups d) (db_rule_groups d)
    (db_rules d) (db_check_ins d) (db_overrides d) (db_pending d) (db_drift d) (db_protected d)
    (db_groups d) (db_host_groups d) (db_operator_groups d) (db_decisions d) (db_audit d)
    (db_anchors d) (db_tokens d) (db_requests d) (db_certs d) (db_refresh d) x (db_config d)
    (db_crl_counter d) (db_oidc d) (db_coerces_text d) (db_audit_seq d) (db_next_uuid d) (db_now
    d) (db_faults d).
Definition set_db_config (x : list (string * string)) (d : Db) : Db :=
  mkDb (db_hosts d) (db_assignments d) (db_policy_sets d) (db_set_groups d) (db_rule_groups d)
    (db_rules d) (db_check_ins d) (db_overrides d) (db_pending d) (db_drift d) (db_protected d)
    (db_groups d) (db_host_groups d) (db_operator_groups d) (db_decisions d) (db_audit d)
    (db_anchors d) (db_tokens d) (db_requests d) (db_certs d) (db_refresh d) (db_users d) x
    (db_crl_counter d) (db_oidc d) (db_coerces_text d) (db_audit_seq d) (db_next_uuid d) (db_now
    d) (db_faults d).
Definition set_db_crl_counter (x : list (string * Z)) (d : Db) : Db :=
  mkDb (db_hosts d) (db_assignments d) (db_policy_sets d) (db_set_groups d) (db_rule_groups d)
    (db_rules d) (db_check_ins d) (db_overrides d) (db_pending d) (db_drift d) (db_protected d)
    (db_groups d) (db_host_groups d) (db_operator_groups d) (db_decisions d) (db_audit d)
    (db_anchors d) (db_tokens d) (db_requests d) (db_certs d) (db_refresh d) (db_users d)
    (db_config d) x (db_oidc d) (db_coerces_text d) (db_audit_seq d) (db_next_uuid d) (db_now d)
    (db_faults d).
Definition set_db_oidc (x : list OidcConfigRow) (d : Db) : Db :=
  mkDb (db_hosts d) (db_assignments d) (db_policy_sets d) (db_set_groups d) (db_rule_groups d)
    (db_rules d) (db_check_ins d) (db_overrides d) (db_pending d) (db_drift d) (db_protected d)
    (db_groups d) (db_host_groups d) (db_operator_groups d) (db_decisions d) (db_audit d)
    (db_anchors d) (db_tokens d) (db_requests d) (db_certs d) (db_refresh d) (db_users d)
    (db_config d) (db_crl_counter d) x (db_coerces_text d) (db_audit_seq d) (db_next_uuid d)
    (db_now d) (db_faults d).
Definition set_db_coerces_text (x : bool) (d : Db) : Db :=
  mkDb (db_hosts d) (db_assignments d) (db_policy_sets d) (db_set_groups d) (db_rule_groups d)
    (db_rules d) (db_check_ins d) (db_overrides d) (db_pending d) (db_drift d) (db_protected d)
    (db_groups d) (db_host_groups d) (db_operator_groups d) (db_decisions d) (db_audit d)
    (db_anchors d) (db_tokens d) (db_requests d) (db_certs d) (db_refresh d) (db_users d)
    (db_config d) (db_crl_counter d) (db_oidc d) x (db_audit_seq d) (db_next_uuid d) (db_now d)
    (db_faults d).
Definition set_db_audit_seq (x : Z) (d : Db) : Db :=
  mkDb (db_hosts d) (db_assignments d) (db_policy_sets d) (db_set_groups d) (db_rule_groups d)
    (db_rules d) (db_check_ins d) (db_overrides d) (db_pending d) (db_drift d) (db_protected d)
    (db_groups d) (db_host_groups d) (db_operator_groups d) (db_decisions d) (db_audit d)
    (db_anchors d) (db_tokens d) (db_requests d) (db_certs d) (db_refresh d) (db_users d)
    (db_config d) (db_crl_counter d) (db_oidc d) (db_coerces_text d) x (db_next_uuid d) (db_now
    d) (db_faults d).
Definition set_db_next_uuid (x : N) (d : Db) : Db :=
  mkDb (db_hosts d) (db_assignments d) (db_policy_sets d) (db_set_groups d) (db_rule_groups d)
    (db_rules d) (db_check_ins d) (db_overrides d) (db_pending d) (db_drift d) (db_protected d)
    (db_groups d) (db_host_groups d) (db_operator_groups d) (db_decisions d) (db_audit d)
    (db_anchors d) (db_tokens d) (db_requests d) (db_certs d) (db_refresh d) (db_users d)
    (db_config d) (db_crl_counter d) (db_oidc d) (db_coerces_text d) (db_audit_seq d) x (db_now
    d) (db_faults d).
Definition set_db_now (x : DateTime) (d : Db) : Db :=
  mkDb (db_hosts d) (db_assignments d) (db_policy_sets d) (db_set_groups d) (db_rule_groups d)
    (db_rules d) (db_check_ins d) (db_overrides d) (db_pending d) (db_drift d) (db_protected d)
    (db_groups d) (db_host_groups d) (db_operator_groups d) (db_decisions d) (db_audit d)
    (db_anchors d) (db_tokens d) (db_requests d) (db_certs d) (db_refresh d) (db_users d)
    (db_config d) (db_crl_counter d) (db_oidc d) (db_coerces_text d) (db_audit_seq d)
    (db_next_uuid d) x (db_faults d).
Definition set_db_faults (x : list bool) (d : Db) : Db :=
  mkDb (db_hosts d) (db_assignments d) (db_policy_sets d) (db_set_groups d) (db_rule_groups d)
    (db_rules d) (db_check_ins d) (db_overrides d) (db_pending d) (db_drift d) (db_protected d)
    (db_groups d) (db_host_groups d) (db_operator_groups d) (db_decisions d) (db_audit d)
    (db_anchors d) (db_tokens d) (db_requests d) (db_certs d) (db_refresh d) (db_users d)
    (db_config d) (db_crl_counter d) (db_oidc d) (db_coerces_text d) (db_audit_seq d)
    (db_next_uuid d) (db_now d) x.

(** ** Queries *)

(** The server's choices: the order rows are found in, and an order that respects
    the ORDER BY keys. *)
Class Sql := {
  sql_scan : forall {A}, list A -> list A;
  sql_sort : forall {A} (le : A -> A -> Prop) `{!forall x y, Decision (le x y)}, list A -> list A
}.
Class SqlLaws `{!Sql} := {
  sql_scan_perm : forall {A} (l : list A), sql_scan l ≡ₚ l;
  sql_sort_perm : forall {A} (le : A -> A -> Prop) `{!forall x y, Decision (le x y)} (l : list A),
    sql_sort le l ≡ₚ l;
  sql_sort_sorted : forall {A} (le : A -> A -> Prop) `{!forall x y, Decision (le x y)} (l : list A),
    Transitive le -> Total le -> StronglySorted le (sql_sort le l)
}.

Notation DB := (M Db AppError).

(** One statement: it fails as a whole, or reads and updates the tables. *)
Definition query {A} (f : Db -> result A AppError * Db) : DB A := fun d =>
  match db_faults d with
  | true :: fs => (Err Database, set_db_faults fs d)
  | false :: fs => f (set_db_faults fs d)
  | [] => f d
  end.

Definition fetch {A} (f : Db -> A) : DB A := query (fun d => (Ok (f d), d)).
Definition execute (f : Db -> Db) : DB unit := query (fun d => (Ok tt, f d)).

(** A statement that violates a constraint of the schema is a database error. *)
Definition execute_if (ok : Db -> bool) (f : Db -> Db) : DB unit :=
  query (fun d => if ok d then (Ok tt, f d) else (Err Database, d)).

(** [RETURNING]: a statement that yields the row it wrote. *)
Definition execute_returning {A} (f : Db -> option (A * Db)) : DB A :=
  query (fun d => match f d with Some (a, d') => (Ok a, d') | None => (Err Database, d) end).

(** [BEGIN .. COMMIT]: what a failed transaction did is undone (except that its
    statements were issued). *)
Definition transaction {A} (m : DB A) : DB A := fun d =>
  match m d with
  | (Ok a, d') => (Ok a, d')
  | (Err e, d') => (Err e, set_db_faults (db_faults d') d)
  end.

Definition fresh_uuid : DB Uuid := fun d =>
  (Ok (uuid_of (db_next_uuid d)), set_db_next_uuid (db_next_uuid d + 1) d).

(** [UPDATE t SET .. WHERE p]. *)
Definition update_where {A} (p : A -> bool) (f : A -> A) (l : list A) : list A :=
  map (fun x => if p x then f x else x) l.
Definition delete_where {A} (p : A -> bool) (l : list A) : list A := List.filter (fun x => negb (p x)) l.

(** A nullable reference to [users]. *)
Definition user_exists (u : Uuid) (d : Db) : bool := existsb (fun r => bool_decide (u_id r = u)) (db_users d).
Definition user_ref_ok (u : option Uuid) (d : Db) : bool := from_option (fun u => user_exists u d) true u.

(** ** Facts *)

(** Without pending faults a statement runs. *)
Definition healthy (d : Db) : Prop := db_faults d = [].

Lemma fetch_healthy {A} (f : Db -> A) d : healthy d -> fetch f d = (Ok (f d), d).
Proof. intros Hd. unfold fetch, query. by rewrite Hd. Qed.

Lemma execute_healthy f d : healthy d -> execute f d = (Ok tt, f d).
Proof. intros Hd. unfold execute, query. by rewrite Hd. Qed.

(** A statement keeps [P] if dropping a fault and its own effect keep it. *)
Definition faults_irrelevant (P : Db -> Prop) : Prop := forall fs d, P d -> P (set_db_faults fs d).

Lemma keeps_fetch {A} P (f : Db -> A) : faults_irrelevant P -> keeps P (fetch f).
Proof.
  intros HP d Hd. unfold final, fetch, query. destruct (db_faults d) as [|[] fs]; simpl; auto.
Qed.

Lemma keeps_execute P f : faults_irrelevant P -> (forall d, P d -> P (f d)) -> keeps P (execute f).
Proof.
  intros HP Hf d Hd. unfold final, execute, query. destruct (db_faults d) as [|[] fs]; simpl; auto.
Qed.

Lemma keeps_execute_if_ok P ok f : faults_irrelevant P -> (forall d, P d -> ok d = true -> P (f d)) ->
  keeps P (execute_if ok f).
Proof.
  intros HP Hf d Hd. unfold final, execute_if, query.
  destruct (db_faults d) as [|[] fs]; simpl; auto; match goal with |- context [ok ?x] => destruct (ok x) eqn:? end; simpl; auto.
Qed.

Lemma keeps_execute_if P ok f : faults_irrelevant P -> (forall d, P d -> P (f d)) ->
  keeps P (execute_if ok f).
Proof. intros HP Hf. apply keeps_execute_if_ok; auto. Qed.

Lemma keeps_execute_returning {A} P (f : Db -> option (A * Db)) : faults_irrelevant P ->
  (forall d a d', P d -> f d = Some (a, d') -> P d') -> keeps P (execute_returning f).
Proof.
  intros HP Hf d Hd. unfold final, execute_returning, query.
  destruct (db_faults d) as [|[] fs]; simpl; auto;
    match goal with |- context [f ?x] => destruct (f x) as [[a d']|] eqn:Hx end; simpl; eauto.
Qed.

Lemma keeps_transaction {A} P (m : DB A) : faults_irrelevant P -> keeps P m -> keeps P (transaction m).
Proof.
  intros HP Hm d Hd. specialize (Hm d Hd). unfold final, transaction in *.
  destruct (m d) as [[a|e] d']; simpl in *; auto.
Qed.

Lemma update_where_in {A} p f (l : list A) x :
  x ∈ update_where p f l -> exists y, y ∈ l /\ x = if p y then f y else y.
Proof.
  unfold update_where. intros Hx. apply list_elem_of_In, in_map_iff in Hx as (y & <- & Hy).
  exists y. split; [by apply list_elem_of_In|done].
Qed.

Lemma update_where_map {A B} (p : A -> bool) f (g : A -> B) (l : list A) :
  (forall x, g (f x) = g x) -> map g (update_where p f l) = map g l.
Proof.
  intros Hg. unfold update_where. rewrite map_map. apply map_ext. intros x. by destruct (p x).
Qed.

Lemma update_where_keep {A} (p : A -> bool) f (l : list A) x :
  x ∈ l -> p x = false -> x ∈ update_where p f l.
Proof.
  intros Hx Hp. unfold update_where. apply list_elem_of_In, in_map_iff. exists x.
  rewrite Hp. split; [done|by apply list_elem_of_In].
Qed.

Lemma filter_none {A} (p : A -> bool) (l : list A) :
  (forall x, x ∈ l -> p x = false) -> List.filter p l = [].
Proof.
  induction l as [|x l IH]; intros H; simpl; [done|]. rewrite H by left. apply IH. intros y Hy. apply H. by right.
Qed.

Lemma delete_where_in {A} p (l : list A) x : x ∈ delete_where p l <-> x ∈ l /\ p x = false.
Proof.
  unfold delete_where. rewrite !list_elem_of_In, List.filter_In. by rewrite negb_true_iff.
Qed.

Lemma map_delete_where {A B} (f : A -> B) (p : A -> bool) l : map f (delete_where p l) `sublist_of` map f l.
Proof.
  unfold delete_where. induction l as [|x l IH]; simpl; [constructor|].
  destruct (negb (p x)); simpl; by constructor.
Qed.


Lemma head_scan_in `{SqlLaws} {A} (p : A -> bool) (l : list A) x :
  head (sql_scan (List.filter p l)) = Some x -> x ∈ l /\ p x = true.
Proof.
  intros Hh. assert (x ∈ sql_scan (List.filter p l)) as Hin by (destruct (sql_scan _); simplify_eq/=; left).
  rewrite sql_scan_perm in Hin. apply list_elem_of_In, List.filter_In in Hin as [? ?].
  by rewrite list_elem_of_In.
Qed.

Lemma head_scan_some `{SqlLaws} {A} (p : A -> bool) (l : list A) x :
  x ∈ l -> p x = true -> exists y, head (sql_scan (List.filter p l)) = Some y.
Proof.
  intros Hx Hp. assert (x ∈ sql_scan (List.filter p l)) as Hin.
  { rewrite sql_scan_perm. apply list_elem_of_In, List.filter_In. by rewrite <- list_elem_of_In. }
  destruct (sql_scan (List.filter p l)) as [|y ys]; [by apply not_elem_of_nil in Hin|]. by eexists.
Qed.

(** A row that is the only match is the one found. *)
Lemma head_scan_sole `{SqlLaws} {A} (p : A -> bool) (l : list A) x :
  x ∈ l -> p x = true -> (forall y, y ∈ l -> p y = true -> y = x) ->
  head (sql_scan (List.filter p l)) = Some x.
Proof.
  intros Hx Hp Hu. destruct (head_scan_some p l x Hx Hp) as [y Hy]. rewrite Hy.
  apply head_scan_in in Hy as [Hyl Hyp]. by rewrite (Hu y Hyl Hyp).
Qed.

(** ** A concrete server, for the witnesses: rows in table order, stable sorts. *)

Fixpoint insert_sorted {A} (le : A -> A -> Prop) `{!forall x y, Decision (le x y)} (x : A) (l : list A) : list A :=
  match l with
  | [] => [x]
  | y :: l' => if decide (le x y) then x :: l else y :: insert_sorted le x l'
  end.
Definition insertion_sort {A} (le : A -> A -> Prop) `{!forall x y, Decision (le x y)} (l : list A) : list A :=
  foldr (insert_sorted le) [] l.

Definition toy_sql : Sql := {| sql_scan A l := l; sql_sort A le _ l := insertion_sort le l |}.

Section toy.
Context {A : Type} (le : A -> A -> Prop) `{!forall x y, Decision (le x y)}.

Lemma insert_sorted_perm x l : insert_sorted le x l ≡ₚ x :: l.
Proof.
  induction l as [|y l IH]; simpl; [done|]. case_decide; [done|]. rewrite IH. constructor.
Qed.

Lemma insertion_sort_perm l : insertion_sort le l ≡ₚ l.
Proof. induction l as [|x l IH]; simpl; [done|]. by rewrite insert_sorted_perm, IH. Qed.

Lemma insertion_sort_sorted l : Transitive le -> Total le -> StronglySorted le (insertion_sort le l).
Proof.
  intros Htr Htot. induction l as [|x l IH]; simpl; [constructor|].
  induction IH as [|y l' Hl' IH Hy]; simpl; [repeat constructor|].
  case_decide as Hxy.
  - constructor; [by constructor|]. constructor; [done|].
    eapply Forall_impl; [exact Hy|]. intros z Hz. by transitivity y.
  - constructor; [done|]. rewrite insert_sorted_perm. constructor; [|done].
    by destruct (Htot x y).
Qed.
End toy.

Lemma toy_sql_laws : @SqlLaws toy_sql.
Proof.
  split; simpl; [done|intros; apply insertion_sort_perm|intros; by apply insertion_sort_sorted].
Qed.

Definition empty_db : Db := mkDb [] [] [] [] [] [] [] [] [] [] [] [] [] [] [] [] [] [] [] [] [] [] [] [] [] true 0 100 0 [].
