(* ===== verification/AuditLog.v ===== *)
(** * AuditLog: the hash-chained audit log

    [crates/fw-core/src/audit.rs] ([log_event], [verify_integrity]) and the
    worker's [crates/fw-worker/src/audit_anchor.rs]. Each row's hash covers the
    previous row's hash and the row's own fields. *)

From S2P Require Import Prelude Text Models Db.

(** [DateTime::to_rfc3339] of the [chrono] crate; different instants have
    different texts. *)
Class Rfc3339 := { to_rfc3339 : DateTime -> string }.
Class Rfc3339Laws `{!Rfc3339} := { rfc3339_inj : forall s t, to_rfc3339 s = to_rfc3339 t -> s = t }.

(** PostgreSQL's [timestamptz] keeps microseconds. *)
Definition to_micros (t : DateTime) : DateTime := (t / 1000 * 1000)%Z.

(** The labels of the [audit_action] enum. *)
Definition audit_actions : list string := [
  "user_login"; "user_logout"; "user_login_failed"; "user_created"; "user_deleted"; "user_updated";
  "host_registered"; "host_removed"; "group_created"; "group_deleted"; "group_membership_changed";
  "firewall_job_created"; "firewall_job_cancelled"; "firewall_job_rollback";
  "maintenance_window_created"; "maintenance_window_updated"; "maintenance_window_deleted";
  "certificate_issued"; "certificate_renewed"; "certificate_revoked"; "certificate_downloaded";
  "config_changed"; "discovery_scan_started"; "audit_integrity_verified"; "email_notification_sent";
  "firewall_job_completed"; "firewall_job_failed"; "maintenance_window_reminder";
  "rule_created"; "rule_updated"; "rule_deleted"; "policy_set_created"; "policy_set_changed";
  "policy_assigned"; "policy_unassigned"; "rule_deployed"; "rule_rollback"; "drift_detected";
  "backend_changed"; "break_glass_used"; "enrollment_token_issued"; "enrollment_token_used";
  "enrollment_token_revoked"; "host_enrolled"; "ca_intermediate_issued"; "ca_intermediate_revoked";
  "audit_anchor_mismatch"; "policy_force_checkin"].

(** What a caller passes to [log_event]. *)
Record AuditEvent := mkEvent {
  ev_action : string; ev_actor_user_id : option Uuid; ev_actor_username : option string;
  ev_target_type : option string; ev_target_id : option string; ev_details : Json;
  ev_ip_address : option string; ev_request_id : option string
}.

Record IntegrityResult := mkIntegrity {
  verified : bool; mismatched_rows : list Z; total_rows : Z
}.

Section audit.
Context {SHA : Sha256} {JS : SerdeJson} {UT : UuidText} {RFC : Rfc3339}.

(** The bytes fed to the hasher, in order; absent fields contribute nothing. *)
Definition event_bytes (prev : string) (e : AuditEvent) (at_ : DateTime) : string :=
  prev +:+ ev_action e +:+ default "" (uuid_to_string <$> ev_actor_user_id e) +:+
  default "" (ev_actor_username e) +:+ default "" (ev_target_type e) +:+ default "" (ev_target_id e) +:+
  json_to_string (ev_details e) +:+ default "" (ev_ip_address e) +:+ default "" (ev_request_id e) +:+
  to_rfc3339 at_.

(** [SELECT row_hash .. ORDER BY id DESC LIMIT 1], an error counting as no row. *)
Definition last_row_hash (d : Db) : option string := ar_row_hash <$> last (db_audit d).

(** What the server checks of the row: the types of its text parameters, the
    action's label and the reference to the acting user. *)
Definition loggable (e : AuditEvent) (d : Db) : bool :=
  db_coerces_text d && bool_decide (ev_action e ∈ audit_actions) && user_ref_ok (ev_actor_user_id e) d.

(** [INSERT INTO audit_log]: the row takes the next id of its sequence. *)
Definition audit_insert (e : AuditEvent) (prev row_hash : string) (now : DateTime) : DB unit :=
  query (fun d =>
    let d' := set_db_audit_seq (db_audit_seq d + 1) d in
    if loggable e d then
      (Ok tt, set_db_audit (db_audit d ++
         [mkAudit (db_audit_seq d + 1) (ev_action e) row_hash prev (ev_actor_user_id e)
            (ev_actor_username e) (ev_target_type e) (ev_target_id e) (ev_details e)
            (ev_ip_address e) (ev_request_id e) (to_micros now)]) d')
    else (Err Database, d)).

Definition log_event {E} (e : AuditEvent) : M Db E unit :=
  now ← gets db_now;
  prev_r ← attempt (fetch last_row_hash);
  let prev := default "" (unwrap_or None prev_r) in
  let row_hash := sha256_hex (event_bytes prev e now) in
  ignore (audit_insert e prev row_hash now).

(** The fields of a stored row, as the event that produced it. *)
Definition row_event (r : AuditRow) : AuditEvent :=
  mkEvent (ar_action r) (ar_actor_user_id r) (ar_actor_username r) (ar_target_type r)
    (ar_target_id r) (ar_details r) (ar_ip_address r) (ar_request_id r).

Definition expected_hash (prev : string) (r : AuditRow) : string :=
  sha256_hex (event_bytes prev (row_event r) (ar_created_at r)).

(** The verification loop: the ids whose hash does not follow from their fields
    and the previous row's stored hash. *)
Fixpoint verify_rows (prev : string) (rows : list AuditRow) : list Z :=
  match rows with
  | [] => []
  | r :: rest =>
      (if bool_decide (expected_hash prev r = ar_row_hash r) then [] else [ar_id r]) ++
      verify_rows (ar_row_hash r) rest
  end.

Definition verify_integrity : DB IntegrityResult :=
  rows ← query (fun d =>
    if db_coerces_text d || forallb (fun r => bool_decide (ar_ip_address r = None)) (db_audit d)
    then (Ok (db_audit d), d) else (Err Database, d));
  let mismatched := verify_rows "" rows in
  mret (mkIntegrity (bool_decide (mismatched = [])) mismatched (Z.of_nat (length rows))).

(** The worker's anchor. *)
Definition anchor_chain : DB unit :=
  head ← fetch last_row_hash;
  match head with
  | None => mret tt
  | Some h =>
      now ← gets db_now;
      _ ← execute (fun d => set_db_anchors (db_anchors d ++
            [mkAnchor h (db_now d) "remote_log_host" ("local-anchor-" +:+ pretty (now / 1000000000)%Z) None None]) d);
      _ ← attempt (F:=AppError) (fetch (fun d =>
            length (filter (fun a => an_verified_at a = None) (db_anchors d))));
      mret tt
  end.

(** ** The chain *)

(** Every row's hash follows from its fields and the row before it. *)
Fixpoint chain_ok (prev : string) (rows : list AuditRow) : Prop :=
  match rows with
  | [] => True
  | r :: rest => expected_hash prev r = ar_row_hash r /\ chain_ok (ar_row_hash r) rest
  end.

Lemma verify_rows_ok prev rows : verify_rows prev rows = [] <-> chain_ok prev rows.
Proof.
  revert prev. induction rows as [|r rows IH]; intros prev; simpl; [done|].
  rewrite <- IH. case_bool_decide as He; simpl; [tauto|]. split; [done|]. by intros [].
Qed.

Lemma chain_ok_app prev l1 l2 :
  chain_ok prev (l1 ++ l2) <->
  chain_ok prev l1 /\ chain_ok (default prev (ar_row_hash <$> last l1)) l2.
Proof.
  revert prev. induction l1 as [|r l1 IH]; intros prev; simpl; [tauto|].
  rewrite IH. clear IH. destruct l1 as [|x l1]; [simpl; tauto|].
  change (last (r :: x :: l1)) with (last (x :: l1)).
  destruct (last (x :: l1)) as [y|] eqn:Hl; [|by apply last_None in Hl]. simpl. tauto.
Qed.

Lemma verify_rows_app prev l1 l2 :
  verify_rows prev (l1 ++ l2) =
  verify_rows prev l1 ++ verify_rows (default prev (ar_row_hash <$> last l1)) l2.
Proof.
  revert prev. induction l1 as [|r l1 IH]; intros prev; [done|].
  cbn [app verify_rows]. rewrite IH, <- (assoc_L app). do 2 f_equal.
  destruct l1 as [|x l1]; [done|]. change (last (r :: x :: l1)) with (last (x :: l1)).
  by destruct (last (x :: l1)) as [y|] eqn:Hl; [|apply last_None in Hl].
Qed.

(** The texts of a row that are hashed, in their order, and the bytes that are hashed
    after the previous row's hash. *)
Definition row_texts (r : AuditRow) : list string :=
  [ar_action r; default "" (uuid_to_string <$> ar_actor_user_id r); default "" (ar_actor_username r); default "" (ar_target_type r);
   default "" (ar_target_id r); json_to_string (ar_details r); default "" (ar_ip_address r); default "" (ar_request_id r);
   to_rfc3339 (ar_created_at r)].
Definition row_bytes (r : AuditRow) : string := event_bytes "" (row_event r) (ar_created_at r).

Lemma row_bytes_texts r : row_bytes r = str_concat (row_texts r).
Proof. unfold row_bytes, event_bytes, row_texts. cbn [str_concat]. by rewrite str_app_nil_r. Qed.

(** One text of the row is another; the other eight are as they were. *)
Definition one_text_differs (r r' : AuditRow) : Prop :=
  exists i x y, row_texts r !! i = Some x /\ x <> y /\ row_texts r' = <[i := y]> (row_texts r).

Lemma str_concat_insert l i x y : l !! i = Some x -> str_concat (<[i := y]> l) = str_concat l -> x = y.
Proof.
  revert i. induction l as [|z l IH]; intros [|i] Hi; [done..| |]; cbn in *.
  - injection Hi as ->. intros H. symmetry. by apply str_app_inj_l in H.
  - intros H. apply String.app_inj in H. by eapply IH.
Qed.

Lemma one_text_bytes r r' : one_text_differs r r' -> row_bytes r <> row_bytes r'.
Proof. intros (i & x & y & Hi & Hxy & Hr) H. rewrite !row_bytes_texts, Hr in H. by apply Hxy, (str_concat_insert (row_texts r) i). Qed.

Lemma event_bytes_prev prev e t : event_bytes prev e t = prev +:+ event_bytes "" e t.
Proof. done. Qed.

Lemma hash_neq_collision s t : sha256_hex s = sha256_hex t -> s <> t -> sha256_collision.
Proof. intros H Hne. by exists s, t. Qed.

(** The expected hash of a row tells its bytes apart from another's. *)
Lemma expected_hash_bytes prev r : expected_hash prev r = sha256_hex (prev +:+ row_bytes r).
Proof. done. Qed.

(** C29. What the verification of the audit log notices of an edited row. Take a log
    that verifies and replace one row by another with the same id and the same stored
    hash. When one of the nine hashed texts of the row was changed (the action, the
    actor's id or name, the target's type or id, the details, the address, the request
    id or the time), or when several were so that their concatenation changes, the
    altered log fails verification at that row, or a SHA-256 collision has been
    found. When the concatenation stays the same, the edit is not noticed at all: the
    texts are hashed without separators. *)
Theorem audit_detects_edit (l1 l2 : list AuditRow) (r r' : AuditRow) :
  ar_id r' = ar_id r -> ar_row_hash r' = ar_row_hash r -> verify_rows "" (l1 ++ r :: l2) = [] ->
  (one_text_differs r r' -> ar_id r ∈ verify_rows "" (l1 ++ r' :: l2) \/ sha256_collision) /\
  (row_bytes r <> row_bytes r' -> ar_id r ∈ verify_rows "" (l1 ++ r' :: l2) \/ sha256_collision) /\
  (row_bytes r = row_bytes r' -> verify_rows "" (l1 ++ r' :: l2) = []).
Proof.
  intros Hid Hh Hv. apply verify_rows_ok, chain_ok_app in Hv as [H1 [Hr H2]].
  revert Hr. set (prev := default "" (ar_row_hash <$> last l1)). rewrite expected_hash_bytes. intros Hr.
  assert (row_bytes r <> row_bytes r' -> ar_id r ∈ verify_rows "" (l1 ++ r' :: l2) \/ sha256_collision) as Hb.
  { intros Hne. destruct (decide (expected_hash prev r' = ar_row_hash r')) as [He|He].
    - right. rewrite expected_hash_bytes, Hh, <- Hr in He. apply (hash_neq_collision _ _ (eq_sym He)). intros Heq. by apply String.app_inj in Heq.
    - left. rewrite verify_rows_app. apply elem_of_app. right. cbn [verify_rows].
      fold prev. rewrite bool_decide_eq_false_2, Hid by done. left. }
  split; [intros Ho; by apply Hb, one_text_bytes|]. split; [exact Hb|]. intros Heq. apply verify_rows_ok, chain_ok_app. split; [done|].
  split; [|by rewrite Hh]. fold prev. by rewrite expected_hash_bytes, <- Heq, Hr, Hh.
Qed.

(** Text moved from one field to the next leaves the bytes as they were. *)
Theorem audit_fields_run_together e t name kind : ev_actor_username e = Some (name +:+ kind) -> ev_target_type e = None ->
  event_bytes "" e t = event_bytes "" (mkEvent (ev_action e) (ev_actor_user_id e) (Some name) (Some kind) (ev_target_id e) (ev_details e)
    (ev_ip_address e) (ev_request_id e)) t.
Proof.
  intros Hn Ht. unfold event_bytes. rewrite Hn, Ht. cbn [ev_action ev_actor_user_id ev_actor_username ev_target_type ev_target_id ev_details
    ev_ip_address ev_request_id default option_rect from_option id]. rewrite <- (str_app_assoc name kind). reflexivity.
Qed.

(** Deleting the newest rows is invisible: every prefix of a log that verifies
    verifies, with fewer rows. Only an anchor kept elsewhere reveals it. *)
Theorem audit_truncation_unseen (l1 l2 : list AuditRow) :
  verify_rows "" (l1 ++ l2) = [] -> verify_rows "" l1 = [].
Proof. rewrite !verify_rows_ok, chain_ok_app. tauto. Qed.

(** ** Logging *)

Lemma log_event_healthy {E} (e : AuditEvent) (d : Db) :
  healthy d -> loggable e d = true ->
  exists r, log_event (E:=E) e d = (Ok tt, set_db_audit (db_audit d ++ [r]) (set_db_audit_seq (db_audit_seq d + 1) d)) /\
    row_event r = e /\ ar_created_at r = to_micros (db_now d) /\
    ar_row_hash r = sha256_hex (event_bytes (default "" (last_row_hash d)) e (db_now d)).
Proof.
  intros Hd Ha. unfold log_event.
  erewrite bind_ok by (unfold gets; reflexivity).
  erewrite bind_ok by (unfold attempt; rewrite fetch_healthy by done; reflexivity).
  unfold ignore, audit_insert, query. rewrite Hd, Ha.
  eexists. split; [reflexivity|]. simpl. by destruct e.
Qed.

(** An event the server refuses leaves no trace. *)
Lemma log_event_refused {E} (e : AuditEvent) (d : Db) :
  healthy d -> loggable e d = false -> log_event (E:=E) e d = (Ok tt, d).
Proof.
  intros Hd Ha. unfold log_event.
  erewrite bind_ok by (unfold gets; reflexivity).
  erewrite bind_ok by (unfold attempt; rewrite fetch_healthy by done; reflexivity).
  unfold ignore, audit_insert, query. by rewrite Hd, Ha.
Qed.

(** A freshly logged event keeps the chain valid exactly when the clock showed
    a whole number of microseconds (up to a SHA-256 collision): the hash is taken
    over the nanosecond time, but the row keeps microseconds, so verification
    recomputes a different text for any other instant. *)
Theorem log_event_verifies_iff_micros {RL : Rfc3339Laws} (e : AuditEvent) (d : Db) :
  healthy d -> loggable e d = true -> verify_rows "" (db_audit d) = [] ->
  (to_micros (db_now d) = db_now d ->
   verify_rows "" (db_audit (final (log_event (E:=AppError) e) d)) = []) /\
  (to_micros (db_now d) <> db_now d ->
   verify_rows "" (db_audit (final (log_event (E:=AppError) e) d)) <> [] \/ sha256_collision).
Proof.
  intros Hd Ha Hv. destruct (log_event_healthy (E:=AppError) e d Hd Ha) as (r & Hrun & He & Hat & Hh).
  unfold final. rewrite Hrun. cbn [snd db_audit set_db_audit].
  rewrite verify_rows_ok in Hv |- *.
  rewrite chain_ok_app. cbn [chain_ok]. unfold expected_hash, last_row_hash in *. rewrite He, Hat, Hh.
  split; intros Hm.
  - by rewrite Hm.
  - destruct (decide (sha256_hex (event_bytes (default "" (ar_row_hash <$> last (db_audit d))) e (to_micros (db_now d)))
      = sha256_hex (event_bytes (default "" (ar_row_hash <$> last (db_audit d))) e (db_now d)))) as [Heq|Hneq].
    + right. apply (hash_neq_collision _ _ Heq). unfold event_bytes. intros H.
      do 9 apply String.app_inj in H. by apply rfc3339_inj in H.
    + left. tauto.
Qed.

(** An event the server refuses is dropped without an error: when its action
    is not a label of the database enum (the out-of-band drift and rule-group
    events), when its actor is no longer a user, or when the server does not take
    text for the [details] and [ip_address] columns, the log and everything else
    in the database is unchanged and the caller is told nothing. *)
Theorem unloggable_event_dropped {E} (e : AuditEvent) (d : Db) :
  healthy d -> loggable e d = false -> log_event (E:=E) e d = (Ok tt, d).
Proof. apply log_event_refused. Qed.

(** Logging touches the audit table only. *)
Lemma log_healthy {E} (e : AuditEvent) d : healthy d ->
  exists rows n, log_event (E:=E) e d = (Ok tt, set_db_audit rows (set_db_audit_seq n d)).
Proof.
  intros Hd. destruct (loggable e d) eqn:He.
  - destruct (log_event_healthy (E:=E) e d Hd He) as (r & Hr & _). by eexists _, _.
  - exists (db_audit d), (db_audit_seq d). rewrite log_event_refused by done. by destruct d.
Qed.


Lemma keeps_log_event {E} (P : Db -> Prop) (e : AuditEvent) :
  faults_irrelevant P -> (forall rows d, P d -> P (set_db_audit rows d)) ->
  (forall n d, P d -> P (set_db_audit_seq n d)) -> keeps P (log_event (E:=E) e).
Proof.
  intros HP Ha Hs. unfold log_event. apply keeps_bind; [apply keeps_gets|intros now].
  apply keeps_bind; [apply keeps_attempt, keeps_fetch, HP|intros pr].
  apply keeps_ignore. intros d Hd. unfold final, audit_insert, query.
  destruct (db_faults d) as [|[] fs]; [|by apply HP|]; destruct (loggable _ _); simpl; auto.
Qed.

(** A property of the tables the audit log and the connection have no part in. *)
Class Unaudited (P : Db -> Prop) := {
  un_faults : faults_irrelevant P;
  un_audit : forall rows d, P d -> P (set_db_audit rows d);
  un_seq : forall n d, P d -> P (set_db_audit_seq n d)
}.

Lemma keeps_log {E} (P : Db -> Prop) `{!Unaudited P} e : keeps P (log_event (E:=E) e).
Proof. apply keeps_log_event; [apply un_faults|apply un_audit|apply un_seq]. Qed.
End audit.

(** ** Witnesses *)

Definition toy_rfc3339 : Rfc3339 := {| to_rfc3339 t := pretty t |}.
Lemma toy_rfc3339_laws : @Rfc3339Laws toy_rfc3339.
Proof. split. simpl. intros s t H. by apply (inj pretty) in H. Qed.

Definition toy_serde : SerdeJson := {| json_to_string j := match j with JStr s => s | _ => "{}" end |}.

Definition ex_event (a detail : string) : AuditEvent :=
  mkEvent a (Some (uuid_of 1)) (Some "root") (Some "host") (Some "h1") (JStr detail) None None.

Definition audit_db (now : Z) : Db :=
  set_db_users [mkUser (uuid_of 1) "root" "" "root@example" Admin Local None false true false None 0 0 0 None] (set_db_now now empty_db).

Notation toy_log := (@log_event toy_sha256 toy_serde toy_uuid_text toy_rfc3339 AppError).
Notation toy_verify := (@verify_rows toy_sha256 toy_serde toy_uuid_text toy_rfc3339).

Definition ex_log : list AuditRow := db_audit (final (toy_log (ex_event "host_removed" "a")) (audit_db 5000)).

Lemma audit_detects_edit_witness :
  let r := default (mkAudit 0 "" "" "" None None None None JNull None None 0) (head ex_log) in
  let r' := mkAudit (ar_id r) (ar_action r) (ar_row_hash r) (ar_prev_hash r) (ar_actor_user_id r)
              (ar_actor_username r) (ar_target_type r) (ar_target_id r) (JStr "b") (ar_ip_address r)
              (ar_request_id r) (ar_created_at r) in
  ar_id r ∈ toy_verify "" ([] ++ r' :: []) \/ @sha256_collision toy_sha256.
Proof.
  intros r r'. destruct (@audit_detects_edit toy_sha256 toy_serde toy_uuid_text toy_rfc3339 [] [] r r' eq_refl eq_refl) as [H _].
  - vm_compute. reflexivity.
  - apply H. exists 5%nat, "a", "b". split; [reflexivity|]. split; [discriminate|reflexivity].
Defined.

Lemma audit_truncation_unseen_witness :
  let d := final (toy_log (ex_event "host_enrolled" "b")) (final (toy_log (ex_event "host_removed" "a")) (audit_db 5000)) in
  toy_verify "" (take 1 (db_audit d)) = [].
Proof.
  intros d. apply (@audit_truncation_unseen toy_sha256 toy_serde toy_uuid_text toy_rfc3339 _ (drop 1 (db_audit d))).
  rewrite take_drop. vm_compute. reflexivity.
Defined.

Lemma log_event_verifies_iff_micros_witness :
  toy_verify "" (db_audit (final (toy_log (ex_event "host_removed" "a")) (audit_db 5000))) = [] /\
  (toy_verify "" (db_audit (final (toy_log (ex_event "host_removed" "a")) (audit_db 5001))) <> [] \/
   @sha256_collision toy_sha256).
Proof.
  split; apply (@log_event_verifies_iff_micros toy_sha256 toy_serde toy_uuid_text toy_rfc3339 toy_rfc3339_laws);
    try reflexivity; try (by apply (bool_decide_unpack _); vm_compute).
Defined.

Lemma unloggable_event_dropped_witness :
  toy_log (ex_event "out_of_band_drift" "a") (audit_db 5000) = (Ok tt, audit_db 5000).
Proof.
  apply (@unloggable_event_dropped toy_sha256 toy_serde toy_uuid_text toy_rfc3339); reflexivity.
Defined.
