(* ===== verification/Interleave.v ===== *)
(** * Interleave: requests that run at the same time

    The manager is an [axum] server: every request is a task of its own, and a
    handler is suspended at each [.await], so the statements of two handlers
    interleave in any order; only a single statement (or a transaction) is
    atomic. A handler is here a program, the tree of its statements; requests in
    progress are a pool of programs over one database.

    [run] executes a program without interruption, which is what the handlers of
    the other files are; the files that use this one prove that their programs run
    to exactly those handlers. [step] is one statement of one request, or a step
    of the environment. [stable] is a rely-guarantee judgement: what a request
    does whatever the others do in between, and [pool_stable] the rule that the
    pool as a whole then keeps its invariant. *)

From S2P Require Import Prelude.

(** ** Programs *)

Inductive Prog (W E A : Type) : Type :=
  | Answer (r : result A E)
  | Stmt (B : Type) (m : M W E B) (k : result B E -> Prog W E A).
Arguments Answer {W E A} r.
Arguments Stmt {W E A B} m k.

(** Without interruption. *)
Fixpoint run {W E A} (p : Prog W E A) : M W E A := fun w =>
  match p with
  | Answer r => (r, w)
  | Stmt m k => let '(r, w') := m w in run (k r) w'
  end.

(** Continue with the answer, an error included. *)
Fixpoint finally {W E A B} (f : result A E -> Prog W E B) (p : Prog W E A) : Prog W E B :=
  match p with
  | Answer r => f r
  | Stmt m k => Stmt m (fun r => finally f (k r))
  end.

#[export] Instance Prog_ret {W E} : MRet (Prog W E) := fun _ a => Answer (Ok a).
#[export] Instance Prog_bind {W E} : MBind (Prog W E) := fun _ _ f =>
  finally (fun r => match r with Ok a => f a | Err e => Answer (Err e) end).

(** One atomic statement. *)
Definition stmt {W E A} (m : M W E A) : Prog W E A := Stmt m Answer.

Definition attempting {W E A} (p : Prog W E A) : Prog W E (result A E) := finally (fun r => Answer (Ok r)) p.
Definition ignoring {W E A} (p : Prog W E A) : Prog W E unit := finally (fun _ => Answer (Ok tt)) p.

(** Whether the request succeeded: what an interleaving of unlike requests is
    observed by. *)
Definition succeeded {W E A} (p : Prog W E A) : Prog W E bool := finally (fun r => Answer (Ok (is_ok r))) p.

(** [?] on a condition: no statement is issued. *)
Definition require {W E} (c : bool) (e : E) : Prog W E unit := Answer (if c then Ok tt else Err e).
Definition fail {W E A} (e : E) : Prog W E A := Answer (Err e).

Lemma require_pass {W E B} (e : E) (f : unit -> Prog W E B) : require true e ≫= f = f tt.
Proof. done. Qed.
Lemma require_stop {W E B} (e : E) (f : unit -> Prog W E B) : require false e ≫= f = fail e.
Proof. done. Qed.

(** ** What a program does when nothing comes between its statements *)

Section sequential.
Context {W E : Type}.

Lemma run_finally {A B} (f : result A E -> Prog W E B) p w :
  run (finally f p) w = let '(r, w') := run p w in run (f r) w'.
Proof. revert w. induction p as [r|C m k IH]; intros w; simpl; [done|]. destruct (m w) as [r w']. apply IH. Qed.

Lemma run_bind {A B} (f : A -> Prog W E B) p w : run (p ≫= f) w = (run p ≫= fun a => run (f a)) w.
Proof.
  unfold mbind, Prog_bind, M_bind. rewrite run_finally. by destruct (run p w) as [[a|e] w'].
Qed.

(** [p] is the program of [m]. *)
Definition implements {A} (p : Prog W E A) (m : M W E A) : Prop := forall w, run p w = m w.

Lemma imp_stmt {A} (m : M W E A) : implements (stmt m) m.
Proof. intros w. unfold stmt. simpl. by destruct (m w). Qed.
Lemma imp_ret {A} (a : A) : implements (mret a) (mret a).
Proof. done. Qed.
Lemma imp_fail {A} (e : E) : implements (fail (A:=A) e) (throw e).
Proof. done. Qed.
Lemma imp_require c (e : E) : implements (require c e) (guard_or c e).
Proof. by destruct c. Qed.
Lemma imp_bind {A B} p (m : M W E A) (f : A -> Prog W E B) g :
  implements p m -> (forall a, implements (f a) (g a)) -> implements (p ≫= f) (m ≫= g).
Proof.
  intros Hp Hf w. rewrite run_bind. unfold mbind, M_bind. rewrite Hp. destruct (m w) as [[a|e] w']; [apply Hf|done].
Qed.
Lemma imp_ignore {A} p (m : M W E A) : implements p m -> implements (ignoring p) (ignore m).
Proof. intros Hp w. unfold ignoring, ignore. rewrite run_finally, Hp. by destruct (m w). Qed.
Lemma imp_attempt {A} p (m : M W E A) : implements p m -> implements (attempting p) (attempt m).
Proof. intros Hp w. unfold attempting, attempt. rewrite run_finally, Hp. by destruct (m w). Qed.
End sequential.

Create HintDb implements.
#[export] Hint Resolve imp_stmt imp_ret imp_fail imp_require imp_ignore imp_attempt : implements.
#[export] Hint Opaque implements : implements.

(** Walk down a program and the handler it is the program of. *)
Ltac implements_tac :=
  repeat match goal with
  | |- implements (_ ≫= _) (_ ≫= _) => apply imp_bind; [|intros ?]
  | |- implements (match ?x with _ => _ end) _ => destruct x
  | |- implements _ _ => solve [eauto with implements]
  end.

(** ** The pool *)

Section pool.
Context {W E A : Type}.
Implicit Types (w : W) (ps : list (Prog W E A)).

(** What happens besides the requests: the clock, for one. *)
Context (env : relation W).

Inductive step : relation (W * list (Prog W E A)) :=
  | step_stmt w ps i B (m : M W E B) k :
      ps !! i = Some (Stmt m k) -> step (w, ps) (final m w, <[i := k (outcome m w)]> ps)
  | step_env w w' ps : env w w' -> step (w, ps) (w', ps).

(** Request [i] gets a turn: it issues its next statement. *)
Definition turn (i : nat) (c : W * list (Prog W E A)) : W * list (Prog W E A) :=
  let '(w, ps) := c in
  match ps !! i with
  | Some (Stmt m k) => let '(r, w') := m w in (w', <[i := k r]> ps)
  | _ => c
  end.

Definition turns (sched : list nat) (c : W * list (Prog W E A)) : W * list (Prog W E A) :=
  fold_left (fun c i => turn i c) sched c.

Lemma turn_reachable i c : rtc step c (turn i c).
Proof.
  destruct c as [w ps]. simpl. destruct (ps !! i) as [[r|B m k]|] eqn:Hi; [done| |done].
  destruct (m w) as [r w'] eqn:Hm. eapply rtc_once.
  pose proof (step_stmt w ps i B m k Hi) as Hs. unfold final, outcome in Hs. by rewrite Hm in Hs.
Qed.

(** Every schedule is a behaviour of the pool. *)
Lemma turns_reachable sched c : rtc step c (turns sched c).
Proof.
  revert c. induction sched as [|i sched IH]; intros c; simpl; [done|].
  etrans; [apply turn_reachable|apply IH].
Qed.

(** A request may run to its end while the others wait. *)
Lemma run_reachable ps i p w r w' :
  ps !! i = Some p -> run p w = (r, w') -> rtc step (w, ps) (w', <[i := Answer r]> ps).
Proof.
  revert ps w. induction p as [r0|B m k IH]; intros ps w Hi; simpl.
  - intros [= <- <-]. by rewrite list_insert_id.
  - destruct (m w) as [x w1] eqn:Hm. intros Hr.
    eapply rtc_l; [by apply step_stmt|]. unfold final, outcome. rewrite Hm. simpl.
    rewrite <- (list_insert_insert_eq ps i (Answer r) (k x)).
    apply (IH x); [|done]. apply list_lookup_insert_eq. by eapply lookup_lt_Some.
Qed.

(** Requests that can each be moved on without changing the world can all be. *)
Lemma all_reachable {X} (f g : X -> Prog W E A) xs w :
  (forall x ps i, x ∈ xs -> ps !! i = Some (f x) -> rtc step (w, ps) (w, <[i := g x]> ps)) ->
  rtc step (w, f <$> xs) (w, g <$> xs).
Proof.
  intros Hfg. cut (forall l, rtc step (w, l ++ (f <$> xs)) (w, l ++ (g <$> xs))); [by intros H; apply (H [])|].
  induction xs as [|x xs IH]; intros l; [done|]. rewrite !fmap_cons. etrans.
  - apply (Hfg x _ (length l)); [left|by rewrite list_lookup_middle].
  - rewrite (insert_app_r_alt l), Nat.sub_diag by done.
    change (<[0%nat := g x]> (f x :: (f <$> xs))) with ([g x] ++ (f <$> xs)). change (g x :: (g <$> xs)) with ([g x] ++ (g <$> xs)). rewrite !(assoc_L (++)).
    apply IH. intros y ps i Hy. apply Hfg. by right.
Qed.

(** ** Rely and guarantee *)

(** What every participant relies on and guarantees of the others' steps, and the
    invariant of the shared state. *)
Context (R : relation W) `{!PreOrder R} (I : W -> Prop).

(** From [w] on, however the others move, each statement of the program keeps
    the invariant and the guarantee, and an answer satisfies [Q]. *)
Fixpoint stable (Q : result A E -> W -> Prop) (p : Prog W E A) (w : W) : Prop :=
  match p with
  | Answer r => forall w', R w w' -> I w' -> Q r w'
  | Stmt m k => forall w', R w w' -> I w' ->
      R w' (final m w') /\ I (final m w') /\ stable Q (k (outcome m w')) (final m w')
  end.

Lemma stable_mono Q p w w' : R w w' -> stable Q p w -> stable Q p w'.
Proof.
  intros HR. destruct p as [r|B m k]; simpl; intros H w1 H1 HI; apply H; try done; by etrans.
Qed.

Context (env_ok : forall u v, env u v -> I u -> R u v /\ I v).
Implicit Types Qs : list (result A E -> W -> Prop).

Definition pool_ok Qs (c : W * list (Prog W E A)) : Prop := I c.1 /\ Forall2 (fun Q p => stable Q p c.1) Qs c.2.

Lemma pool_ok_move Qs w w' ps : R w w' -> Forall2 (fun Q p => stable Q p w) Qs ps -> Forall2 (fun Q p => stable Q p w') Qs ps.
Proof. intros HR Hps. eapply Forall2_impl; [exact Hps|]. intros Q p. by apply stable_mono. Qed.

Lemma step_ok Qs c c' : pool_ok Qs c -> step c c' -> pool_ok Qs c' /\ R c.1 c'.1.
Proof.
  intros [HI Hps] Hs. destruct Hs as [w ps i B m k Hi|w w' ps Hw]; cbn [fst snd] in *.
  - destruct (Forall2_lookup_r _ _ _ _ _ Hps Hi) as (Q & HQi & HQ).
    destruct (HQ w ltac:(done) HI) as (HR & HI' & Hk). split; [|done]. split; [done|]. cbn [fst snd].
    rewrite <- (list_insert_id Qs i Q) by done. apply Forall2_insert; [by eapply pool_ok_move|exact Hk].
  - destruct (env_ok _ _ Hw HI) as [HR HI']. split; [|done]. split; [done|]. by eapply pool_ok_move.
Qed.

(** In every interleaving of stable requests the invariant holds, the others'
    steps are within the guarantee, and the requests stay stable. *)
Lemma pool_stable Qs c c' : pool_ok Qs c -> rtc step c c' -> pool_ok Qs c' /\ R c.1 c'.1.
Proof.
  intros Hok Hr. induction Hr as [c|c c1 c2 Hs Hr IH]; [done|].
  destruct (step_ok Qs c c1 Hok Hs) as [H1 HR]. destruct (IH H1) as [H2 HR']. split; [done|by etrans].
Qed.

(** The answer a request has given. *)
Lemma pool_answer Qs w ps i Q r : pool_ok Qs (w, ps) -> Qs !! i = Some Q -> ps !! i = Some (Answer r) -> Q r w.
Proof.
  intros [HI Hps] HQ Hp. destruct (Forall2_lookup_l _ _ _ _ _ Hps HQ) as (p & Hp' & Hst). simplify_eq/=. by apply Hst.
Qed.
End pool.

(** ** Proving a program stable *)

Section rules.
Context {W E : Type} (R : relation W) `{!PreOrder R} (I : W -> Prop).

Lemma stable_finally {A B} (f : result A E -> Prog W E B) p Q w :
  I w -> stable R I (fun r w' => stable R I Q (f r) w') p w -> stable R I Q (finally f p) w.
Proof.
  revert w. induction p as [r|C m k IH]; intros w HI; simpl; [by intros H; apply H|].
  intros H w' HR HI'. destruct (H w' HR HI') as (H1 & H2 & H3). split_and!; [done..|]. by apply IH.
Qed.

Lemma stable_weaken {A} (Q Q' : result A E -> W -> Prop) p w :
  (forall r w', I w' -> Q r w' -> Q' r w') -> stable R I Q p w -> stable R I Q' p w.
Proof.
  intros HQ. revert w. induction p as [r|C m k IH]; intros w; simpl; [auto|].
  intros H w' HR HI. destruct (H w' HR HI) as (H1 & H2 & H3). split_and!; [done..|]. by apply IH.
Qed.

(** A program that keeps the invariant and the guarantee, whatever it answers. *)
Definition safe {A} (p : Prog W E A) : Prop := forall w, I w -> stable R I (fun _ _ => True) p w.

(** A statement that does so by itself. *)
Definition polite {B} (m : M W E B) : Prop := forall w, I w -> R w (final m w) /\ I (final m w).

Lemma safe_finally {A B} (f : result A E -> Prog W E B) p : safe p -> (forall r, safe (f r)) -> safe (finally f p).
Proof.
  intros Hp Hf w HI. apply stable_finally; [done|]. eapply stable_weaken; [|by apply Hp]. intros r w' HI' _. by apply Hf.
Qed.
Lemma safe_answer {A} (r : result A E) : safe (Answer r).
Proof. done. Qed.
Lemma safe_bind {A B} (f : A -> Prog W E B) p : safe p -> (forall a, safe (f a)) -> safe (p ≫= f).
Proof. intros Hp Hf. apply safe_finally; [done|]. intros [a|e]; [apply Hf|apply safe_answer]. Qed.
Lemma safe_stmt {B} (m : M W E B) : polite m -> safe (stmt m).
Proof. intros Hm w HI w' HR HI'. by destruct (Hm w' HI'). Qed.
Lemma safe_ret {A} (a : A) : safe (mret a).
Proof. done. Qed.
Lemma safe_fail {A} (e : E) : safe (fail (A:=A) e).
Proof. done. Qed.
Lemma safe_require c (e : E) : safe (require c e).
Proof. done. Qed.
Lemma safe_ignoring {A} (p : Prog W E A) : safe p -> safe (ignoring p).
Proof. intros Hp. apply safe_finally; [done|]. intros r. apply safe_answer. Qed.
Lemma safe_attempting {A} (p : Prog W E A) : safe p -> safe (attempting p).
Proof. intros Hp. apply safe_finally; [done|]. intros r. apply safe_answer. Qed.

Lemma safe_succeeded {A} (p : Prog W E A) : safe p -> safe (succeeded p).
Proof. intros Hp. apply safe_finally; [done|]. intros r. apply safe_answer. Qed.

(** The first statement of a program, and what follows from what it read. *)
Lemma stable_first {A B} (m : M W E A) (f : A -> Prog W E B) Q w : polite m ->
  (forall w' a, I w' -> outcome m w' = Ok a -> stable R I Q (f a) (final m w')) ->
  (forall e w', I w' -> Q (Err e) w') -> stable R I Q (stmt m ≫= f) w.
Proof.
  intros Hm Hf He w' HR HI. destruct (Hm w' HI) as [H1 H2]. split_and!; [done..|].
  destruct (outcome m w') as [a|e] eqn:Ho; [by apply Hf|]. intros w2 _ HI2. by apply He.
Qed.

(** A request that fails whatever the others do. *)
Lemma stable_refused {A} (p : Prog W E A) w : I w -> stable R I (fun r _ => is_ok r = false) p w ->
  stable R I (fun r _ => r = Ok false) (succeeded p) w.
Proof. intros HI Hp. apply stable_finally; [done|]. eapply stable_weaken; [|exact Hp]. intros r w' _ Hr w2 _ _. by rewrite Hr. Qed.

(** The rule for a pool of such programs. *)
Lemma pool_safe {A} (env : relation W) (ps ps' : list (Prog W E A)) w w' :
  (forall u v, env u v -> I u -> R u v /\ I v) ->
  I w -> Forall safe ps -> rtc (step env) (w, ps) (w', ps') -> I w' /\ R w w'.
Proof.
  intros Henv HI Hps Hr.
  destruct (pool_stable env R I Henv (replicate (length ps) (fun _ _ => True)) (w, ps) (w', ps')) as [[H1 _] H2]; [|done|done].
  split; [done|]. apply Forall2_same_length_lookup. split; [by rewrite length_replicate|].
  intros i Q p HQ Hp. apply lookup_replicate in HQ as [-> _]. eapply Forall_lookup in Hps; [|exact Hp]. by apply Hps.
Qed.

(** One request of the pool, and what its answer satisfies. *)
Lemma pool_one {A} (env : relation W) (ps ps' : list (Prog W E A)) w w' i p Q :
  (forall u v, env u v -> I u -> R u v /\ I v) ->
  I w -> Forall safe ps -> ps !! i = Some p -> stable R I Q p w -> rtc (step env) (w, ps) (w', ps') ->
  I w' /\ forall r, ps' !! i = Some (Answer r) -> Q r w'.
Proof.
  intros Henv HI Hps Hi HQ Hr. set (Qs := <[i := Q]> (replicate (length ps) (fun _ _ => True))).
  assert (Qs !! i = Some Q) as HQi
    by (apply list_lookup_insert_eq; rewrite length_replicate; by eapply lookup_lt_Some).
  destruct (pool_stable env R I Henv Qs (w, ps) (w', ps')) as [Hok _]; [|done|].
  - split; [done|]. apply Forall2_same_length_lookup. split; [unfold Qs; by rewrite length_insert, length_replicate|].
    intros j Q' p' HQ' Hp'. destruct (decide (i = j)) as [<-|Hne]; [cbn [fst snd] in *; congruence|].
    unfold Qs in HQ'. rewrite list_lookup_insert_ne in HQ' by done. apply lookup_replicate in HQ' as [-> _].
    eapply Forall_lookup in Hps; [|exact Hp']. by apply Hps.
  - split; [by destruct Hok|]. intros r Hans. by eapply pool_answer.
Qed.
End rules.

Create HintDb polite.
#[export] Hint Resolve safe_ret safe_fail safe_require safe_ignoring safe_attempting safe_succeeded safe_stmt : polite.
#[export] Hint Opaque safe polite : polite.

(** Walk down a program, one [polite] obligation per statement. *)
Ltac safe_tac :=
  repeat match goal with
  | |- safe _ _ (_ ≫= _) => apply safe_bind; [tc_solve| |intros ?]
  | |- safe _ _ (match ?x with _ => _ end) => destruct x
  | |- safe _ _ _ => solve [eauto with polite]
  | |- safe _ _ (ignoring _) => apply safe_ignoring; [tc_solve|]
  | |- safe _ _ (attempting _) => apply safe_attempting; [tc_solve|]
  | |- safe _ _ (stmt _) => apply safe_stmt
  end.
