(* ===== verification/Secrets.v ===== *)
(** * Secrets: the key file and the encryption under it

    [crates/fw-core/src/crypto.rs] and [crates/fw-web/src/secret_key.rs]: a 32-byte key
    that is created on first use, and AES-256-GCM under it. The cipher and the
    random numbers are parameters. No handler calls these functions: what the
    settings store is in [Settings]. *)

From S2P Require Import Prelude Text Models Net Codec Files Db.

(** ** Parameters *)

(** [Aes256Gcm] under a key and a nonce; decryption refuses what was not encrypted so. *)
Class AesGcm := { gcm_encrypt : string -> string -> string -> result string string; gcm_decrypt : string -> string -> string -> result string string }.
Class AesGcmLaws `{!AesGcm} := {
  gcm_decrypt_encrypt : forall key nonce text cipher, String.length key = 32%nat -> String.length nonce = 12%nat ->
    gcm_encrypt key nonce text = Ok cipher -> gcm_decrypt key nonce cipher = Ok text
}.

(** [thread_rng().fill_bytes]: that many bytes of a draw. *)
Class RngBytes := { rng_bytes : nat -> N -> string }.
Class RngLaws `{!RngBytes} := { rng_bytes_length : forall n seed, String.length (rng_bytes n seed) = n }.

Record KeyWorld := mkKeyWorld { kw_disk : Disk; kw_draws : N }.

(** ** The key file *)

Definition KEY_PATH : string := "/etc/firewall-manager/keys/health-check.key".
Definition SECRET_ENCRYPTION_KEY_PATH : string := "/etc/firewall-manager/keys/secret-encryption.key".

(** [Path::parent] of a path whose last part is a name. *)
Definition parent_dir (path : string) : option string :=
  match rev (split_char "/" path) with
  | _ :: ((_ :: _) as r) => Some (join "/" (rev r))
  | _ => None
  end.

Section secrets.
Context {RNG : RngBytes} {GCM : AesGcm}.
Notation KW := (M KeyWorld AppError).

(** A file operation, its error as an internal one. *)
Definition key_file {A} (what path : string) (m : M Disk string A) : KW A := fun w =>
  match m (kw_disk w) with
  | (Ok a, k) => (Ok a, mkKeyWorld k (kw_draws w))
  | (Err e, k) => (Err (Internal (what +:+ path +:+ ": " +:+ e)), mkKeyWorld k (kw_draws w))
  end.
Definition fill_bytes (n : nat) : KW string := fun w =>
  (Ok (rng_bytes n (kw_draws w)), mkKeyWorld (kw_disk w) (kw_draws w + 1)).

Definition load_or_create_key (path : string) : KW string :=
  there ← gets (fun w => disk_exists path (kw_disk w));
  if (there : bool) then
    data ← key_file "read key " path (disk_read path);
    if (String.length data =? 32)%nat then mret data
    else throw (Internal ("key " +:+ path +:+ " is not 32 bytes"))
  else
    key ← fill_bytes 32;
    _ ← match parent_dir path with
        | Some dir => key_file "mkdir " dir (disk_mkdir dir)
        | None => mret tt
        end;
    _ ← key_file "write key " path (disk_write path key);
    _ ← key_file "chmod " path (disk_chmod path 384);
    mret key.

Definition load_or_create_secret_key : KW string := load_or_create_key SECRET_ENCRYPTION_KEY_PATH.

(** ** Encryption *)

(** The cipher text and its nonce. *)
Definition encrypt (key plaintext : string) : KW (string * string) :=
  nonce ← fill_bytes 12;
  cipher ← lift_result (map_err (fun e => Internal ("encrypt: " +:+ e)) (gcm_encrypt key nonce plaintext));
  mret (cipher, nonce).

(** [Nonce::from_slice] panics ([None]) on a nonce that is not 12 bytes long. *)
Definition decrypt (key ciphertext nonce : string) : option (result string AppError) :=
  if (String.length nonce =? 12)%nat
  then Some (map_err (fun e => Internal ("decrypt: " +:+ e)) (gcm_decrypt key nonce ciphertext))
  else None.

(** ** Facts *)

Lemma key_file_ok {A} what path (m : M Disk string A) w a w' : key_file what path m w = (Ok a, w') ->
  m (kw_disk w) = (Ok a, kw_disk w') /\ kw_draws w' = kw_draws w.
Proof. unfold key_file. destruct (m (kw_disk w)) as [[b|e] k]; intros H; by simplify_eq/=. Qed.

(** A file that is there is read and never written. *)
Lemma load_existing path w f : dk_files (kw_disk w) !! path = Some f ->
  load_or_create_key path w =
    (if (String.length (f_content f) =? 32)%nat then Ok (f_content f) else Err (Internal ("key " +:+ path +:+ " is not 32 bytes")), w).
Proof.
  intros Hf. unfold load_or_create_key, gets, mbind, M_bind, disk_exists. rewrite bool_decide_eq_true_2 by (by eexists).
  unfold key_file. rewrite (disk_read_ok _ _ _ Hf). destruct w as [k n]. cbn. by destruct (_ =? _)%nat.
Qed.

(** The key a start returns is the content of the file it leaves, 32 bytes long; a
    file it created is readable by its owner only. *)
Lemma load_or_create_key_file {RL : RngLaws} path w key w' : load_or_create_key path w = (Ok key, w') ->
  exists f, dk_files (kw_disk w') !! path = Some f /\ f_content f = key /\ String.length key = 32%nat /\
    (dk_files (kw_disk w) !! path = None -> f_mode f = 384%Z) /\ (forall f0, dk_files (kw_disk w) !! path = Some f0 -> w' = w).
Proof.
  intros H. destruct (dk_files (kw_disk w) !! path) as [f|] eqn:Hf.
  - rewrite (load_existing path w f Hf) in H. destruct (Nat.eqb_spec (String.length (f_content f)) 32) as [Hl|]; [|done]. simplify_eq.
    exists f. split_and!; try done.
  - unfold load_or_create_key, gets, mbind, M_bind at 1, disk_exists in H. rewrite bool_decide_eq_false_2 in H by (rewrite Hf; by intros []).
    apply bind_inv_ok in H as (k & w1 & Hk & H). unfold fill_bytes in Hk. injection Hk as <- <-.
    apply bind_inv_ok in H as (? & w2 & _ & H). apply bind_inv_ok in H as (? & w3 & Hw & H). apply bind_inv_ok in H as (? & w4 & Hc & H). inv_ret H.
    apply key_file_ok in Hw as [Hw _]. apply key_file_ok in Hc as [Hc _]. unfold disk_chmod in Hc.
    unfold disk_write in Hw. case_bool_decide; [done|]. injection Hw as _ Hw. rewrite <- Hw in Hc. cbn in Hc. rewrite lookup_insert_eq in Hc.
    injection Hc as _ Hc. eexists. rewrite <- Hc. cbn. rewrite lookup_insert_eq. split_and!; try done. apply rng_bytes_length.
Qed.

(** Secrets survive a restart: what was encrypted under the key a first start
    obtained decrypts, to the same text, under the key any later start obtains
    from the file that start left, and that start changes nothing. *)
Theorem secret_survives_restart {RL : RngLaws} {GL : AesGcmLaws} path w key w1 text cipher nonce w2 w3 :
  load_or_create_key path w = (Ok key, w1) -> encrypt key text w1 = (Ok (cipher, nonce), w2) ->
  dk_files (kw_disk w3) !! path = dk_files (kw_disk w2) !! path ->
  exists key', load_or_create_key path w3 = (Ok key', w3) /\ decrypt key' cipher nonce = Some (Ok text).
Proof.
  intros Hl He Hd. destruct (load_or_create_key_file path w key w1 Hl) as (f & Hf & <- & Hlen & _).
  apply bind_inv_ok in He as (n & wn & Hn & He). unfold fill_bytes in Hn. injection Hn as <- <-.
  apply bind_inv_ok in He as (c & wc & Hcip & He). inv_ret He. unfold lift_result, mret, M_ret in Hcip.
  destruct (gcm_encrypt (f_content f) (rng_bytes 12 (kw_draws w1)) text) as [c'|e] eqn:Hg; [|done]. cbn in Hcip. injection Hcip as <- <-. cbn in Hd.
  exists (f_content f). rewrite (load_existing path w3 f) by (by rewrite Hd). rewrite Hlen. split; [done|]. unfold decrypt.
  rewrite rng_bytes_length. cbn. by rewrite (gcm_decrypt_encrypt (f_content f) _ text c') by (try done; apply rng_bytes_length).
Qed.
End secrets.

(** ** Witness *)

Fixpoint pad (n : nat) (c : ascii) : string := match n with O => "" | S m => String c (pad m c) end.
Lemma pad_length n c : String.length (pad n c) = n.
Proof. induction n as [|n IH]; cbn; [done|]. by rewrite IH. Qed.
Definition toy_rng : RngBytes := {| rng_bytes n seed := pad n (ascii_of_N seed) |}.
Lemma toy_rng_laws : @RngLaws toy_rng.
Proof. split. intros n seed. apply pad_length. Qed.
(** The key and the nonce in front of the text. *)
Definition toy_gcm : AesGcm := {|
  gcm_encrypt key nonce text := Ok (key +:+ nonce +:+ text);
  gcm_decrypt key nonce cipher := match strip_prefix (key +:+ nonce) cipher with Some t => Ok t | None => Err "aead::Error" end
|}.
Lemma toy_gcm_laws : @AesGcmLaws toy_gcm.
Proof.
  split. intros key nonce text cipher _ _ [= <-]. cbn.
  by rewrite (proj2 (strip_prefix_Some (key +:+ nonce) (key +:+ nonce +:+ text) text) ltac:(by rewrite str_app_assoc)).
Qed.
Definition new_machine : KeyWorld := mkKeyWorld (mkDisk ∅ ∅) 65.

Lemma secret_survives_restart_witness :
  exists key w1 cipher nonce w2, @load_or_create_secret_key toy_rng new_machine = (Ok key, w1) /\
    @encrypt toy_rng toy_gcm key "smtp-password" w1 = (Ok (cipher, nonce), w2) /\
    exists key', @load_or_create_secret_key toy_rng w2 = (Ok key', w2) /\ @decrypt toy_gcm key' cipher nonce = Some (Ok "smtp-password").
Proof.
  destruct (@load_or_create_secret_key toy_rng new_machine) as [[key|e] w1] eqn:Hl; [|exfalso; revert Hl; vm_compute; discriminate].
  destruct (@encrypt toy_rng toy_gcm key "smtp-password" w1) as [[[cipher nonce]|e] w2] eqn:He; [|exfalso; revert He; vm_compute; discriminate].
  exists key, w1, cipher, nonce, w2. split; [done|]. split; [done|].
  exact (@secret_survives_restart toy_rng toy_gcm toy_rng_laws toy_gcm_laws SECRET_ENCRYPTION_KEY_PATH new_machine key w1 "smtp-password" cipher nonce w2 w2 Hl He eq_refl).
Defined.
