(* ===== verification/Auth.v ===== *)
(** * Auth: who may call the manager's API

    [crates/fw-auth/src/rbac.rs]: roles, the IP whitelist behind trusted
    proxies, the authentication middleware and the operator's host scope
    (SEC-011, SEC-012), with the token format of [jwt.rs]. *)

From S2P Require Import Prelude Text Models Net Codec Db.

(** ** Roles and identities *)

Definition parse_role (s : string) : option UserRole :=
  if bool_decide (s = "admin") then Some Admin
  else if bool_decide (s = "operator") then Some Operator
  else if bool_decide (s = "reporter") then Some Reporter
  else if bool_decide (s = "break_glass_operator") then Some BreakGlassOperator
  else None.

Definition is_admin (r : UserRole) : bool := match r with Admin => true | _ => false end.
Definition can_write (r : UserRole) : bool :=
  match r with Admin | Operator | BreakGlassOperator => true | Reporter => false end.
Definition is_break_glass (r : UserRole) : bool :=
  match r with BreakGlassOperator => true | _ => false end.

Record AccessClaims := mkClaims {
  cl_sub : string; cl_iat : Z; cl_exp : Z; cl_jti : string; cl_role : string; cl_username : string
}.

Record AuthUser := mkAuthUser {
  au_user_id : Uuid; au_username : string; au_role : UserRole; au_claims : AccessClaims; au_ip : option IpAddr
}.

(** [auth.ip.map(|ip| ip.to_string())]. *)
Definition au_ip_text (u : AuthUser) : option string := ip_to_string <$> au_ip u.

(** The [jsonwebtoken] crate: [encode] with the signing key, [decode] with EdDSA and
    expiry validation at the given time. A token it accepts has not expired (five
    seconds of leeway), and a token signed with the matching key decodes to its
    claims until then. *)
Class Jwt := {
  jwt_encode : string -> AccessClaims -> result string string;
  jwt_decode : string -> string -> Z -> result AccessClaims string;
  jwt_key_pair : string -> string -> Prop
}.
Class JwtLaws `{!Jwt} := {
  jwt_not_expired : forall key tok now c, jwt_decode key tok now = Ok c -> (now <= cl_exp c + 5)%Z;
  jwt_roundtrip : forall sk vk c tok now, jwt_key_pair sk vk -> jwt_encode sk c = Ok tok ->
    (now <= cl_exp c + 5)%Z -> jwt_decode vk tok now = Ok c
}.

(** ** Requests and configuration *)

Record Request := mkRequest {
  rq_authorization : option string; rq_x_forwarded_for : option string; rq_peer : option IpAddr
}.

Section auth.
Context {IPN : IpNetLib} {UT : UuidText} {JWT : Jwt} {SQL : Sql}.

Record AuthConfig := mkAuthConfig {
  verify_key_pem : string; ip_whitelist : list IpNet; trusted_proxies : list IpNet; ac_db : bool
}.

Definition parse_nets (cidrs : list string) : list IpNet := omap ipnet_parse cidrs.

Definition AuthConfig_new (key : string) (whitelist proxies : list string) (db : bool) : AuthConfig :=
  mkAuthConfig key (parse_nets whitelist) (parse_nets proxies) db.

Definition update_ip_whitelist (entries : list string) (c : AuthConfig) : AuthConfig :=
  mkAuthConfig (verify_key_pem c) (parse_nets entries) (trusted_proxies c) (ac_db c).

Definition update_trusted_proxies (entries : list string) (c : AuthConfig) : AuthConfig :=
  mkAuthConfig (verify_key_pem c) (ip_whitelist c) (parse_nets entries) (ac_db c).

Definition in_nets (nets : list IpNet) (ip : IpAddr) : bool := existsb (fun n => ipnet_contains n ip) nets.

Definition is_ip_allowed (c : AuthConfig) (ip : IpAddr) : bool :=
  match ip_whitelist c with [] => true | nets => in_nets nets ip end.

Definition extract_bearer_token (r : Request) : option string :=
  h ← rq_authorization r; strip_prefix "Bearer " h.

(** The client's address: the leftmost [X-Forwarded-For] entry when the peer is a
    trusted proxy and the entry is an address, otherwise the peer. *)
Definition resolve_client_ip (r : Request) (proxies : list IpNet) : option IpAddr :=
  peer_ip ← rq_peer r;
  if in_nets proxies peer_ip then
    match (xff ← rq_x_forwarded_for r; first ← head (split_char "," xff); ip_parse (trim first)) with
    | Some ip => Some ip
    | None => Some peer_ip
    end
  else Some peer_ip.

(** Unknown ids and database errors count as revoked. *)
Definition is_jti_revoked {E} (jti : string) : M Db E bool :=
  r ← attempt (fetch (fun d =>
        rt_revoked <$> head (sql_scan (List.filter (fun t => bool_decide (rt_jti t = Some jti)) (db_refresh d)))));
  mret (default true (unwrap_or None r)).

(** A refused request: its status and message. *)
Definition Refusal : Type := Z * string.

(** [require_auth]: the identity the handlers see, or the refusal. *)
Definition require_auth {E} (c : AuthConfig) (req : Request) : M Db E (result AuthUser Refusal) :=
  let ip_check :=
    match ip_whitelist c with
    | [] => None
    | _ => match resolve_client_ip req (trusted_proxies c) with
           | None => Some (403%Z, "Client IP could not be determined")
           | Some ip => if is_ip_allowed c ip then None else Some (403%Z, "Access denied")
           end
    end in
  match ip_check with
  | Some refusal => mret (Err refusal)
  | None =>
      match extract_bearer_token req with
      | None => mret (Err (401%Z, "Missing authorization token"))
      | Some token =>
          now ← gets db_now;
          match jwt_decode (verify_key_pem c) token (now / 1000000000)%Z with
          | Err _ => mret (Err (401%Z, "Invalid token"))
          | Ok claims =>
              revoked ← (if ac_db c then is_jti_revoked (cl_jti claims) else mret false);
              if (revoked : bool) then mret (Err (401%Z, "Token revoked"))
              else match parse_role (cl_role claims) with
                   | None => mret (Err (401%Z, "Invalid role in token"))
                   | Some role =>
                       mret (Ok (mkAuthUser (default (uuid_of 0) (uuid_parse (cl_sub claims)))
                                   (cl_username claims) role claims (rq_peer req)))
                   end
          end
      end
  end.

(** [require_admin]. *)
Definition require_admin (u : option AuthUser) : result AuthUser Refusal :=
  match u with
  | None => Err (401%Z, "Authentication required")
  | Some u => if is_admin (au_role u) then Ok u else Err (403%Z, "Admin role required")
  end.

Definition can_access_host (u : AuthUser) (host : Uuid) : DB bool :=
  if is_admin (au_role u) || is_break_glass (au_role u) then mret true
  else if negb (can_write (au_role u)) then mret false
  else
    fetch (fun d =>
      let n := length (concat (map (fun '(user, g) =>
        List.filter (fun '(h, g') => bool_decide (user = au_user_id u) && bool_decide (h = host) &&
                                     bool_decide (g' = g)) (db_host_groups d)) (db_operator_groups d))) in
      (0 <? n)%nat).

(** ** Properties *)

Lemma parse_role_as_str r : parse_role (role_as_str r) = Some r.
Proof. by destruct r. Qed.

Lemma is_jti_revoked_false {E} {SQLL : SqlLaws} jti d d' :
  is_jti_revoked (E:=E) jti d = (Ok false, d') ->
  exists t, t ∈ db_refresh d /\ rt_jti t = Some jti /\ rt_revoked t = false.
Proof.
  unfold is_jti_revoked, attempt, mbind, M_bind, fetch, query. intros H.
  destruct (db_faults d) as [|[] fs]; simpl in H; [|done|];
    (destruct (head _) as [t|] eqn:Ht; simpl in H; [|done]);
    destruct (rt_revoked t) eqn:Hr; simpl in H; try done;
    (exists t; split_and!; [|  |done]);
    assert (t ∈ sql_scan (List.filter (fun t => bool_decide (rt_jti t = Some jti)) (db_refresh d))) as Hin
      by (destruct (sql_scan _) as [|x l]; simpl in Ht; simplify_eq; left);
    rewrite sql_scan_perm in Hin; apply list_elem_of_In, List.filter_In in Hin as [Hin Hj];
    try (by apply list_elem_of_In); by apply bool_decide_eq_true_1 in Hj.
Qed.

(** C19. Authentication is sound and fails closed: if a request is let through,
    then its client address is in the whitelist (when there is one), its bearer
    token verified and not expired for more than the five seconds of leeway, the
    token's id is on record and not revoked (an unknown id, or a database error,
    refuses), and the identity's user id (the nil one if the subject is no UUID),
    role and user name are the token's. *)
Theorem require_auth_sound {E} {SQLL : SqlLaws} {JL : JwtLaws} (c : AuthConfig) (req : Request) d u d' :
  require_auth (E:=E) c req d = (Ok (Ok u), d') -> ac_db c = true ->
  (ip_whitelist c <> [] -> exists ip, resolve_client_ip req (trusted_proxies c) = Some ip /\
     in_nets (ip_whitelist c) ip = true) /\
  (exists token, extract_bearer_token req = Some token /\
     jwt_decode (verify_key_pem c) token (db_now d / 1000000000) = Ok (au_claims u) /\
     (db_now d / 1000000000 <= cl_exp (au_claims u) + 5)%Z) /\
  (exists t, t ∈ db_refresh d /\ rt_jti t = Some (cl_jti (au_claims u)) /\ rt_revoked t = false) /\
  parse_role (cl_role (au_claims u)) = Some (au_role u) /\ au_username u = cl_username (au_claims u) /\
  au_user_id u = default (uuid_of 0) (uuid_parse (cl_sub (au_claims u))).
Proof.
  unfold require_auth. intros H Hdb.
  assert (forall r, (match ip_whitelist c with
    | [] => None
    | _ => match resolve_client_ip req (trusted_proxies c) with
           | None => Some (403%Z, "Client IP could not be determined")
           | Some ip => if is_ip_allowed c ip then None else Some (403%Z, "Access denied")
           end
    end : option Refusal) = r -> r = None ->
    ip_whitelist c <> [] -> exists ip, resolve_client_ip req (trusted_proxies c) = Some ip /\
     in_nets (ip_whitelist c) ip = true) as Hip.
  { intros r Hr -> Hne. unfold is_ip_allowed in Hr. destruct (ip_whitelist c) as [|n ns]; [done|].
    destruct (resolve_client_ip req (trusted_proxies c)) as [ip|]; [|done]. exists ip. split; [done|].
    by destruct (in_nets (n :: ns) ip). }
  destruct (match ip_whitelist c with [] => None | _ => _ end) as [ref|]; [by inv_ret H|].
  destruct (extract_bearer_token req) as [token|] eqn:Htok; [|by inv_ret H].
  unfold gets, mbind at 1, M_bind at 1 in H.
  destruct (jwt_decode _ token _) as [claims|] eqn:Hjwt; [|by inv_ret H].
  rewrite Hdb in H. apply bind_inv_ok in H as (rv & d1 & Hrev & H). destruct rv; [by inv_ret H|].
  apply is_jti_revoked_false in Hrev.
  destruct (parse_role (cl_role claims)) as [role|] eqn:Hrole; [|by inv_ret H].
  inv_ret H. split_and!; [by eapply Hip| |done|done|done|done].
  exists token. split_and!; [done|done|by eapply jwt_not_expired].
Qed.

(** The hosts a user may touch: an operator those of the groups it is assigned. *)
Definition in_scope (u : AuthUser) (host : Uuid) (d : Db) : Prop :=
  match au_role u with
  | Admin | BreakGlassOperator => True
  | Reporter => False
  | Operator => exists g, (au_user_id u, g) ∈ db_operator_groups d /\ (host, g) ∈ db_host_groups d
  end.

(** The join of the operator's groups with the host's groups. *)
Lemma scope_join_exact (u : AuthUser) (host : Uuid) (d : Db) :
  (0 <? length (concat (map (fun '(user, g) =>
     List.filter (fun '(h, g') => bool_decide (user = au_user_id u) && bool_decide (h = host) &&
                                  bool_decide (g' = g)) (db_host_groups d)) (db_operator_groups d))))%nat = true <->
  exists g, (au_user_id u, g) ∈ db_operator_groups d /\ (host, g) ∈ db_host_groups d.
Proof.
  rewrite Nat.ltb_lt.
  assert (forall (l : list (Uuid * Uuid)) (P : Prop), (l <> [] <-> P) -> (0 < length l <-> P)) as Hlen.
  { intros l P <-. destruct l; simpl; split; intros; try lia; done. }
  apply Hlen. split.
  - intros Hne. destruct (concat _) as [|x l] eqn:Hc; [done|].
    assert (List.In x (x :: l)) as Hx by by left. rewrite <- Hc in Hx.
    apply in_concat in Hx as (ys & Hys & Hx). apply in_map_iff in Hys as ([user g] & <- & Hg).
    apply List.filter_In in Hx as [Hx Hb]. destruct x as [h g'].
    rewrite !andb_true_iff, !bool_decide_eq_true in Hb. destruct Hb as [[-> ->] ->].
    exists g. by rewrite !list_elem_of_In.
  - intros (g & Hg & Hh) Hnil.
    assert (List.In (host, g) []) as []. rewrite <- Hnil. apply in_concat.
    eexists. split; [apply in_map_iff; exists (au_user_id u, g); split; [reflexivity|by apply list_elem_of_In]|].
    apply List.filter_In. split; [by apply list_elem_of_In|]. by rewrite !bool_decide_eq_true_2.
Qed.

(** Access is granted within the scope only, whatever the database does; the check
    itself changes nothing. *)
Lemma can_access_host_sound (u : AuthUser) (host : Uuid) (d : Db) :
  exists r fs, can_access_host u host d = (r, set_db_faults fs d) /\ (r = Ok true -> in_scope u host d).
Proof.
  unfold can_access_host, in_scope. destruct (au_role u); simpl;
    try (eexists _, (db_faults d); split; [by destruct d|done]).
  unfold fetch, query. destruct (db_faults d) as [|[] fs] eqn:Hf.
  - eexists _, []. split; [rewrite <- Hf; by destruct d|]. intros [= H]. by apply scope_join_exact.
  - by eexists _, fs.
  - eexists _, fs. split; [done|]. intros [= H]. by apply scope_join_exact.
Qed.

(** The operator scope is exact: an operator can access a host exactly if one
    of the operator's groups contains it; administrators and break-glass
    operators can access every host, reporters none. *)
Theorem can_access_host_exact (u : AuthUser) (host : Uuid) (d : Db) :
  healthy d ->
  exists b, can_access_host u host d = (Ok b, d) /\ (b = true <-> in_scope u host d).
Proof.
  intros Hd. unfold can_access_host, in_scope. destruct (au_role u); simpl; try (by eexists).
  rewrite fetch_healthy by done. eexists. split; [reflexivity|]. apply scope_join_exact.
Qed.
End auth.

(** ** Witnesses *)

Definition ex_claims : AccessClaims := mkClaims "" 0 900 "jti-1" "operator" "op".
(** A token is the text of its claims. *)
Notation claims_tuple := (string * Z * Z * string * string * string)%type.
Definition claims_code (c : AccessClaims) : claims_tuple :=
  (cl_sub c, cl_iat c, cl_exp c, cl_jti c, cl_role c, cl_username c).
Definition claims_uncode (t : claims_tuple) : AccessClaims :=
  let '(s, i, e, j, r, u) := t in mkClaims s i e j r u.
Definition toy_jwt : Jwt := {|
  jwt_encode sk c := Ok (to_text (claims_code c));
  jwt_decode vk tok now := match (of_text tok : option claims_tuple) with
    | Some t => if (now <=? cl_exp (claims_uncode t) + 5)%Z then Ok (claims_uncode t) else Err "expired"
    | None => Err "bad"
    end;
  jwt_key_pair _ _ := True
|}.
Lemma toy_jwt_laws : @JwtLaws toy_jwt.
Proof.
  split; simpl.
  - intros key tok now c. destruct (of_text tok) as [t|]; [|done].
    destruct (Z.leb_spec now (cl_exp (claims_uncode t) + 5)); [|done]. by intros [= <-].
  - intros sk vk c tok now _ [= <-] Hle. rewrite of_to_text.
    replace (claims_uncode (claims_code c)) with c by (by destruct c).
    by destruct (Z.leb_spec now (cl_exp c + 5)); [|lia].
Qed.
Definition ex_token : string := to_text (claims_code ex_claims).

Definition auth_db : Db :=
  set_db_host_groups [(uuid_of 50, uuid_of 60)] (set_db_operator_groups [(uuid_of 7, uuid_of 60)]
    (set_db_refresh [mkRefresh (uuid_of 7) "x" 0 0 3600000000000 false None (Some "jti-1")] empty_db)).
Definition ex_auth_config : @AuthConfig toy_ipnet := @AuthConfig_new toy_ipnet "key" ["10.0.0.0/8"] [] true.
Definition ex_request : Request := mkRequest (Some ("Bearer " +:+ ex_token)) None (ip_parse "10.1.2.3").

Lemma require_auth_sound_witness :
  exists u, @require_auth toy_ipnet toy_uuid_text toy_jwt toy_sql unit ex_auth_config ex_request auth_db
      = (Ok (Ok u), auth_db) /\
    exists t, t ∈ db_refresh auth_db /\ rt_jti t = Some (cl_jti (au_claims u)) /\ rt_revoked t = false.
Proof.
  destruct (@require_auth toy_ipnet toy_uuid_text toy_jwt toy_sql unit ex_auth_config ex_request auth_db)
    as [[[u|r]|e] d'] eqn:H; [|exfalso; revert H; vm_compute; discriminate..].
  assert (d' = auth_db) as -> by (revert H; vm_compute; congruence).
  exists u. split; [done|].
  apply (@require_auth_sound toy_ipnet toy_uuid_text toy_jwt toy_sql unit toy_sql_laws toy_jwt_laws
    ex_auth_config ex_request auth_db u auth_db H eq_refl).
Defined.

Definition ex_user (r : UserRole) : AuthUser := mkAuthUser (uuid_of 7) "op" r ex_claims None.

Lemma can_access_host_exact_witness :
  exists b, can_access_host (ex_user Operator) (uuid_of 50) auth_db = (Ok b, auth_db) /\
    (b = true <-> exists g, (uuid_of 7, g) ∈ db_operator_groups auth_db /\ (uuid_of 50, g) ∈ db_host_groups auth_db).
Proof. apply (can_access_host_exact (ex_user Operator) (uuid_of 50) auth_db). reflexivity. Defined.
