(* ===== verification/Router.v ===== *)
(** * Router: which handler answers a request, and behind which layers

    The [router] functions of [crates/fw-web/src/routes/], composed as [build_router]
    of [crates/fw-web/src/lib.rs] composes them for users, and as
    [crates/fw-web/src/main.rs] does for agents. Routes are data; finding the route
    of a request is [axum]'s: a literal segment is preferred to a capture, a path
    without a route goes to the fallback, a route without the method is refused,
    behind the layers of the route as well. *)

From S2P Require Import Prelude Text Models Net Db Auth.

(** ** Routes *)

Inductive Method := GET | POST | PUT | DELETE.
#[export] Instance Method_eq_dec : EqDecision Method.
Proof. solve_decision. Defined.

Inductive Seg := Lit (s : string) | Cap (name : string).
#[export] Instance Seg_eq_dec : EqDecision Seg.
Proof. solve_decision. Defined.

(** What wraps a handler, from the outside in. *)
Inductive Layer := RequestId | Trace | RequireAuth | RateLimit (governor : string).
#[export] Instance Layer_eq_dec : EqDecision Layer.
Proof. solve_decision. Defined.

Record Endpoint := mkEndpoint { ep_path : list Seg; ep_methods : list (Method * string); ep_layers : list Layer }.
#[export] Instance Endpoint_eq_dec : EqDecision Endpoint.
Proof. solve_decision. Defined.

(** ["/a/{b}"]. *)
Definition segments (s : string) : list string :=
  match s with
  | String "/" "" => []
  | String "/" s' => split_char "/" s'
  | _ => split_char "/" s
  end.
Definition seg_of (s : string) : Seg :=
  match strip_prefix "{" s with
  | Some r => match strip_suffix "}" r with Some n => Cap n | None => Lit s end
  | None => Lit s
  end.
Definition pattern (s : string) : list Seg := map seg_of (segments s).

Definition route (path : string) (methods : list (Method * string)) : Endpoint := mkEndpoint (pattern path) methods [].
Definition nest (prefix : string) (r : list Endpoint) : list Endpoint :=
  map (fun e => mkEndpoint (pattern prefix ++ ep_path e) (ep_methods e) (ep_layers e)) r.
(** [.layer(..)] wraps the routes added so far, outside what wraps them already. *)
Definition layer (l : Layer) (r : list Endpoint) : list Endpoint :=
  map (fun e => mkEndpoint (ep_path e) (ep_methods e) (l :: ep_layers e)) r.

(** ** The routers of the route modules *)

Definition auth_public_router : list Endpoint := [
  route "/login" [(POST, "auth::login")]; route "/refresh" [(POST, "auth::refresh_token")]; route "/logout" [(POST, "auth::logout")]].
Definition auth_protected_router : list Endpoint := [
  route "/me" [(GET, "auth::get_me")]; route "/mfa/setup" [(POST, "auth::mfa_setup")];
  route "/mfa/verify" [(POST, "auth::mfa_verify")]; route "/password/change" [(POST, "auth::change_password")]].
Definition hosts_router : list Endpoint := [
  route "/" [(GET, "hosts::list_hosts")];
  route "/{id}" [(GET, "hosts::get_host"); (PUT, "hosts::update_host"); (DELETE, "hosts::delete_host")];
  route "/{id}/policy-sets" [(GET, "hosts::get_host_policy_sets"); (POST, "hosts::assign_policy_set")];
  route "/{id}/policy-sets/{policy_set_id}" [(DELETE, "hosts::unassign_policy_set")];
  route "/{id}/protected-cidrs" [(GET, "hosts::get_protected_cidrs"); (POST, "hosts::add_protected_cidr")];
  route "/{id}/drift-snapshots" [(GET, "hosts::get_drift_snapshots")];
  route "/{id}/force-check-in" [(POST, "hosts::force_check_in")];
  route "/{id}/check-ins" [(GET, "hosts::get_check_ins")]].
Definition groups_router : list Endpoint := [
  route "/" [(GET, "groups::list_groups"); (POST, "groups::create_group")];
  route "/{id}" [(GET, "groups::get_group"); (DELETE, "groups::delete_group")];
  route "/{id}/hosts/{host_id}" [(POST, "groups::add_host_to_group"); (DELETE, "groups::remove_host_from_group")]].
Definition users_router : list Endpoint := [
  route "/" [(GET, "users::list_users"); (POST, "users::create_user")];
  route "/{id}" [(GET, "users::get_user"); (PUT, "users::update_user"); (DELETE, "users::delete_user")]].
Definition rules_router : list Endpoint := [
  route "/" [(GET, "rules::list_rules")];
  route "/flagged" [(GET, "rules::list_flagged_rules")];
  route "/{id}" [(GET, "rules::get_rule"); (PUT, "rules::update_rule"); (DELETE, "rules::delete_rule")];
  route "/{id}/validate" [(POST, "rules::validate_rule")]].
Definition rule_groups_router : list Endpoint := [
  route "/" [(GET, "rule_groups::list_rule_groups"); (POST, "rule_groups::create_rule_group")];
  route "/{id}" [(GET, "rule_groups::get_rule_group"); (PUT, "rule_groups::update_rule_group"); (DELETE, "rule_groups::delete_rule_group")];
  route "/{id}/rules" [(GET, "rule_groups::list_group_rules"); (POST, "rule_groups::create_rule_in_group")];
  route "/{id}/rules/reorder" [(PUT, "rule_groups::reorder_group_rules")]].
Definition policy_sets_router : list Endpoint := [
  route "/" [(GET, "policy_sets::list_policy_sets"); (POST, "policy_sets::create_policy_set")];
  route "/{id}" [(GET, "policy_sets::get_policy_set"); (PUT, "policy_sets::update_policy_set"); (DELETE, "policy_sets::delete_policy_set")];
  route "/{id}/rules" [(GET, "policy_sets::list_policy_set_rules")];
  route "/{id}/preview" [(POST, "policy_sets::preview_compilation")];
  route "/{id}/rule-groups" [(GET, "policy_sets::list_policy_set_groups"); (POST, "policy_sets::add_group_to_set")];
  route "/{id}/rule-groups/reorder" [(PUT, "policy_sets::reorder_groups")];
  route "/{id}/rule-groups/{group_id}" [(DELETE, "policy_sets::remove_group_from_set")]].
Definition deployment_router : list Endpoint := [
  route "/assign" [(POST, "deployment::assign_policy_set")]; route "/unassign" [(POST, "deployment::unassign_policy_set")];
  route "/preview" [(POST, "deployment::preview_assignment")]].
Definition ca_router : list Endpoint := [route "/" [(GET, "ca::get_ca_info")]; route "/crl" [(GET, "ca::get_crl")]].
Definition certificates_router : list Endpoint := [
  route "/" [(GET, "certificates::list_certs")]; route "/{id}" [(GET, "certificates::get_cert")];
  route "/{id}/revoke" [(POST, "certificates::revoke_cert")]].
Definition drift_router : list Endpoint := [route "/snapshots" [(GET, "drift::list_drift_snapshots")]].
Definition settings_router : list Endpoint := [
  route "/" [(GET, "settings::get_settings"); (PUT, "settings::update_settings")];
  route "/ip-whitelist" [(GET, "settings::get_ip_whitelist"); (PUT, "settings::update_ip_whitelist")];
  route "/trusted-proxies" [(GET, "settings::get_trusted_proxies"); (PUT, "settings::update_trusted_proxies")];
  route "/oidc" [(GET, "settings::get_oidc_config"); (PUT, "settings::update_oidc_config")];
  route "/smtp" [(GET, "settings::get_smtp_config"); (PUT, "settings::update_smtp_config")]].
Definition enrollment_router : list Endpoint := [
  route "/enroll" [(POST, "enrollment::submit_enrollment")];
  route "/enroll/status/{token}" [(GET, "enrollment::poll_enrollment_status")]].
Definition enrollment_admin_router : list Endpoint := [
  route "/enrollments" [(GET, "enrollment::list_enrollments")];
  route "/enrollments/{id}/approve" [(POST, "enrollment::approve_enrollment")];
  route "/enrollments/{id}/deny" [(POST, "enrollment::deny_enrollment")];
  route "/enrollment-tokens" [(GET, "enrollment::list_tokens"); (POST, "enrollment::create_token")];
  route "/enrollment-tokens/{hash}" [(POST, "enrollment::revoke_token")]].
Definition pki_router : list Endpoint := [route "/pki/crl.pem" [(GET, "pki::get_crl_pem")]].
Definition agent_api_router : list Endpoint := [
  route "/check-in" [(POST, "agent_api::check_in")]; route "/check-in/result" [(POST, "agent_api::check_in_result")];
  route "/policy" [(GET, "agent_api::get_policy")]; route "/whoami" [(GET, "agent_api::whoami")]; route "/events" [(GET, "agent_api::events")]].

(** ** The two servers *)

Definition protected_api : list Endpoint :=
  layer RequireAuth (layer (RateLimit "api")
    (route "/status/fleet" [(GET, "health::fleet_status_handler")] ::
     nest "/auth" auth_protected_router ++ nest "/hosts" hosts_router ++ nest "/groups" groups_router ++ nest "/users" users_router ++
     nest "/rules" rules_router ++ nest "/rule-groups" rule_groups_router ++ nest "/policy-sets" policy_sets_router ++
     nest "/deployment" deployment_router ++ nest "/ca" ca_router ++ nest "/certificates" certificates_router ++
     nest "/drift" drift_router ++ nest "/settings" settings_router ++ nest "/admin" enrollment_admin_router)).

Definition build_router : list Endpoint :=
  layer Trace (layer RequestId
    (route "/status/health" [(GET, "health::health_handler")] ::
     nest "/api/v1/auth" (layer (RateLimit "auth") auth_public_router) ++
     nest "/api/v1" (layer (RateLimit "enrollment") enrollment_router) ++
     nest "/api/v1" (layer (RateLimit "api") pki_router) ++
     nest "/api/v1" protected_api)).

Definition agent_router : list Endpoint := nest "/api/v1/agent" agent_api_router.

(** ** Finding the route *)

(** The captures of a path that matches; a capture takes a nonempty segment. *)
Fixpoint match_path (p : list Seg) (segs : list string) : option (list string) :=
  match p, segs with
  | [], [] => Some []
  | Lit l :: p', s :: segs' => if bool_decide (l = s) then match_path p' segs' else None
  | Cap _ :: p', s :: segs' => if is_empty s then None else cons s <$> match_path p' segs'
  | _, _ => None
  end.

(** Of two patterns that match the same path, the one with a literal where they first differ. *)
Fixpoint more_literal (p q : list Seg) : bool :=
  match p, q with
  | Lit _ :: p', Lit _ :: q' | Cap _ :: p', Cap _ :: q' => more_literal p' q'
  | Lit _ :: _, Cap _ :: _ => true
  | _, _ => false
  end.

Definition better (best : option (Endpoint * list string)) (e : Endpoint) (segs : list string) : option (Endpoint * list string) :=
  match match_path (ep_path e) segs with
  | None => best
  | Some caps =>
      match best with
      | Some (b, _) => if more_literal (ep_path e) (ep_path b) then Some (e, caps) else best
      | None => Some (e, caps)
      end
  end.

Definition find_endpoint (r : list Endpoint) (segs : list string) : option (Endpoint * list string) :=
  foldl (fun best e => better best e segs) None r.

Definition find_method (m : Method) (e : Endpoint) : option string :=
  snd <$> List.find (fun x => bool_decide (x.1 = m)) (ep_methods e).

(** ** Serving a request *)

Record HttpRequest := mkHttpRequest { hq_method : Method; hq_path : string; hq_auth : Request }.

(** How a request ends: the files of the user interface, no such method, a layer's
    refusal, or what the handler answers. *)
Inductive Served (R : Type) := Fallback | MethodNotAllowed | Refused (r : Refusal) | Handled (r : R).
Arguments Fallback {R}.
Arguments MethodNotAllowed {R}.
Arguments Refused {R} r.
Arguments Handled {R} r.

Section serve.
Context {IPN : IpNetLib} {JWT : Jwt} {UT : UuidText} {SQL : Sql}.
Context {R : Type}.
(** The handlers, by name, with the captures and the identity a layer left. *)
Variable handler : string -> list string -> option AuthUser -> M Db AppError R.
Variable config : AuthConfig.
(** Whether a governor refuses the request (its quota is the [tower_governor] crate's). *)
Variable limited : string -> bool.

Fixpoint run_layers (ls : list Layer) (q : Request) (user : option AuthUser) (inner : option AuthUser -> M Db AppError (Served R))
  : M Db AppError (Served R) :=
  match ls with
  | [] => inner user
  | (RequestId | Trace) :: ls' => run_layers ls' q user inner
  | RateLimit g :: ls' => if limited g then mret (Refused (429%Z, "Too Many Requests")) else run_layers ls' q user inner
  | RequireAuth :: ls' =>
      r ← require_auth config q;
      match r with
      | Ok u => run_layers ls' q (Some u) inner
      | Err refusal => mret (Refused refusal)
      end
  end.

Definition serve (r : list Endpoint) (q : HttpRequest) : M Db AppError (Served R) :=
  match find_endpoint r (segments (hq_path q)) with
  | None => mret Fallback
  | Some (e, caps) =>
      run_layers (ep_layers e) (hq_auth q) None (fun user =>
        match find_method (hq_method q) e with
        | None => mret MethodNotAllowed
        | Some name => r ← handler name caps user; mret (Handled r)
        end)
  end.
End serve.

(** ** Theorems *)

(** The handlers that answer without a token. *)
Definition public_handlers : list string :=
  ["health::health_handler"; "auth::login"; "auth::refresh_token"; "auth::logout"; "enrollment::submit_enrollment";
   "enrollment::poll_enrollment_status"; "pki::get_crl_pem"].

Definition guarded (e : Endpoint) : bool := bool_decide (RequireAuth ∈ ep_layers e).

Lemma unguarded_public e name : e ∈ build_router -> guarded e = false -> name ∈ (ep_methods e).*2 -> name ∈ public_handlers.
Proof.
  intros He Hg Hn. assert (Forall (fun e => guarded e = true \/ Forall (fun n => n ∈ public_handlers) (ep_methods e).*2) build_router) as Hall.
  { apply (bool_decide_unpack _). vm_compute. exact I. }
  rewrite Forall_forall in Hall. destruct (Hall e He) as [?|H]; [congruence|]. rewrite Forall_forall in H. by apply H.
Qed.

Lemma layers_once e : e ∈ build_router -> NoDup (ep_layers e).
Proof.
  intros He. assert (Forall (fun e => NoDup (ep_layers e)) build_router) as Hall by (apply (bool_decide_unpack _); vm_compute; exact I).
  rewrite Forall_forall in Hall. by apply Hall.
Qed.

Lemma find_endpoint_in r segs e caps : find_endpoint r segs = Some (e, caps) -> e ∈ r.
Proof.
  unfold find_endpoint. assert (forall best, foldl (fun b e => better b e segs) best r = Some (e, caps) -> best = Some (e, caps) \/ e ∈ r) as H.
  { induction r as [|x r IH]; intros best H; cbn in H; [by left|]. destruct (IH _ H) as [Hb|]; [|right; by right].
    unfold better in Hb. repeat case_match; simplify_eq; try (by left); right; by left. }
  intros Hf. by destruct (H None Hf).
Qed.

Lemma find_method_in m e name : find_method m e = Some name -> name ∈ (ep_methods e).*2.
Proof.
  unfold find_method. destruct (List.find _ _) as [x|] eqn:Hf; [|done]. intros [= <-]. apply find_some in Hf as [Hin _].
  apply list_elem_of_fmap. exists x. split; [done|]. by apply list_elem_of_In.
Qed.

Section facts.
Context {IPN : IpNetLib} {JWT : Jwt} {UT : UuidText} {SQL : Sql} {R : Type}.
Variable handler : string -> list string -> option AuthUser -> M Db AppError R.
Variable config : AuthConfig.
Variable limited : string -> bool.

(** A guarded route reaches its handler only as the user [require_auth] found, an
    unguarded one in the state the request came in. *)
Lemma run_layers_handled ls q user (inner : option AuthUser -> M Db AppError (Served R)) d r d' : NoDup ls ->
  run_layers config limited ls q user inner d = (Ok (Handled r), d') ->
  exists user' d1, inner user' d1 = (Ok (Handled r), d') /\ (RequireAuth ∉ ls -> user' = user /\ d1 = d) /\
    (RequireAuth ∈ ls -> exists u, user' = Some u /\ require_auth (E:=AppError) config q d = (Ok (Ok u), d1)).
Proof.
  intros Hnd. revert user d. induction Hnd as [|l ls Hl Hnd IH]; intros user d H; cbn in H.
  - exists user, d. split; [done|]. split; [done|]. by intros ?%not_elem_of_nil.
  - destruct (decide (l = RequireAuth)) as [->|Hne].
    + apply bind_inv_ok in H as ([u|e] & d2 & Ha & H); [|discriminate]. destruct (IH (Some u) d2 H) as (u' & d1 & Hi & Hn & _).
      destruct (Hn Hl) as [-> ->]. exists (Some u), d2. split; [done|]. split; [by intros []%not_elem_of_cons|]. intros _. by exists u.
    + assert (run_layers config limited ls q user inner d = (Ok (Handled r), d')) as H0.
      { destruct l; try done. by destruct (limited governor). }
      destruct (IH user d H0) as (u' & d1 & Hi & Hn & Hr). exists u', d1. split; [done|]. split.
      * intros [_ Hx]%not_elem_of_cons. by apply Hn.
      * intros [Hx|Hx]%elem_of_cons; [by destruct Hne|by apply Hr].
Qed.

(** What a request that reaches its handler has passed. *)
Lemma serve_handled_at q d r d' e caps : find_endpoint build_router (segments (hq_path q)) = Some (e, caps) ->
  serve handler config limited build_router q d = (Ok (Handled r), d') ->
  exists name user d1, find_method (hq_method q) e = Some name /\ handler name caps user d1 = (Ok r, d') /\
    ((name ∈ public_handlers /\ user = None /\ d1 = d) \/
     exists u, user = Some u /\ require_auth (E:=AppError) config (hq_auth q) d = (Ok (Ok u), d1)).
Proof.
  intros He. unfold serve. rewrite He. intros H. assert (e ∈ build_router) as Hin by by eapply find_endpoint_in.
  destruct (run_layers_handled _ _ _ _ _ _ _ (layers_once e Hin) H) as (user & d1 & Hh & Hu & Hg).
  destruct (find_method (hq_method q) e) as [name|] eqn:Hm; [|discriminate Hh]. apply bind_inv_ok in Hh as (r' & d2 & Hh & Hr). inv_ret Hr. exists name, user, d1. split; [done|]. split; [done|].
  destruct (decide (RequireAuth ∈ ep_layers e)) as [Hge|Hge]; [right; by apply Hg|]. left. split; [|by apply Hu].
  eapply unguarded_public; [done|by apply bool_decide_eq_false_2|by eapply find_method_in].
Qed.

Lemma serve_handled q d r d' : serve handler config limited build_router q d = (Ok (Handled r), d') ->
  exists name caps user d1, handler name caps user d1 = (Ok r, d') /\
    ((name ∈ public_handlers /\ user = None /\ d1 = d) \/
     exists u, user = Some u /\ require_auth (E:=AppError) config (hq_auth q) d = (Ok (Ok u), d1)).
Proof.
  intros H. destruct (find_endpoint build_router (segments (hq_path q))) as [[e caps]|] eqn:He.
  - destruct (serve_handled_at _ _ _ _ _ _ He H) as (name & user & d1 & _ & Hrest). by exists name, caps, user, d1.
  - unfold serve in H. by rewrite He in H.
Qed.

(** Up to the handler, a request only reads. *)
Lemma serve_keeps (P : Db -> Prop) (h : string -> list string -> option AuthUser -> M Db AppError R) r q : faults_irrelevant P ->
  (forall name caps user, keeps P (h name caps user)) -> keeps P (serve h config limited r q).
Proof.
  intros HP Hh. assert (keeps P (require_auth (E:=AppError) config (hq_auth q))) as Hauth.
  { unfold require_auth, is_jti_revoked. cbv zeta.
    repeat (case_match || (apply keeps_bind; [|intros ?])); auto using keeps_ret, keeps_gets, keeps_attempt, keeps_fetch. }
  unfold serve. destruct (find_endpoint _ _) as [[e caps]|]; [|apply keeps_ret]. generalize (@None AuthUser).
  induction (ep_layers e) as [|l ls IH]; intros user; cbn.
  - destruct (find_method _ e); [|apply keeps_ret]. apply keeps_bind; [apply Hh|intros; apply keeps_ret].
  - destruct l; [apply IH|apply IH| |destruct (limited _); [apply keeps_ret|apply IH]].
    apply keeps_bind; [exact Hauth|]. intros [u|e']; [apply IH|apply keeps_ret].
Qed.

(** C20. No handler without authentication: whatever request reaches a handler of the
    users' server, either that handler is one of the seven public ones, run
    without an identity, or [require_auth] let the request through first and the
    handler acts as the user it found. *)
Theorem handlers_authenticated q d r d' : serve handler config limited build_router q d = (Ok (Handled r), d') ->
  exists name caps user d1, handler name caps user d1 = (Ok r, d') /\
    ((name ∈ public_handlers /\ user = None /\ d1 = d) \/
     exists u, user = Some u /\ require_auth (E:=AppError) config (hq_auth q) d = (Ok (Ok u), d1)).
Proof. apply serve_handled. Qed.
End facts.

(** ** Every route is reachable *)

(** The path with its captures filled in. *)
Fixpoint fill (p : list Seg) (args : list string) : list string :=
  match p, args with
  | Lit l :: p', _ => l :: fill p' args
  | Cap _ :: p', a :: args' => a :: fill p' args'
  | _, _ => []
  end.
Definition captures (p : list Seg) : nat := length (List.filter (fun s => match s with Cap _ => true | Lit _ => false end) p).

(** The literals a route table uses. *)
Definition pattern_literals (p : list Seg) : list string := concat (map (fun s => match s with Lit l => [l] | Cap _ => [] end) p).
Definition literals (r : list Endpoint) : list string := concat (map (fun e => pattern_literals (ep_path e)) r).

(** Whether two patterns have the same shape; [axum] refuses such a pair when it builds the router. *)
Fixpoint same_shape (p q : list Seg) : bool :=
  match p, q with
  | [], [] => true
  | Lit a :: p', Lit b :: q' => bool_decide (a = b) && same_shape p' q'
  | Cap _ :: p', Cap _ :: q' => same_shape p' q'
  | _, _ => false
  end.
Fixpoint shapes_distinct (r : list Endpoint) : bool :=
  match r with
  | [] => true
  | e :: r' => forallb (fun e' => negb (same_shape (ep_path e) (ep_path e'))) r' && shapes_distinct r'
  end.

Lemma build_router_distinct : shapes_distinct build_router = true.
Proof. vm_compute. reflexivity. Qed.

Lemma match_fill p args : length args = captures p -> Forall (fun a => is_empty a = false) args -> match_path p (fill p args) = Some args.
Proof.
  revert args. induction p as [|[l|n] p IH]; intros args Hl Ha; cbn in *.
  - by destruct args.
  - rewrite bool_decide_eq_true_2 by done. by apply IH.
  - destruct args as [|a args]; [done|]. injection Hl as Hl. apply Forall_cons in Ha as [Ha1 Ha]. cbn. by rewrite Ha1, IH.
Qed.

(** A pattern that also matches has captures wherever the filled one has. *)
Lemma match_other p p' args caps : match_path p' (fill p args) = Some caps -> length args = captures p ->
  Forall (fun a => a ∉ pattern_literals p') args ->
  same_shape p p' = true \/ (more_literal p p' = true /\ more_literal p' p = false).
Proof.
  revert p' args caps. induction p as [|[l|n] p IH]; intros p' args caps Hm Hl Ha; cbn in Hm, Hl.
  - destruct p' as [|[]]; [by left|done..].
  - destruct p' as [|[l'|n'] p']; cbn in Hm; [done| |by right].
    case_bool_decide; [|done]. subst l'. destruct (IH p' args caps Hm Hl) as [Hs|Hs]; [|left; cbn; by rewrite bool_decide_eq_true_2|right; exact Hs].
    eapply Forall_impl; [exact Ha|]. intros a Hna. cbn in Hna. by apply not_elem_of_cons in Hna as [].
  - destruct args as [|a args]; [done|]. injection Hl as Hl. apply Forall_cons in Ha as [Hna Ha]. cbn in Hm.
    destruct p' as [|[l'|n'] p']; cbn in Hm; [done| |].
    + case_bool_decide; [|done]. subst l'. destruct Hna. cbn. by left.
    + destruct (is_empty a); [done|]. destruct (match_path p' (fill p args)) as [c|] eqn:Hc; [|done].
      destruct (IH p' args c Hc Hl Ha) as [Hs|Hs]; [by left|by right].
Qed.

Lemma shape_sym p q : same_shape p q = same_shape q p.
Proof.
  revert q. induction p as [|[l|n] p IH]; intros [|[l'|n'] q]; cbn; try done. rewrite IH. f_equal. apply bool_decide_ext. naive_solver.
Qed.

(** Every route is reachable: in a table without two patterns of one shape, the
    path of a route, with its captures filled by nonempty segments that are not
    literals of the table (ids and tokens are not), finds that route and those
    captures. *)
Lemma find_filled r e args : shapes_distinct r = true -> e ∈ r -> length args = captures (ep_path e) ->
  Forall (fun a => is_empty a = false /\ a ∉ literals r) args -> find_endpoint r (fill (ep_path e) args) = Some (e, args).
Proof.
  intros Hd He Hl Ha. pose proof (match_fill (ep_path e) args Hl ltac:(eapply Forall_impl; [exact Ha|naive_solver])) as Hme.
  set (segs := fill (ep_path e) args) in *.
  assert (forall x c, x ∈ r -> match_path (ep_path x) segs = Some c -> same_shape (ep_path e) (ep_path x) = true \/
    (more_literal (ep_path e) (ep_path x) = true /\ more_literal (ep_path x) (ep_path e) = false)) as Hoth.
  { intros x c Hx Hc. eapply match_other; [exact Hc|done|]. eapply Forall_impl; [exact Ha|]. intros a [_ Hna] Hin. apply Hna.
    unfold literals. apply list_elem_of_In, in_concat. exists (pattern_literals (ep_path x)). split; [|by apply list_elem_of_In].
    apply in_map_iff. exists x. split; [done|by apply list_elem_of_In]. }
  assert (forall r' best, (forall x, x ∈ r' -> x ∈ r) -> shapes_distinct r' = true ->
    match best with
    | Some (b, c) => (b = e /\ c = args /\ forall x, x ∈ r' -> same_shape (ep_path e) (ep_path x) = false) \/
        (e ∈ r' /\ more_literal (ep_path e) (ep_path b) = true)
    | None => e ∈ r'
    end -> foldl (fun b x => better b x segs) best r' = Some (e, args)) as Hfold.
  { induction r' as [|x r' IH]; intros best Hsub Hdis Hb; cbn.
    - destruct best as [[b c]|]; [destruct Hb as [(-> & -> & _)|[?%not_elem_of_nil _]]; done|by apply not_elem_of_nil in Hb].
    - cbn in Hdis. apply andb_true_iff in Hdis as [Hx Hdis]. rewrite forallb_forall in Hx.
      assert (forall y, y ∈ r' -> same_shape (ep_path x) (ep_path y) = false) as Hxs.
      { intros y Hy%list_elem_of_In. by apply negb_true_iff, Hx. }
      assert (forall y, y ∈ r' -> y ∈ r) as Hsub' by (intros y Hy; apply Hsub; by right). apply IH; [done|done|]. unfold better.
      destruct best as [[b c]|].
      + destruct Hb as [(-> & -> & Hns)|[Hin Hlit]].
        * destruct (match_path (ep_path x) segs) as [c|] eqn:Hc.
          -- destruct (Hoth x c (Hsub x ltac:(left)) Hc) as [Hs|[_ Hs]]; [by rewrite (Hns x ltac:(left)) in Hs|]. rewrite Hs. left.
             split_and!; [done|done|]. intros y Hy. apply Hns. by right.
          -- left. split_and!; [done|done|]. intros y Hy. apply Hns. by right.
        * apply elem_of_cons in Hin as [<-|Hin]; [rewrite Hme, Hlit; by left|].
          destruct (match_path (ep_path x) segs) as [c'|] eqn:Hc; [|by right]. destruct (more_literal (ep_path x) (ep_path b)); [|by right].
          right. split; [done|]. destruct (Hoth x c' (Hsub x ltac:(left)) Hc) as [Hs|[Hs _]]; [|done].
          rewrite shape_sym, (Hxs e Hin) in Hs. done.
      + apply elem_of_cons in Hb as [<-|Hb]; [rewrite Hme; by left|].
        destruct (match_path (ep_path x) segs) as [c'|] eqn:Hc; [|done]. right. split; [done|].
        destruct (Hoth x c' (Hsub x ltac:(left)) Hc) as [Hs|[Hs _]]; [|done]. rewrite shape_sym, (Hxs e Hb) in Hs. done. }
  by apply (Hfold r None).
Qed.

(** A filled path, as a request has it. *)
Definition path_of (segs : list string) : string := fold_right (fun s acc => "/" +:+ s +:+ acc) "" segs.

Lemma agent_router_distinct : shapes_distinct agent_router = true.
Proof. vm_compute. reflexivity. Qed.

Definition no_slash (s : string) : bool := negb (str_existsb (fun c => bool_decide ("/"%char = c)) s).

Lemma split_char_cut c x y : str_existsb (fun d => bool_decide (c = d)) x = false -> split_char c (x +:+ String c y) = x :: split_char c y.
Proof.
  induction x as [|d x IH]; simpl; intros H; [simpl; by rewrite bool_decide_eq_true_2|]. apply orb_false_iff in H as [Hd Hx].
  rewrite Hd, IH by done. done.
Qed.
Lemma split_char_none c x : str_existsb (fun d => bool_decide (c = d)) x = false -> split_char c x = [x].
Proof. induction x as [|d x IH]; cbn [str_existsb split_char]; intros H; [done|]. apply orb_false_iff in H as [Hd Hx]. by rewrite Hd, IH. Qed.

(** Segments without a slash are read back from the path. *)
Lemma segments_path_of x l : Forall (fun s => no_slash s = true) (x :: l) -> x <> "" -> segments (path_of (x :: l)) = x :: l.
Proof.
  intros Hf Hx. assert (forall y l', Forall (fun s => no_slash s = true) (y :: l') -> split_char "/" (y +:+ path_of l') = y :: l') as Hs.
  { intros y l'. revert y. induction l' as [|z l' IH]; intros y [Hy Hl]%Forall_cons; unfold no_slash in Hy; apply negb_true_iff in Hy.
    - change (path_of []) with "". by rewrite str_app_nil_r, split_char_none.
    - change (path_of (z :: l')) with (String "/" (z +:+ path_of l')). by rewrite split_char_cut, IH. }
  unfold segments. change (path_of (x :: l)) with (String "/" (x +:+ path_of l)). destruct x as [|c x]; [done|]. by apply (Hs (String c x)).
Qed.

(** Every route of the two servers is reachable, and is the one that answers: the
    path of a route, its captures filled with any nonempty segments that contain no
    slash and are none of the words the routes are made of (no id, hash or token
    is), is answered by that route with exactly those captures, whatever order the
    routes were added in. *)
Theorem routes_reachable r e args : r = build_router \/ r = agent_router -> e ∈ r -> length args = captures (ep_path e) ->
  Forall (fun a => is_empty a = false /\ no_slash a = true /\ a ∉ literals r) args ->
  find_endpoint r (segments (path_of (fill (ep_path e) args))) = Some (e, args).
Proof.
  intros Hr He Hl Ha.
  assert (Forall (fun e => match ep_path e with Lit l :: _ => negb (is_empty l) | _ => false end = true /\
    Forall (fun l => no_slash l = true) (pattern_literals (ep_path e))) r) as Hlit.
  { destruct Hr as [-> | ->]; apply (bool_decide_unpack _); vm_compute; exact I. }
  rewrite Forall_forall in Hlit. destruct (Hlit e He) as [Hh Hns].
  assert (Forall (fun s => no_slash s = true) (fill (ep_path e) args)) as Hf.
  { clear - Hns Ha. revert args Ha. induction (ep_path e) as [|[l|n] p IH]; intros args Ha; cbn in *; [done| |].
    - apply Forall_cons in Hns as [Hl Hns]. apply Forall_cons. split; [done|by apply IH].
    - destruct args as [|a args]; [done|]. apply Forall_cons in Ha as [(_ & Hn & _) Ha]. apply Forall_cons. split; [done|by apply IH]. }
  destruct (ep_path e) as [|[l|n] p] eqn:Hp; [done| |done]. cbn [fill] in *.
  rewrite segments_path_of by (try done; by intros ->). change (l :: fill p args) with (fill (Lit l :: p) args). rewrite <- Hp.
  apply find_filled; [by destruct Hr as [-> | ->]; [apply build_router_distinct|apply agent_router_distinct]|done|by rewrite Hp|].
  eapply Forall_impl; [exact Ha|]. naive_solver.
Qed.

(** ** Witnesses *)

Definition ex_http : HttpRequest := mkHttpRequest GET "/api/v1/hosts/h1/check-ins" ex_request.
Definition ex_handler (name : string) (caps : list string) (u : option AuthUser) : M Db AppError (string * list string * option UserRole) :=
  mret (name, caps, au_role <$> u).

Lemma handlers_authenticated_witness :
  let run := @serve toy_ipnet toy_jwt toy_uuid_text toy_sql _ ex_handler ex_auth_config (fun _ => false) build_router ex_http auth_db in
  run = (Ok (Handled ("hosts::get_check_ins", ["h1"], Some Operator)), auth_db) /\
  exists name caps user d1, ex_handler name caps user d1 = (Ok ("hosts::get_check_ins", ["h1"], Some Operator), auth_db) /\
    ((name ∈ public_handlers /\ user = None /\ d1 = auth_db) \/
     exists u, user = Some u /\
       @require_auth toy_ipnet toy_uuid_text toy_jwt toy_sql AppError ex_auth_config ex_request auth_db = (Ok (Ok u), d1)).
Proof.
  intros run. assert (run = (Ok (Handled ("hosts::get_check_ins", ["h1"], Some Operator)), auth_db)) as H by (vm_compute; reflexivity).
  split; [exact H|].
  exact (@handlers_authenticated toy_ipnet toy_jwt toy_uuid_text toy_sql _ ex_handler ex_auth_config (fun _ => false) ex_http auth_db _ _ H).
Defined.

Lemma routes_reachable_witness :
  let e := layer Trace (layer RequestId (nest "/api/v1" (layer RequireAuth (layer (RateLimit "api")
    (nest "/hosts" [route "/{id}/policy-sets/{policy_set_id}" [(DELETE, "hosts::unassign_policy_set")]]))))) in
  exists x, e = [x] /\ path_of (fill (ep_path x) ["a1"; "b2"]) = "/api/v1/hosts/a1/policy-sets/b2" /\
    find_endpoint build_router (segments (path_of (fill (ep_path x) ["a1"; "b2"]))) = Some (x, ["a1"; "b2"]).
Proof.
  intros e. eexists. split; [vm_compute; reflexivity|]. split; [vm_compute; reflexivity|].
  apply (routes_reachable build_router _ ["a1"; "b2"]).
  - by left.
  - apply (bool_decide_unpack _). vm_compute. exact I.
  - reflexivity.
  - apply (bool_decide_unpack _). vm_compute. exact I.
Defined.
