(* ===== verification/AgentApi.v ===== *)
(** * AgentApi: the manager's side of the pull model

    [crates/fw-web/src/routes/agent_api.rs] ([check_in], [check_in_result],
    [get_policy], the events hold time) and the queries of
    [crates/fw-core/src/policy.rs] that flatten a policy set into its ordered
    rule list. The caller's host id comes from the verified client certificate
    ([mtls/host_authz.rs]), so it is an argument of the handlers. *)

From S2P Require Import Prelude Text Models Net Policy Wire Db AuditLog.

(** ** The compiled policy of a set *)

(** [firewall_policy_set_rule_groups psrg JOIN firewall_rules r]. *)
Definition policy_join (ps : Uuid) (d : Db) : list (FirewallPolicySetRuleGroup * RuleRow) :=
  concat (map (fun sg => map (pair sg)
      (List.filter (fun r => bool_decide (rr_group_id r = psrg_rule_group_id sg)) (db_rules d)))
    (List.filter (fun sg => bool_decide (psrg_policy_set_id sg = ps)) (db_set_groups d))).

(** [ORDER BY psrg.set_group_order, r.group_order, r.priority]. *)
Definition policy_key (x : FirewallPolicySetRuleGroup * RuleRow) : Z * Z * Z :=
  (psrg_set_group_order x.1, rr_group_order x.2, rule_priority (rr_rule x.2)).
Definition key_le (k k' : Z * Z * Z) : Prop :=
  let '(a, b, c) := k in let '(a', b', c') := k' in
  (a < a' \/ (a = a' /\ (b < b' \/ (b = b' /\ c <= c'))))%Z.
Definition policy_le (x y : FirewallPolicySetRuleGroup * RuleRow) : Prop := key_le (policy_key x) (policy_key y).
#[export] Instance policy_le_dec x y : Decision (policy_le x y).
Proof. unfold policy_le, key_le, policy_key. apply _. Defined.

#[export] Instance policy_le_trans : Transitive policy_le.
Proof. intros x y z. unfold policy_le, key_le, policy_key. lia. Qed.
#[export] Instance policy_le_total : Total policy_le.
Proof. intros x y. unfold policy_le, key_le, policy_key. lia. Qed.

Definition pending_le (a b : PendingActionRow) : Prop :=
  (pa_priority b < pa_priority a \/ (pa_priority a = pa_priority b /\ pa_created_at a <= pa_created_at b))%Z.
#[export] Instance pending_le_dec a b : Decision (pending_le a b).
Proof. unfold pending_le. apply _. Defined.

(** The row as the agent API serves it: enum columns as text. *)
Definition rule_to_dto (r : FirewallRule) : RuleDto := {|
  dto_id := rule_id r; dto_name := rule_name r;
  dto_action := action_as_str (rule_action r); dto_direction := direction_as_str (rule_direction r);
  dto_protocol := protocol_as_str (rule_protocol r);
  dto_src_cidr := src_cidr r; dto_src_port_start := src_port_start r; dto_src_port_end := src_port_end r;
  dto_dst_cidr := dst_cidr r; dto_dst_port_start := dst_port_start r; dto_dst_port_end := dst_port_end r;
  dto_interface_in := interface_in r; dto_interface_out := interface_out r;
  dto_priority := rule_priority r; dto_log := rule_log r
|}.

Definition host_exists (h : Uuid) (d : Db) : bool := existsb (fun r => bool_decide (h_id r = h)) (db_hosts d).

Section api.
Context {SQL : Sql} {SHA : Sha256} {JS : SerdeJson} {UT : UuidText} {RFC : Rfc3339}.

Definition policy_rules (ps : Uuid) (d : Db) : list FirewallRule :=
  map (fun x => rr_rule x.2) (sql_sort policy_le (policy_join ps d)).

Definition rules_for_policy_set (ps : Uuid) : DB (list FirewallRule) := fetch (policy_rules ps).

Definition flagged_rule_ids_for_set (ps : Uuid) : DB (list Uuid) :=
  rules ← rules_for_policy_set ps; mret (check_policy_set_for_flagged rules).

Definition fetch_rules_for_policy_set (ps : Uuid) : DB (list RuleDto) :=
  fetch (fun d => map rule_to_dto (policy_rules ps d)).

(** ** Check-in *)

Definition assigned_set (host : Uuid) (d : Db) : option Uuid :=
  hpa_policy_set_id <$> head (sql_scan (List.filter (fun a => bool_decide (hpa_host_id a = host)) (db_assignments d))).

Definition set_defaults (ps : Uuid) (d : Db) : option string * option string :=
  match head (sql_scan (List.filter (fun s => bool_decide (ps_id s = ps)) (db_policy_sets d))) with
  | Some s => (default_policy_as_str <$> ps_default_input_policy s,
               default_policy_as_str <$> ps_default_output_policy s)
  | None => (None, None)
  end.

Definition record_check_in (host : Uuid) (req : CheckInRequest) : DB unit :=
  execute_if (host_exists host) (fun d => set_db_next_uuid (db_next_uuid d + 1) (set_db_check_ins (db_check_ins d ++
    [mkCheckIn (uuid_of (db_next_uuid d)) host (req_rules_hash req) (req_agent_version req) (req_backend_type req)
       (req_os_info req) (req_uptime_seconds req) (req_config_version req) (JArr [])
       (db_now d) None None None None]) d)).

Definition mark_healthy (host : Uuid) (version : string) : DB unit :=
  execute (fun d => set_db_hosts (update_where (fun h => bool_decide (h_id h = host))
    (fun h => mkHost (h_id h) (h_fqdn h) (h_ip_address h) (h_display_name h) (h_os_family h)
                (h_os_name h) (h_arch h) (Some version) Healthy (Some (db_now d)) (h_last_sync_at h)
                (h_agent_port h) (h_notes h) (h_registered_at h) (h_updated_at h)) (db_hosts d)) d).

Definition record_drift (host : Uuid) (hash : string) (count : Z) (source : string) : DB unit :=
  execute_if (host_exists host) (fun d => set_db_next_uuid (db_next_uuid d + 1) (set_db_drift (db_drift d ++
    [mkDrift (uuid_of (db_next_uuid d)) host hash count source (db_now d)]) d)).

Definition system_event (action target_type target_id : string) (details : Json) : AuditEvent :=
  mkEvent action None None (Some target_type) (Some target_id) details None None.

(** The rules and the expected hash of the host's policy. *)
Definition expected_policy (ps : option Uuid) : DB (list RuleDto * string) :=
  match ps with
  | Some ps_id =>
      rules ← fetch_rules_for_policy_set ps_id;
      mret (rules, compute_rules_hash (map dto_hash_parts rules))
  | None => mret ([], "empty")
  end.

Definition config_for (host : Uuid) (agent_version : Z) : DB (option ConfigUpdate) :=
  row ← fetch (fun d => head (sql_scan (List.filter (fun o => bool_decide (co_host_id o = host)) (db_overrides d))));
  mret (match row with
        | Some r => if (agent_version <? co_config_version r)%Z
                    then Some (mkConfigUpdate (co_check_in_interval_secs r) (co_push_enabled r)
                                 (co_safe_mode_enabled r) (co_backend_override r) (co_config_version r))
                    else None
        | None => None
        end).

(** Queued and not expired. *)
Definition deliverable (host : Uuid) (now : DateTime) (a : PendingActionRow) : bool :=
  bool_decide (pa_host_id a = host) && bool_decide (pa_status a = Queued) && (now <? pa_expires_at a)%Z.

Definition pending_dto (a : PendingActionRow) : PendingActionDto :=
  mkPendingActionDto (pa_id a) (pending_action_type_as_str (pa_action_type a)) (pa_payload a) (pa_reason a).

Definition set_pending_status (s : PendingActionStatus) (delivered executed : option DateTime)
    (a : PendingActionRow) : PendingActionRow :=
  mkPending (pa_id a) (pa_host_id a) (pa_action_type a) (pa_payload a) (pa_reason a) (pa_priority a) s
    (pa_attempts a) (pa_max_attempts a) (pa_created_at a) (pa_first_attempt_at a) delivered executed (pa_expires_at a).

Definition take_pending (host : Uuid) : DB (list PendingActionDto) :=
  actions ← fetch (fun d => map pending_dto
    (sql_sort pending_le (List.filter (deliverable host (db_now d)) (db_pending d))));
  _ ← (match actions with
       | [] => mret tt
       | _ => execute (fun d => set_db_pending
                (update_where (fun a => bool_decide (pa_id a ∈ map pa_dto_id actions))
                   (fun a => set_pending_status Delivered (Some (db_now d)) (pa_executed_at a) a)
                   (db_pending d)) d)
       end);
  mret actions.

Definition check_in (host : Uuid) (req : CheckInRequest) : DB CheckInResponse :=
  _ ← record_check_in host req;
  _ ← mark_healthy host (req_agent_version req);
  ps ← fetch (assigned_set host);
  '(rules, expected) ← expected_policy ps;
  '(default_in, default_out) ← match ps with
    | Some ps_id => fetch (set_defaults ps_id)
    | None => mret (None, None)
    end;
  let rules_changed := negb (bool_decide (req_rules_hash req = expected)) in
  let count := wrap32 (Z.of_nat (length rules)) in
  _ ← (if rules_changed then
         _ ← ignore (record_drift host (req_rules_hash req) count "check_in_mismatch");
         log_event (system_event "drift_detected" "host" (uuid_to_string host)
           (JObj [("agent_hash", JStr (req_rules_hash req)); ("expected_hash", JStr expected)]))
       else mret tt);
  _ ← (if req_local_drift req then
         _ ← ignore (record_drift host (req_rules_hash req) count "out_of_band");
         log_event (system_event "out_of_band_drift" "host" (uuid_to_string host)
           (JObj [("agent_hash", JStr (req_rules_hash req))]))
       else mret tt);
  config ← config_for host (req_config_version req);
  actions ← take_pending host;
  mret (mkCheckInResponse rules_changed rules config actions default_in default_out).

(** ** Result reports *)

Definition check_in_result (host : Uuid) (req : CheckInResultRequest) : DB Z :=
  _ ← match res_action_id req with
      | Some action_id =>
          _ ← execute (fun d => set_db_pending
                (update_where (fun a => bool_decide (pa_id a = action_id))
                   (fun a => set_pending_status (if res_success req then Executed else Failed)
                               (pa_delivered_at a) (Some (db_now d)) a)
                   (db_pending d)) d);
          log_event (system_event (if res_success req then "rule_deployed" else "firewall_job_failed")
            "pending_action" (uuid_to_string action_id)
            (JObj [("host_id", JStr (uuid_to_string host)); ("success", JBool (res_success req));
                   ("error", JOptStr (res_error_message req))]))
      | None => mret tt
      end;
  _ ← ignore (record_drift host (res_new_rules_hash req) 0 "agent_report");
  mret 200%Z.

Definition get_policy (host : Uuid) : DB (list RuleDto) :=
  ps ← fetch (assigned_set host);
  match ps with
  | Some ps_id => fetch_rules_for_policy_set ps_id
  | None => mret []
  end.

(** How long the events stream is held. *)
Definition events_hold_secs (host : Uuid) : DB Z :=
  r ← attempt (fetch (fun d => co_check_in_interval_secs <$>
        head (sql_scan (List.filter (fun o => bool_decide (co_host_id o = host)) (db_overrides d)))));
  mret (Z.max (default 900%Z (unwrap_or None r) - 30) 30).
End api.
