(* ===== verification/Events.v ===== *)
(** * Events: force-check-in and the agents' events streams

    [force_check_in] of [crates/fw-web/src/routes/hosts.rs] and [events] of
    [crates/fw-web/src/routes/agent_api.rs]: the per-host [Notify] of [AppState]
    and the tasks that serve the streams the agents hold between their cycles.
    The tasks run interleaved with the handlers, so a task is a record with its
    place in the code and the whole is a labelled step relation, one step per
    stretch between two await points. *)

From S2P Require Import Prelude Text Models Net Policy Wire Db AuditLog AgentApi.

(** ** [tokio::sync::Notify]

    Its waiters are the tasks with a polled and incomplete [Notified]. *)
Class TokioNotify := {
  Notify : Type;
  permit : Notify -> bool;
  waiters : Notify -> list nat;
  notify_new : Notify;
  (** [notify_one], with the task it wakes. *)
  notify_one : Notify -> Notify * option nat;
  (** The first poll of a new [Notified] by a task: whether it completes. *)
  notified_poll : nat -> Notify -> Notify * bool;
  (** Dropping an incomplete [Notified] of a task that was not woken. *)
  notified_drop : nat -> Notify -> Notify;
  (** Dropping the [Notified] of a task that was woken and has not run since. *)
  notified_forward : Notify -> Notify * option nat
}.

(** What its documentation says: at most one permit is stored, [notify_one] wakes
    the task that waits longest and stores a permit when none waits, a stored
    permit completes the next [notified] at once, a cancelled [notified] loses its
    place, and a notification that was not received goes to the next in line. *)
Class TokioNotifyLaws `{!TokioNotify} := {
  notify_new_spec : permit notify_new = false /\ waiters notify_new = [];
  notify_one_idle n : waiters n = [] ->
    (notify_one n).2 = None /\ permit (notify_one n).1 = true /\ waiters (notify_one n).1 = [];
  notify_one_wakes n t ts : waiters n = t :: ts ->
    (notify_one n).2 = Some t /\ permit (notify_one n).1 = permit n /\ waiters (notify_one n).1 = ts;
  notified_poll_permit t n : permit n = true ->
    (notified_poll t n).2 = true /\ permit (notified_poll t n).1 = false /\ waiters (notified_poll t n).1 = waiters n;
  notified_poll_wait t n : permit n = false ->
    (notified_poll t n).2 = false /\ permit (notified_poll t n).1 = false /\ waiters (notified_poll t n).1 = waiters n ++ [t];
  notified_drop_spec t n :
    permit (notified_drop t n) = permit n /\ waiters (notified_drop t n) = filter (fun u => u <> t) (waiters n);
  notified_forward_spec n : notified_forward n = notify_one n
}.

(** ** The tasks *)

Inductive SseEvent := CheckInEvent | TimeoutEvent.

#[export] Instance SseEvent_eq_dec : EqDecision SseEvent.
Proof. solve_decision. Defined.

(** Where the task of a stream is: spawned; at the head of its loop; in [select!]
    with its [Notified] waiting or woken; sending an event; done. *)
Inductive Phase := TStart (hold : Z) | TLoop | TWait | TWoken | TSend (e : SseEvent) | TEnd.

(** A stream: its task, and its client's end: whether the response is still held,
    what the channel holds and what went out. *)
Record EventTask := mkTask {
  et_host : Uuid; et_deadline : DateTime; et_phase : Phase;
  et_open : bool; et_channel : list SseEvent; et_delivered : list SseEvent
}.

Definition at_phase (p : Phase) (k : EventTask) : EventTask :=
  mkTask (et_host k) (et_deadline k) p (et_open k) (et_channel k) (et_delivered k).

(** [mpsc::channel(8)]. *)
Definition CHANNEL_CAPACITY : nat := 8.

Section events.
Context {SQL : Sql} {TN : TokioNotify}.

Record Events := mkEvents { es_db : Db; es_notify : gmap Uuid Notify; es_tasks : list EventTask }.

(** [host_notify.entry(id).or_insert_with(Notify::new)]. *)
Definition notify_of (h : Uuid) (s : Events) : Notify := default notify_new (es_notify s !! h).
Definition set_notify (h : Uuid) (n : Notify) (s : Events) : Events :=
  mkEvents (es_db s) (<[h := n]> (es_notify s)) (es_tasks s).
Definition set_task (t : nat) (k : EventTask) (s : Events) : Events :=
  mkEvents (es_db s) (es_notify s) (<[t := k]> (es_tasks s)).

(** The woken task leaves the queue. *)
Definition wake (w : option nat) (s : Events) : Events :=
  match w with
  | Some t => match es_tasks s !! t with Some k => set_task t (at_phase TWoken k) s | None => s end
  | None => s
  end.

(** What [Notify] answered for a host, put into effect. *)
Definition notify_result (h : Uuid) (r : Notify * option nat) (s : Events) : Events := wake r.2 (set_notify h r.1 s).

(** ** The handlers *)

Definition force_check_in (h : Uuid) : M Events AppError Z := fun s =>
  let '(r, d) := fetch (host_exists h) (es_db s) in
  let s' := mkEvents d (es_notify s) (es_tasks s) in
  match r with
  | Err e => (Err e, s')
  | Ok false => (Err (NotFound "Host not found"), s')
  | Ok true => (Ok 202%Z, notify_result h (notify_one (notify_of h s')) s')
  end.

Definition events (h : Uuid) : M Events AppError unit := fun s =>
  let '(r, d) := events_hold_secs h (es_db s) in
  let s' := mkEvents d (es_notify s) (es_tasks s) in
  match r with
  | Err e => (Err e, s')
  | Ok hold => (Ok tt, mkEvents d (<[h := notify_of h s']> (es_notify s'))
                 (es_tasks s' ++ [mkTask h 0 (TStart hold) true [] []]))
  end.

(** ** The loop of a task, between two await points *)

(** [let deadline = Instant::now() + hold]. *)
Definition task_start (hold : Z) (k : EventTask) (s : Events) : EventTask :=
  mkTask (et_host k) (db_now (es_db s) + hold * SECOND) TLoop (et_open k) (et_channel k) (et_delivered k).

(** [select!] polls [notified] first. *)
Definition task_poll (t : nat) (k : EventTask) (s : Events) : Events :=
  let '(n, ready) := notified_poll t (notify_of (et_host k) s) in
  set_task t (at_phase (if ready then TSend CheckInEvent else TWait) k) (set_notify (et_host k) n s).

Definition deadline_passed (k : EventTask) (s : Events) : Prop := (et_deadline k <= db_now (es_db s))%Z.

(** [select!] takes the deadline's branch, which drops the [Notified]. *)
Definition task_wait_timeout (t : nat) (k : EventTask) (s : Events) : Events :=
  set_task t (at_phase (TSend TimeoutEvent) k) (set_notify (et_host k) (notified_drop t (notify_of (et_host k) s)) s).
Definition task_woken_timeout (t : nat) (k : EventTask) (s : Events) : Events :=
  notify_result (et_host k) (notified_forward (notify_of (et_host k) s)) (set_task t (at_phase (TSend TimeoutEvent) k) s).

(** [tx.send(..)]: into the channel, and on; after the timeout the task is done. *)
Definition task_send (e : SseEvent) (k : EventTask) : EventTask :=
  mkTask (et_host k) (et_deadline k) (match e with CheckInEvent => TLoop | TimeoutEvent => TEnd end)
    (et_open k) (et_channel k ++ [e]) (et_delivered k).

Definition deliver (e : SseEvent) (rest : list SseEvent) (k : EventTask) : EventTask :=
  mkTask (et_host k) (et_deadline k) (et_phase k) (et_open k) rest (et_delivered k ++ [e]).

(** The client is gone: the receiver is dropped with what it held. *)
Definition disconnect (k : EventTask) : EventTask :=
  mkTask (et_host k) (et_deadline k) (et_phase k) false [] (et_delivered k).

(** ** Interleavings *)

(** What a step does about the forced check-ins of a host: a request was accepted,
    an event was put into a stream, an event found its stream closed. *)
Inductive Label := LForce (h : Uuid) | LSent (h : Uuid) | LLost (h : Uuid) | LOther.

Inductive step : Events -> Label -> Events -> Prop :=
  | step_force h s s' : force_check_in h s = (Ok 202%Z, s') -> step s (LForce h) s'
  | step_force_refused h s e s' : force_check_in h s = (Err e, s') -> step s LOther s'
  | step_events h s s' : events h s = (Ok tt, s') -> step s LOther s'
  | step_database d s : step s LOther (mkEvents d (es_notify s) (es_tasks s))
  | step_start t k hold s : es_tasks s !! t = Some k -> et_phase k = TStart hold ->
      step s LOther (set_task t (task_start hold k s) s)
  | step_poll t k s : es_tasks s !! t = Some k -> et_phase k = TLoop -> step s LOther (task_poll t k s)
  | step_loop_timeout t k s : es_tasks s !! t = Some k -> et_phase k = TLoop -> deadline_passed k s ->
      step s LOther (set_task t (at_phase (TSend TimeoutEvent) k) s)
  | step_wait_timeout t k s : es_tasks s !! t = Some k -> et_phase k = TWait -> deadline_passed k s ->
      step s LOther (task_wait_timeout t k s)
  | step_woken t k s : es_tasks s !! t = Some k -> et_phase k = TWoken ->
      step s LOther (set_task t (at_phase (TSend CheckInEvent) k) s)
  | step_woken_timeout t k s : es_tasks s !! t = Some k -> et_phase k = TWoken -> deadline_passed k s ->
      step s LOther (task_woken_timeout t k s)
  | step_send t k e s : es_tasks s !! t = Some k -> et_phase k = TSend e -> et_open k = true ->
      (length (et_channel k) < CHANNEL_CAPACITY)%nat ->
      step s (match e with CheckInEvent => LSent (et_host k) | TimeoutEvent => LOther end) (set_task t (task_send e k) s)
  | step_send_fails t k e s : es_tasks s !! t = Some k -> et_phase k = TSend e -> et_open k = false ->
      step s (match e with CheckInEvent => LLost (et_host k) | TimeoutEvent => LOther end) (set_task t (at_phase TEnd k) s)
  | step_deliver t k e rest s : es_tasks s !! t = Some k -> et_channel k = e :: rest -> et_open k = true ->
      step s LOther (set_task t (deliver e rest k) s)
  | step_disconnect t k s : es_tasks s !! t = Some k -> step s LOther (set_task t (disconnect k) s).

Inductive run : Events -> list Label -> Events -> Prop :=
  | run_nil s : run s [] s
  | run_cons s l s' ls s'' : step s l s' -> run s' ls s'' -> run s (l :: ls) s''.

(** The state of a started server. *)
Definition events_init (d : Db) : Events := mkEvents d ∅ [].
End events.
