(* ===== verification/PolicyAdmin.v ===== *)
(** * PolicyAdmin: editing policy sets, rule groups and rules

    [crates/fw-web/src/routes/policy_sets.rs], [rule_groups.rs] and [rules.rs]:
    the three tiers a policy is made of. Each handler is its checks, its
    statements and its audit event, in the source's order; a statement carries
    the constraints of the schema it runs under (unique names, references, the
    port CHECKs, the range of INTEGER). *)

From S2P Require Import Prelude Text Models Net Policy Wire Db AuditLog Auth AgentApi.

(** PostgreSQL's [inet]: the canonical text of an accepted input. *)
Class PgInet := { inet_text : string -> option string }.

(** [$n::inet] of a nullable parameter. *)
Definition inet_cast {PG : PgInet} (o : option string) : option (option string) :=
  match o with None => Some None | Some s => Some <$> inet_text s end.

(** ** Shared by the handlers *)

(** [if !auth.role.can_write() { return Err(..) }]. *)
Definition require_write (u : AuthUser) : DB unit :=
  guard_or (can_write (au_role u)) (Forbidden "Write access required").
Definition require_admin_role (u : AuthUser) : DB unit :=
  guard_or (is_admin (au_role u)) (Forbidden "Admin role required").

Definition user_event (u : AuthUser) (action target_type target_id : string) (details : Json) : AuditEvent :=
  mkEvent action (Some (au_user_id u)) (Some (au_username u)) (Some target_type) (Some target_id)
    details (au_ip_text u) None.

(** [fetch_optional(..).ok_or_else(|| NotFound(..))]. *)
Definition or_not_found {A} (msg : string) (o : option A) : DB A :=
  match o with Some a => mret a | None => throw (NotFound msg) end.

(** [COALESCE(MAX(x), -1) + 1] in INTEGER arithmetic: out of range is an error. *)
Definition next_order (orders : list Z) : option Z :=
  let m := foldr Z.max (-1)%Z orders in
  if (m <? 2^31 - 1)%Z then Some (m + 1)%Z else None.

(** [COALESCE($n, (SELECT COALESCE(MAX(..), -1) + 1 ..))]. *)
Definition coalesce_order (given : option Z) (orders : list Z) : option Z :=
  match given with Some o => Some o | None => next_order orders end.

(** [order as i32] of an index. *)
Definition index_as_i32 (i : nat) : Z := wrap32 (Z.of_nat i).

(** [for (order, id) in ids.iter().enumerate()]. *)
Definition enumerate {A} (l : list A) : list (nat * A) := imap pair l.

(** A statement of a transaction that only starts or ends it. *)
Definition tx_mark : DB unit := execute id.

Section admin.
Context {SQL : Sql} {SHA : Sha256} {JS : SerdeJson} {UT : UuidText} {RFC : Rfc3339} {PG : PgInet} {IPN : IpNetLib}.

(** ** Policy sets *)

Definition find_policy_set (id : Uuid) (d : Db) : option FirewallPolicySet :=
  head (sql_scan (List.filter (fun s => bool_decide (ps_id s = id)) (db_policy_sets d))).
Definition set_exists (id : Uuid) (d : Db) : bool := existsb (fun s => bool_decide (ps_id s = id)) (db_policy_sets d).

Record CreatePolicySetRequest := mkCreatePolicySet {
  cps_name : string; cps_description : option string;
  cps_default_input_policy : option FirewallDefaultPolicy;
  cps_default_output_policy : option FirewallDefaultPolicy
}.

(** UNIQUE (name), leaving out the row that is being updated. *)
Definition set_name_free (name : string) (except : option Uuid) (d : Db) : bool :=
  forallb (fun s => negb (bool_decide (ps_name s = name)) || bool_decide (Some (ps_id s) = except)) (db_policy_sets d).

Definition create_policy_set (u : AuthUser) (req : CreatePolicySetRequest) : DB (Z * FirewallPolicySet) :=
  _ ← require_write u;
  ps ← execute_returning (fun d =>
    let ps := mkPolicySet (uuid_of (db_next_uuid d)) (cps_name req) (default "" (cps_description req))
                (Some (au_user_id u)) (db_now d) (db_now d)
                (cps_default_input_policy req) (cps_default_output_policy req) in
    if negb (set_exists (ps_id ps) d) && set_name_free (cps_name req) None d && user_exists (au_user_id u) d
    then Some (ps, set_db_next_uuid (db_next_uuid d + 1) (set_db_policy_sets (db_policy_sets d ++ [ps]) d))
    else None);
  _ ← log_event (user_event u "policy_set_created" "policy_set" (uuid_to_string (ps_id ps))
        (JObj [("name", JStr (ps_name ps))]));
  mret (201%Z, ps).

Definition get_policy_set (id : Uuid) : DB FirewallPolicySet :=
  o ← fetch (find_policy_set id); or_not_found "Policy set not found" o.

(** The defaults are double options: absent leaves the column, null clears it. *)
Record UpdatePolicySetRequest := mkUpdatePolicySet {
  ups_name : option string; ups_description : option string;
  ups_default_input_policy : option (option FirewallDefaultPolicy);
  ups_default_output_policy : option (option FirewallDefaultPolicy)
}.

Definition updated_policy_set (req : UpdatePolicySetRequest) (now : DateTime) (s : FirewallPolicySet) : FirewallPolicySet :=
  mkPolicySet (ps_id s) (default (ps_name s) (ups_name req)) (default (ps_description s) (ups_description req))
    (ps_created_by s) (ps_created_at s) now
    (default (ps_default_input_policy s) (ups_default_input_policy req))
    (default (ps_default_output_policy s) (ups_default_output_policy req)).

Definition update_policy_set (u : AuthUser) (id : Uuid) (req : UpdatePolicySetRequest) : DB FirewallPolicySet :=
  _ ← require_write u;
  o ← execute_returning (fun d =>
    match find_policy_set id d with
    | None => Some (None, d)
    | Some s =>
        let s' := updated_policy_set req (db_now d) s in
        if set_name_free (ps_name s') (Some id) d
        then Some (Some s', set_db_policy_sets (update_where (fun s => bool_decide (ps_id s = id))
                              (updated_policy_set req (db_now d)) (db_policy_sets d)) d)
        else None
    end);
  ps ← or_not_found "Policy set not found" o;
  _ ← log_event (user_event u "policy_set_changed" "policy_set" (uuid_to_string (ps_id ps))
        (JObj [("name", JStr (ps_name ps))]));
  mret ps.

(** ON DELETE CASCADE reaches the memberships and the host assignments, ON DELETE
    SET NULL the decisions. *)
Definition drop_policy_set (id : Uuid) (d : Db) : Db :=
  set_db_policy_sets (delete_where (fun s => bool_decide (ps_id s = id)) (db_policy_sets d))
  (set_db_set_groups (delete_where (fun g => bool_decide (psrg_policy_set_id g = id)) (db_set_groups d))
  (set_db_assignments (delete_where (fun a => bool_decide (hpa_policy_set_id a = id)) (db_assignments d))
  (set_db_decisions (update_where (fun x => bool_decide (rpd_policy_set_id x = Some id))
     (fun x => mkDecision (rpd_rule_id x) None (rpd_decision x) (rpd_reason x) (rpd_reviewer_id x)
                 (rpd_reviewed_at x) (rpd_created_at x)) (db_decisions d)) d))).

Definition delete_policy_set (u : AuthUser) (id : Uuid) : DB Z :=
  _ ← require_write u;
  existed ← execute_returning (fun d => Some (set_exists id d, drop_policy_set id d));
  _ ← guard_or existed (NotFound "Policy set not found");
  _ ← log_event (user_event u "policy_set_changed" "policy_set" (uuid_to_string id)
        (JObj [("action", JStr "deleted")]));
  mret 204%Z.

(** ** Rule groups of a set *)

Definition group_exists (id : Uuid) (d : Db) : bool := existsb (fun g => bool_decide (rg_id g = id)) (db_rule_groups d).
Definition in_set (id group : Uuid) (g : FirewallPolicySetRuleGroup) : bool :=
  bool_decide (psrg_policy_set_id g = id) && bool_decide (psrg_rule_group_id g = group).
Definition set_orders (id : Uuid) (d : Db) : list Z :=
  map psrg_set_group_order (List.filter (fun g => bool_decide (psrg_policy_set_id g = id)) (db_set_groups d)).

(** [INSERT .. ON CONFLICT (policy_set_id, rule_group_id) DO UPDATE]. *)
Definition upsert_set_group (id group : Uuid) (order : Z) (rows : list FirewallPolicySetRuleGroup)
  : list FirewallPolicySetRuleGroup :=
  if existsb (in_set id group) rows
  then update_where (in_set id group) (fun _ => mkSetGroup id group order) rows
  else rows ++ [mkSetGroup id group order].

Definition add_group_to_set (u : AuthUser) (id group : Uuid) (order : option Z) : DB Z :=
  _ ← require_write u;
  _ ← execute_returning (fun d =>
    match coalesce_order order (set_orders id d) with
    | Some o => if set_exists id d && group_exists group d
                then Some (tt, set_db_set_groups (upsert_set_group id group o (db_set_groups d)) d)
                else None
    | None => None
    end);
  _ ← log_event (user_event u "policy_set_changed" "policy_set" (uuid_to_string id)
        (JObj [("action", JStr "rule_group_added"); ("rule_group_id", JStr (uuid_to_string group))]));
  mret 201%Z.

Definition remove_group_from_set (u : AuthUser) (id group : Uuid) : DB Z :=
  _ ← require_write u;
  _ ← execute (fun d => set_db_set_groups (delete_where (in_set id group) (db_set_groups d)) d);
  _ ← log_event (user_event u "policy_set_changed" "policy_set" (uuid_to_string id)
        (JObj [("action", JStr "rule_group_removed"); ("rule_group_id", JStr (uuid_to_string group))]));
  mret 204%Z.

Definition set_group_position (id group : Uuid) (i : nat) (d : Db) : Db :=
  set_db_set_groups (update_where (in_set id group)
    (fun g => mkSetGroup (psrg_policy_set_id g) (psrg_rule_group_id g) (index_as_i32 i)) (db_set_groups d)) d.

Definition reorder_groups (u : AuthUser) (id : Uuid) (ids : list Uuid) : DB Z :=
  _ ← require_write u;
  _ ← transaction (
        _ ← tx_mark;
        _ ← for_each (fun '(i, g) => execute (set_group_position id g i)) (enumerate ids);
        tx_mark);
  _ ← log_event (user_event u "policy_set_changed" "policy_set" (uuid_to_string id)
        (JObj [("action", JStr "rule_groups_reordered"); ("count", JNum (Z.of_nat (length ids)))]));
  mret 200%Z.
(** ** Rule groups *)

Definition find_rule_group (id : Uuid) (d : Db) : option FirewallRuleGroup :=
  head (sql_scan (List.filter (fun g => bool_decide (rg_id g = id)) (db_rule_groups d))).

Definition create_rule_group (u : AuthUser) (name : string) (description : option string)
  : DB (Z * FirewallRuleGroup) :=
  _ ← require_write u;
  group ← execute_returning (fun d =>
    let g := mkRuleGroup (uuid_of (db_next_uuid d)) name (default "" description) (Some (au_user_id u))
               (db_now d) (db_now d) in
    if negb (group_exists (rg_id g) d) && user_exists (au_user_id u) d
    then Some (g, set_db_next_uuid (db_next_uuid d + 1) (set_db_rule_groups (db_rule_groups d ++ [g]) d))
    else None);
  _ ← log_event (user_event u "rule_group_created" "rule_group" (uuid_to_string (rg_id group))
        (JObj [("name", JStr (rg_name group))]));
  mret (201%Z, group).

Definition get_rule_group (id : Uuid) : DB FirewallRuleGroup :=
  o ← fetch (find_rule_group id); or_not_found "Rule group not found" o.

Definition updated_rule_group (name description : option string) (now : DateTime) (g : FirewallRuleGroup)
  : FirewallRuleGroup :=
  mkRuleGroup (rg_id g) (default (rg_name g) name) (default (rg_description g) description)
    (rg_created_by g) (rg_created_at g) now.

Definition update_rule_group (u : AuthUser) (id : Uuid) (name description : option string) : DB FirewallRuleGroup :=
  _ ← require_write u;
  o ← execute_returning (fun d => Some
    (updated_rule_group name description (db_now d) <$> find_rule_group id d,
     set_db_rule_groups (update_where (fun g => bool_decide (rg_id g = id))
       (updated_rule_group name description (db_now d)) (db_rule_groups d)) d));
  group ← or_not_found "Rule group not found" o;
  _ ← log_event (user_event u "rule_group_changed" "rule_group" (uuid_to_string (rg_id group))
        (JObj [("name", JStr (rg_name group))]));
  mret group.

Definition used_by (id : Uuid) (d : Db) : nat :=
  length (List.filter (fun g => bool_decide (psrg_rule_group_id g = id)) (db_set_groups d)).

(** A rule's removal clears the decisions that name it (ON DELETE SET NULL). *)
Definition drop_rules (p : RuleRow -> bool) (d : Db) : Db :=
  set_db_rules (delete_where p (db_rules d))
  (set_db_decisions (map (fun x =>
     if existsb (fun r => p r && bool_decide (rpd_rule_id x = Some (rule_id (rr_rule r)))) (db_rules d)
     then mkDecision None (rpd_policy_set_id x) (rpd_decision x) (rpd_reason x) (rpd_reviewer_id x)
            (rpd_reviewed_at x) (rpd_created_at x) else x) (db_decisions d)) d).

(** ON DELETE CASCADE takes the group's rules with it, RESTRICT keeps a used group. *)
Definition drop_rule_group (id : Uuid) (d : Db) : option (bool * Db) :=
  if group_exists id d && negb (used_by id d =? 0)%nat then None
  else Some (group_exists id d,
    set_db_rule_groups (delete_where (fun g => bool_decide (rg_id g = id)) (db_rule_groups d))
      (drop_rules (fun r => bool_decide (rr_group_id r = id)) d)).

Definition delete_rule_group (u : AuthUser) (id : Uuid) : DB Z :=
  _ ← require_write u;
  n ← fetch (used_by id);
  _ ← guard_or (n =? 0)%nat (Conflict ("Rule group is used by " +:+ pretty n +:+
        " policy set(s); remove it from those sets before deleting"));
  existed ← execute_returning (drop_rule_group id);
  _ ← guard_or existed (NotFound "Rule group not found");
  _ ← log_event (user_event u "rule_group_deleted" "rule_group" (uuid_to_string id) (JObj []));
  mret 204%Z.

(** ** Rules *)

Definition group_rule_le (x y : RuleRow) : Prop :=
  (rr_group_order x < rr_group_order y \/
   (rr_group_order x = rr_group_order y /\ rule_priority (rr_rule x) <= rule_priority (rr_rule y)))%Z.
#[export] Instance group_rule_le_dec x y : Decision (group_rule_le x y).
Proof. unfold group_rule_le. apply _. Defined.

Definition list_group_rules (id : Uuid) : DB (list FirewallRule) :=
  fetch (fun d => map rr_rule (sql_sort group_rule_le
    (List.filter (fun r => bool_decide (rr_group_id r = id)) (db_rules d)))).

Definition find_rule (id : Uuid) (d : Db) : option RuleRow :=
  head (sql_scan (List.filter (fun r => bool_decide (rule_id (rr_rule r) = id)) (db_rules d))).

Definition rule_exists (id : Uuid) (d : Db) : bool := existsb (fun r => bool_decide (rule_id (rr_rule r) = id)) (db_rules d).

(** The CHECK constraints on a pair of port columns. *)
Definition port_ok (p : option Z) : bool :=
  match p with None => true | Some p => (1 <=? p)%Z && (p <=? 65535)%Z end.
Definition port_range_ok (start stop : option Z) : bool :=
  port_ok start && port_ok stop &&
  match start, stop with
  | None, None => true
  | Some a, Some b => (a <=? b)%Z
  | _, _ => false
  end.
Definition rule_ports_ok (r : FirewallRule) : bool :=
  port_range_ok (src_port_start r) (src_port_end r) && port_range_ok (dst_port_start r) (dst_port_end r).

Definition rule_name_free (name : string) (except : option Uuid) (d : Db) : bool :=
  forallb (fun r => negb (bool_decide (rule_name (rr_rule r) = name)) ||
                    bool_decide (Some (rule_id (rr_rule r)) = except)) (db_rules d).

Record CreateRuleInGroupRequest := mkCreateRule {
  cr_name : string; cr_description : option string;
  cr_action : FirewallAction; cr_direction : FirewallDirection; cr_protocol : FirewallProtocol;
  cr_src_cidr : option string; cr_src_port_start : option Z; cr_src_port_end : option Z;
  cr_dst_cidr : option string; cr_dst_port_start : option Z; cr_dst_port_end : option Z;
  cr_interface_in : option string; cr_interface_out : option string;
  cr_comment : option string; cr_log : option bool; cr_priority : option Z; cr_group_order : option Z
}.

Definition created_rule (u : AuthUser) (req : CreateRuleInGroupRequest) (src dst : option string) (d : Db)
  : FirewallRule := {|
  rule_id := uuid_of (db_next_uuid d); rule_name := cr_name req;
  rule_description := default "" (cr_description req);
  rule_action := cr_action req; rule_direction := cr_direction req; rule_protocol := cr_protocol req;
  src_cidr := src; src_port_start := cr_src_port_start req; src_port_end := cr_src_port_end req;
  dst_cidr := dst; dst_port_start := cr_dst_port_start req; dst_port_end := cr_dst_port_end req;
  interface_in := cr_interface_in req; interface_out := cr_interface_out req;
  rule_comment := default "" (cr_comment req); rule_log := default false (cr_log req);
  rule_priority := default 1000%Z (cr_priority req); rule_created_by := Some (au_user_id u);
  rule_created_at := db_now d; rule_updated_at := db_now d
|}.

Definition insert_rule (u : AuthUser) (group : Uuid) (req : CreateRuleInGroupRequest) (d : Db)
  : option (FirewallRule * Db) :=
  match inet_cast (cr_src_cidr req), inet_cast (cr_dst_cidr req),
        coalesce_order (cr_group_order req)
          (map rr_group_order (List.filter (fun r => bool_decide (rr_group_id r = group)) (db_rules d))) with
  | Some src, Some dst, Some order =>
      let r := created_rule u req src dst d in
      if rule_ports_ok r && rule_name_free (cr_name req) None d && group_exists group d &&
         user_exists (au_user_id u) d && negb (rule_exists (rule_id r) d)
      then Some (r, set_db_next_uuid (db_next_uuid d + 1) (set_db_rules (db_rules d ++ [mkRuleRow r group order]) d))
      else None
  | _, _, _ => None
  end.

Definition create_rule_in_group (u : AuthUser) (group : Uuid) (req : CreateRuleInGroupRequest)
  : DB (Z * FirewallRule) :=
  _ ← require_write u;
  rule ← execute_returning (insert_rule u group req);
  let policy_result := check_rule rule in
  let decision := if requires_approval policy_result then "flagged" else "auto_approved" in
  _ ← ignore (execute_if (fun d => db_coerces_text d && rule_exists (rule_id rule) d) (fun d => set_db_decisions
        (db_decisions d ++ [mkDecision (Some (rule_id rule)) None decision (reason policy_result)
                             None None (db_now d)]) d));
  _ ← log_event (user_event u "rule_created" "rule" (uuid_to_string (rule_id rule))
        (JObj [("name", JStr (rule_name rule)); ("rule_group_id", JStr (uuid_to_string group));
               ("policy_decision", JStr decision)]));
  mret (201%Z, rule).

Definition in_group (group rule : Uuid) (r : RuleRow) : bool :=
  bool_decide (rr_group_id r = group) && bool_decide (rule_id (rr_rule r) = rule).
Definition set_rule_position (group rule : Uuid) (i : nat) (d : Db) : Db :=
  set_db_rules (update_where (in_group group rule)
    (fun r => mkRuleRow (rr_rule r) (rr_group_id r) (index_as_i32 i)) (db_rules d)) d.

Definition reorder_group_rules (u : AuthUser) (group : Uuid) (ids : list Uuid) : DB Z :=
  _ ← require_write u;
  _ ← transaction (
        _ ← tx_mark;
        _ ← for_each (fun '(i, r) => execute (set_rule_position group r i)) (enumerate ids);
        tx_mark);
  _ ← log_event (user_event u "rule_group_changed" "rule_group" (uuid_to_string group)
        (JObj [("action", JStr "rules_reordered"); ("count", JNum (Z.of_nat (length ids)))]));
  mret 200%Z.

Definition get_rule (id : Uuid) : DB FirewallRule :=
  o ← fetch (fun d => rr_rule <$> find_rule id d); or_not_found "Rule not found" o.

Record UpdateRuleRequest := mkUpdateRule {
  ur_name : option string; ur_description : option string;
  ur_action : option FirewallAction; ur_direction : option FirewallDirection;
  ur_protocol : option FirewallProtocol;
  ur_src_cidr : option string; ur_src_port_start : option Z; ur_src_port_end : option Z;
  ur_dst_cidr : option string; ur_dst_port_start : option Z; ur_dst_port_end : option Z;
  ur_interface_in : option string; ur_interface_out : option string;
  ur_comment : option string; ur_log : option bool; ur_priority : option Z
}.

(** [COALESCE($n, column)] of a nullable column. *)
Definition coalesce {A} (new old : option A) : option A := match new with Some a => Some a | None => old end.

Definition updated_rule (req : UpdateRuleRequest) (src dst : option string) (now : DateTime) (r : FirewallRule)
  : FirewallRule := {|
  rule_id := rule_id r; rule_name := default (rule_name r) (ur_name req);
  rule_description := default (rule_description r) (ur_description req);
  rule_action := default (rule_action r) (ur_action req);
  rule_direction := default (rule_direction r) (ur_direction req);
  rule_protocol := default (rule_protocol r) (ur_protocol req);
  src_cidr := coalesce src (src_cidr r); src_port_start := coalesce (ur_src_port_start req) (src_port_start r);
  src_port_end := coalesce (ur_src_port_end req) (src_port_end r);
  dst_cidr := coalesce dst (dst_cidr r); dst_port_start := coalesce (ur_dst_port_start req) (dst_port_start r);
  dst_port_end := coalesce (ur_dst_port_end req) (dst_port_end r);
  interface_in := coalesce (ur_interface_in req) (interface_in r);
  interface_out := coalesce (ur_interface_out req) (interface_out r);
  rule_comment := default (rule_comment r) (ur_comment req); rule_log := default (rule_log r) (ur_log req);
  rule_priority := default (rule_priority r) (ur_priority req); rule_created_by := rule_created_by r;
  rule_created_at := rule_created_at r; rule_updated_at := now
|}.

Definition update_rule_row (id : Uuid) (req : UpdateRuleRequest) (d : Db) : option (option FirewallRule * Db) :=
  match inet_cast (ur_src_cidr req), inet_cast (ur_dst_cidr req) with
  | Some src, Some dst =>
      let upd r := updated_rule req src dst (db_now d) r in
      let is_it x := bool_decide (rule_id (rr_rule x) = id) in
      match find_rule id d with
      | None => Some (None, d)
      | Some row =>
          if forallb (fun x => negb (is_it x) || rule_ports_ok (upd (rr_rule x))) (db_rules d) &&
             rule_name_free (rule_name (upd (rr_rule row))) (Some id) d
          then Some (Some (upd (rr_rule row)), set_db_rules (update_where is_it
                 (fun x => mkRuleRow (upd (rr_rule x)) (rr_group_id x) (rr_group_order x)) (db_rules d)) d)
          else None
      end
  | _, _ => None
  end.

Definition update_rule (u : AuthUser) (id : Uuid) (req : UpdateRuleRequest) : DB FirewallRule :=
  _ ← require_write u;
  o ← execute_returning (update_rule_row id req);
  rule ← or_not_found "Rule not found" o;
  _ ← log_event (user_event u "rule_updated" "rule" (uuid_to_string (rule_id rule))
        (JObj [("name", JStr (rule_name rule))]));
  mret rule.

Definition delete_rule (u : AuthUser) (id : Uuid) : DB Z :=
  _ ← require_write u;
  existed ← execute_returning (fun d => Some
    (existsb (fun r => bool_decide (rule_id (rr_rule r) = id)) (db_rules d),
     drop_rules (fun r => bool_decide (rule_id (rr_rule r) = id)) d));
  _ ← guard_or existed (NotFound "Rule not found");
  _ ← log_event (user_event u "rule_deleted" "rule" (uuid_to_string id) (JObj []));
  mret 204%Z.

Record ValidateRuleResponse := mkValidate {
  vr_allowed : bool; vr_requires_approval : bool; vr_reason : string; vr_protected_cidr_check : option string
}.

(** [SELECT DISTINCT cidr::text], in the server's order. *)
Definition validate_rule (id : Uuid) : DB ValidateRuleResponse :=
  rule ← get_rule id;
  let policy_result := check_rule rule in
  protected ← fetch (fun d => sql_scan (remove_dups (map pc_cidr (db_protected d))));
  let cidr_check := check_against_protected_cidrs rule protected in
  mret (mkValidate (allowed policy_result && allowed cidr_check) (requires_approval policy_result)
          (if negb (allowed cidr_check) then reason cidr_check else reason policy_result)
          (if negb (allowed cidr_check) then Some (reason cidr_check) else None)).
(** ** Preview *)

Definition compile_ufw_command (r : FirewallRule) : string :=
  let cmd := "ufw" +:+ match rule_action r with
    | Allow => " allow" | Deny => " deny" | Reject => " reject"
    | Limit => " limit" | Masquerade => " masquerade" end in
  let cmd := if bool_decide (rule_direction r = Out) then cmd +:+ " out" else cmd in
  let cmd := if bool_decide (rule_protocol r <> Any)
             then cmd +:+ " proto " +:+ to_lowercase (protocol_debug (rule_protocol r)) else cmd in
  let cmd := match src_cidr r with Some src => cmd +:+ " from " +:+ src | None => cmd end in
  let cmd := match dst_cidr r with Some dst => cmd +:+ " to " +:+ dst | None => cmd end in
  let cmd := match dst_port_start r with
    | Some port =>
        match dst_port_end r with
        | Some stop => if bool_decide (port = stop) then cmd +:+ " port " +:+ pretty port
                       else cmd +:+ " port " +:+ pretty port +:+ ":" +:+ pretty stop
        | None => cmd +:+ " port " +:+ pretty port
        end
    | None => cmd
    end in
  if is_empty (rule_comment r) then cmd else cmd +:+ " comment '" +:+ rule_comment r +:+ "'".

Definition compile_firewalld_command (r : FirewallRule) : string :=
  let action := match rule_action r with
    | Allow => "accept" | Deny => "drop" | Reject => "reject"
    | Limit => "accept" | Masquerade => "masquerade" end in
  let proto := match rule_protocol r with Any => "all" | p => to_lowercase (protocol_debug p) end in
  let src := default "any" (src_cidr r) in
  let port := match dst_port_start r with Some p => pretty p | None => "" end in
  "firewall-cmd --permanent --add-rich-rule='rule family=ipv4 source address=" +:+ DQ +:+ src +:+ DQ +:+ " " +:+
  (if is_empty port then "" else "service") +:+ " port port=" +:+ DQ +:+ port +:+ DQ +:+ " protocol=" +:+ DQ +:+
  proto +:+ DQ +:+ " " +:+ action +:+ "'".

Record PreviewCompilationResponse := mkPreview {
  pv_ufw_commands : list string; pv_firewalld_commands : list string; pv_rule_count : nat
}.

Definition preview_compilation (id : Uuid) : DB PreviewCompilationResponse :=
  rules ← rules_for_policy_set id;
  mret (mkPreview (map compile_ufw_command rules) (map compile_firewalld_command rules) (length rules)).
End admin.
