(* ===== verification/UfwRead.v ===== *)
(** * UfwRead: reading a [ufw] rule command

    A reader of the rule syntax of [ufw] that [compile_ufw_rule] of
    [crates/fw-agent/src/backend/mod.rs] writes in, made from the syntax alone: what
    a rule command enforces is what this reader finds in its arguments. *)

From S2P Require Import Prelude Text Models Net Policy Backend ShellWords UfwCompile Db PolicyAdmin.

(** What a rule command says: verb, outgoing or incoming, logged, interface, protocol,
    the two ends with their port ranges, and the comment. *)
Record UfwLine := mkUfwLine {
  ul_verb : string; ul_out : bool; ul_log : bool; ul_on : option string; ul_proto : option string;
  ul_from : string; ul_from_ports : option (Z * Z); ul_to : string; ul_to_ports : option (Z * Z); ul_comment : option string
}.

(** A port: decimal digits, at most 65535; a range is two ports with a colon. *)
Definition read_port (s : string) : option (Z * string) :=
  let '(ds, rest) := read_digits 10 s in
  if (length ds =? 0)%nat || (65535 <? digits_value 10 ds)%Z then None else Some (digits_value 10 ds, rest).
Definition read_ports (s : string) : option (Z * Z) :=
  '(a, rest) ← read_port s;
  match rest with
  | "" => Some (a, a)
  | _ => rest ← read_given_char ":" rest; '(b, rest) ← read_port rest; if is_empty rest then Some (a, b) else None
  end.

(** An optional word, and an optional word with a value. *)
Definition read_flag (k : string) (ws : list string) : bool * list string :=
  match ws with w :: ws' => if bool_decide (w = k) then (true, ws') else (false, ws) | [] => (false, []) end.
Definition read_option (k : string) (ws : list string) : option string * list string :=
  match ws with w :: v :: ws' => if bool_decide (w = k) then (Some v, ws') else (None, ws) | _ => (None, ws) end.

(** [from ADDRESS [port RANGE]]. *)
Definition read_end (k : string) (ws : list string) : option (string * option (Z * Z) * list string) :=
  match read_option k ws with
  | (Some addr, ws) =>
      match read_option "port" ws with
      | (Some p, ws) => ports ← read_ports p; Some (addr, Some ports, ws)
      | (None, ws) => Some (addr, None, ws)
      end
  | (None, _) => None
  end.

Definition ufw_read (args : list string) : option UfwLine :=
  match args with
  | verb :: ws =>
      let '(out, ws) := read_flag "out" ws in let '(log, ws) := read_flag "log" ws in
      let '(on, ws) := read_option "on" ws in let '(proto, ws) := read_option "proto" ws in
      '(src, sports, ws) ← read_end "from" ws; '(dst, dports, ws) ← read_end "to" ws;
      let '(comment, ws) := read_option "comment" ws in
      match ws with [] => Some (mkUfwLine verb out log on proto src sports dst dports comment) | _ => None end
  | [] => None
  end.

(** The line that enforces a rule: an outgoing rule leaves by its outgoing interface;
    any other, a forwarded one too, comes in by its incoming interface. *)
Definition rule_line (r : FirewallRule) : UfwLine :=
  let out := bool_decide (rule_direction r = Out) in
  mkUfwLine (action_as_str (rule_action r)) out (rule_log r) (if out then interface_out r else interface_in r)
    (if bool_decide (rule_protocol r = Any) then None else Some (protocol_as_str (rule_protocol r)))
    (default "any" (src_cidr r)) (s ← src_port_start r; e ← src_port_end r; Some (s, e))
    (default "any" (dst_cidr r)) (s ← dst_port_start r; e ← dst_port_end r; Some (s, e))
    (if is_empty (rule_comment r) then None else Some (remove_char "'" (rule_comment r))).

(** ** Printed ports are read back *)

Lemma digits_value_app ds d : digits_value 10 (ds ++ [d]) = (10 * digits_value 10 ds + d)%Z.
Proof. unfold digits_value. rewrite foldl_app. cbn. lia. Qed.

Lemma pretty_digit_read n : (n < 10)%N -> to_digit 10 (pretty_N_char n) = Some (Z.of_N n).
Proof.
  intros Hn. assert (forallb (fun k => bool_decide (to_digit 10 (pretty_N_char (N.of_nat k)) = Some (Z.of_nat k))) (seq 0 10) = true) as H by reflexivity.
  rewrite forallb_forall in H. specialize (H (N.to_nat n)). rewrite N2Nat.id, N_nat_Z in H. apply (bool_decide_eq_true_1 _), H, in_seq. lia.
Qed.

Lemma read_pretty_go n s : exists ds, read_digits 10 (pretty_N_go n s) = (ds ++ (read_digits 10 s).1, (read_digits 10 s).2) /\
  digits_value 10 ds = Z.of_N n /\ ((0 < n)%N -> ds <> []).
Proof.
  revert s. induction (N.lt_wf_0 n) as [n _ IH]; intros s. destruct (decide (0 < n)%N) as [Hn|Hn].
  - rewrite pretty_N_go_step by done. assert (n `mod` 10 < 10)%N as Hm by (apply N.mod_lt; lia).
    destruct (IH (n `div` 10)%N ltac:(apply N.div_lt; lia) (String (pretty_N_char (n `mod` 10)) s)) as (ds & Hr & Hv & _).
    exists (ds ++ [Z.of_N (n `mod` 10)]). rewrite Hr. cbn [read_digits]. rewrite pretty_digit_read by done.
    destruct (read_digits 10 s) as [ds' rest]. cbn [fst snd]. split; [by rewrite <- app_assoc|]. split; [|intros _; by destruct ds].
    rewrite digits_value_app, Hv. pose proof (N.div_mod n 10). lia.
  - assert (n = 0)%N as -> by lia. rewrite pretty_N_go_0. exists []. split; [by destruct (read_digits 10 s)|]. split; [done|lia].
Qed.

Lemma pretty_go_app n s t : pretty_N_go n s +:+ t = pretty_N_go n (s +:+ t).
Proof.
  revert s. induction (N.lt_wf_0 n) as [n _ IH]; intros s. destruct (decide (0 < n)%N) as [Hn|Hn].
  - rewrite (pretty_N_go_step n s), (pretty_N_go_step n (s +:+ t)) by done. rewrite IH by (apply N.div_lt; lia). rewrite str_app_cons. reflexivity.
  - assert (n = 0)%N as -> by lia. by rewrite !pretty_N_go_0.
Qed.

Lemma read_port_pretty z rest : (1 <= z <= 65535)%Z -> match rest with String c _ => to_digit 10 c = None | "" => True end ->
  read_port (pretty z +:+ rest) = Some (z, rest).
Proof.
  intros Hz Hrest. destruct z as [|p|p]; [lia| |lia]. change (pretty (Z.pos p)) with (pretty_N_go (Npos p) ""). rewrite pretty_go_app. change ("" +:+ rest) with rest. unfold read_port.
  destruct (read_pretty_go (Npos p) rest) as (ds & -> & Hv & Hne).
  assert (read_digits 10 rest = ([], rest)) as -> by (destruct rest as [|c rest]; [done|]; cbn; by rewrite Hrest).
  cbn [fst snd]. rewrite app_nil_r, Hv. destruct ds; [by destruct Hne|]. cbn [length Nat.eqb orb].
  rewrite (proj2 (Z.ltb_ge _ _)) by lia. done.
Qed.

(** What [port_range] prints for a valid pair is that pair. *)
Lemma read_port_range s e p : port_range_ok s e = true -> port_range s e = Some p ->
  read_ports p = (a ← s; b ← e; Some (a, b)).
Proof.
  unfold port_range_ok, port_ok, port_range. destruct s as [a|], e as [b|]; rewrite ?andb_false_r; try done.
  rewrite !andb_true_iff, !Z.leb_le. intros [[Ha Hb] Hab]. case_bool_decide as He; intros [= <-].
  - subst b. unfold read_ports. rewrite <- (str_app_nil_r (pretty a)), read_port_pretty by (lia || done). done.
  - unfold read_ports. rewrite read_port_pretty by (lia || done). 
    transitivity ('(b', rest) ← read_port (pretty b); if is_empty rest then Some (a, b') else None); [reflexivity|].
    rewrite <- (str_app_nil_r (pretty b)), read_port_pretty by (lia || done). done.
Qed.

(** ** A compiled rule is read as the rule *)

Lemma read_option_hit k v ws : read_option k (k :: v :: ws) = (Some v, ws).
Proof. cbn. by rewrite bool_decide_eq_true_2. Qed.
Lemma read_option_miss k ws : head ws <> Some k -> read_option k ws = (None, ws).
Proof. destruct ws as [|w [|v ws]]; [done..|]. cbn. intros H. by rewrite bool_decide_eq_false_2 by congruence. Qed.
Lemma read_flag_opt k (b : bool) ws : head ws <> Some k -> read_flag k ((if b then [k] else []) ++ ws) = (b, ws).
Proof.
  destruct b; cbn; [by rewrite bool_decide_eq_true_2|]. destruct ws as [|w ws]; [done|]. cbn. intros H. by rewrite bool_decide_eq_false_2 by congruence.
Qed.
Lemma read_option_opt k (o : option string) ws : head ws <> Some k ->
  read_option k (match o with Some v => [k; v] | None => [] end ++ ws) = (o, ws).
Proof. intros H. destruct o; cbn [app]; [apply read_option_hit|by apply read_option_miss]. Qed.

Lemma read_end_ports k addr s e ws : port_range_ok s e = true -> head ws <> Some "port" ->
  read_end k (k :: addr :: match port_range s e with Some p => ["port"; p] | None => [] end ++ ws) =
    Some (addr, (a ← s; b ← e; Some (a, b)), ws).
Proof.
  intros Hok Hw. unfold read_end. rewrite read_option_hit, read_option_opt by done. destruct (port_range s e) as [p|] eqn:Hp.
  - rewrite (read_port_range s e p Hok Hp). unfold port_range_ok, port_range in *. destruct s, e; rewrite ?andb_false_r in Hok; done.
  - unfold port_range in Hp. destruct s as [a|], e as [b|]; try done. by case_bool_decide.
Qed.

(** [ufw] is told exactly the line of the rule, whatever texts the rule has. *)
Lemma ufw_args_read r : rule_ports_ok r = true -> ufw_read (ufw_args r) = Some (rule_line r).
Proof.
  unfold rule_ports_ok. intros [Hs Hd]%andb_true_iff. unfold ufw_args, ufw_rule_words. rewrite fmap_app, text_bare.
  set (comment := seg_text <$> (if is_empty (rule_comment r) then _ else _)).
  assert (comment = match (if is_empty (rule_comment r) then None else Some (remove_char "'" (rule_comment r))) with
    | Some c => ["comment"; c] | None => [] end) as -> by (unfold comment; by destruct (is_empty _)).
  set (comment' := if is_empty _ then None else _). cbn [app]. unfold ufw_read. rewrite <- !app_assoc.
  assert ((if bool_decide (rule_protocol r = Any) then [] else ["proto"; protocol_as_str (rule_protocol r)]) =
    match (if bool_decide (rule_protocol r = Any) then None else Some (protocol_as_str (rule_protocol r))) with
    | Some p => ["proto"; p] | None => [] end) as -> by by case_bool_decide.
  set (proto := if bool_decide (rule_protocol r = Any) then None else _). set (on := if bool_decide _ then interface_out r else _).
  rewrite read_flag_opt by (destruct (rule_log r), on, proto; done). rewrite read_flag_opt by (destruct on, proto; done).
  rewrite read_option_opt by (destruct proto; done). rewrite read_option_opt by done. cbn [app].
  rewrite <- app_assoc. cbn [app]. rewrite read_end_ports by done. cbn [mbind option_bind].
  rewrite read_end_ports by (try done; by destruct comment'). cbn [mbind option_bind].
  rewrite <- (app_nil_r (match comment' with Some _ => _ | None => _ end)), read_option_opt by done. done.
Qed.

(** A forwarded rule is enforced as an incoming one, without its outgoing interface. *)
Theorem forward_enforced_as_incoming r : rule_direction r = Forward ->
  ufw_args r = ufw_args {| rule_id := rule_id r; rule_name := rule_name r; rule_description := rule_description r; rule_action := rule_action r;
    rule_direction := In; rule_protocol := rule_protocol r; src_cidr := src_cidr r; src_port_start := src_port_start r;
    src_port_end := src_port_end r; dst_cidr := dst_cidr r; dst_port_start := dst_port_start r; dst_port_end := dst_port_end r;
    interface_in := interface_in r; interface_out := None; rule_comment := rule_comment r; rule_log := rule_log r;
    rule_priority := rule_priority r; rule_created_by := rule_created_by r; rule_created_at := rule_created_at r;
    rule_updated_at := rule_updated_at r |}.
Proof. intros H. unfold ufw_args, ufw_rule_words. rewrite H. reflexivity. Qed.
