(* ===== verification/Deployment.v ===== *)
(** * Deployment: putting policy sets on hosts

    [crates/fw-web/src/routes/deployment.rs], [hosts.rs] and [groups.rs]: host
    groups (the operator's scope), the assignment of policy sets with its two
    gates (SEC-003 for flagged rules, SEC-012 for the operator's hosts) and the
    removal of hosts. *)

From S2P Require Import Prelude Text Models Net Policy Wire Db AuditLog Auth AgentApi PolicyAdmin.

(** ** Ids in order *)

(** Uuids compare by their bytes. *)
Definition uuid_le (u v : Uuid) : Prop := String.le (uuid_bytes u) (uuid_bytes v).
#[export] Instance uuid_le_dec u v : Decision (uuid_le u v).
Proof. unfold uuid_le. apply _. Defined.

(** [Vec::dedup]: drop a value equal to the one before it. *)
Fixpoint dedup {A} `{EqDecision A} (l : list A) : list A :=
  match l with
  | x :: (y :: _) as l' => if bool_decide (x = y) then dedup l' else x :: dedup l'
  | _ => l
  end.

Section deployment.
Context {SQL : Sql} {SHA : Sha256} {JS : SerdeJson} {UT : UuidText} {RFC : Rfc3339} {PG : PgInet}.

(** ** Host groups *)

Definition find_group (id : Uuid) (d : Db) : option Group :=
  head (sql_scan (List.filter (fun g => bool_decide (g_id g = id)) (db_groups d))).

Definition create_group (u : AuthUser) (name : string) (description : option string) : DB (Z * Group) :=
  _ ← require_write u;
  group ← execute_returning (fun d =>
    let g := mkGroup (uuid_of (db_next_uuid d)) name (default "" description) (db_now d) (db_now d) in
    if forallb (fun x => negb (bool_decide (g_id x = g_id g)) && negb (bool_decide (g_name x = name))) (db_groups d)
    then Some (g, set_db_next_uuid (db_next_uuid d + 1) (set_db_groups (db_groups d ++ [g]) d))
    else None);
  mret (201%Z, group).

Definition get_group (id : Uuid) : DB Group :=
  o ← fetch (find_group id); or_not_found "Group not found" o.

(** Both memberships cascade. *)
Definition delete_group (u : AuthUser) (id : Uuid) : DB Z :=
  _ ← require_admin_role u;
  _ ← execute (fun d =>
        set_db_groups (delete_where (fun g => bool_decide (g_id g = id)) (db_groups d))
        (set_db_host_groups (delete_where (fun '(_, g) => bool_decide (g = id)) (db_host_groups d))
        (set_db_operator_groups (delete_where (fun '(_, g) => bool_decide (g = id)) (db_operator_groups d)) d)));
  mret 204%Z.

Definition add_host_to_group (u : AuthUser) (id host : Uuid) : DB Z :=
  _ ← require_write u;
  _ ← execute_if (fun d => host_exists host d && bool_decide (is_Some (find_group id d))) (fun d =>
        if bool_decide ((host, id) ∈ db_host_groups d) then d
        else set_db_host_groups (db_host_groups d ++ [(host, id)]) d);
  mret 201%Z.

Definition remove_host_from_group (u : AuthUser) (id host : Uuid) : DB Z :=
  _ ← require_write u;
  _ ← execute (fun d => set_db_host_groups
        (delete_where (fun x => bool_decide (x = (host, id))) (db_host_groups d)) d);
  mret 204%Z.

(** ** Hosts *)

(** A host takes its rows in every other table with it. *)
Definition drop_host (id : Uuid) (d : Db) : Db :=
  set_db_hosts (delete_where (fun h => bool_decide (h_id h = id)) (db_hosts d))
  (set_db_assignments (delete_where (fun a => bool_decide (hpa_host_id a = id)) (db_assignments d))
  (set_db_check_ins (delete_where (fun c => bool_decide (ci_host_id c = id)) (db_check_ins d))
  (set_db_overrides (delete_where (fun o => bool_decide (co_host_id o = id)) (db_overrides d))
  (set_db_pending (delete_where (fun a => bool_decide (pa_host_id a = id)) (db_pending d))
  (set_db_drift (delete_where (fun s => bool_decide (dr_host_id s = id)) (db_drift d))
  (set_db_protected (delete_where (fun p => bool_decide (pc_host_id p = id)) (db_protected d))
  (set_db_host_groups (delete_where (fun '(h, _) => bool_decide (h = id)) (db_host_groups d))
  (set_db_certs (delete_where (fun c => bool_decide (ct_host_id c = Some id)) (db_certs d)) d)))))))).

Definition delete_host (u : AuthUser) (id : Uuid) : DB Z :=
  _ ← require_admin_role u;
  _ ← execute (drop_host id);
  _ ← log_event (user_event u "host_removed" "host" (uuid_to_string id) (JObj []));
  mret 204%Z.

Definition updated_host (display_name notes : option string) (now : DateTime) (h : HostRow) : HostRow :=
  mkHost (h_id h) (h_fqdn h) (h_ip_address h) (default (h_display_name h) display_name)
    (h_os_family h) (h_os_name h) (h_arch h) (h_agent_version h) (h_health_status h) (h_last_health_at h)
    (h_last_sync_at h) (h_agent_port h) (default (h_notes h) notes)
    (h_registered_at h) now.

(** [RETURNING *] has the [inet] address in it: where text cannot stand for it the
    update is made and the answer is an error all the same. *)
Definition update_host (u : AuthUser) (id : Uuid) (display_name notes : option string) : DB HostRow :=
  _ ← require_write u;
  o ← query (fun d =>
    let d' := set_db_hosts (update_where (fun h => bool_decide (h_id h = id))
                (updated_host display_name notes (db_now d)) (db_hosts d)) d in
    match head (sql_scan (List.filter (fun h => bool_decide (h_id h = id)) (db_hosts d))) with
    | None => (Ok None, d')
    | Some h => if db_coerces_text d then (Ok (Some (updated_host display_name notes (db_now d) h)), d')
                else (Err Database, d')
    end);
  or_not_found "Host not found" o.

Definition parse_health_status (s : string) : HostHealthStatus :=
  if bool_decide (s = "healthy") then Healthy
  else if bool_decide (s = "degraded") then Degraded
  else if bool_decide (s = "unreachable") then Unreachable else Pending.

Definition get_host_policy_sets (id : Uuid) : DB (list HostPolicyAssignment) :=
  fetch (fun d => sql_scan (List.filter (fun a => bool_decide (hpa_host_id a = id)) (db_assignments d))).

(** [host_protected_cidrs] without the [::inet] cast. *)
Definition add_protected_cidr (u : AuthUser) (id : Uuid) (cidr : string) (label : option string) : DB Z :=
  _ ← require_admin_role u;
  _ ← execute_returning (fun d =>
    match inet_text cidr with
    | Some c =>
        if db_coerces_text d && host_exists id d && user_exists (au_user_id u) d
        then Some (tt, if existsb (fun p => bool_decide (pc_host_id p = id /\ pc_cidr p = c)) (db_protected d) then d
                       else set_db_protected (db_protected d ++
                              [mkProtected id c (default "" label) (Some (au_user_id u)) (db_now d)]) d)
        else None
    | None => None
    end);
  mret 201%Z.

(** ** Assignments *)

Definition set_has (id ps : Uuid) (a : HostPolicyAssignment) : bool :=
  bool_decide (hpa_host_id a = id) && bool_decide (hpa_policy_set_id a = ps).

(** [INSERT .. ON CONFLICT DO NOTHING] and its [rows_affected]. *)
Definition insert_assignment (u : AuthUser) (host ps : Uuid) (d : Db) : option (nat * Db) :=
  if existsb (set_has host ps) (db_assignments d) then Some (0%nat, d)
  else if host_exists host d && set_exists ps d && user_exists (au_user_id u) d
  then Some (1%nat, set_db_assignments (db_assignments d ++
               [mkAssignment host ps (Some (au_user_id u)) (db_now d)]) d)
  else None.

(** SEC-003. *)
Definition flagged_gate (u : AuthUser) (ps : Uuid) : DB unit :=
  if is_admin (au_role u) then mret tt
  else
    flagged ← flagged_rule_ids_for_set ps;
    guard_or (bool_decide (flagged = []))
      (Conflict ("Policy set contains flagged rules requiring admin approval: " +:+
                 join ", " (map uuid_to_string flagged))).

Definition assignment_event (u : AuthUser) (action : string) (host ps : Uuid) : AuditEvent :=
  user_event u action "host" (uuid_to_string host) (JObj [("policy_set_id", JStr (uuid_to_string ps))]).

(** [hosts::assign_policy_set]. *)
Definition host_assign_policy_set (u : AuthUser) (host ps : Uuid) : DB Z :=
  _ ← require_write u;
  _ ← flagged_gate u ps;
  _ ← execute_returning (insert_assignment u host ps);
  _ ← log_event (assignment_event u "policy_assigned" host ps);
  mret 201%Z.

Definition delete_assignment (host ps : Uuid) (d : Db) : Db :=
  set_db_assignments (delete_where (set_has host ps) (db_assignments d)) d.

(** [hosts::unassign_policy_set]. *)
Definition host_unassign_policy_set (u : AuthUser) (host ps : Uuid) : DB Z :=
  _ ← require_write u;
  _ ← execute (delete_assignment host ps);
  _ ← log_event (assignment_event u "policy_unassigned" host ps);
  mret 204%Z.

Definition resolve_host_ids (hosts groups : list Uuid) : DB (list Uuid) :=
  more ← match groups with
         | [] => mret []
         | _ => fetch (fun d => sql_scan (map fst (List.filter (fun '(_, g) => bool_decide (g ∈ groups)) (db_host_groups d))))
         end;
  mret (dedup (merge_sort uuid_le (hosts ++ more))).

Record AssignResponse := mkAssignResponse {
  as_policy_set_id : Uuid; as_assigned_count : nat; as_host_ids : list Uuid
}.

(** One turn of the loop of [deployment::assign_policy_set]: the number of rows added. *)
Definition assign_one (u : AuthUser) (ps host : Uuid) : DB nat :=
  can ← attempt (can_access_host u host);
  _ ← guard_or (unwrap_or false can)
        (Forbidden ("Operator " +:+ au_username u +:+ " cannot access host " +:+ uuid_to_string host));
  n ← execute_returning (insert_assignment u host ps);
  _ ← log_event (assignment_event u "policy_assigned" host ps);
  mret n.

Fixpoint assign_all (u : AuthUser) (ps : Uuid) (hosts : list Uuid) (assigned : nat) : DB nat :=
  match hosts with
  | [] => mret assigned
  | h :: hs => n ← assign_one u ps h; assign_all u ps hs (assigned + n)
  end.

(** [deployment::assign_policy_set]. *)
Definition assign_policy_set (u : AuthUser) (ps : Uuid) (hosts groups : list Uuid) : DB (Z * AssignResponse) :=
  _ ← require_write u;
  _ ← flagged_gate u ps;
  ids ← resolve_host_ids hosts groups;
  _ ← guard_or (negb (bool_decide (ids = []))) (BadRequest "No hosts selected");
  n ← assign_all u ps ids 0;
  mret (200%Z, mkAssignResponse ps n ids).

(** [deployment::unassign_policy_set]. *)
Definition unassign_policy_set (u : AuthUser) (ps : Uuid) (hosts groups : list Uuid) : DB nat :=
  _ ← require_write u;
  ids ← resolve_host_ids hosts groups;
  _ ← for_each (fun h =>
        _ ← execute (delete_assignment h ps);
        log_event (assignment_event u "policy_unassigned" h ps)) ids;
  mret (length ids).

Definition preview_assignment (ps : Uuid) : DB PreviewCompilationResponse :=
  rules ← rules_for_policy_set ps;
  mret (mkPreview (map compile_ufw_command rules) (map compile_firewalld_command rules) (length rules)).
End deployment.
