(* ===== verification/AdminFacts.v ===== *)
(** * AdminFacts: the policy tables stay coherent

    The integrity of the policy tables ([integrity]) and its preservation by
    every handler of [PolicyAdmin] and [Deployment] that writes. *)

From S2P Require Import Prelude Text Models Net Policy Wire Db AuditLog Auth AgentApi PolicyAdmin Deployment.

(** ** The write operations *)

Inductive AdminOp :=
  | OpCreateSet (req : CreatePolicySetRequest)
  | OpUpdateSet (id : Uuid) (req : UpdatePolicySetRequest)
  | OpDeleteSet (id : Uuid)
  | OpAddGroup (id group : Uuid) (order : option Z)
  | OpRemoveGroup (id group : Uuid)
  | OpReorderGroups (id : Uuid) (ids : list Uuid)
  | OpCreateGroup (name : string) (description : option string)
  | OpUpdateGroup (id : Uuid) (name description : option string)
  | OpDeleteGroup (id : Uuid)
  | OpCreateRule (group : Uuid) (req : CreateRuleInGroupRequest)
  | OpReorderRules (group : Uuid) (ids : list Uuid)
  | OpUpdateRule (id : Uuid) (req : UpdateRuleRequest)
  | OpDeleteRule (id : Uuid)
  | OpDeleteHost (id : Uuid)
  | OpUpdateHost (id : Uuid) (display_name notes : option string)
  | OpHostAssign (host ps : Uuid)
  | OpHostUnassign (host ps : Uuid)
  | OpAssign (ps : Uuid) (hosts groups : list Uuid)
  | OpUnassign (ps : Uuid) (hosts groups : list Uuid).

(** ** Integrity *)

Definition set_ids (d : Db) : list Uuid := map ps_id (db_policy_sets d).
Definition group_ids (d : Db) : list Uuid := map rg_id (db_rule_groups d).
Definition host_ids (d : Db) : list Uuid := map h_id (db_hosts d).
Definition member_key (g : FirewallPolicySetRuleGroup) : Uuid * Uuid := (psrg_policy_set_id g, psrg_rule_group_id g).
Definition assign_key (a : HostPolicyAssignment) : Uuid * Uuid := (hpa_host_id a, hpa_policy_set_id a).

(** Every membership, rule and assignment refers to rows that exist, keys are
    unique, and every rule's ports are a pair of absent or ordered port numbers. *)
Record integrity (d : Db) : Prop := {
  int_member : forall g, g ∈ db_set_groups d ->
    psrg_policy_set_id g ∈ set_ids d /\ psrg_rule_group_id g ∈ group_ids d;
  int_rule : forall r, r ∈ db_rules d -> rr_group_id r ∈ group_ids d /\ rule_ports_ok (rr_rule r) = true;
  int_assign : forall a, a ∈ db_assignments d -> hpa_host_id a ∈ host_ids d /\ hpa_policy_set_id a ∈ set_ids d;
  int_member_key : NoDup (map member_key (db_set_groups d));
  int_assign_key : NoDup (map assign_key (db_assignments d))
}.

Lemma exists_id {A} (f : A -> Uuid) (l : list A) id :
  existsb (fun x => bool_decide (f x = id)) l = true <-> id ∈ map f l.
Proof.
  rewrite existsb_exists, list_elem_of_In, in_map_iff.
  split; intros (x & H1 & H2); exists x; rewrite ?bool_decide_eq_true in *; auto.
Qed.

Lemma delete_ids {A} (f : A -> Uuid) l (id x : Uuid) :
  x ∈ map f l -> x <> id -> x ∈ map f (delete_where (fun y => bool_decide (f y = id)) l).
Proof.
  rewrite !list_elem_of_In, !in_map_iff. intros (y & <- & Hy) Hne. exists y. split; [done|].
  apply List.filter_In. split; [done|]. by rewrite bool_decide_eq_false_2.
Qed.

Lemma NoDup_app_new {A} (l : list A) x : NoDup l -> x ∉ l -> NoDup (l ++ [x]).
Proof.
  intros Hl Hx. apply NoDup_app. split_and!; [done| |apply NoDup_singleton].
  intros y Hy Hyx. apply list_elem_of_singleton in Hyx as ->. done.
Qed.

Lemma integrity_faults : faults_irrelevant integrity.
Proof. intros fs d []. by split. Qed.

#[export] Instance integrity_unaudited : Unaudited integrity.
Proof. split; [apply integrity_faults|intros ? ? []; by split..]. Qed.

Section facts.
Context {SQL : Sql} {SHA : Sha256} {JS : SerdeJson} {UT : UuidText} {RFC : Rfc3339} {PG : PgInet} {IPN : IpNetLib}.

Definition run_op (u : AuthUser) (op : AdminOp) : DB unit :=
  match op with
  | OpCreateSet req => _ ← create_policy_set u req; mret tt
  | OpUpdateSet id req => _ ← update_policy_set u id req; mret tt
  | OpDeleteSet id => _ ← delete_policy_set u id; mret tt
  | OpAddGroup id g o => _ ← add_group_to_set u id g o; mret tt
  | OpRemoveGroup id g => _ ← remove_group_from_set u id g; mret tt
  | OpReorderGroups id ids => _ ← reorder_groups u id ids; mret tt
  | OpCreateGroup n ds => _ ← create_rule_group u n ds; mret tt
  | OpUpdateGroup id n ds => _ ← update_rule_group u id n ds; mret tt
  | OpDeleteGroup id => _ ← delete_rule_group u id; mret tt
  | OpCreateRule g req => _ ← create_rule_in_group u g req; mret tt
  | OpReorderRules g ids => _ ← reorder_group_rules u g ids; mret tt
  | OpUpdateRule id req => _ ← update_rule u id req; mret tt
  | OpDeleteRule id => _ ← delete_rule u id; mret tt
  | OpDeleteHost id => _ ← delete_host u id; mret tt
  | OpUpdateHost id dn n => _ ← update_host u id dn n; mret tt
  | OpHostAssign h ps => _ ← host_assign_policy_set u h ps; mret tt
  | OpHostUnassign h ps => _ ← host_unassign_policy_set u h ps; mret tt
  | OpAssign ps hs gs => _ ← assign_policy_set u ps hs gs; mret tt
  | OpUnassign ps hs gs => _ ← unassign_policy_set u ps hs gs; mret tt
  end.

(** ** The statements keep it *)

(** Open an integrity goal and close the parts the statement does not touch. *)
Ltac int_open :=
  intros [Hm Hr Ha Hmk Hak]; split; cbn; unfold set_ids, group_ids, host_ids in *; cbn; try done.

Lemma drop_policy_set_integrity id d : integrity d -> integrity (drop_policy_set id d).
Proof.
  int_open.
  - intros g [Hg Hne]%delete_where_in. apply bool_decide_eq_false in Hne.
    destruct (Hm g Hg). split; [by apply delete_ids|done].
  - intros a [Hx Hne]%delete_where_in. apply bool_decide_eq_false in Hne.
    destruct (Ha a Hx). split; [done|by apply delete_ids].
  - eapply sublist_NoDup; [|apply map_delete_where]; done.
  - eapply sublist_NoDup; [|apply map_delete_where]; done.
Qed.

Lemma drop_rule_group_integrity id d b d' : integrity d -> drop_rule_group id d = Some (b, d') -> integrity d'.
Proof.
  intros [Hm Hr Ha Hmk Hak]. unfold drop_rule_group.
  destruct (group_exists id d && negb (used_by id d =? 0)%nat) eqn:Hu; [done|]. intros [= <- <-].
  split; cbn; unfold set_ids, group_ids, host_ids in *; cbn; try done.
  - intros g Hg. destruct (Hm g Hg) as [H1 H2]. split; [done|]. apply delete_ids; [done|].
    intros Hid. apply andb_false_iff in Hu as [Hu|Hu].
    + apply not_true_iff_false in Hu. apply Hu, exists_id. by rewrite <- Hid.
    + apply negb_false_iff, Nat.eqb_eq, length_zero_iff_nil in Hu.
      assert (List.In g []) as []. rewrite <- Hu. apply List.filter_In.
      split; [by apply list_elem_of_In|by apply bool_decide_eq_true_2].
  - intros r [Hx Hne]%delete_where_in. apply bool_decide_eq_false in Hne.
    destruct (Hr r Hx). split; [by apply delete_ids|done].
Qed.

Lemma insert_assignment_integrity u h ps d n d' :
  integrity d -> insert_assignment u h ps d = Some (n, d') -> integrity d'.
Proof.
  intros [Hm Hr Ha Hmk Hak]. unfold insert_assignment.
  destruct (existsb (set_has h ps) (db_assignments d)) eqn:He; [by intros [= <- <-]|].
  destruct (host_exists h d && set_exists ps d && user_exists (au_user_id u) d) eqn:Hx; [|done].
  rewrite !andb_true_iff in Hx. destruct Hx as [[Hh Hs] _]. intros [= <- <-].
  split; cbn; unfold set_ids, group_ids, host_ids in *; cbn; try done.
  - intros a [Hin| ->%list_elem_of_singleton]%elem_of_app; [by apply Ha|]. split; by apply exists_id.
  - rewrite map_app. apply NoDup_app_new; [done|]. rewrite list_elem_of_In, in_map_iff.
    intros (a & Hk & Hin). apply not_true_iff_false in He. apply He. apply existsb_exists.
    exists a. split; [done|]. unfold set_has. injection Hk as -> ->. by rewrite !bool_decide_eq_true_2.
Qed.

Lemma delete_assignment_integrity h ps d : integrity d -> integrity (delete_assignment h ps d).
Proof.
  int_open.
  - intros a [Hx _]%delete_where_in. by apply Ha.
  - eapply sublist_NoDup; [|apply map_delete_where]; done.
Qed.

Lemma remove_member_integrity p d : integrity d -> integrity (set_db_set_groups (delete_where p (db_set_groups d)) d).
Proof.
  int_open.
  - intros g [Hx _]%delete_where_in. by apply Hm.
  - eapply sublist_NoDup; [|apply map_delete_where]; done.
Qed.

Lemma add_set_integrity ps d : integrity d -> integrity (set_db_policy_sets (db_policy_sets d ++ [ps]) d).
Proof.
  int_open.
  - intros g Hg. destruct (Hm g Hg). rewrite map_app. set_solver.
  - intros a Hx. destruct (Ha a Hx). rewrite map_app. set_solver.
Qed.

Lemma update_set_integrity p f d : (forall s, ps_id (f s) = ps_id s) ->
  integrity d -> integrity (set_db_policy_sets (update_where p f (db_policy_sets d)) d).
Proof. intros Hf. int_open; by rewrite update_where_map. Qed.

Lemma add_group_integrity g d : integrity d -> integrity (set_db_rule_groups (db_rule_groups d ++ [g]) d).
Proof.
  int_open.
  - intros x Hg. destruct (Hm x Hg). rewrite map_app. set_solver.
  - intros x Hx. destruct (Hr x Hx). rewrite map_app. set_solver.
Qed.

Lemma update_group_integrity p f d : (forall g, rg_id (f g) = rg_id g) ->
  integrity d -> integrity (set_db_rule_groups (update_where p f (db_rule_groups d)) d).
Proof. intros Hf. int_open; by rewrite update_where_map. Qed.

Lemma upsert_integrity id group o d : set_exists id d = true -> group_exists group d = true ->
  integrity d -> integrity (set_db_set_groups (upsert_set_group id group o (db_set_groups d)) d).
Proof.
  intros Hs%exists_id Hg%exists_id. unfold upsert_set_group.
  destruct (existsb (in_set id group) (db_set_groups d)) eqn:He; int_open.
  - intros g Hx. apply update_where_in in Hx as (y & Hy & ->). destruct (in_set id group y); [done|by apply Hm].
  - assert (map member_key (update_where (in_set id group) (fun _ => mkSetGroup id group o) (db_set_groups d)) =
            map member_key (db_set_groups d)) as ->; [|done].
    unfold update_where. rewrite map_map. apply map_ext. intros x. unfold in_set, member_key.
    destruct (bool_decide (psrg_policy_set_id x = id)) eqn:H1, (bool_decide (psrg_rule_group_id x = group)) eqn:H2;
      simpl; try done. apply bool_decide_eq_true in H1, H2. by subst.
  - intros g [Hin| ->%list_elem_of_singleton]%elem_of_app; [by apply Hm|done].
  - rewrite map_app. apply NoDup_app_new; [done|]. rewrite list_elem_of_In, in_map_iff.
    intros (a & Hk & Hin). apply not_true_iff_false in He. apply He. apply existsb_exists.
    exists a. split; [done|]. unfold in_set. injection Hk as -> ->. by rewrite !bool_decide_eq_true_2.
Qed.

Lemma set_group_position_integrity id g i d : integrity d -> integrity (set_group_position id g i d).
Proof.
  int_open.
  - intros x Hx. apply update_where_in in Hx as (y & Hy & ->). destruct (in_set id g y); by apply (Hm y).
  - by rewrite update_where_map.
Qed.

Lemma update_rules_integrity p f d :
  (forall r, rr_group_id (f r) = rr_group_id r) ->
  (forall r, r ∈ db_rules d -> p r = true -> rule_ports_ok (rr_rule r) = true -> rule_ports_ok (rr_rule (f r)) = true) ->
  integrity d -> integrity (set_db_rules (update_where p f (db_rules d)) d).
Proof.
  intros Hf Hp. int_open. intros x Hx. apply update_where_in in Hx as (y & Hy & ->). destruct (Hr y Hy).
  destruct (p y) eqn:Hpy; [rewrite Hf; auto|done].
Qed.

Lemma drop_rules_integrity p d : integrity d -> integrity (drop_rules p d).
Proof. int_open. intros r [Hx _]%delete_where_in. by apply Hr. Qed.

Lemma insert_rule_integrity u g req d r d' : integrity d -> insert_rule u g req d = Some (r, d') -> integrity d'.
Proof.
  intros [Hm Hr Ha Hmk Hak]. unfold insert_rule.
  destruct (inet_cast (cr_src_cidr req)), (inet_cast (cr_dst_cidr req)); try done.
  destruct (coalesce_order (cr_group_order req) _) as [o'|]; try done.
  destruct (rule_ports_ok _ && _ && _ && _ && _) eqn:Hc; [|done].
  rewrite !andb_true_iff in Hc. destruct Hc as [[[[Hp _] Hg%exists_id] _] _]. intros [= <- <-].
  split; cbn; unfold set_ids, group_ids, host_ids in *; cbn; try done.
  intros x [Hin| ->%list_elem_of_singleton]%elem_of_app; [by apply Hr|done].
Qed.

Lemma drop_host_integrity id d : integrity d -> integrity (drop_host id d).
Proof.
  int_open.
  - intros a [Hx Hne]%delete_where_in. apply bool_decide_eq_false in Hne.
    destruct (Ha a Hx). split; [by apply delete_ids|done].
  - eapply sublist_NoDup; [|apply map_delete_where]; done.
Qed.

Lemma update_host_integrity p f d : (forall h, h_id (f h) = h_id h) ->
  integrity d -> integrity (set_db_hosts (update_where p f (db_hosts d)) d).
Proof. intros Hf. int_open; by rewrite update_where_map. Qed.

Lemma integrity_other d d' : integrity d -> db_set_groups d' = db_set_groups d -> db_rules d' = db_rules d ->
  db_assignments d' = db_assignments d -> db_policy_sets d' = db_policy_sets d ->
  db_rule_groups d' = db_rule_groups d -> db_hosts d' = db_hosts d -> integrity d'.
Proof.
  intros [Hm Hr Ha Hmk Hak] H1 H2 H3 H4 H5 H6.
  split; unfold set_ids, group_ids, host_ids in *; rewrite ?H1, ?H2, ?H3, ?H4, ?H5, ?H6; done.
Qed.

(** ** The handlers keep it *)

Section unaudited.
Context (P : Db -> Prop) `{!Unaudited P}.

Lemma keeps_or_not_found {A} msg (o : option A) : keeps P (or_not_found msg o).
Proof. unfold or_not_found. destruct o; auto with keeps. Qed.

Lemma keeps_gate u ps : keeps P (flagged_gate u ps).
Proof.
  unfold flagged_gate, flagged_rule_ids_for_set, rules_for_policy_set. destruct (is_admin _); [apply keeps_ret|].
  apply keeps_bind; [apply keeps_bind; [apply keeps_fetch, un_faults|intros; apply keeps_ret]|intros; apply keeps_guard].
Qed.

Lemma keeps_access u h : keeps P (can_access_host u h).
Proof.
  unfold can_access_host. destruct (_ || _); [apply keeps_ret|]. destruct (negb _); [apply keeps_ret|].
  apply keeps_fetch, un_faults.
Qed.

Lemma keeps_resolve hs gs : keeps P (resolve_host_ids hs gs).
Proof.
  unfold resolve_host_ids. apply keeps_bind; [|intros; apply keeps_ret].
  destruct gs; [apply keeps_ret|apply keeps_fetch, un_faults].
Qed.

Lemma keeps_assign_all u ps hs n :
  (forall h d n' d', P d -> insert_assignment u h ps d = Some (n', d') -> P d') -> keeps P (assign_all u ps hs n).
Proof.
  intros HP. revert n. induction hs as [|h hs IH]; intros n; simpl; [apply keeps_ret|].
  apply keeps_bind; [|intros; apply IH]. unfold assign_one.
  apply keeps_bind; [apply keeps_attempt, keeps_access|intros]. apply keeps_bind; [apply keeps_guard|intros].
  apply keeps_bind; [|intros; apply keeps_bind; [by apply keeps_log|intros; apply keeps_ret]].
  apply keeps_execute_returning; [apply un_faults|]. intros ? ? ?. apply HP.
Qed.
End unaudited.

Lemma update_rule_row_integrity id req d o d' :
  integrity d -> update_rule_row id req d = Some (o, d') -> integrity d'.
Proof.
  intros Hi. unfold update_rule_row.
  destruct (inet_cast (ur_src_cidr req)) as [src|], (inet_cast (ur_dst_cidr req)) as [dst|]; try done.
  cbv zeta. destruct (find_rule id d) as [row|]; [|by intros [= <- <-]].
  destruct (forallb _ _ && _) eqn:Hc; [|done]. apply andb_true_iff in Hc as [Hp _]. intros [= <- <-].
  apply update_rules_integrity; [done| |done]. intros r Hr Hid _.
  rewrite forallb_forall in Hp. apply list_elem_of_In in Hr. specialize (Hp r Hr). cbn in Hp, Hid. rewrite Hid in Hp. done.
Qed.

End facts.

(** One step of a [keeps P] proof: a statement with its lemma, or a bind. *)
Ltac int_step :=
  match goal with
  | |- keeps _ (log_event _) => apply keeps_log; apply _
  | |- keeps _ (fetch _) => apply keeps_fetch, un_faults
  | |- keeps _ (or_not_found _ _) => apply keeps_or_not_found
  | |- keeps _ (require_write _) => apply keeps_guard
  | |- keeps _ (require_admin_role _) => apply keeps_guard
  | |- keeps _ (guard_or _ _) => apply keeps_guard
  | |- keeps _ (flagged_gate _ _) => apply keeps_gate; apply _
  | |- keeps _ (resolve_host_ids _ _) => apply keeps_resolve; apply _
  | |- keeps _ (assign_all _ _ _ _) => apply keeps_assign_all; [apply _|intros ? ? ? ? ? ?]
  | |- keeps _ (ignore _) => apply keeps_ignore
  | |- keeps _ (attempt _) => apply keeps_attempt
  | |- keeps _ (transaction _) => apply keeps_transaction; [apply un_faults|]
  | |- keeps _ tx_mark => apply keeps_execute; [apply un_faults|intros ? ?; assumption]
  | |- keeps _ (execute_if _ _) => apply keeps_execute_if; [apply un_faults|intros ? ?]
  | |- keeps _ (execute _) => apply keeps_execute; [apply un_faults|intros ? ?]
  | |- keeps _ (execute_returning _) => apply keeps_execute_returning; [apply un_faults|intros ? ? ? ? ?]
  | |- keeps _ (mbind _ _) => apply keeps_bind; [|intros ?]
  | |- keeps _ (for_each _ _) => apply keeps_for_each; intros ? _
  | |- keeps _ (mret _) => apply keeps_ret
  | |- keeps _ (let '(_, _) := ?x in _) => destruct x
  end.

Section handlers.
Context {SQL : Sql} {SHA : Sha256} {JS : SerdeJson} {UT : UuidText} {RFC : Rfc3339} {PG : PgInet}.

Lemma run_op_integrity u op : keeps integrity (run_op u op).
Proof.
  destruct op; simpl; apply keeps_bind; try (intros; apply keeps_ret).
  - unfold create_policy_set. repeat int_step. case_match; [|done]. simplify_eq.
    eapply integrity_other; [by apply add_set_integrity|done..].
  - unfold update_policy_set. repeat int_step. case_match; [|by simplify_eq]. case_match; [|done]. simplify_eq.
    by apply update_set_integrity.
  - unfold delete_policy_set. repeat int_step. simplify_eq. by apply drop_policy_set_integrity.
  - unfold add_group_to_set. repeat int_step. case_match; [|done].
    destruct (set_exists _ _ && _) eqn:Hc; [|done]. apply andb_true_iff in Hc as []. simplify_eq.
    by apply upsert_integrity.
  - unfold remove_group_from_set. repeat int_step. by apply remove_member_integrity.
  - unfold reorder_groups. repeat int_step. by apply set_group_position_integrity.
  - unfold create_rule_group. repeat int_step. case_match; [|done]. simplify_eq.
    eapply integrity_other; [by apply add_group_integrity|done..].
  - unfold update_rule_group. repeat int_step. simplify_eq. by apply update_group_integrity.
  - unfold delete_rule_group. repeat int_step. by eapply drop_rule_group_integrity.
  - unfold create_rule_in_group. repeat int_step; [by eapply insert_rule_integrity|].
    by eapply integrity_other.
  - unfold reorder_group_rules. repeat int_step. by apply update_rules_integrity.
  - unfold update_rule. repeat int_step. by eapply update_rule_row_integrity.
  - unfold delete_rule. repeat int_step. simplify_eq. by apply drop_rules_integrity.
  - unfold delete_host. repeat int_step. by apply drop_host_integrity.
  - unfold update_host. repeat int_step. intros d Hd. unfold final, query.
    destruct (db_faults d) as [|[] fs]; [|by apply integrity_faults|]; (case_match; [destruct (db_coerces_text _)|]);
      by apply update_host_integrity; try apply integrity_faults.
  - unfold host_assign_policy_set. repeat int_step. by eapply insert_assignment_integrity.
  - unfold host_unassign_policy_set. repeat int_step. by apply delete_assignment_integrity.
  - unfold assign_policy_set. repeat int_step. by eapply insert_assignment_integrity.
  - unfold unassign_policy_set. repeat int_step. by apply delete_assignment_integrity.
Qed.

(** No sequence of administrative requests, whatever their arguments and
    whichever statements fail on the way, corrupts the policy tables: every set
    membership, rule and host assignment refers to existing rows, memberships
    and assignments are unique, and every stored rule's port columns are absent
    or an ordered pair of port numbers. *)
Theorem admin_ops_keep_integrity (u : AuthUser) (ops : list AdminOp) (d : Db) :
  integrity d -> integrity (foldl (fun d op => final (run_op u op) d) d ops).
Proof. revert d. induction ops as [|op ops IH]; intros d Hd; [done|]. apply IH. by apply run_op_integrity. Qed.
End handlers.

(** ** Witness *)

Definition toy_pg : PgInet := {| inet_text s := Some s |}.
Definition ex_admin (r : UserRole) : AuthUser := mkAuthUser (uuid_of 7) "op" r (mkClaims "" 0 0 "" "" "") None.
Definition ex_create_rule (name : string) (a : FirewallAction) (src : option string) (port : option Z)
  : CreateRuleInGroupRequest :=
  mkCreateRule name None a In Tcp src None None None port port None None None None None None.
Definition admin_db : Db :=
  set_db_hosts [mkHost (uuid_of 50) "h.example" "192.0.2.1" "" None None None None Healthy None None 12443 "" 0 0]
  (set_db_users [mkUser (uuid_of 7) "op" "" "op@example" Operator Local None false true false None 0 0 0 None] empty_db).

(** A group with a rule, in a set, on a host; then the set is deleted. *)
Definition ex_ops : list AdminOp :=
  [OpCreateGroup "web" None;
   OpCreateRule (uuid_of 100) (ex_create_rule "https" Allow (Some "10.0.0.0/8") (Some 443%Z));
   OpCreateSet (mkCreatePolicySet "base" None None None);
   OpAddGroup (uuid_of 102) (uuid_of 100) None;
   OpHostAssign (uuid_of 50) (uuid_of 102)].

Lemma admin_ops_keep_integrity_witness :
  let run ops := foldl (fun d op => final (@run_op toy_sql toy_sha256 toy_serde toy_uuid_text toy_rfc3339 toy_pg
                   (ex_admin Operator) op) d) admin_db ops in
  integrity (run ex_ops) /\ (length (db_assignments (run ex_ops)) = 1)%nat /\
  integrity (run (ex_ops ++ [OpDeleteSet (uuid_of 102)])).
Proof.
  intros run. assert (integrity admin_db) as Hi by (split; cbn; try apply NoDup_nil_2; intros ? Hx; by apply not_elem_of_nil in Hx).
  split_and!.
  - apply (@admin_ops_keep_integrity toy_sql toy_sha256 toy_serde toy_uuid_text toy_rfc3339 toy_pg). exact Hi.
  - vm_compute. reflexivity.
  - apply (@admin_ops_keep_integrity toy_sql toy_sha256 toy_serde toy_uuid_text toy_rfc3339 toy_pg). exact Hi.
Defined.
