(* ===== verification/DeploymentFacts.v ===== *)
(** * DeploymentFacts: who can put which policy on which host

    The two gates of an assignment, the life cycle of rule groups and the order
    of a policy, for [PolicyAdmin] and [Deployment]. *)

From S2P Require Import Prelude Text Models Net Policy Backend Wire Db AuditLog Auth AgentApi PolicyAdmin.
From S2P Require Import Deployment AdminFacts.

Section facts.
Context {SQL : Sql} {SHA : Sha256} {JS : SerdeJson} {UT : UuidText} {RFC : Rfc3339} {PG : PgInet}.

(** ** The gates *)

(** The tables the two gates read. *)
Definition gate_tables (d : Db) := (db_rules d, db_set_groups d, db_host_groups d, db_operator_groups d).

Lemma gate_tables_policy ps d d' : gate_tables d' = gate_tables d -> policy_rules ps d' = policy_rules ps d.
Proof. intros H. injection H as H1 H2 _ _. unfold policy_rules, policy_join. by rewrite H1, H2. Qed.

Lemma gate_tables_scope u h d d' : gate_tables d' = gate_tables d -> in_scope u h d' <-> in_scope u h d.
Proof. intros H. injection H as _ _ H3 H4. unfold in_scope. by rewrite H3, H4. Qed.

(** A read: its value or a database error, and nothing changed. *)
Lemma fetch_run {A} (f : Db -> A) d : (forall fs, f (set_db_faults fs d) = f d) ->
  exists r fs, fetch f d = (r, set_db_faults fs d) /\ (r = Ok (f d) \/ r = Err Database).
Proof.
  intros Hf. unfold fetch, query. destruct (db_faults d) as [|[] fs] eqn:Hd.
  - eexists _, []. split; [rewrite <- Hd; by destruct d|by left].
  - eexists _, fs. by split; [|right].
  - eexists _, fs. split; [done|]. left. by rewrite Hf.
Qed.

Lemma flagged_gate_run u ps d : exists r fs, flagged_gate u ps d = (r, set_db_faults fs d) /\
  (r = Ok tt -> is_admin (au_role u) = true \/ (forall r, r ∈ policy_rules ps d -> ~ broad_allow r)).
Proof.
  unfold flagged_gate. destruct (is_admin (au_role u)).
  { eexists _, (db_faults d). split; [by destruct d|by left]. }
  destruct (fetch_run (policy_rules ps) d) as (r & fs & Hr & Hv); [done|].
  unfold flagged_rule_ids_for_set, rules_for_policy_set, mbind, M_bind. rewrite Hr.
  destruct Hv as [->| ->]; [|by eexists _, fs]. cbn [mret M_ret]. unfold guard_or.
  case_bool_decide as Hf; [|by eexists _, fs]. eexists _, fs. split; [done|]. right. by apply flagged_empty_iff.
Qed.

(** What a run of assignments by [u] may add to the table. *)
Definition assigned_in_scope (u : AuthUser) (ps : Uuid) (d0 d : Db) : Prop :=
  gate_tables d = gate_tables d0 /\
  forall a, a ∈ db_assignments d -> a ∈ db_assignments d0 \/
    (hpa_policy_set_id a = ps /\ hpa_assigned_by a = Some (au_user_id u) /\ in_scope u (hpa_host_id a) d0).

Lemma assigned_in_scope_faults u ps d0 : faults_irrelevant (assigned_in_scope u ps d0).
Proof. intros fs d []. by split. Qed.

Lemma insert_assignment_scope u h ps d0 : keeps (fun d => assigned_in_scope u ps d0 d /\ in_scope u h d0)
  (execute_returning (insert_assignment u h ps)).
Proof.
  apply keeps_execute_returning; [intros fs d [[] ?]; by repeat split|].
  intros d n d' [[Ht Ha] Hs]. unfold insert_assignment.
  destruct (existsb _ _); [by intros [= <- <-]|]. destruct (_ && _); [|done]. intros [= <- <-].
  split; [|done]. split; [done|]. cbn. intros a [Hin| ->%list_elem_of_singleton]%elem_of_app; [by apply Ha|].
  by right.
Qed.

Lemma assign_one_scope u ps h d0 : keeps (assigned_in_scope u ps d0) (assign_one u ps h).
Proof.
  intros d Hd. unfold assign_one, attempt, final.
  destruct (can_access_host_sound u h d) as (r & fs & Hr & Hsc).
  unfold mbind at 1, M_bind at 1. rewrite Hr.
  pose proof (assigned_in_scope_faults u ps d0 fs d Hd) as Hd1. set (d1 := set_db_faults fs d) in *.
  unfold guard_or. destruct (unwrap_or false r) eqn:Hok; [|done].
  destruct r as [[]|e]; simpl in Hok; try done.
  assert (in_scope u h d0) as Hs by (apply (gate_tables_scope u h d0 d); [apply Hd|by apply Hsc]).
  unfold mbind at 1, M_bind at 1. cbn [mret M_ret].
  apply (keeps_bind (fun d => assigned_in_scope u ps d0 d /\ in_scope u h d0)); [apply insert_assignment_scope| |done].
  intros n. apply keeps_bind; [|intros; apply keeps_ret].
  apply keeps_log_event; [intros fs' d' [[] ?]; by repeat split|..]; intros x d' [[] ?]; by repeat split.
Qed.

Lemma assign_all_scope u ps hs n d0 : keeps (assigned_in_scope u ps d0) (assign_all u ps hs n).
Proof.
  revert n. induction hs as [|h hs IH]; intros n; simpl; [apply keeps_ret|].
  apply keeps_bind; [apply assign_one_scope|intros; apply IH].
Qed.

(** C9. Deployment never exceeds the caller's authority: in a run of the deployment
    endpoint ([deployment::assign_policy_set], not the one that assigns from a host's
    page), whatever hosts and groups are asked for and whatever fails on the way, an
    assignment that was not there before is of the requested set, by the caller, on a host in the caller's scope
    (SEC-012), and unless the caller is an administrator no rule of the set is a
    broad allow (SEC-003). A reporter adds none at all. *)
Theorem assign_within_authority (u : AuthUser) (ps : Uuid) (hosts groups : list Uuid) (d : Db)
    (a : HostPolicyAssignment) :
  a ∈ db_assignments (final (assign_policy_set u ps hosts groups) d) -> a ∉ db_assignments d ->
  hpa_policy_set_id a = ps /\ hpa_assigned_by a = Some (au_user_id u) /\ can_write (au_role u) = true /\
  in_scope u (hpa_host_id a) d /\
  (is_admin (au_role u) = true \/ (forall r, r ∈ policy_rules ps d -> ~ broad_allow r)).
Proof.
  unfold assign_policy_set, require_write, guard_or. intros Hin Hnew.
  destruct (can_write (au_role u)) eqn:Hw; [|done].
  destruct (flagged_gate_run u ps d) as (r & fs & Hg & Hflag).
  unfold final in Hin. erewrite bind_ok in Hin by reflexivity.
  destruct r as [[]|e]; [|by erewrite bind_err in Hin by exact Hg].
  erewrite bind_ok in Hin by exact Hg.
  assert (keeps (assigned_in_scope u ps d) (ids ← resolve_host_ids hosts groups;
    _ ← (if negb (bool_decide (ids = [])) then mret tt else throw (BadRequest "No hosts selected"));
    n ← assign_all u ps ids 0; mret (200%Z, mkAssignResponse ps n ids))) as Hk.
  { apply keeps_bind; [unfold resolve_host_ids; apply keeps_bind; [|intros; apply keeps_ret];
      destruct groups; [apply keeps_ret|apply keeps_fetch, assigned_in_scope_faults]|intros ids].
    apply keeps_bind; [destruct (negb _); [apply keeps_ret|apply keeps_throw]|intros _].
    apply keeps_bind; [apply assign_all_scope|intros; apply keeps_ret]. }
  destruct (Hk (set_db_faults fs d)) as [_ Ha]; [split; [done|by left]|].
  destruct (Ha a Hin) as [?|(H1 & H2 & H3)]; [done|]. by split_and!; auto.
Qed.

(** ** Editing a group that is in use *)

Lemma policy_join_elem ps d sg r :
  sg ∈ db_set_groups d -> r ∈ db_rules d -> psrg_policy_set_id sg = ps -> rr_group_id r = psrg_rule_group_id sg ->
  (sg, r) ∈ policy_join ps d.
Proof.
  intros Hsg Hr Hps Hg. unfold policy_join. rewrite list_elem_of_In. apply in_concat. eexists. split.
  - apply in_map_iff. exists sg. split; [reflexivity|]. apply List.filter_In.
    split; [by apply list_elem_of_In|by apply bool_decide_eq_true_2].
  - apply in_map. apply List.filter_In. split; [by apply list_elem_of_In|by apply bool_decide_eq_true_2].
Qed.

(** A rule created in a group reaches every policy set that contains the group
    at once, and so every host of those sets at its next check-in. The
    administrator's approval is not asked for here: a broad allow created by any
    writer is recorded as flagged (if the server takes the text of the decision
    for its enum column) and served all the same. *)
Theorem created_rule_is_served {SQLL : SqlLaws} (u : AuthUser) (group ps : Uuid) (req : CreateRuleInGroupRequest)
    (sg : FirewallPolicySetRuleGroup) (d d1 : Db) (r : FirewallRule) :
  healthy d -> can_write (au_role u) = true -> insert_rule u group req d = Some (r, d1) ->
  sg ∈ db_set_groups d -> psrg_policy_set_id sg = ps -> psrg_rule_group_id sg = group ->
  exists d', create_rule_in_group u group req d = (Ok (201%Z, r), d') /\
    r ∈ policy_rules ps d' /\
    (broad_allow r -> db_coerces_text d = true -> exists x, x ∈ db_decisions d' /\ rpd_rule_id x = Some (rule_id r) /\ rpd_decision x = "flagged").
Proof.
  intros Hd Hw Hins Hsg Hps Hg. unfold create_rule_in_group, require_write, guard_or. rewrite Hw.
  assert (healthy d1 /\ db_set_groups d1 = db_set_groups d /\ db_coerces_text d1 = db_coerces_text d /\
    exists o, mkRuleRow r group o ∈ db_rules d1) as (Hd1 & Hsg1 & Hco & o & Hr1).
  { unfold insert_rule in Hins.
    destruct (inet_cast (cr_src_cidr req)), (inet_cast (cr_dst_cidr req)); try done.
    destruct (coalesce_order (cr_group_order req) _) as [o'|]; [|done].
    destruct (rule_ports_ok _ && _ && _ && _ && _); [|done]. simplify_eq. split_and!; [done..|].
    exists o'. cbn. set_solver. }
  erewrite bind_ok by reflexivity.
  erewrite bind_ok by (unfold execute_returning, query; rewrite Hd, Hins; reflexivity).
  assert (rule_exists (rule_id r) d1 = true) as Hre.
  { apply exists_id, list_elem_of_fmap. by exists (mkRuleRow r group o). }
  erewrite bind_ok by (unfold ignore, execute_if, query; rewrite Hd1, Hre, andb_true_r; reflexivity).
  match goal with |- context [log_event ?e] => set (ev := e) end.
  set (d2 := set_db_decisions (db_decisions d1 ++ _) d1).
  destruct (log_healthy (E:=AppError) ev (if db_coerces_text d1 then d2 else d1)) as (rows & n & Hlog); [by destruct (db_coerces_text d1)|].
  rewrite (bind_ok _ _ _ tt (set_db_audit rows (set_db_audit_seq n (if db_coerces_text d1 then d2 else d1))))
    by (destruct (db_coerces_text d1); exact Hlog).
  eexists. split; [reflexivity|]. split.
  - unfold policy_rules. rewrite list_elem_of_In, in_map_iff. exists (sg, mkRuleRow r group o). split; [done|].
    rewrite <- list_elem_of_In, sql_sort_perm.
    apply policy_join_elem; cbn; try (by rewrite Hg); try done; destruct (db_coerces_text d1); cbn; by rewrite ?Hsg1.
  - intros Hb%check_rule_flags Hc. rewrite Hco, Hc. eexists. split; [cbn; apply elem_of_app; right; left|]. by rewrite Hb.
Qed.

(** ** Deleting a rule group *)

Lemma filter_delete_other {A} (p q : A -> bool) l :
  (forall x, q x = true -> p x = false) -> List.filter q (delete_where p l) = List.filter q l.
Proof.
  intros H. unfold delete_where. induction l as [|x l IH]; simpl; [done|].
  destruct (p x) eqn:Hp; simpl; rewrite IH; [|done]. destruct (q x) eqn:Hq; [|done]. by rewrite H in Hp.
Qed.

Lemma used_by_0 id d sg : used_by id d = 0%nat -> sg ∈ db_set_groups d -> psrg_rule_group_id sg <> id.
Proof.
  intros H Hsg Hid. apply length_zero_iff_nil in H. assert (List.In sg []) as []. rewrite <- H.
  apply List.filter_In. split; [by apply list_elem_of_In|by apply bool_decide_eq_true_2].
Qed.

(** A rule group can be deleted only while no policy set uses it: while one does
    the request is refused with a conflict and nothing changes; otherwise the
    group and its rules go, and the rules of every policy set stay exactly what
    they were. *)
Theorem delete_rule_group_safe (u : AuthUser) (id : Uuid) (d : Db) :
  healthy d -> can_write (au_role u) = true -> id ∈ group_ids d ->
  ((0 < used_by id d)%nat -> exists msg, delete_rule_group u id d = (Err (Conflict msg), d)) /\
  (used_by id d = 0%nat -> exists d', delete_rule_group u id d = (Ok 204%Z, d') /\
     id ∉ group_ids d' /\ (forall r, r ∈ db_rules d' <-> r ∈ db_rules d /\ rr_group_id r <> id) /\
     (forall ps, policy_rules ps d' = policy_rules ps d)).
Proof.
  intros Hd Hw Hid. unfold delete_rule_group, require_write, guard_or. rewrite Hw. split; intros Hu.
  - erewrite bind_ok by reflexivity. erewrite bind_ok by by apply fetch_healthy.
    destruct (Nat.eqb_spec (used_by id d) 0); [lia|]. by eexists.
  - erewrite bind_ok by reflexivity. erewrite bind_ok by by apply fetch_healthy.
    rewrite Hu. erewrite bind_ok by reflexivity.
    assert (group_exists id d = true) as Hge by by apply exists_id.
    erewrite bind_ok by (unfold execute_returning, query, drop_rule_group; rewrite Hd, Hge, Hu; reflexivity).
    erewrite bind_ok by reflexivity.
    match goal with |- context [log_event ?e] => set (ev := e) end.
    match goal with |- context [set_db_rule_groups ?x ?y] => set (d2 := set_db_rule_groups x y) end.
    destruct (log_healthy (E:=AppError) ev d2 Hd) as (rows & n & Hlog). erewrite bind_ok by exact Hlog.
    eexists. split; [reflexivity|]. split_and!.
    + unfold group_ids. cbn. rewrite list_elem_of_In, in_map_iff. intros (g & Hg & Hin).
      apply list_elem_of_In, delete_where_in in Hin as [_ Hne]. by apply bool_decide_eq_false in Hne.
    + intros r. cbn. rewrite delete_where_in, bool_decide_eq_false. done.
    + intros ps. unfold policy_rules, policy_join. do 3 f_equal. cbn.
      assert (forall sgs, (forall sg, sg ∈ sgs -> psrg_rule_group_id sg <> id) ->
        map (fun sg => map (pair sg) (List.filter (fun r => bool_decide (rr_group_id r = psrg_rule_group_id sg))
          (delete_where (fun r => bool_decide (rr_group_id r = id)) (db_rules d)))) sgs =
        map (fun sg => map (pair sg) (List.filter (fun r => bool_decide (rr_group_id r = psrg_rule_group_id sg))
          (db_rules d))) sgs) as Hmap.
      { intros sgs Hsgs. apply map_ext_in. intros sg Hsg. f_equal. apply filter_delete_other. intros r Hr.
        apply bool_decide_eq_true in Hr. apply bool_decide_eq_false. rewrite Hr. apply Hsgs. by apply list_elem_of_In. }
      apply Hmap. intros sg Hsg. apply (used_by_0 id d sg Hu).
      apply list_elem_of_In, List.filter_In in Hsg as [Hsg _]. by apply list_elem_of_In.
Qed.

(** ** Reordering *)

(** The rows a run of position updates leaves. *)
Definition reposition (id : Uuid) (pl : list (nat * Uuid)) (g : FirewallPolicySetRuleGroup) : FirewallPolicySetRuleGroup :=
  foldl (fun g '(i, x) => if in_set id x g then mkSetGroup (psrg_policy_set_id g) (psrg_rule_group_id g) (index_as_i32 i) else g) g pl.

Lemma reposition_key id pl g : psrg_policy_set_id (reposition id pl g) = psrg_policy_set_id g /\
  psrg_rule_group_id (reposition id pl g) = psrg_rule_group_id g.
Proof.
  revert g. induction pl as [|[i x] pl IH]; intros g; [done|]. cbn [reposition foldl].
  destruct (in_set id x g); [|apply IH]. destruct (IH (mkSetGroup (psrg_policy_set_id g) (psrg_rule_group_id g) (index_as_i32 i))).
  done.
Qed.

Lemma reposition_other id pl g : (forall i x, (i, x) ∈ pl -> in_set id x g = false) -> reposition id pl g = g.
Proof.
  induction pl as [|[i x] pl IH]; intros H; [done|]. cbn [reposition foldl].
  rewrite (H i x) by left. apply IH. intros j y Hy. apply (H j y). by right.
Qed.

Lemma reposition_order id pl g i : psrg_policy_set_id g = id -> NoDup pl.*2 -> (i, psrg_rule_group_id g) ∈ pl ->
  psrg_set_group_order (reposition id pl g) = index_as_i32 i.
Proof.
  intros Hid. revert g Hid. induction pl as [|[j x] pl IH]; intros g Hid Hnd Hin; [by apply not_elem_of_nil in Hin|].
  rewrite fmap_cons in Hnd. apply NoDup_cons in Hnd as [Hx Hnd]. cbn [reposition foldl].
  apply elem_of_cons in Hin as [[= <- <-]|Hin].
  - unfold in_set at 2. rewrite !bool_decide_eq_true_2 by done. simpl andb. cbv iota.
    change (foldl _ ?g0 pl) with (reposition id pl g0). rewrite reposition_other; [done|].
    intros k y Hy. unfold in_set. cbn. apply andb_false_iff. right. apply bool_decide_eq_false.
    intros Hxy. apply Hx. apply list_elem_of_fmap. exists (k, y). by split.
  - assert (in_set id x g = false) as Hne.
    { apply andb_false_iff. right. apply bool_decide_eq_false. intros Hgx. apply Hx.
      apply list_elem_of_fmap. exists (i, psrg_rule_group_id g). by split. }
    rewrite Hne. by apply IH.
Qed.

Lemma position_updates id pl d : healthy d ->
  for_each (fun '(i, g) => execute (set_group_position id g i)) pl d =
    (Ok tt, set_db_set_groups (map (reposition id pl) (db_set_groups d)) d).
Proof.
  revert d. induction pl as [|[i x] pl IH]; intros d Hd; cbn [for_each].
  - unfold mret, M_ret. f_equal. rewrite map_id. by destruct d.
  - erewrite bind_ok by by apply execute_healthy. rewrite IH by done. f_equal.
    unfold set_group_position. cbn. unfold update_where. rewrite map_map. by destruct d.
Qed.

Lemma enumerate_snd {A} (l : list A) : (enumerate l).*2 = l.
Proof. unfold enumerate. rewrite fmap_imap. change (fun n : nat => snd ∘ pair n) with (fun _ : nat => @id A).
  rewrite (imap_const id). by rewrite list_fmap_id. Qed.

Lemma enumerate_elem {A} (l : list A) i x : (i, x) ∈ enumerate l <-> l !! i = Some x.
Proof.
  unfold enumerate. rewrite elem_of_lookup_imap. split.
  - intros (j & y & [= -> ->] & H). done.
  - intros H. by exists i, x.
Qed.

Lemma index_as_i32_small i : (Z.of_nat i < 2^31)%Z -> index_as_i32 i = Z.of_nat i.
Proof. intros H. unfold index_as_i32, wrap32. rewrite Z.mod_small by lia. lia. Qed.

Lemma StronglySorted_lookup {A} (R : A -> A -> Prop) l m n x y :
  StronglySorted R l -> l !! m = Some x -> l !! n = Some y -> (m < n)%nat -> R x y.
Proof.
  intros Hs. revert m n. induction Hs as [|z l Hs IH Hz]; intros m n Hm Hn Hlt; [done|].
  destruct n as [|n]; [lia|]. destruct m as [|m].
  - simplify_eq/=. rewrite Forall_forall in Hz. apply Hz. by eapply list_elem_of_lookup_2.
  - apply (IH m n); [done|done|lia].
Qed.

Lemma policy_join_order id ids d d' x i :
  db_set_groups d' = map (reposition id (enumerate ids)) (db_set_groups d) -> NoDup ids ->
  (Z.of_nat (length ids) <= 2^31)%Z ->
  x ∈ policy_join id d' -> ids !! i = Some (psrg_rule_group_id x.1) -> psrg_set_group_order x.1 = Z.of_nat i.
Proof.
  intros Hsg Hnd Hlen Hx Hi. unfold policy_join in Hx. rewrite list_elem_of_In in Hx.
  apply in_concat in Hx as (l & Hl & Hx). apply in_map_iff in Hl as (sg & <- & Hin).
  apply in_map_iff in Hx as (r & <- & _). cbn [fst] in *.
  apply List.filter_In in Hin as [Hin Hps]. apply bool_decide_eq_true in Hps. rewrite Hsg in Hin.
  apply in_map_iff in Hin as (g & <- & _). destruct (reposition_key id (enumerate ids) g) as [H1 H2].
  rewrite H1 in Hps. rewrite H2 in Hi. pose proof (lookup_lt_Some _ _ _ Hi).
  rewrite (reposition_order id _ _ i Hps); [apply index_as_i32_small; lia|by rewrite enumerate_snd|by apply enumerate_elem].
Qed.

(** Logging at the end of a handler neither fails nor touches the memberships. *)
Lemma log_then_ret {A} e (a : A) d r d' : (_ ← log_event (E:=AppError) e; mret a) d = (r, d') ->
  r = Ok a /\ db_set_groups d' = db_set_groups d.
Proof.
  intros H. assert (exists d1, log_event (E:=AppError) e d = (Ok tt, d1)) as [d1 Hl].
  { unfold log_event, gets, attempt, ignore, mbind, M_bind. destruct (fetch last_row_hash d). by eexists. }
  erewrite bind_ok in H by exact Hl. inv_ret H. split; [done|].
  pose proof (keeps_log_event (E:=AppError) (fun x => db_set_groups x = db_set_groups d) e) as Hk.
  specialize (Hk (fun _ _ H => H) (fun _ _ H => H) (fun _ _ H => H) d eq_refl). unfold final in Hk. by rewrite Hl in Hk.
Qed.

(** C39. Reordering the rule groups of a policy set is atomic and does what it says:
    a request that fails leaves every membership as it was; one that succeeds
    puts the rules of the set in the order of the given group list, so that a
    rule of an earlier listed group always precedes a rule of a later one in the
    compiled policy. *)
Theorem reorder_groups_orders_policy {SQLL : SqlLaws} (u : AuthUser) (id : Uuid) (ids : list Uuid) (d : Db) :
  NoDup ids -> (Z.of_nat (length ids) <= 2^31)%Z ->
  (forall e d', reorder_groups u id ids d = (Err e, d') -> db_set_groups d' = db_set_groups d) /\
  (healthy d -> can_write (au_role u) = true ->
   exists d', reorder_groups u id ids d = (Ok 200%Z, d') /\
     forall m n x y i j, (m < n)%nat ->
       sql_sort policy_le (policy_join id d') !! m = Some x -> sql_sort policy_le (policy_join id d') !! n = Some y ->
       ids !! i = Some (psrg_rule_group_id x.1) -> ids !! j = Some (psrg_rule_group_id y.1) -> (i <= j)%nat).
Proof.
  intros Hnd Hlen. unfold reorder_groups, require_write, guard_or. split.
  - intros e d' H. destruct (can_write (au_role u)); [|by injection H as <- <-].
    erewrite bind_ok in H by reflexivity.
    match type of H with (mbind _ ?t) d = _ => destruct (t d) as [[[]|e'] d1] eqn:Ht end.
    + erewrite bind_ok in H by exact Ht. by apply log_then_ret in H as [Hbad _].
    + erewrite bind_err in H by exact Ht. injection H as <- <-.
      unfold transaction in Ht. case_match. case_match; by simplify_eq.
  - intros Hd Hw. rewrite Hw. erewrite bind_ok by reflexivity.
    set (d2 := set_db_set_groups (map (reposition id (enumerate ids)) (db_set_groups d)) d).
    rewrite (bind_ok _ _ d tt d2).
    2: { unfold transaction. erewrite bind_ok by by apply execute_healthy.
         erewrite bind_ok by by apply position_updates. unfold tx_mark. by rewrite execute_healthy. }
    match goal with |- context [log_event ?e] => set (ev := e) end.
    destruct (log_healthy (E:=AppError) ev d2 Hd) as (rows & k & Hlog). erewrite bind_ok by exact Hlog.
    eexists. split; [reflexivity|]. intros m n x y i j Hmn Hx Hy Hi Hj.
    assert (policy_le x y) as Hle by (eapply StronglySorted_lookup; [apply sql_sort_sorted; apply _|done..]).
    apply list_elem_of_lookup_2 in Hx, Hy. rewrite sql_sort_perm in Hx, Hy.
    apply (policy_join_order id ids d _ _ i) in Hx; try done. apply (policy_join_order id ids d _ _ j) in Hy; try done.
    unfold policy_le, key_le, policy_key in Hle. lia.
Qed.
End facts.

(** ** Witnesses *)

(** An operator whose group holds host 50, not host 51. *)
Definition ex_deploy_db : Db :=
  set_db_hosts [mkHost (uuid_of 50) "a" "192.0.2.1" "" None None None None Healthy None None 12443 "" 0 0;
                mkHost (uuid_of 51) "b" "192.0.2.2" "" None None None None Healthy None None 12443 "" 0 0]
  (set_db_users [mkUser (uuid_of 7) "op" "" "op@example" Operator Local None false true false None 0 0 0 None]
  (set_db_operator_groups [(uuid_of 7, uuid_of 60)] (set_db_host_groups [(uuid_of 50, uuid_of 60)]
  (set_db_policy_sets [mkPolicySet (uuid_of 70) "base" "" None 0 0 None None]
  (set_db_rule_groups [mkRuleGroup (uuid_of 80) "web" "" None 0 0; mkRuleGroup (uuid_of 81) "ssh" "" None 0 0]
  (set_db_set_groups [mkSetGroup (uuid_of 70) (uuid_of 80) 0] empty_db)))))).

Lemma assign_within_authority_witness :
  let d := final (@assign_policy_set toy_sql toy_sha256 toy_serde toy_uuid_text toy_rfc3339
             (ex_admin Operator) (uuid_of 70) [uuid_of 50; uuid_of 51] []) ex_deploy_db in
  map hpa_host_id (db_assignments d) = [uuid_of 50] /\
  in_scope (ex_admin Operator) (uuid_of 50) ex_deploy_db.
Proof.
  intros d. assert (map hpa_host_id (db_assignments d) = [uuid_of 50]) as Hd by (vm_compute; reflexivity).
  split; [exact Hd|]. destruct (db_assignments d) as [|a [|]] eqn:Ha; try discriminate Hd.
  injection Hd as Hh. rewrite <- Hh.
  refine (proj1 (proj2 (proj2 (proj2 (@assign_within_authority toy_sql toy_sha256 toy_serde toy_uuid_text toy_rfc3339
    (ex_admin Operator) (uuid_of 70) [uuid_of 50; uuid_of 51] [] ex_deploy_db a _ _))))).
  - change (a ∈ db_assignments d). rewrite Ha. left.
  - apply not_elem_of_nil.
Defined.

(** An operator adds an allow-everything rule to a group in use. *)
Lemma created_rule_is_served_witness :
  exists r d', @create_rule_in_group toy_sha256 toy_serde toy_uuid_text toy_rfc3339 toy_pg (ex_admin Operator)
      (uuid_of 80) (ex_create_rule "any" Allow None None) ex_deploy_db = (Ok (201%Z, r), d') /\
    broad_allow r /\ r ∈ @policy_rules toy_sql (uuid_of 70) d'.
Proof.
  destruct (@insert_rule toy_pg (ex_admin Operator) (uuid_of 80) (ex_create_rule "any" Allow None None) ex_deploy_db)
    as [[r d1]|] eqn:Hi; [|exfalso; revert Hi; vm_compute; discriminate].
  destruct (@created_rule_is_served toy_sql toy_sha256 toy_serde toy_uuid_text toy_rfc3339 toy_pg toy_sql_laws
    (ex_admin Operator) (uuid_of 80) (uuid_of 70) (ex_create_rule "any" Allow None None)
    (mkSetGroup (uuid_of 70) (uuid_of 80) 0) ex_deploy_db d1 r) as (d' & H1 & H2 & _); try reflexivity.
  - exact Hi.
  - left.
  - exists r, d'. split_and!; [exact H1| |exact H2]. revert Hi. vm_compute. intros [= <- <-]. by split_and!; auto.
Defined.

Lemma delete_rule_group_safe_witness :
  (exists msg, @delete_rule_group toy_sha256 toy_serde toy_uuid_text toy_rfc3339 (ex_admin Operator) (uuid_of 80)
     ex_deploy_db = (Err (Conflict msg), ex_deploy_db)) /\
  (exists d', @delete_rule_group toy_sha256 toy_serde toy_uuid_text toy_rfc3339 (ex_admin Operator) (uuid_of 81)
     ex_deploy_db = (Ok 204%Z, d') /\ uuid_of 81 ∉ group_ids d').
Proof.
  split.
  - apply (@delete_rule_group_safe toy_sql toy_sha256 toy_serde toy_uuid_text toy_rfc3339 (ex_admin Operator) (uuid_of 80));
      [done|done|left|vm_compute; lia].
  - destruct (proj2 (@delete_rule_group_safe toy_sql toy_sha256 toy_serde toy_uuid_text toy_rfc3339 (ex_admin Operator)
      (uuid_of 81) ex_deploy_db eq_refl eq_refl ltac:(right; left)) eq_refl) as (d' & H1 & H2 & _).
    by exists d'.
Defined.

(** Set 70 holds group 80 and then group 81, with a rule in each; they are swapped. *)
Definition reorder_rule (n : N) (g : Uuid) : RuleRow :=
  mkRuleRow (created_rule (ex_admin Admin) (ex_create_rule "r" Allow None None) None None (set_db_next_uuid n empty_db)) g 0.
Definition reorder_db : Db :=
  set_db_set_groups [mkSetGroup (uuid_of 70) (uuid_of 80) 0; mkSetGroup (uuid_of 70) (uuid_of 81) 1]
    (set_db_rules [reorder_rule 90 (uuid_of 80); reorder_rule 91 (uuid_of 81)] ex_deploy_db).
Notation toy_reorder := (@reorder_groups toy_sha256 toy_serde toy_uuid_text toy_rfc3339 (ex_admin Admin) (uuid_of 70) [uuid_of 81; uuid_of 80]).

Lemma reorder_groups_orders_policy_witness :
  exists d', toy_reorder reorder_db = (Ok 200%Z, d') /\
    map (fun x => rule_id (rr_rule x.2)) (sql_sort (Sql:=toy_sql) policy_le (policy_join (uuid_of 70) reorder_db)) = [uuid_of 90; uuid_of 91] /\
    map (fun x => rule_id (rr_rule x.2)) (sql_sort (Sql:=toy_sql) policy_le (policy_join (uuid_of 70) d')) = [uuid_of 91; uuid_of 90].
Proof.
  destruct (@reorder_groups_orders_policy toy_sql toy_sha256 toy_serde toy_uuid_text toy_rfc3339 toy_sql_laws
    (ex_admin Admin) (uuid_of 70) [uuid_of 81; uuid_of 80] reorder_db) as [_ H].
  - apply (bool_decide_unpack _). vm_compute. exact I.
  - simpl. lia.
  - destruct (H eq_refl eq_refl) as (d' & Hd & _). exists d'. split; [exact Hd|]. split; [vm_compute; reflexivity|].
    assert (d' = (toy_reorder reorder_db).2) as -> by (by rewrite Hd). vm_compute. reflexivity.
Defined.
