(* ===== verification/Ca.v ===== *)
(** * Ca: the manager's certificate authority

    [crates/fw-ca/src/ca.rs]: the self-generated root kept on disk, the imported
    upstream sub-CA, agent and listener certificates, and the revocation lists.
    Keys, signatures and encodings are the [rcgen], [x509-parser], [base64] and
    [hex] crates' ([Rcgen], [X509], [Base64], [Hex]); what is signed, with which
    identity and in which order, is the model's. *)

From S2P Require Import Prelude Text Files Models Net Db.

(** ** What is signed *)

(** [CertificateParams] of the root ([build_ca_params]). *)
Record CaParams := mkCaParams {
  cp_common_name : string; cp_organization : string; cp_is_ca : bool;
  cp_key_cert_sign : bool; cp_crl_sign : bool; cp_digital_signature : bool;
  cp_not_before : DateTime; cp_not_after : DateTime
}.

(** What the manager puts into an agent's certificate over the CSR's own values. *)
Record LeafParams := mkLeafParams {
  lp_common_name : string; lp_organization : string; lp_serial : Uuid;
  lp_server_auth : bool; lp_client_auth : bool; lp_not_before : DateTime; lp_not_after : DateTime
}.

(** The certificate of the manager's own listener. *)
Record ServerParams := mkServerParams {
  sp_dns_names : list string; sp_ip_addresses : list IpAddr;
  sp_common_name : string; sp_organization : string;
  sp_digital_signature : bool; sp_key_encipherment : bool; sp_server_auth : bool;
  sp_not_before : DateTime; sp_not_after : DateTime
}.

(** An entry of a CRL: the serial's bytes and the time in seconds (the reason is
    always Unspecified). *)
Record RevokedCertParams := mkRevoked { rv_serial_number : string; rv_revocation_time : Z }.

Record CrlParams := mkCrlParams {
  crl_this_update : DateTime; crl_next_update : DateTime; crl_number : Z;
  crl_revoked_certs : list RevokedCertParams
}.

(** ** The crates *)

Class Rcgen := {
  KeyPair : Type;
  Issuer : Type;
  Csr : Type;
  (** [KeyPair::generate], from a random draw *)
  key_generate : N -> result KeyPair string;
  key_from_pem : string -> result KeyPair string;
  key_serialize_pem : KeyPair -> string;
  key_spki : KeyPair -> string;
  ca_self_signed : CaParams -> KeyPair -> result string string;
  issuer_new : CaParams -> KeyPair -> Issuer;
  issuer_from_ca_cert_pem : string -> KeyPair -> result Issuer string;
  (** parsing checks the request's own signature *)
  csr_from_pem : string -> result Csr string;
  csr_signed_by : Csr -> LeafParams -> Issuer -> result string string;
  (** [CertificateParams::new]: the DNS names must be IA5 strings *)
  dns_names_ok : list string -> result unit string;
  server_signed_by : ServerParams -> KeyPair -> Issuer -> result string string;
  crl_signed_by : CrlParams -> Issuer -> result string string
}.

Class Hex := { hex_encode : string -> string; hex_decode : string -> result string string }.
Class Base64 := { base64_decode : string -> result string string }.

Inductive GeneralName := DNSName (s : string) | IPAddress (bytes : string) | OtherName.

(** The parts of a parsed certificate the program looks at. Times are in seconds;
    [x_key_usage] is (keyCertSign, cRLSign); a name attribute that is not valid
    text is [None]. *)
Record X509Cert := mkX509 {
  x_issuer_raw : string; x_subject_raw : string;
  x_issuer_cns : list (option string); x_subject_cns : list (option string);
  x_not_before : Z; x_not_after : Z; x_is_ca : bool; x_key_usage : option (bool * bool);
  x_spki : string; x_raw_serial : string; x_sans : option (list GeneralName)
}.
Class X509 := {
  x509_from_der : string -> result X509Cert string;
  (** [parse_x509_pem] followed by [parse_x509] *)
  x509_from_pem : string -> option X509Cert;
  x509_time_text : Z -> string
}.

(** ** Data *)

Inductive CertError := NotImplemented | CeIo (msg : string) | CeRcgen (msg : string) | CeDatabase.

(** Its [Display]. *)
Definition cert_error_text (e : CertError) : string :=
  match e with
  | NotImplemented => "not implemented"
  | CeIo m => "io error: " +:+ m
  | CeRcgen m => "rcgen error: " +:+ m
  | CeDatabase => "database error"
  end.

Record SignedCert := mkSigned {
  sc_cert_pem : string; sc_serial_hex : string; sc_ca_chain : list string; sc_crl_pem : option string
}.
Record ServerCert := mkServerCert { svc_cert_pem : string; svc_key_pem : string }.

Definition CA_VALIDITY_YEARS : Z := 10.
Definition HOST_CERT_VALIDITY_YEARS : Z := 1.
Definition SERVER_CERT_VALIDITY_YEARS : Z := 1.
Definition CRL_NEXT_UPDATE_HOURS : Z := 24.
Definition ROOT_SUBJECT_CN : string := "Firewall Manager Root CA".

(** The process that starts the CA: its disk and the database. *)
Record CaWorld := mkCaWorld { cw_disk : Disk; cw_db : Db }.

Definition on_disk {A} (m : M Disk string A) : M CaWorld CertError A := fun w =>
  let '(r, k) := m (cw_disk w) in (map_err CeIo r, mkCaWorld k (cw_db w)).

(** A database operation with [sqlx::Error] turned into a [CertError]. *)
Definition cert_db {A} (m : DB A) : M Db CertError A := fun d =>
  let '(r, d') := m d in (map_err (fun _ => CeDatabase) r, d').
Definition on_ca_db {A} (m : M Db CertError A) : M CaWorld CertError A := fun w =>
  let '(r, d) := m (cw_db w) in (r, mkCaWorld (cw_disk w) d).

(** A random draw. *)
Definition draw {E} : M Db E N := fun d => (Ok (db_next_uuid d), set_db_next_uuid (db_next_uuid d + 1) d).

(** ** PEM text *)

(** One pass over the lines; [current] is the block being collected. *)
Fixpoint split_blocks (current : string) (ls : list string) : list string :=
  match ls with
  | [] => []
  | l :: ls' =>
      let current' := current +:+ l +:+ newline in
      if contains "-----END CERTIFICATE-----" l then current' :: split_blocks "" ls'
      else split_blocks current' ls'
  end.

Definition split_pem_chain (bundle : string) : list string := split_blocks "" (lines bundle).

Definition pem_to_der `{!Base64} (pem : string) : result string CertError :=
  let b64 := str_concat (List.filter (fun l => negb (starts_with "-----" l)) (lines pem)) in
  map_err (fun e => CeRcgen ("invalid PEM base64: " +:+ e)) (base64_decode (trim b64)).

Section ca.
Context {SQL : Sql} {UT : UuidText} {RC : Rcgen} {HX : Hex} {B64 : Base64} {X : X509}.

Record IssuingCa := mkIssuing {
  ic_issuer : Issuer; ic_chain_pems : list string; ic_serial_hex : string; ic_subject_cn : string
}.
Record CertAuthority := mkCa {
  ca_base : string; ca_root : Issuer; root_cert_pem : string; ca_issuing : option IssuingCa
}.

(** ** The issuing identity *)

Definition ca_issuer (ca : CertAuthority) : Issuer := from_option ic_issuer (ca_root ca) (ca_issuing ca).
Definition issuing_serial_hex (ca : CertAuthority) : string := from_option ic_serial_hex "" (ca_issuing ca).
Definition ca_chain_for_agents (ca : CertAuthority) : list string :=
  from_option ic_chain_pems [root_cert_pem ca] (ca_issuing ca).
Definition verification_anchors (ca : CertAuthority) : list string :=
  root_cert_pem ca :: from_option ic_chain_pems [] (ca_issuing ca).
Definition issuing_chain_pems (ca : CertAuthority) : option (list string) := ic_chain_pems <$> ca_issuing ca.
Definition issuing_subject_cn (ca : CertAuthority) : string := from_option ic_subject_cn ROOT_SUBJECT_CN (ca_issuing ca).

(** ** First start and restart *)

Definition build_ca_params (now : DateTime) : CaParams :=
  mkCaParams ROOT_SUBJECT_CN "Firewall Manager" true true true true
    (now - DAY) (now + 365 * CA_VALIDITY_YEARS * DAY).

Definition active_roots (d : Db) : nat :=
  length (List.filter (fun c => bool_decide (ct_ca_tier c = "root") &&
    match ct_status c with CertActive => true | _ => false end) (db_certs d)).

Definition root_cert_row (id : Uuid) (serial pem : string) (now : DateTime) : CertRow :=
  mkCert id None serial "Firewall Manager Root CA" CertActive now (now + 365 * CA_VALIDITY_YEARS * DAY) None pem "root"
    None None.

(** [serial_number] is unique. *)
Definition serial_free (serial : string) (d : Db) : bool :=
  forallb (fun c => negb (bool_decide (ct_serial_number c = serial))) (db_certs d).

Definition persist_root_cert_row (pem : string) : M Db CertError unit :=
  existing ← cert_db (fetch active_roots);
  if (0 <? existing)%nat then mret tt
  else
    serial ← cert_db fresh_uuid;
    cert_db (execute_if (serial_free (uuid_to_string serial)) (fun d =>
      set_db_next_uuid (db_next_uuid d + 1) (set_db_certs (db_certs d ++
        [root_cert_row (uuid_of (db_next_uuid d)) (uuid_to_string serial) pem (db_now d)]) d))).

Definition load_ca (cert_path key_path : string) : M CaWorld CertError (KeyPair * string * bool) :=
  key_pem ← on_disk (disk_read key_path);
  cert_pem ← on_disk (disk_read cert_path);
  key ← lift_result (map_err CeRcgen (key_from_pem key_pem));
  mret (key, cert_pem, false).

Definition generate_ca (cert_path key_path : string) : M CaWorld CertError (KeyPair * string * bool) :=
  n ← on_ca_db draw;
  key ← lift_result (map_err CeRcgen (key_generate n));
  now ← gets (fun w => db_now (cw_db w));
  cert_pem ← lift_result (map_err CeRcgen (ca_self_signed (build_ca_params now) key));
  _ ← on_disk (disk_write cert_path cert_pem);
  _ ← on_disk (disk_write key_path (key_serialize_pem key));
  _ ← ignore (on_disk (disk_chmod key_path 384));
  mret (key, cert_pem, true).

Definition ca_init (base : string) : M CaWorld CertError CertAuthority :=
  _ ← on_disk (disk_mkdir base);
  let cert_path := base +:+ "/ca.pem" in
  let key_path := base +:+ "/ca.key.pem" in
  present ← gets (fun w => disk_exists cert_path (cw_disk w) && disk_exists key_path (cw_disk w));
  loaded ← (if (present : bool) then load_ca cert_path key_path else generate_ca cert_path key_path);
  let '(key, cert_pem, first_run) := loaded in
  now ← gets (fun w => db_now (cw_db w));
  let root := issuer_new (build_ca_params now) key in
  _ ← (if (first_run : bool) then on_ca_db (persist_root_cert_row cert_pem) else mret tt);
  mret (mkCa base root cert_pem None).

(** ** The imported sub-CA *)

(** [now] is inside the certificate's validity; [who] names it in the message. *)
Definition check_validity (now : DateTime) (who : string) (c : X509Cert) : result unit CertError :=
  if (now <? x_not_before c * SECOND)%Z
  then Err (CeRcgen (who +:+ " is not yet valid (not_before " +:+ x509_time_text (x_not_before c) +:+
                     " is in the future)"))
  else if (x_not_after c * SECOND <? now)%Z
  then Err (CeRcgen (who +:+ " is expired (not_after " +:+ x509_time_text (x_not_after c) +:+ " is in the past)"))
  else Ok tt.

(** The sub-CA may sign certificates and CRLs, with the key at hand. *)
Definition check_sub_ca (key : KeyPair) (c : X509Cert) : result unit CertError :=
  if negb (x_is_ca c)
  then Err (CeRcgen "issuing CA cert is not a CA (basicConstraints CA:true missing)")
  else match x_key_usage c with
  | None => Err (CeRcgen "issuing CA cert has no keyUsage extension — cannot sign certs")
  | Some (key_cert_sign, crl_sign) =>
      if negb key_cert_sign
      then Err (CeRcgen "issuing CA cert keyUsage lacks keyCertSign — cannot sign agent certs")
      else if negb crl_sign
      then Err (CeRcgen ("issuing CA cert keyUsage lacks cRLSign — CRL revocation requires it; " +:+
                         "ask the upstream CA for a sub-CA with cRLSign"))
      else if negb (bool_decide (key_spki key = x_spki c))
      then Err (CeRcgen "issuing CA key does not match the sub-CA certificate")
      else Ok tt
  end.

(** The certificates above the sub-CA: parsed and in their validity, in order. *)
Fixpoint parse_rest (now : DateTime) (i : Z) (pems : list string) : result (list X509Cert) CertError :=
  match pems with
  | [] => Ok []
  | pem :: pems' =>
      let who := "chain cert #" +:+ pretty i in
      let? der := pem_to_der pem in
      let? cert := map_err (fun e => CeRcgen (who +:+ ": " +:+ e)) (x509_from_der der) in
      let? _ := check_validity now who cert in
      let? rest := parse_rest now (i + 1) pems' in
      Ok (cert :: rest)
  end.

(** Each issuer is the next subject, and the last certificate is its own issuer. *)
Fixpoint check_links (i : Z) (chain : list X509Cert) : result unit CertError :=
  match chain with
  | [] => Ok tt
  | c :: rest =>
      let expected := from_option x_subject_raw (x_subject_raw c) (head rest) in
      if negb (bool_decide (x_issuer_raw c = expected)) then
        Err (CeRcgen (match rest with
          | [] => "issuing CA chain does not terminate in a self-signed root " +:+
                  "(terminal cert's issuer != subject)"
          | _ => "issuing CA chain is broken at cert #" +:+ pretty i +:+ ": its issuer does not match cert #" +:+
                 pretty (i + 1)%Z +:+ "'s subject"
          end))
      else check_links (i + 1) rest
  end.

(** The validation of a chain text and a key text, and what is kept of them. *)
Definition load_issuing (now : DateTime) (chain_path chain_pem key_pem : string) : result IssuingCa CertError :=
  let? key := map_err (fun e => CeRcgen ("issuing CA key: " +:+ e)) (key_from_pem key_pem) in
  let chain_pems := split_pem_chain chain_pem in
  match chain_pems with
  | [] => Err (CeRcgen ("no certificate in " +:+ chain_path))
  | sub_cert_pem :: upper =>
      let? der := pem_to_der sub_cert_pem in
      let? sub := map_err (fun e => CeRcgen ("issuing CA cert: " +:+ e)) (x509_from_der der) in
      let? _ := check_validity now "issuing CA cert" sub in
      let? _ := check_sub_ca key sub in
      let? rest := parse_rest now 1 upper in
      let? _ := check_links 0 (sub :: rest) in
      let? issuer := map_err (fun e => CeRcgen ("issuing CA: " +:+ e)) (issuer_from_ca_cert_pem sub_cert_pem key) in
      Ok (mkIssuing issuer chain_pems (hex_encode (x_raw_serial sub)) (default "" (mjoin (head (x_subject_cns sub)))))
  end.

Definition with_issuing_ca (ca : CertAuthority) (chain_path key_path : string) : M CaWorld CertError CertAuthority :=
  chain_pem ← on_disk (disk_read chain_path);
  key_pem ← on_disk (disk_read key_path);
  now ← gets (fun w => db_now (cw_db w));
  sub ← lift_result (load_issuing now chain_path chain_pem key_pem);
  mret (mkCa (ca_base ca) (ca_root ca) (root_cert_pem ca) (Some sub)).

(** ** Certificates *)

Definition sign_csr (ca : CertAuthority) (csr_pem : string) (host : Uuid) : M Db CertError SignedCert :=
  csr ← lift_result (map_err CeRcgen (csr_from_pem csr_pem));
  serial ← cert_db fresh_uuid;
  now ← gets db_now;
  cert ← lift_result (map_err CeRcgen (csr_signed_by csr
    (mkLeafParams (uuid_to_string host) "Firewall Manager Agent" serial true true
       (now - DAY) (now + 365 * HOST_CERT_VALIDITY_YEARS * DAY)) (ca_issuer ca)));
  mret (mkSigned cert (hex_encode (uuid_bytes serial)) (ca_chain_for_agents ca) None).

(** Entries that are IP addresses, and the others. *)
Definition ip_sans (sans : list string) : list IpAddr := omap ip_parse sans.
Definition dns_sans (sans : list string) : list string :=
  List.filter (fun s => negb (bool_decide (is_Some (ip_parse s)))) sans.

Definition server_params (sans : list string) (now : DateTime) : ServerParams :=
  mkServerParams (dns_sans sans) (ip_sans sans) "Firewall Manager Agent API" "Firewall Manager" true true true
    (now - DAY) (now + 365 * SERVER_CERT_VALIDITY_YEARS * DAY).

Definition issue_server_cert (ca : CertAuthority) (sans : list string) : M Db CertError ServerCert :=
  n ← draw;
  key ← lift_result (map_err CeRcgen (key_generate n));
  _ ← lift_result (map_err CeRcgen (dns_names_ok (dns_sans sans)));
  now ← gets db_now;
  cert ← lift_result (map_err CeRcgen (server_signed_by (server_params sans now) key (ca_issuer ca)));
  mret (mkServerCert cert (key_serialize_pem key)).

(** ** Revocation lists *)

(** [OffsetDateTime::from_unix_timestamp]: the years -9999 to 9999. *)
Definition offset_range (secs : Z) : bool := ((-377705116800 <=? secs) && (secs <=? 253402300799))%Z.

Definition revoked_live (now : DateTime) (c : CertRow) : bool :=
  match ct_status c with CertRevoked => true | _ => false end &&
  bool_decide (is_Some (ct_revoked_at c)) && (now <? ct_expires_at c)%Z.

Definition revoked_le (a b : CertRow) : Prop :=
  (default 0 (ct_revoked_at a) <= default 0 (ct_revoked_at b))%Z.
#[export] Instance revoked_le_dec a b : Decision (revoked_le a b).
Proof. unfold revoked_le. apply _. Defined.

Definition revoked_rows (d : Db) : list CertRow :=
  sql_sort revoked_le (List.filter (revoked_live (db_now d)) (db_certs d)).

Definition revoked_entry (now : DateTime) (c : CertRow) : result RevokedCertParams CertError :=
  let? serial := map_err (fun e => CeRcgen ("serial_number hex: " +:+ e)) (hex_decode (trim (ct_serial_number c))) in
  let secs := (default 0 (ct_revoked_at c) / SECOND)%Z in
  Ok (mkRevoked serial (if offset_range secs then secs else now / SECOND)%Z).

Definition in_issuing_group (ca : CertAuthority) (c : CertRow) : bool :=
  match ca_issuing ca with
  | Some sub => bool_decide (ct_issuer_serial c = Some (ic_serial_hex sub))
  | None => false
  end.

(** The two groups, root and issuing, in row order; the first bad serial ends it. *)
Fixpoint group_revoked (ca : CertAuthority) (now : DateTime) (rows : list CertRow)
  : result (list RevokedCertParams * list RevokedCertParams) CertError :=
  match rows with
  | [] => Ok ([], [])
  | c :: rows' =>
      let? p := revoked_entry now c in
      let? gs := group_revoked ca now rows' in
      Ok (if in_issuing_group ca c then (gs.1, p :: gs.2) else (p :: gs.1, gs.2))
  end.

(** [INSERT INTO crl_counter .. ON CONFLICT DO UPDATE .. RETURNING last_number]
    (a BIGINT). *)
Definition last_crl_number (key : string) (d : Db) : Z :=
  from_option snd 0%Z (List.find (fun '(k, _) => bool_decide (k = key)) (db_crl_counter d)).
Definition bump_crl_number (key : string) (d : Db) : option (Z * Db) :=
  let n := (last_crl_number key d + 1)%Z in
  if (n <? 2 ^ 63)%Z
  then Some (n, set_db_crl_counter (if existsb (fun '(k, _) => bool_decide (k = key)) (db_crl_counter d)
                 then update_where (fun '(k, _) => bool_decide (k = key)) (fun '(k, _) => (k, n)) (db_crl_counter d)
                 else db_crl_counter d ++ [(key, 1%Z)]) d)
  else None.

Definition sign_group (now : DateTime) (issuer : Issuer) (key : string) (revoked : list RevokedCertParams)
  : M Db CertError (list string) :=
  match revoked with
  | [] => mret []
  | _ =>
      number ← cert_db (execute_returning (bump_crl_number key));
      pem ← lift_result (map_err CeRcgen (crl_signed_by
              (mkCrlParams now (now + CRL_NEXT_UPDATE_HOURS * HOUR) number revoked) issuer));
      mret [pem]
  end.

Definition generate_crls (ca : CertAuthority) : M Db CertError (list string) :=
  rows ← cert_db (fetch revoked_rows);
  now ← gets db_now;
  groups ← lift_result (group_revoked ca now rows);
  root_crls ← sign_group now (ca_root ca) "root" groups.1;
  issuing_crls ← sign_group now (ca_issuer ca) "issuing" groups.2;
  mret (root_crls ++ issuing_crls).
End ca.
