(* ===== verification/CaToy.v ===== *)
(** * CaToy: what the CA relies on, and concrete instances

    The documented behaviour of the certificate crates ([CaLaws], [HexLaws]) and,
    for the witnesses, instances that meet it: certificates written as the
    [Countable] encoding of their fields. *)

From S2P Require Import Prelude Text Files Models Net Codec Db Ca.

(** ** Laws *)

Class HexLaws `{!Hex} := {
  hex_roundtrip : forall s, hex_decode (hex_encode s) = Ok s;
  hex_no_space : forall s, trim (hex_encode s) = hex_encode s;
  hex_rejects_hyphen : forall s, str_existsb (fun c => bool_decide (c = "-"%char)) s = true ->
    is_ok (hex_decode s) = false
}.

(** A key survives its PEM form; a listener certificate carries the names it was
    issued for (DNS names first), its issuer's name and its expiry. *)
Class CaLaws `{!Rcgen, !X509} := {
  issuer_cn : Issuer -> string;
  key_pem_roundtrip : forall k, key_from_pem (key_serialize_pem k) = Ok k;
  issuer_new_cn : forall p k, issuer_cn (issuer_new p k) = cp_common_name p;
  server_cert_parses : forall p k i pem, server_signed_by p k i = Ok pem ->
    (sp_dns_names p <> [] \/ sp_ip_addresses p <> []) ->
    exists c, x509_from_pem pem = Some c /\
      x_sans c = Some (map DNSName (sp_dns_names p) ++ map (fun ip => IPAddress (ip_octets ip)) (sp_ip_addresses p)) /\
      x_not_after c = (sp_not_after p / SECOND)%Z /\ head (x_issuer_cns c) = Some (Some (issuer_cn i))
}.

(** ** Instances *)

Fixpoint toy_hex_encode (s : string) : string :=
  match s with
  | "" => ""
  | String c s' => let n := Z.of_nat (nat_of_ascii c) in
      String (hex_char (n / 16)) (String (hex_char (n mod 16)) (toy_hex_encode s'))
  end.
Fixpoint toy_hex_decode (s : string) : result string string :=
  match s with
  | "" => Ok ""
  | String a (String b s') =>
      match to_digit 16 a, to_digit 16 b, toy_hex_decode s' with
      | Some x, Some y, Ok r => Ok (String (ascii_of_nat (Z.to_nat (16 * x + y))) r)
      | _, _, _ => Err "invalid character"
      end
  | _ => Err "odd number of digits"
  end.
Definition toy_hex : Hex := {| hex_encode := toy_hex_encode; hex_decode := toy_hex_decode |}.

(** Every byte prints as two hex digits that read back as the byte. *)
Definition hex_byte_ok (n : nat) : bool :=
  let z := Z.of_nat n in
  let a := hex_char (z / 16) in let b := hex_char (z mod 16) in
  bool_decide (to_digit 16 a = Some (z / 16)%Z /\ to_digit 16 b = Some (z mod 16)%Z /\
    Ascii.is_space a = false /\ Ascii.is_space b = false).

Lemma hex_byte_spec c : hex_byte_ok (nat_of_ascii c) = true.
Proof.
  assert (forallb hex_byte_ok (seq 0 256) = true) as H by (vm_compute; reflexivity).
  rewrite forallb_forall in H. apply H, in_seq. pose proof (nat_ascii_bounded c). lia.
Qed.

Lemma toy_hex_roundtrip s : toy_hex_decode (toy_hex_encode s) = Ok s.
Proof.
  induction s as [|c s IH]; [done|]. cbn [toy_hex_encode toy_hex_decode].
  pose proof (hex_byte_spec c) as (Ha & Hb & _)%bool_decide_eq_true. rewrite Ha, Hb, IH.
  rewrite <- Z.div_mod, Nat2Z.id, ascii_nat_embedding by lia. done.
Qed.

Lemma toy_hex_no_space s : trim (toy_hex_encode s) = toy_hex_encode s.
Proof.
  apply trim_nonblank. induction s as [|c s IH]; [done|]. simpl.
  pose proof (hex_byte_spec c) as (_ & _ & Ha & Hb)%bool_decide_eq_true. by rewrite Ha, Hb, IH.
Qed.

Lemma toy_hex_hyphen s : str_existsb (fun c => bool_decide (c = "-"%char)) s = true ->
  is_ok (toy_hex_decode s) = false.
Proof.
  assert (forall n s, (String.length s <= n)%nat -> str_existsb (fun c => bool_decide (c = "-"%char)) s = true ->
    is_ok (toy_hex_decode s) = false) as Hg; [|by eapply Hg].
  intros n. clear s. induction n as [|n IH]; intros s Hn Hs; destruct s as [|a [|b s]]; simpl in *; try done; try lia.
  repeat case_bool_decide; subst; simpl in *; try done; [by destruct (to_digit 16 a)|].
  destruct (to_digit 16 a), (to_digit 16 b); try done.
  specialize (IH s ltac:(lia) Hs). by destruct (toy_hex_decode s).
Qed.

Lemma toy_hex_laws : @HexLaws toy_hex.
Proof. split; [apply toy_hex_roundtrip|apply toy_hex_no_space|apply toy_hex_hyphen]. Qed.

Definition ip_code (ip : IpAddr) : bool * Z := match ip with V4 a => (true, a) | V6 a => (false, a) end.
Definition ip_uncode (c : bool * Z) : IpAddr := if c.1 then V4 c.2 else V6 c.2.

(** A listener certificate: DNS names, addresses, issuer and expiry. *)
Notation toy_cert := (list string * list (bool * Z) * string * Z)%type.

(** A CA certificate of the witnesses: issuer, subject, expiry, CA and key usage
    flags, public key and serial. *)
Notation toy_ca_cert := (string * string * Z * (bool * bool * bool) * string * string)%type.

(** A CA that signs anything but the text [bad]; a key is a number. *)
Definition toy_rcgen : Rcgen := {|
  KeyPair := N; Issuer := string * N; Csr := string;
  key_generate n := Ok n;
  key_from_pem s := ok_or (of_text s) "not a key";
  key_serialize_pem k := to_text (k : N);
  key_spki k := to_text (k : N);
  ca_self_signed p k := Ok (cp_common_name p +:+ to_text (k : N));
  issuer_new p k := (cp_common_name p, k);
  issuer_from_ca_cert_pem pem k := Ok ("sub", k);
  csr_from_pem s := if bool_decide (s = "bad") then Err "not a CSR" else Ok s;
  csr_signed_by csr p i := Ok (csr +:+ "/" +:+ lp_common_name p);
  dns_names_ok _ := Ok tt;
  server_signed_by p k i :=
    Ok (to_text ((sp_dns_names p, map ip_code (sp_ip_addresses p), i.1, (sp_not_after p / SECOND)%Z) : toy_cert));
  crl_signed_by p i := Ok (i.1 +:+ ":" +:+ pretty (crl_number p) +:+ ":" +:+
    join "," (map rv_serial_number (crl_revoked_certs p)))
|}.

Definition toy_x509 : X509 := {|
  x509_from_der s := match (of_text s : option toy_ca_cert) with
    | Some (iss, sub, na, (ca, kc, cs), spki, serial) =>
        Ok (mkX509 iss sub [Some iss] [Some sub] 0 na ca (Some (kc, cs)) spki serial None)
    | None => Err "not a certificate"
    end;
  x509_from_pem s := match (of_text s : option toy_cert) with
    | Some (dns, ips, cn, na) => Some (mkX509 "" "" [Some cn] [] 0 na false None "" ""
        (Some (map DNSName dns ++ map (fun c => IPAddress (ip_octets (ip_uncode c))) ips)))
    | None => None
    end;
  x509_time_text := pretty
|}.
Definition toy_base64 : Base64 := {| base64_decode s := Ok s |}.

Definition toy_ca_laws : @CaLaws toy_rcgen toy_x509.
Proof.
  refine {| issuer_cn := (fst : @Issuer toy_rcgen -> string) |}; [|done|].
  - intros k. simpl. by rewrite of_to_text.
  - intros p k i pem H Hne. injection H as <-.
    eexists. split; [simpl; by rewrite of_to_text|]. split_and!; [|done|done]. simpl. do 2 f_equal.
    rewrite map_map. apply map_ext. by intros [].
Defined.
