(* ===== verification/CaFacts.v ===== *)
(** * CaFacts: the certificate authority's identity and its revocation lists

    A restart keeps the root identity and its one database row; a sub-CA is
    imported exactly when its chain is valid and linked up to a self-signed root;
    and the revocation lists name exactly the live revoked certificates, each in
    the list of its issuer, under numbers that only grow. *)

From S2P Require Import Prelude Text Files Models Net Codec Db Ca CaToy.

(** ** Start and restart *)

Section identity.
Context {SQL : Sql} {UT : UuidText} {RC : Rcgen} {X : X509} {LAWS : CaLaws} {SQLL : SqlLaws}.

Lemma on_disk_run {A} (m : M Disk string A) w r k : m (cw_disk w) = (r, k) -> on_disk m w = (map_err CeIo r, mkCaWorld k (cw_db w)).
Proof. intros H. unfold on_disk. by rewrite H. Qed.

Lemma on_ca_db_run {A} (m : M Db CertError A) w r d : m (cw_db w) = (r, d) -> on_ca_db m w = (r, mkCaWorld (cw_disk w) d).
Proof. intros H. unfold on_ca_db. by rewrite H. Qed.

(** The files a CA keeps: the root certificate, and a key text that reads as the key. *)
Definition ca_files (base : string) (key : KeyPair) (pem : string) (k : Disk) : Prop :=
  base ∉ dk_unwritable k /\
  (exists f, dk_files k !! (base +:+ "/ca.pem") = Some f /\ f_content f = pem) /\
  exists f, dk_files k !! (base +:+ "/ca.key.pem") = Some f /\ key_from_pem (f_content f) = Ok key.

Lemma ca_files_exist base key pem k : ca_files base key pem k ->
  disk_exists (base +:+ "/ca.pem") k && disk_exists (base +:+ "/ca.key.pem") k = true.
Proof.
  intros (_ & (f & Hf & _) & g & Hg & _).
  by rewrite (proj2 (disk_exists_true _ _) (mk_is_Some _ _ Hf)), (proj2 (disk_exists_true _ _) (mk_is_Some _ _ Hg)).
Qed.

(** A start on files that are there loads them and touches nothing. *)
Lemma ca_init_load base key pem w : ca_files base key pem (cw_disk w) ->
  ca_init base w = (Ok (mkCa base (issuer_new (build_ca_params (db_now (cw_db w))) key) pem None), w).
Proof.
  intros Hfs. pose proof (ca_files_exist _ _ _ _ Hfs) as Hex. destruct Hfs as (Hb & (f & Hf & <-) & g & Hg & Hk).
  destruct w as [k d]. cbn in *. unfold ca_init, disk_mkdir.
  erewrite bind_ok; [|by erewrite on_disk_run by (cbn; rewrite bool_decide_eq_false_2 by done; reflexivity)]. cbn [cw_db cw_disk].
  erewrite bind_ok by (unfold gets; cbn [cw_disk]; rewrite Hex; reflexivity). erewrite bind_ok.
  2:{ unfold load_ca. erewrite bind_ok by (erewrite on_disk_run by (apply disk_read_ok; exact Hg); reflexivity). cbn [cw_db cw_disk].
      erewrite bind_ok by (erewrite on_disk_run by (apply disk_read_ok; exact Hf); reflexivity). cbn [cw_db cw_disk].
      erewrite bind_ok by (unfold lift_result; rewrite Hk; reflexivity). reflexivity. }
  done.
Qed.

Lemma on_disk_read_inv path w s w' : on_disk (disk_read path) w = (Ok s, w') ->
  w' = w /\ exists f, dk_files (cw_disk w) !! path = Some f /\ f_content f = s.
Proof.
  unfold on_disk, disk_read. destruct (dk_files (cw_disk w) !! path) as [f|]; cbn; [|done]. intros [= <- <-].
  destruct w. eauto.
Qed.

Lemma on_disk_write_inv path content w u w' : on_disk (disk_write path content) w = (Ok u, w') ->
  cw_db w' = cw_db w /\ dk_unwritable (cw_disk w') = dk_unwritable (cw_disk w) /\
  exists mode, dk_files (cw_disk w') = <[path := mkFile content mode]> (dk_files (cw_disk w)).
Proof.
  unfold on_disk, disk_write. case_bool_decide; cbn; [done|]. intros [= _ <-]. cbn. eauto.
Qed.

(** The files [generate_ca] leaves. *)
Lemma generate_ca_inv base w key pem first w' : base ∉ dk_unwritable (cw_disk w) ->
  generate_ca (base +:+ "/ca.pem") (base +:+ "/ca.key.pem") w = (Ok (key, pem, first), w') ->
  ca_files base key pem (cw_disk w') /\ db_now (cw_db w') = db_now (cw_db w).
Proof.
  intros Hb. unfold generate_ca. intros H. apply bind_inv_ok in H as (n & w1 & H1 & H).
  unfold on_ca_db, draw in H1. injection H1 as <- <-.
  apply bind_inv_ok in H as (k & w2 & H2 & H). unfold lift_result in H2. injection H2 as Hk <-.
  apply bind_inv_ok in H as (now & w3 & H3 & H). unfold gets in H3. injection H3 as <- <-.
  apply bind_inv_ok in H as (cert & w4 & H4 & H). unfold lift_result in H4. injection H4 as Hc <-.
  apply bind_inv_ok in H as ([] & w5 & H5 & H). apply on_disk_write_inv in H5 as (Hd5 & Hu5 & m5 & Hf5).
  apply bind_inv_ok in H as ([] & w6 & H6 & H). apply on_disk_write_inv in H6 as (Hd6 & Hu6 & m6 & Hf6).
  apply bind_inv_ok in H as ([] & w7 & H7 & H). inv_ret H. unfold ignore in H7. injection H7 as <-.
  unfold on_disk, disk_chmod. rewrite Hf6, lookup_insert_eq. cbn. rewrite Hd6, Hd5. cbn. split; [|done].
  unfold ca_files. cbn. rewrite Hu6, Hu5. split; [done|]. rewrite Hf5. split.
  - exists (mkFile pem m5). split; [|reflexivity]. rewrite lookup_insert_ne by (intros ?%String.app_inj; done).
    rewrite lookup_insert_ne by (intros ?%String.app_inj; done). by rewrite lookup_insert_eq.
  - eexists. split; [by rewrite lookup_insert_eq|]. apply key_pem_roundtrip.
Qed.

(** Whatever way the CA started, its files now hold its identity. *)
Lemma ca_init_files base w ca w' : ca_init base w = (Ok ca, w') ->
  exists key, ca_files base key (root_cert_pem ca) (cw_disk w') /\
    ca = mkCa base (issuer_new (build_ca_params (db_now (cw_db w))) key) (root_cert_pem ca) None.
Proof.
  unfold ca_init. intros H. apply bind_inv_ok in H as ([] & w1 & H1 & H).
  unfold on_disk, disk_mkdir in H1. case_bool_decide as Hb; [done|]. injection H1 as <-.
  replace (mkCaWorld (cw_disk w) (cw_db w)) with w in H by by destruct w.
  apply bind_inv_ok in H as (present & w2 & H2 & H). unfold gets in H2. injection H2 as <- <-.
  apply bind_inv_ok in H as ([[key pem] first] & w3 & H3 & H).
  assert (ca_files base key pem (cw_disk w3) /\ db_now (cw_db w3) = db_now (cw_db w)) as [Hf Hn].
  { destruct (_ && _); [|by eapply generate_ca_inv].
    unfold load_ca in H3. apply bind_inv_ok in H3 as (kp & w4 & H4 & H3). apply on_disk_read_inv in H4 as (-> & f & Hf & <-).
    apply bind_inv_ok in H3 as (cp & w5 & H5 & H3). apply on_disk_read_inv in H5 as (-> & g & Hg & <-).
    apply bind_inv_ok in H3 as (k & w6 & H6 & H3). unfold lift_result in H6. injection H6 as Hk <-. inv_ret H3.
    split; [|done]. split; [done|]. split; [eauto|]. exists f. split; [done|]. by destruct (key_from_pem _); cbn in Hk; simplify_eq. }
  apply bind_inv_ok in H as (now & w4 & H4 & H). unfold gets in H4. injection H4 as <- <-.
  apply bind_inv_ok in H as ([] & w5 & H5 & H). inv_ret H. exists key. rewrite Hn. split; [|done].
  destruct first; [|by inv_ret H5]. unfold on_ca_db in H5. destruct (persist_root_cert_row _ _) as [r d]. by injection H5 as _ <-.
Qed.

(** C33. A restart keeps the certificate authority: whenever a start succeeded,
    generating the root or loading it, every later start on the files it left
    comes up with the same key and the same root certificate, changing neither
    the files nor the database. *)
Theorem ca_restart_keeps_identity base w ca w' : ca_init base w = (Ok ca, w') ->
  exists key, ca_root ca = issuer_new (build_ca_params (db_now (cw_db w))) key /\
    forall d, ca_init base (mkCaWorld (cw_disk w') d) =
      (Ok (mkCa base (issuer_new (build_ca_params (db_now d)) key) (root_cert_pem ca) None), mkCaWorld (cw_disk w') d).
Proof.
  intros H. destruct (ca_init_files base w ca w' H) as (key & Hf & ->). exists key. split; [done|]. intros d. by apply ca_init_load.
Qed.
End identity.

(** ** Importing a sub-CA *)

Section import.
Context {RC : Rcgen} {HX : Hex} {B64 : Base64} {X : X509}.

Definition certified (pem : string) (c : X509Cert) : Prop :=
  exists der, pem_to_der pem = Ok der /\ x509_from_der der = Ok c.
Definition in_validity (now : DateTime) (c : X509Cert) : Prop :=
  (x_not_before c * SECOND <= now <= x_not_after c * SECOND)%Z.

(** Each certificate names the next as its issuer, and the last itself. *)
Inductive linked : list X509Cert -> Prop :=
  | linked_root c : x_issuer_raw c = x_subject_raw c -> linked [c]
  | linked_up c c' l : x_issuer_raw c = x_subject_raw c' -> linked (c' :: l) -> linked (c :: c' :: l).

Lemma map_err_ok {A E F} (f : E -> F) (r : result A E) a : map_err f r = Ok a <-> r = Ok a.
Proof. by destruct r; cbn; split; intros; simplify_eq. Qed.

Lemma check_validity_ok now who c : check_validity now who c = Ok tt <-> in_validity now c.
Proof.
  unfold check_validity, in_validity. destruct (Z.ltb_spec now (x_not_before c * SECOND)); [split; [done|lia]|].
  destruct (Z.ltb_spec (x_not_after c * SECOND) now); [split; [done|lia]|]. split; [lia|done].
Qed.

Lemma check_links_ok i c l : check_links i (c :: l) = Ok tt <-> linked (c :: l).
Proof.
  revert i c. induction l as [|c' l IH]; intros i c; cbn [check_links head from_option].
  - case_bool_decide; cbn; split; intros H'; try done; [by constructor|]. inversion H'; by subst.
  - case_bool_decide as Hc; cbn [negb].
    + change (check_links (i + 1) (c' :: l) = Ok tt <-> linked (c :: c' :: l)). rewrite IH.
      split; [by constructor|]. inversion 1; by subst.
    + split; [done|]. inversion 1; by subst.
Qed.

Lemma parse_rest_ok now i pems cs :
  parse_rest now i pems = Ok cs <-> Forall2 (fun pem c => certified pem c /\ in_validity now c) pems cs.
Proof.
  revert i cs. induction pems as [|pem pems IH]; intros i cs; cbn [parse_rest].
  - split; [intros [= <-]; constructor|by inversion 1].
  - split.
    + intros H. apply and_then_ok in H as (der & Hd & H). apply and_then_ok in H as (c & Hc%map_err_ok & H).
      apply and_then_ok in H as ([] & Hv%check_validity_ok & H). apply and_then_ok in H as (rest & Hr%IH & [= <-]).
      constructor; [|done]. split; [by exists der|done].
    + inversion 1 as [|? c ? rest [(der & Hd & Hc) Hv] Hr]; subst. rewrite Hd. cbn [and_then]. rewrite Hc. cbn [and_then map_err].
      rewrite (proj2 (check_validity_ok _ _ _) Hv). cbn [and_then]. by rewrite (proj2 (IH _ _) Hr).
Qed.

Lemma check_sub_ca_ok key c : check_sub_ca key c = Ok tt <->
  x_is_ca c = true /\ x_key_usage c = Some (true, true) /\ key_spki key = x_spki c.
Proof.
  unfold check_sub_ca. destruct (x_is_ca c); cbn; [|naive_solver].
  destruct (x_key_usage c) as [[[] []]|]; cbn; try naive_solver. case_bool_decide; cbn; naive_solver.
Qed.

(** C34. What makes an imported chain acceptable: [load_issuing] takes a chain and
    a key exactly when the key parses, the chain has a first certificate and all
    its certificates parse and are inside their validity, the issuer name of each is
    the subject name of the next and that of the last its own, the first is a CA that
    may sign certificates and CRLs, its public key is that of the key, and the
    library makes an issuer of the two; it then issues under the first certificate's
    name and serial, and hands agents the whole chain. Names are all that is
    compared: no signature in the chain is checked. *)
Theorem imported_chain_exact now path chain_pem key_pem ic :
  load_issuing now path chain_pem key_pem = Ok ic <->
  exists key pem upper sub rest issuer,
    key_from_pem key_pem = Ok key /\ split_pem_chain chain_pem = pem :: upper /\
    Forall2 (fun p c => certified p c /\ in_validity now c) (pem :: upper) (sub :: rest) /\ linked (sub :: rest) /\
    (x_is_ca sub = true /\ x_key_usage sub = Some (true, true) /\ key_spki key = x_spki sub) /\
    issuer_from_ca_cert_pem pem key = Ok issuer /\
    ic = mkIssuing issuer (pem :: upper) (hex_encode (x_raw_serial sub)) (default "" (mjoin (head (x_subject_cns sub)))).
Proof.
  unfold load_issuing. rewrite and_then_ok. setoid_rewrite map_err_ok. split.
  - intros (key & Hk & H). destruct (split_pem_chain chain_pem) as [|pem upper]; [done|].
    apply and_then_ok in H as (der & Hd & H). apply and_then_ok in H as (sub & Hs%map_err_ok & H).
    apply and_then_ok in H as ([] & Hv%check_validity_ok & H). apply and_then_ok in H as ([] & Hc%check_sub_ca_ok & H).
    apply and_then_ok in H as (rest & Hr%parse_rest_ok & H). apply and_then_ok in H as ([] & Hl%check_links_ok & H).
    apply and_then_ok in H as (issuer & Hi%map_err_ok & [= <-]).
    exists key, pem, upper, sub, rest, issuer. split_and!; try done; try apply Hc. constructor; [|done]. split; [by exists der|done].
  - intros (key & pem & upper & sub & rest & issuer & Hk & Hp & Hf & Hl & Hc & Hi & ->).
    exists key. split; [done|]. rewrite Hp. inversion Hf as [|? ? ? ? [(der & Hd & Hs) Hv] Hr]; subst.
    rewrite Hd. cbn [and_then]. rewrite Hs. cbn [and_then map_err]. rewrite (proj2 (check_validity_ok _ _ _) Hv). cbn [and_then].
    rewrite (proj2 (check_sub_ca_ok _ _) Hc). cbn [and_then]. rewrite (proj2 (parse_rest_ok _ _ _ _) Hr). cbn [and_then].
    rewrite (proj2 (check_links_ok _ _ _) Hl). cbn [and_then]. by rewrite Hi.
Qed.
End import.

(** ** Revocation lists *)

Section crls.
Context {SQL : Sql} {RC : Rcgen} {HX : Hex} {SQLL : SqlLaws}.

Lemma revoked_rows_in c d : c ∈ revoked_rows d <-> c ∈ db_certs d /\ revoked_live (db_now d) c = true.
Proof. unfold revoked_rows. by rewrite sql_sort_perm, !list_elem_of_In, List.filter_In. Qed.

Lemma group_revoked_in ca now rows gs : group_revoked ca now rows = Ok gs ->
  forall (issuing : bool) e, e ∈ (if issuing then gs.2 else gs.1) <->
    exists c, c ∈ rows /\ in_issuing_group ca c = issuing /\ revoked_entry now c = Ok e.
Proof.
  revert gs. induction rows as [|c rows IH]; intros gs H issuing e; cbn [group_revoked] in H.
  - injection H as <-. destruct issuing; cbn; set_solver.
  - apply and_then_ok in H as (p & Hp & H). apply and_then_ok in H as (gs' & Hg & [= <-]). specialize (IH gs' Hg issuing e).
    assert (e ∈ (if issuing then (if in_issuing_group ca c then (gs'.1, p :: gs'.2) else (p :: gs'.1, gs'.2)).2
      else (if in_issuing_group ca c then (gs'.1, p :: gs'.2) else (p :: gs'.1, gs'.2)).1) <->
      (in_issuing_group ca c = issuing /\ e = p) \/ e ∈ (if issuing then gs'.2 else gs'.1)) as ->.
    { destruct (in_issuing_group ca c), issuing; cbn; rewrite ?elem_of_cons; intuition congruence. }
    rewrite IH. split.
    + intros [[Hc ->]|(c' & Hin & H')]; [exists c; split; [left|done]|exists c'; split; [by right|done]].
    + intros (c' & [->|Hin]%elem_of_cons & Hc & He); [left; split; [done|congruence]|right; eauto].
Qed.

Lemma group_revoked_err ca now rows e : group_revoked ca now rows = Err e ->
  exists c, c ∈ rows /\ is_ok (hex_decode (trim (ct_serial_number c))) = false.
Proof.
  induction rows as [|c rows IH]; cbn [group_revoked]; [done|]. unfold and_then at 1.
  destruct (revoked_entry now c) as [p|] eqn:Hp.
  - destruct (group_revoked ca now rows); [done|]. intros [= ->]. destruct (IH eq_refl) as (c' & Hin & Hc'). exists c'. split; [by right|done].
  - intros _. exists c. split; [by left|]. unfold revoked_entry in Hp. by destruct (hex_decode _).
Qed.

(** ** The counter *)

Lemma bump_crl_spec key d n d' : bump_crl_number key d = Some (n, d') ->
  n = (last_crl_number key d + 1)%Z /\ last_crl_number key d' = n /\
  (forall k, k <> key -> last_crl_number k d' = last_crl_number k d) /\
  db_certs d' = db_certs d /\ db_now d' = db_now d /\ db_faults d' = db_faults d.
Proof.
  unfold bump_crl_number. destruct (_ <? _)%Z; [|done]. intros [= <- <-]. split; [done|]. unfold last_crl_number. cbn. split_and!; try done.
  - destruct (existsb _ _) eqn:He.
    + set (n := (from_option _ _ _ + 1)%Z). clearbody n. unfold update_where.
      induction (db_crl_counter d) as [|[k v] l IH]; cbn in *; [done|]. case_bool_decide as Hk; cbn in *.
      * by rewrite bool_decide_eq_true_2.
      * by rewrite bool_decide_eq_false_2 by done; apply IH.
    + induction (db_crl_counter d) as [|[k v] l IH]; cbn in *; [by rewrite bool_decide_eq_true_2|].
      case_bool_decide; cbn in *; [done|]. by apply IH.
  - intros k' Hne. destruct (existsb _ _).
    + set (n := (from_option _ _ _ + 1)%Z). clearbody n. unfold update_where.
      induction (db_crl_counter d) as [|[k v] l IH]; cbn in *; [done|]. destruct (bool_decide (k = key)) eqn:Hk.
      * apply bool_decide_eq_true in Hk as ->. by rewrite !bool_decide_eq_false_2 by done.
      * destruct (bool_decide (k = k')); [done|]. exact IH.
    + induction (db_crl_counter d) as [|[k v] l IH]; cbn in *; [by rewrite bool_decide_eq_false_2|]. by case_bool_decide.
Qed.

(** What one issuer's part of the lists is: nothing when no live revoked
    certificate is its, otherwise one CRL under the next number with exactly those. *)
Definition crl_of (ca : CertAuthority) (d : Db) (issuing : bool) (issuer : Issuer) (key : string) (pems : list string) : Prop :=
  exists es, (forall e, e ∈ es <-> exists c, c ∈ db_certs d /\ revoked_live (db_now d) c = true /\
      in_issuing_group ca c = issuing /\ revoked_entry (db_now d) c = Ok e) /\
    match es with
    | [] => pems = []
    | _ => exists pem, pems = [pem] /\
        crl_signed_by (mkCrlParams (db_now d) (db_now d + 24 * HOUR) (last_crl_number key d + 1) es) issuer = Ok pem
    end.

(** The ways a list can fail to be made. *)
Definition crl_obstacle (ca : CertAuthority) (d : Db) : Prop :=
  (exists c, c ∈ db_certs d /\ revoked_live (db_now d) c = true /\ is_ok (hex_decode (trim (ct_serial_number c))) = false) \/
  (exists issuing gs, group_revoked ca (db_now d) (revoked_rows d) = Ok gs /\
     let '(issuer, key, es) := if (issuing : bool) then (ca_issuer ca, "issuing", gs.2) else (ca_root ca, "root", gs.1) in
     es <> [] /\ is_ok (crl_signed_by (mkCrlParams (db_now d) (db_now d + 24 * HOUR) (last_crl_number key d + 1) es) issuer) = false) \/
  exists key, key ∈ ["root"; "issuing"] /\ (2 ^ 63 <= last_crl_number key d + 1)%Z.

(** The tables a list is made from are the same. *)
Definition same_certs (d d' : Db) : Prop := db_certs d' = db_certs d /\ db_now d' = db_now d /\ db_faults d' = db_faults d.

Lemma sign_group_run issuer key es d : healthy d ->
  match sign_group (db_now d) issuer key es d with
  | (Ok pems, d') =>
      match es with
      | [] => pems = [] /\ d' = d
      | _ => exists pem, pems = [pem] /\
          crl_signed_by (mkCrlParams (db_now d) (db_now d + 24 * HOUR) (last_crl_number key d + 1) es) issuer = Ok pem
      end /\
      last_crl_number key d' = (last_crl_number key d + Z.of_nat (length pems))%Z /\
      (forall k, k <> key -> last_crl_number k d' = last_crl_number k d) /\ same_certs d d'
  | (Err _, _) => (es <> [] /\
      is_ok (crl_signed_by (mkCrlParams (db_now d) (db_now d + 24 * HOUR) (last_crl_number key d + 1) es) issuer) = false) \/ (2 ^ 63 <= last_crl_number key d + 1)%Z
  end.
Proof.
  intros Hd. destruct es as [|e es]; cbn; [split_and!; try done; lia|].
  unfold cert_db, execute_returning, query, mbind, M_bind. rewrite Hd.
  destruct (bump_crl_number key d) as [[n d1]|] eqn:Hb.
  - pose proof (bump_crl_spec key d n d1 Hb) as (Hn & Hl & Ho & Hs). subst n. cbn.
    match goal with |- context [crl_signed_by ?p issuer] => destruct (crl_signed_by p issuer) as [pem|] eqn:Hp end; change (CRL_NEXT_UPDATE_HOURS * HOUR)%Z with (24 * HOUR)%Z in Hp; cbn; [|left; split; [discriminate|by rewrite Hp]].
    split_and!; try done; by exists pem.
  - cbn. right. unfold bump_crl_number in Hb. by destruct (Z.ltb_spec (last_crl_number key d + 1) (2 ^ 63)).
Qed.

(** What [generate_crls] returns, and what stands in its way when it fails. *)
Lemma generate_crls_ok ca d crls d' : healthy d -> generate_crls ca d = (Ok crls, d') ->
  exists root_crls issuing_crls, crls = root_crls ++ issuing_crls /\
    crl_of ca d false (ca_root ca) "root" root_crls /\ crl_of ca d true (ca_issuer ca) "issuing" issuing_crls /\
    last_crl_number "root" d' = (last_crl_number "root" d + Z.of_nat (length root_crls))%Z /\
    last_crl_number "issuing" d' = (last_crl_number "issuing" d + Z.of_nat (length issuing_crls))%Z.
Proof.
  intros Hd. unfold generate_crls. erewrite bind_ok by (unfold cert_db; rewrite fetch_healthy by done; reflexivity).
  erewrite bind_ok by (unfold gets; reflexivity). intros H. apply bind_inv_ok in H as (gs & d0 & Hg & H).
  unfold lift_result in Hg. injection Hg as Hg <-.
  assert (forall issuing e, e ∈ (if (issuing : bool) then gs.2 else gs.1) <-> exists c, c ∈ db_certs d /\ revoked_live (db_now d) c = true /\
    in_issuing_group ca c = issuing /\ revoked_entry (db_now d) c = Ok e) as Hin.
  { intros b e. rewrite (group_revoked_in _ _ _ _ Hg b e). setoid_rewrite revoked_rows_in. naive_solver. }
  apply bind_inv_ok in H as (rc & d1 & H1 & H). pose proof (sign_group_run (ca_root ca) "root" gs.1 d Hd) as Hr. rewrite H1 in Hr.
  destruct Hr as (Hr & Hl1 & Ho1 & Hc1 & Hn1 & Hf1). assert (healthy d1) as Hd1 by (unfold healthy; by rewrite Hf1).
  apply bind_inv_ok in H as (ic & d2 & H2 & H). pose proof (sign_group_run (ca_issuer ca) "issuing" gs.2 d1 Hd1) as Hi. rewrite Hn1, H2 in Hi.
  destruct Hi as (Hi & Hl2 & Ho2 & _). inv_ret H. rewrite Ho1 in Hi, Hl2 by done. eexists rc, ic. split_and!; [done| | |by rewrite Ho2, Hl1|done].
  - exists gs.1. split; [exact (Hin false)|]. destruct gs.1; [apply Hr|exact Hr].
  - exists gs.2. split; [exact (Hin true)|]. destruct gs.2; [apply Hi|exact Hi].
Qed.

Lemma generate_crls_err ca d e d' : healthy d -> generate_crls ca d = (Err e, d') -> crl_obstacle ca d.
Proof.
  intros Hd. unfold generate_crls. erewrite bind_ok by (unfold cert_db; rewrite fetch_healthy by done; reflexivity).
  erewrite bind_ok by (unfold gets; reflexivity).
  destruct (group_revoked ca (db_now d) (revoked_rows d)) as [gs|ge] eqn:Hg.
  2:{ intros _. destruct (group_revoked_err _ _ _ _ Hg) as (c & [Hin Hl]%revoked_rows_in & Hx). left. eauto. }
  erewrite bind_ok by (unfold lift_result; reflexivity).
  pose proof (sign_group_run (ca_root ca) "root" gs.1 d Hd) as H1. unfold mbind at 1, M_bind at 1.
  destruct (sign_group (db_now d) (ca_root ca) "root" gs.1 d) as [[rc|e1] d1].
  2:{ intros _. destruct H1 as [Hp|H1]; right; [left; by exists false, gs|right; exists "root"; split; [by left|done]]. }
  destruct H1 as (_ & _ & Ho1 & _ & Hn1 & Hf1). assert (healthy d1) as Hd1 by (unfold healthy; by rewrite Hf1).
  pose proof (sign_group_run (ca_issuer ca) "issuing" gs.2 d1 Hd1) as H2. rewrite Hn1 in H2. unfold mbind, M_bind.
  destruct (sign_group (db_now d) (ca_issuer ca) "issuing" gs.2 d1) as [[ic|e2] d2]; [done|]. intros _. rewrite Ho1 in H2 by done.
  destruct H2 as [Hp|H2]; right; [left; by exists true, gs|right; exists "issuing"; split; [right; by left|done]].
Qed.

(** C32. The revocation lists: a successful [generate_crls] yields, for the root
    and for the issuing CA in turn, no list when none of its certificates is
    revoked and unexpired, and otherwise one list, valid for 24 hours, that names
    exactly those certificates and carries the number after the last one, which
    the counter then keeps, so the numbers of an issuer's lists only grow; it
    fails only over a serial that is not hex, a refusal to sign just that list of
    the root or of the issuing CA, or an exhausted counter. *)
Theorem crls_exact ca d : healthy d ->
  match generate_crls ca d with
  | (Ok crls, d') => exists root_crls issuing_crls, crls = root_crls ++ issuing_crls /\
      crl_of ca d false (ca_root ca) "root" root_crls /\ crl_of ca d true (ca_issuer ca) "issuing" issuing_crls /\
      last_crl_number "root" d' = (last_crl_number "root" d + Z.of_nat (length root_crls))%Z /\
      last_crl_number "issuing" d' = (last_crl_number "issuing" d + Z.of_nat (length issuing_crls))%Z
  | (Err _, _) => crl_obstacle ca d
  end.
Proof.
  intros Hd. destruct (generate_crls ca d) as [[crls|e] d'] eqn:Hg; [exact (generate_crls_ok ca d crls d' Hd Hg)|exact (generate_crls_err ca d e d' Hd Hg)].
Qed.

Lemma group_revoked_blocked ca now rows c : c ∈ rows -> is_ok (hex_decode (trim (ct_serial_number c))) = false ->
  exists msg, group_revoked ca now rows = Err (CeRcgen msg).
Proof.
  intros Hin Hx. induction rows as [|c' rows IH]; [by apply not_elem_of_nil in Hin|]. cbn [group_revoked].
  unfold revoked_entry at 1. destruct (hex_decode (trim (ct_serial_number c'))) as [s|e] eqn:Hs; cbn [and_then map_err]; [|by eexists].
  apply elem_of_cons in Hin as [->|Hin]; [by rewrite Hs in Hx|]. destruct (IH Hin) as (msg & ->). by eexists.
Qed.

(** One revoked, unexpired row whose serial is not hex and no list can be made. *)
Lemma crls_blocked ca d c : healthy d -> c ∈ db_certs d -> revoked_live (db_now d) c = true ->
  is_ok (hex_decode (trim (ct_serial_number c))) = false -> exists msg, generate_crls ca d = (Err (CeRcgen msg), d).
Proof.
  intros Hd Hin Hl Hx. destruct (group_revoked_blocked ca (db_now d) (revoked_rows d) c) as (msg & Hg); [by apply revoked_rows_in|done|].
  exists msg. unfold generate_crls. erewrite bind_ok by (unfold cert_db; rewrite fetch_healthy by done; reflexivity).
  erewrite bind_ok by (unfold gets; reflexivity). unfold lift_result. by erewrite bind_err by by rewrite Hg.
Qed.
End crls.

(** ** Examples *)

Notation toy_init := (@ca_init toy_uuid_text toy_rcgen).
Definition blank_world : CaWorld := mkCaWorld (mkDisk ∅ ∅) empty_db.

Lemma ca_restart_keeps_identity_witness :
  exists ca w', toy_init "/ca" blank_world = (Ok ca, w') /\ length (db_certs (cw_db w')) = 1%nat /\
    exists ca', toy_init "/ca" (mkCaWorld (cw_disk w') (set_db_now DAY (cw_db w'))) =
      (Ok ca', mkCaWorld (cw_disk w') (set_db_now DAY (cw_db w'))) /\ root_cert_pem ca' = root_cert_pem ca.
Proof.
  assert (is_ok (fst (toy_init "/ca" blank_world)) = true) as Hr by (vm_compute; reflexivity).
  assert (length (db_certs (cw_db (snd (toy_init "/ca" blank_world)))) = 1%nat) as Hl by (vm_compute; reflexivity).
  destruct (toy_init "/ca" blank_world) as [r w'] eqn:Hi. cbn [fst snd] in Hr, Hl.
  destruct r as [ca|]; [|discriminate Hr]. exists ca, w'. split; [reflexivity|]. split; [exact Hl|].
  destruct (@ca_restart_keeps_identity toy_uuid_text toy_rcgen toy_x509 toy_ca_laws "/ca" blank_world ca w' Hi) as (key & _ & H).
  eexists. split; [apply H|done].
Defined.

(** A sub-CA under an upstream root, with its key. *)
Definition ca_pem (c : string) : string :=
  "-----BEGIN CERTIFICATE-----" +:+ newline +:+ c +:+ newline +:+ "-----END CERTIFICATE-----" +:+ newline.
Definition upstream_chain : string :=
  ca_pem (to_text (("up", "sub", 100, (true, true, true), to_text 5%N, "7") : toy_ca_cert)%Z) +:+
  ca_pem (to_text (("up", "up", 100, (true, true, true), "k", "1") : toy_ca_cert)%Z).

Lemma imported_chain_exact_witness :
  exists ic, @load_issuing toy_rcgen toy_hex toy_base64 toy_x509 SECOND "chain.pem" upstream_chain (to_text 5%N) = Ok ic /\
    exists key pem upper, @key_from_pem toy_rcgen (to_text 5%N) = Ok key /\ split_pem_chain upstream_chain = pem :: upper /\
      @ic_chain_pems toy_rcgen ic = pem :: upper.
Proof.
  assert (is_ok (@load_issuing toy_rcgen toy_hex toy_base64 toy_x509 SECOND "chain.pem" upstream_chain (to_text 5%N)) = true) as Ho
    by (vm_compute; reflexivity).
  destruct (@load_issuing toy_rcgen toy_hex toy_base64 toy_x509 SECOND "chain.pem" upstream_chain (to_text 5%N)) as [ic|e] eqn:H;
    [|discriminate Ho].
  exists ic. split; [done|].
  destruct (proj1 (@imported_chain_exact toy_rcgen toy_hex toy_base64 toy_x509 SECOND "chain.pem" upstream_chain (to_text 5%N) ic) H)
    as (key & pem & upper & sub & rest & issuer & Hk & Hp & _ & _ & _ & _ & ->).
  by exists key, pem, upper.
Defined.

Definition revoked_cert (n : N) (serial : string) : CertRow :=
  mkCert (uuid_of n) None serial "" CertRevoked 0 DAY (Some 0%Z) "" "leaf" None None.
Definition crl_ca : @CertAuthority toy_rcgen := mkCa "/ca" (("Root", 1%N) : @Issuer toy_rcgen) "root-pem" None.

Lemma crls_exact_witness :
  let d := set_db_certs [revoked_cert 1 "6162"; revoked_cert 2 "63"] empty_db in
  exists d', @generate_crls toy_sql toy_rcgen toy_hex crl_ca d = (Ok ["Root:1:ab,c"], d') /\ last_crl_number "root" d' = 1%Z.
Proof.
  intros d. pose proof (@crls_exact toy_sql toy_rcgen toy_hex toy_sql_laws crl_ca d eq_refl) as H.
  destruct (@generate_crls toy_sql toy_rcgen toy_hex crl_ca d) as [r d'] eqn:Hg.
  assert (r = Ok ["Root:1:ab,c"]) as -> by (apply (f_equal fst) in Hg; vm_compute in Hg; by rewrite <- Hg).
  exists d'. split; [done|]. destruct H as (rc & ic & Heq & _ & (es & Hes & Hm) & Hl & _).
  assert (es = []) as ->.
  { destruct es as [|e es]; [done|]. destruct (proj1 (Hes e) ltac:(left)) as (c & _ & _ & Hi & _). done. }
  subst ic. rewrite app_nil_r in Heq. subst rc. exact Hl.
Defined.
