(* ===== verification/Listener.v ===== *)
(** * Listener: the agents' TLS listener

    [crates/fw-web/src/agent_cert.rs] (the listener's own certificate, and the TLS
    configuration built from it and the CRLs), [agent_listener.rs] (the
    configuration, the accept loop and the identity of a client), the certificate
    and CA routes that depend on them ([routes/certificates.rs], [routes/ca.rs],
    [routes/pki.rs]) and the part of [main.rs] that starts them. TLS itself is
    [rustls] ([Rustls]). *)

From S2P Require Import Prelude Text Files Models Net Db AuditLog Auth PolicyAdmin Ca.

(** ** rustls *)

Class Rustls := {
  (** [rustls_pemfile::certs] and [private_key] *)
  pemfile_certs : string -> list (result string string);
  pemfile_private_key : string -> result (option string) string;
  (** [RootCertStore::add]: is it a trust anchor? *)
  root_store_check : string -> result unit string;
  (** [WebPkiClientVerifier::builder(roots).with_crls(crls).allow_unknown_revocation_status().build()] *)
  verifier_check : list string -> list string -> result unit string;
  (** [with_single_cert] *)
  single_cert_check : list string -> string -> result unit string;
  (** does a handshake with this client chain pass the verifier? *)
  client_verified : list string -> list string -> list string -> bool
}.

(** ** Data *)

(** A [rustls::ServerConfig]: the anchors and CRLs of the client verifier, and the
    server's own certificates and key (all DER). *)
Record TlsConfig := mkTls { tc_roots : list string; tc_crls : list string; tc_certs : list string; tc_key : string }.

Inductive CertEnsureError := EnIssue (e : CertError) | EnIo (msg : string) | EnParse (msg : string).
Inductive CertOutcome := Reused | Issued.
#[export] Instance CertOutcome_eq_dec : EqDecision CertOutcome.
Proof. solve_decision. Defined.

Inductive TlsError := TlsCa (e : CertError) | TlsIo (msg : string).

(** The files the configuration names. *)
Record TlsPaths := mkPaths {
  agent_tls_cert_path : string; agent_tls_key_path : string; ca_issuing_chain_path : string; ca_issuing_key_path : string
}.

Record ClientCertInfo := mkClient { cc_host_id : Uuid; cc_remote_addr : string }.

(** The server: its disk and database, and the acceptor the listener reads
    ([None] while it is disabled). *)
Record Server := mkServer { sv_world : CaWorld; sv_acceptor : option TlsConfig }.

Definition REISSUE_MARGIN_DAYS : Z := 30.

Section listener.
Context {SQL : Sql} {SHA : Sha256} {JS : SerdeJson} {UT : UuidText} {RFC : Rfc3339} {RC : Rcgen} {HX : Hex} {B64 : Base64}
  {X : X509} {TLS : Rustls}.

(** ** The listener's certificate *)

Fixpoint san_strings (names : list GeneralName) : option (list string) :=
  match names with
  | [] => Some []
  | DNSName dns :: rest => out ← san_strings rest; Some (dns :: out)
  | IPAddress bytes :: rest => ip ← ip_of_octets bytes; out ← san_strings rest; Some (ip_to_string ip :: out)
  | OtherName :: _ => None
  end.

Definition cert_san_strings (cert : X509Cert) : option (list string) := san ← x_sans cert; san_strings san.

Definition canonical_sans (sans : list string) : list string :=
  map (fun san => match ip_parse san with Some ip => ip_to_string ip | None => san end) sans.

Definition existing_cert_reusable (now : DateTime) (cert_pem : string) (sans : list string) (expected_issuer_cn : string) : option bool :=
  cert ← x509_from_pem cert_pem;
  issuer_cn ← mjoin (head (x_issuer_cns cert));
  if negb (bool_decide (issuer_cn = expected_issuer_cn)) then Some false
  else if (now <? 0)%Z then None
  else if (x_not_after cert <=? now / SECOND + REISSUE_MARGIN_DAYS * 24 * 3600)%Z then Some false
  else cert_sans ← cert_san_strings cert; Some (bool_decide (cert_sans = canonical_sans sans)).

Definition on_disk_as {E A} (f : string -> E) (m : M Disk string A) : M CaWorld E A := fun w =>
  let '(r, k) := m (cw_disk w) in (map_err f r, mkCaWorld k (cw_db w)).
Definition on_db_as {E F A} (f : F -> E) (m : M Db F A) : M CaWorld E A := fun w =>
  let '(r, d) := m (cw_db w) in (map_err f r, mkCaWorld (cw_disk w) d).

Definition restrict_key_permissions {E} (path : string) : M CaWorld E unit :=
  ignore (on_disk_as (E:=string) id (disk_chmod path 384)).

Definition ensure_agent_listener_cert (ca : CertAuthority) (cert_path key_path : string) (sans : list string)
  : M CaWorld CertEnsureError CertOutcome :=
  let expected_issuer := issuing_subject_cn ca in
  w ← get;
  let reusable := match dk_files (cw_disk w) !! cert_path with
                  | Some f => existing_cert_reusable (db_now (cw_db w)) (f_content f) sans expected_issuer
                  | None => None
                  end in
  if bool_decide (reusable = Some true) && disk_exists key_path (cw_disk w) then mret Reused
  else
    cert ← on_db_as EnIssue (issue_server_cert ca sans);
    _ ← on_disk_as EnIo (disk_write cert_path (svc_cert_pem cert));
    _ ← on_disk_as EnIo (disk_write key_path (svc_key_pem cert));
    _ ← restrict_key_permissions key_path;
    mret Issued.

(** ** The TLS configuration *)

Fixpoint results_all {A E} (l : list (result A E)) : result (list A) E :=
  match l with
  | [] => Ok []
  | r :: l' => let? a := r in let? rest := results_all l' in Ok (a :: rest)
  end.

(** The certificates of one anchor text, each a valid trust anchor. *)
Definition anchor_roots (anchor : string) : result (list string) string :=
  results_all (map (fun r => let? der := r in let? _ := root_store_check der in Ok der) (pemfile_certs anchor)).

Definition build_agent_server_config (anchor_pems : list string) (server_cert_pem server_key_pem : string) (crl_pems : list string)
  : result TlsConfig string :=
  let? roots := results_all (map anchor_roots anchor_pems) in
  let? crls := results_all (map (fun pem => map_err cert_error_text (pem_to_der pem)) crl_pems) in
  let? _ := map_err (fun e => "client verifier build failed: " +:+ e) (verifier_check (mjoin roots) crls) in
  let? server_certs := results_all (pemfile_certs server_cert_pem) in
  let? okey := pemfile_private_key server_key_pem in
  let? key := ok_or okey "no private key in agent TLS key file" in
  let? _ := map_err (fun e => "server config build failed: " +:+ e) (single_cert_check server_certs key) in
  Ok (mkTls (mjoin roots) crls server_certs key).

Definition build_agent_tls_config (ca : CertAuthority) (cfg : TlsPaths) : M CaWorld TlsError TlsConfig :=
  crl_pems ← on_db_as TlsCa (generate_crls ca);
  server_cert_pem ← on_disk_as TlsIo (disk_read (agent_tls_cert_path cfg));
  server_key_pem ← on_disk_as TlsIo (disk_read (agent_tls_key_path cfg));
  lift_result (map_err TlsIo (build_agent_server_config (verification_anchors ca) server_cert_pem server_key_pem crl_pems)).

(** ** Accepting agents *)

Definition parse_host_id (cert_der : string) : option Uuid :=
  match x509_from_der cert_der with
  | Ok parsed => cn ← mjoin (head (x_subject_cns parsed)); uuid_parse cn
  | Err _ => None
  end.

(** What arrives: a failed TCP accept, or a connection with the chain its client
    presents (none without a client certificate) and its address. *)
Inductive Incoming := TcpFailed | Tcp (client_chain : option (list string)) (remote_addr : string).

(** One turn of the accept loop: the connection it returns, if any. *)
Definition accept_turn (acceptor : TlsConfig) (i : Incoming) : option ClientCertInfo :=
  match i with
  | TcpFailed => None
  | Tcp chain remote =>
      certs ← chain;
      if client_verified (tc_roots acceptor) (tc_crls acceptor) certs
      then host ← (head certs ≫= parse_host_id); Some (mkClient host remote)
      else None
  end.

(** The loop: the first connection that passes, with the connections after it; the
    acceptor is read anew for each. *)
Fixpoint accept (arrivals : list (TlsConfig * Incoming)) : option (ClientCertInfo * list (TlsConfig * Incoming)) :=
  match arrivals with
  | [] => None
  | (acceptor, i) :: rest =>
      match accept_turn acceptor i with
      | Some info => Some (info, rest)
      | None => accept rest
      end
  end.

(** [HostIdentity::from_request_parts]. *)
Definition host_identity (info : option ClientCertInfo) : result Uuid Refusal :=
  match info with
  | Some i => Ok (cc_host_id i)
  | None => Err (401%Z, "no mTLS client identity on this connection")
  end.

(** ** Starting *)

Inductive StartError := SeCa (e : CertError) | SeConfig (msg : string) | SeEnsure (e : CertEnsureError) | SeTls (e : TlsError).

Definition CA_BASE : string := "/etc/firewall-manager/ca".

Definition fail_as {W E F A} (f : E -> F) (m : M W E A) : M W F A := fun w => let '(r, w') := m w in (map_err f r, w').

Definition start_ca (cfg : TlsPaths) : M CaWorld StartError CertAuthority :=
  ca ← fail_as SeCa (ca_init CA_BASE);
  k ← gets cw_disk;
  match disk_exists (ca_issuing_chain_path cfg) k, disk_exists (ca_issuing_key_path cfg) k with
  | true, true => fail_as SeCa (with_issuing_ca ca (ca_issuing_chain_path cfg) (ca_issuing_key_path cfg))
  | true, false | false, true =>
      throw (SeConfig "ca_issuing_chain_path and ca_issuing_key_path must both point at existing files (one is missing)")
  | false, false => mret ca
  end.

Definition start_acceptor (ca : CertAuthority) (cfg : TlsPaths) (agent_tls_sans : list string) : M CaWorld StartError (option TlsConfig) :=
  match agent_tls_sans with
  | [] => mret None
  | _ =>
      _ ← fail_as SeEnsure (ensure_agent_listener_cert ca (agent_tls_cert_path cfg) (agent_tls_key_path cfg) agent_tls_sans);
      config ← fail_as SeTls (build_agent_tls_config ca cfg);
      mret (Some config)
  end.

(** ** Certificate routes *)

Notation SRV := (M Server AppError).
Definition on_server_db {A} (m : DB A) : SRV A := fun s =>
  let '(r, d) := m (cw_db (sv_world s)) in (r, mkServer (mkCaWorld (cw_disk (sv_world s)) d) (sv_acceptor s)).

Definition issued_ge (a b : CertRow) : Prop := (ct_issued_at b <= ct_issued_at a)%Z.
#[export] Instance issued_ge_dec a b : Decision (issued_ge a b).
Proof. unfold issued_ge. apply _. Defined.

Definition list_certs : DB (list CertRow) := fetch (fun d => take 50 (sql_sort issued_ge (db_certs d))).

Definition is_cert (id : Uuid) (c : CertRow) : bool := bool_decide (ct_id c = id).
Definition get_cert (id : Uuid) : DB CertRow :=
  row ← fetch (fun d => head (sql_scan (List.filter (is_cert id) (db_certs d))));
  or_not_found "Certificate not found" row.

Definition revoke_row (now : DateTime) (c : CertRow) : CertRow :=
  mkCert (ct_id c) (ct_host_id c) (ct_serial_number c) (ct_common_name c) CertRevoked (ct_issued_at c) (ct_expires_at c)
    (Some now) (ct_cert_pem c) (ct_ca_tier c) (ct_parent_cert_id c) (ct_issuer_serial c).

(** The statement, with the number of rows it changed. *)
Definition revoke_rows (id : Uuid) (d : Db) : option (nat * Db) :=
  Some (length (List.filter (is_cert id) (db_certs d)),
        set_db_certs (update_where (is_cert id) (revoke_row (db_now d)) (db_certs d)) d).

(** [if let Some(shared) = &state.agent_tls_acceptor { .. }]: the new acceptor,
    or the old one when it cannot be built. *)
Definition swap_acceptor (ca : CertAuthority) (cfg : TlsPaths) : SRV unit := fun s =>
  match sv_acceptor s with
  | None => (Ok tt, s)
  | Some _ => match build_agent_tls_config ca cfg (sv_world s) with
              | (Ok config, w) => (Ok tt, mkServer w (Some config))
              | (Err _, w) => (Ok tt, mkServer w (sv_acceptor s))
              end
  end.

Definition revoke_cert (ca : CertAuthority) (cfg : TlsPaths) (auth : AuthUser) (id : Uuid) : SRV Z :=
  _ ← on_server_db (require_admin_role auth);
  affected ← on_server_db (execute_returning (revoke_rows id));
  _ ← guard_or (negb (affected =? 0)%nat) (NotFound "Certificate not found");
  _ ← on_server_db (log_event (user_event auth "certificate_revoked" "certificate" (uuid_to_string id) (JObj [])));
  _ ← swap_acceptor ca cfg;
  mret 200%Z.

(** ** CA and CRL routes *)

(** The root row's certificate, and the imported chain. *)
Definition get_ca_info (ca : CertAuthority) : DB (option string * option (list string)) :=
  root ← fetch (fun d => ct_cert_pem <$> head (sql_scan (List.filter (fun c => bool_decide (ct_ca_tier c = "root")) (db_certs d))));
  mret (root, issuing_chain_pems ca).

Definition get_crl (ca : CertAuthority) : DB (list string) := fun d =>
  let '(r, d') := generate_crls ca d in
  (map_err (fun e => Internal ("CRL generation failed: " +:+ cert_error_text e)) r, d').

(** [GET /api/v1/pki/crl.pem]: the status and the body. *)
Definition get_crl_pem {E} (ca : CertAuthority) : M Db E (Z * string) :=
  r ← attempt (generate_crls ca);
  mret (match r with Ok crls => (200%Z, str_concat crls) | Err _ => (500%Z, "Failed to generate CRL") end).
End listener.
