(* ===== verification/ListenerFacts.v ===== *)
(** * ListenerFacts: who the agents' listener lets in

    The listener's certificate is kept across restarts when its configured names
    come before its addresses; a certificate signed for a host identifies that
    host; a revoked one is refused from the next connection on; and revoking the
    root's own row stops both revocation and the server's next start. *)

From S2P Require Import Prelude Text Codec Files Models Net Db AuditLog Auth PolicyAdmin Ca CaToy CaFacts Listener.

(** ** What is relied on *)

(** A signed certificate carries the subject it was signed with; a CRL of the same
    issuer that lists its serial names it; and [rustls] refuses a client whose
    certificate a configured CRL names. *)
Class TlsLaws `{!Rcgen, !Base64, !X509, !Rustls, !CaLaws} := {
  issuer_key : Issuer -> KeyPair;
  crl_names : string -> string -> bool;
  leaf_subject : forall csr p i pem der, csr_signed_by csr p i = Ok pem -> pem_to_der pem = Ok der ->
    exists c, x509_from_der der = Ok c /\ head (x_subject_cns c) = Some (Some (lp_common_name p));
  crl_names_serial : forall csr p i pem leaf q j crl, csr_signed_by csr p i = Ok pem -> pem_to_der pem = Ok leaf ->
    crl_signed_by q j = Ok crl -> issuer_cn i = issuer_cn j -> issuer_key i = issuer_key j ->
    (exists e, e ∈ crl_revoked_certs q /\ rv_serial_number e = uuid_bytes (lp_serial p)) ->
    exists der, pem_to_der crl = Ok der /\ crl_names der leaf = true;
  verifier_honours_crls : forall roots crls leaf rest crl, crl ∈ crls -> crl_names crl leaf = true ->
    client_verified roots crls (leaf :: rest) = false
}.

(** ** The listener's certificate *)

Section cert.
Context {SQL : Sql} {RC : Rcgen} {X : X509} {LAWS : CaLaws}.

Lemma san_strings_issued dns ips : Forall ip_wf ips ->
  san_strings (map DNSName dns ++ map (fun ip => IPAddress (ip_octets ip)) ips) = Some (dns ++ map ip_to_string ips).
Proof.
  intros Hw. induction dns as [|s dns IH]; cbn; [|by rewrite IH].
  induction Hw as [|ip ips Hip _ IH]; cbn; [done|]. rewrite ip_of_octets_octets by done. cbn. by rewrite IH.
Qed.

Lemma ip_sans_wf sans : Forall ip_wf (ip_sans sans).
Proof.
  apply Forall_forall. intros ip Hip. unfold ip_sans in Hip. apply list_elem_of_omap in Hip as (s & _ & Hs). by eapply ip_parse_wf.
Qed.

Lemma sans_split sans : sans <> [] -> dns_sans sans <> [] \/ ip_sans sans <> [].
Proof.
  destruct sans as [|s sans]; [done|]. intros _. unfold dns_sans, ip_sans. cbn. destruct (ip_parse s) as [ip|] eqn:Hs; cbn.
  - right. done.
  - left. done.
Qed.

(** The names in the order the certificate carries them. *)
Definition issued_sans (sans : list string) : list string := dns_sans sans ++ map ip_to_string (ip_sans sans).

(** The CA's issuing name is its issuer's. *)
Definition ca_named (ca : CertAuthority) : Prop := issuer_cn (ca_issuer ca) = issuing_subject_cn ca.

Lemma ensure_issued_inv ca cp kp sans w w1 : ensure_agent_listener_cert ca cp kp sans w = (Ok Issued, w1) ->
  exists pem key, server_signed_by (server_params sans (db_now (cw_db w))) key (ca_issuer ca) = Ok pem /\
    db_now (cw_db w1) = db_now (cw_db w) /\ (cp <> kp -> exists f, dk_files (cw_disk w1) !! cp = Some f /\ f_content f = pem) /\
    is_Some (dk_files (cw_disk w1) !! kp).
Proof.
  unfold ensure_agent_listener_cert. intros H. apply bind_inv_ok in H as (w0 & w0' & H0 & H). unfold get in H0. injection H0 as <- <-.
  destruct (_ && _); [by inv_ret H|]. apply bind_inv_ok in H as (cert & w2 & H2 & H). unfold on_db_as in H2.
  destruct (issue_server_cert ca sans (cw_db w)) as [[c|] d2] eqn:Hi; [|done]. injection H2 as <- <-.
  apply bind_inv_ok in Hi as (n & d3 & H3 & Hi). unfold draw in H3. injection H3 as <- <-.
  apply bind_inv_ok in Hi as (key & d4 & H4 & Hi). unfold lift_result in H4. injection H4 as _ <-.
  apply bind_inv_ok in Hi as ([] & d5 & H5 & Hi). unfold lift_result in H5. injection H5 as _ <-.
  apply bind_inv_ok in Hi as (now & d6 & H6 & Hi). unfold gets in H6. injection H6 as <- <-.
  apply bind_inv_ok in Hi as (pem & d7 & H7 & Hi). unfold lift_result in H7. injection H7 as Hp%map_err_ok <-. inv_ret Hi.
  exists pem, key. split; [done|].
  apply bind_inv_ok in H as ([] & w8 & H8 & H). unfold on_disk_as, disk_write in H8. case_bool_decide; [done|]. injection H8 as <-.
  apply bind_inv_ok in H as ([] & w9 & H9 & H). unfold on_disk_as, disk_write in H9. cbn in H9. case_bool_decide; [done|]. injection H9 as <-.
  apply bind_inv_ok in H as ([] & w10 & H10 & H). inv_ret H. unfold restrict_key_permissions, ignore in H10. injection H10 as <-.
  unfold on_disk_as, disk_chmod. cbn. rewrite lookup_insert_eq. cbn. split; [done|]. split; [|by rewrite lookup_insert_eq].
  intros Hne. eexists. split; [rewrite !lookup_insert_ne by done; by rewrite lookup_insert_eq|done].
Qed.

(** Keeping the listener's certificate: once the server has issued it, a later
    start with the same CA and names, more than 30 days before its expiry, keeps it
    exactly when the configured list is the DNS names followed by the addresses;
    otherwise the server issues it anew at every start. *)
Theorem listener_cert_reused_iff ca cp kp sans w w1 d : ca_named ca -> cp <> kp -> sans <> [] ->
  ensure_agent_listener_cert ca cp kp sans w = (Ok Issued, w1) ->
  (0 <= db_now d)%Z -> (db_now d / SECOND + 30 * 86400 < (db_now (cw_db w) + 365 * DAY) / SECOND)%Z ->
  ensure_agent_listener_cert ca cp kp sans (mkCaWorld (cw_disk w1) d) = (Ok Reused, mkCaWorld (cw_disk w1) d) <->
  issued_sans sans = canonical_sans sans.
Proof.
  intros Hca Hne Hs H Hnow Hexp. destruct (ensure_issued_inv ca cp kp sans w w1 H) as (pem & key & Hsign & _ & Hf & Hk).
  destruct (Hf Hne) as (f & Hf' & Hc). destruct (server_cert_parses _ _ _ _ Hsign (sans_split sans Hs)) as (c & Hp & Hsan & Hna & Hcn).
  assert (existing_cert_reusable (db_now d) (f_content f) sans (issuing_subject_cn ca) =
    Some (bool_decide (issued_sans sans = canonical_sans sans))) as Hre.
  { unfold existing_cert_reusable. rewrite Hc, Hp. cbn [mbind option_bind]. rewrite Hcn. cbn [mjoin option_join mbind option_bind].
    rewrite bool_decide_eq_true_2 by done. cbn [negb]. rewrite (proj2 (Z.ltb_ge _ _)) by done.
    rewrite Hna. cbn [server_params sp_not_after]. rewrite (proj2 (Z.leb_gt _ _)).
    2:{ unfold REISSUE_MARGIN_DAYS, SERVER_CERT_VALIDITY_YEARS. rewrite Z.mul_1_r. lia. }
    unfold cert_san_strings. rewrite Hsan. cbn [mbind option_bind server_params sp_dns_names sp_ip_addresses].
    by rewrite san_strings_issued by apply ip_sans_wf. }
  unfold ensure_agent_listener_cert. erewrite bind_ok by (unfold get; reflexivity). cbn [cw_disk cw_db]. rewrite Hf', Hre.
  rewrite (proj2 (disk_exists_true _ _) Hk), andb_true_r.
  destruct (decide (issued_sans sans = canonical_sans sans)) as [He|He].
  - by rewrite (bool_decide_eq_true_2 _ He).
  - rewrite (bool_decide_eq_false_2 _ He). split; [|done]. intros Hr. exfalso.
    repeat (apply bind_inv_ok in Hr as (? & ? & _ & Hr)). by inv_ret Hr.
Qed.

(** The order that is kept: names, then addresses. *)
Lemma issued_sans_ordered l1 l2 : Forall (fun s => ip_parse s = None) l1 -> Forall (fun s => is_Some (ip_parse s)) l2 ->
  issued_sans (l1 ++ l2) = canonical_sans (l1 ++ l2).
Proof.
  intros H1 H2. assert (dns_sans (l1 ++ l2) = l1 /\ ip_sans (l1 ++ l2) = ip_sans l2) as [Hd Hi].
  { unfold dns_sans, ip_sans. induction H1 as [|s l1 Hs _ [IH1 IH2]]; cbn.
    - split; [|done]. induction H2 as [|s l2 [ip Hip] _ IH]; cbn; [done|]. by rewrite Hip.
    - rewrite Hs. cbn. rewrite IH1. by rewrite IH2. }
  unfold issued_sans, canonical_sans. rewrite Hd, Hi, map_app. f_equal.
  - clear -H1. induction H1 as [|s l1 Hs _ IH]; cbn; [done|]. by rewrite Hs, <- IH.
  - clear -H2. induction H2 as [|s l2 [ip Hip] _ IH]; cbn; [done|]. rewrite Hip. cbn. f_equal. exact IH.
Qed.
End cert.

(** ** Revocation *)

Section revocation.
Context {SQL : Sql} {SHA : Sha256} {JS : SerdeJson} {UT : UuidText} {RFC : Rfc3339} {RC : Rcgen} {HX : Hex} {B64 : Base64}
  {X : X509} {TLS : Rustls} {SQLL : SqlLaws}.

Lemma results_all_in {A E} (l : list (result A E)) as_ a : results_all l = Ok as_ -> Ok a ∈ l -> a ∈ as_.
Proof.
  revert as_. induction l as [|r l IH]; intros as_ H Hin; [by apply not_elem_of_nil in Hin|]. cbn in H.
  apply and_then_ok in H as (x & -> & H). apply and_then_ok in H as (xs & Hxs & [= <-]).
  apply elem_of_cons in Hin as [[= ->]|Hin]; [left|right; by apply IH].
Qed.

(** The CRLs of a configuration are those the CA generated. *)
Lemma build_config_inv ca cfg w tls w' : build_agent_tls_config ca cfg w = (Ok tls, w') ->
  exists crls d', generate_crls ca (cw_db w) = (Ok crls, d') /\
    forall pem der, pem ∈ crls -> pem_to_der pem = Ok der -> der ∈ tc_crls tls.
Proof.
  unfold build_agent_tls_config. intros H. apply bind_inv_ok in H as (crls & w1 & H1 & H). unfold on_db_as in H1.
  destruct (generate_crls ca (cw_db w)) as [[x|] d'] eqn:Hg; [|done]. injection H1 as <- <-. exists x, d'. split; [done|].
  apply bind_inv_ok in H as (cp & w2 & _ & H). apply bind_inv_ok in H as (kp & w3 & _ & H).
  unfold lift_result in H. injection H as Hb%map_err_ok _. unfold build_agent_server_config in Hb.
  apply and_then_ok in Hb as (roots & _ & Hb). apply and_then_ok in Hb as (ders & Hd & Hb).
  repeat (apply and_then_ok in Hb as (? & _ & Hb)). injection Hb as <-. cbn. intros pem der Hin Hder.
  eapply results_all_in; [exact Hd|]. apply list_elem_of_In, in_map_iff. exists pem. rewrite Hder. split; [done|by apply list_elem_of_In].
Qed.

(** The tables just before the acceptor is rebuilt. *)
Definition revoked_db (id : Uuid) (d : Db) : Db := set_db_certs (update_where (is_cert id) (revoke_row (db_now d)) (db_certs d)) d.

Lemma revoke_cert_run ca cfg auth id s c : healthy (cw_db (sv_world s)) -> is_admin (au_role auth) = true ->
  c ∈ db_certs (cw_db (sv_world s)) -> ct_id c = id ->
  exists rows n, let w := mkCaWorld (cw_disk (sv_world s)) (set_db_audit rows (set_db_audit_seq n (revoked_db id (cw_db (sv_world s))))) in
    revoke_cert ca cfg auth id s = (Ok 200%Z, final (swap_acceptor ca cfg) (mkServer w (sv_acceptor s))).
Proof.
  intros Hd Ha Hc Hid. unfold revoke_cert. unfold on_server_db at 1, require_admin_role, guard_or at 1. rewrite Ha.
  erewrite bind_ok by reflexivity. cbn [sv_world sv_acceptor cw_db cw_disk].
  erewrite bind_ok by (unfold on_server_db, execute_returning, query; cbn [sv_world cw_db]; rewrite Hd; reflexivity).
  assert (negb (length (List.filter (is_cert id) (db_certs (cw_db (sv_world s)))) =? 0)%nat = true) as Hl.
  { apply negb_true_iff, Nat.eqb_neq. intros H0%length_zero_iff_nil.
    assert (c ∈ List.filter (is_cert id) (db_certs (cw_db (sv_world s)))) as Hin.
    { apply list_elem_of_In, List.filter_In. split; [by apply list_elem_of_In|by apply bool_decide_eq_true_2]. }
    rewrite H0 in Hin. by apply not_elem_of_nil in Hin. }
  unfold guard_or. rewrite Hl. erewrite bind_ok by reflexivity. unfold on_server_db. cbn [sv_world sv_acceptor cw_db cw_disk].
  match goal with |- context [log_event ?e] =>
    destruct (log_healthy (E:=AppError) e (revoked_db id (cw_db (sv_world s))) Hd) as (rows & n & Hrun) end.
  exists rows, n. erewrite bind_ok by (cbn [sv_world cw_db]; unfold revoked_db in Hrun; rewrite Hrun; reflexivity).
  cbn [sv_world sv_acceptor cw_db cw_disk]. erewrite bind_ok; [reflexivity|].
  unfold final, swap_acceptor. cbn [sv_acceptor sv_world]. destruct (sv_acceptor s); [|done].
  by destruct (build_agent_tls_config _ _ _) as [[]].
Qed.

Lemma revoked_row_in id d c : c ∈ db_certs d -> ct_id c = id -> revoke_row (db_now d) c ∈ db_certs (revoked_db id d).
Proof.
  intros Hc Hid. cbn. apply list_elem_of_In, in_map_iff. exists c. unfold is_cert. rewrite bool_decide_eq_true_2 by done.
  split; [done|by apply list_elem_of_In].
Qed.

Lemma revoked_row_live now c : (now < ct_expires_at c)%Z -> revoked_live now (revoke_row now c) = true.
Proof. intros He. unfold revoked_live. cbn. by apply Z.ltb_lt. Qed.

(** The issuer under which a row's revocation is published. *)
Definition crl_issuer (ca : CertAuthority) (c : CertRow) : Issuer := if in_issuing_group ca c then ca_issuer ca else ca_root ca.

(** A list generated over a live revoked row has its serial in the CRL of its issuer. *)
Lemma generated_crls_name {HL : HexLaws} ca d crls d' c bytes : healthy d -> generate_crls ca d = (Ok crls, d') ->
  c ∈ db_certs d -> revoked_live (db_now d) c = true -> ct_serial_number c = hex_encode bytes ->
  exists pem q, pem ∈ crls /\ crl_signed_by q (crl_issuer ca c) = Ok pem /\
    exists e, e ∈ crl_revoked_certs q /\ rv_serial_number e = bytes.
Proof.
  intros Hd Hg Hc Hl Hs. destruct (generate_crls_ok ca d crls d' Hd Hg) as (rc & ic & -> & Hr & Hi & _).
  assert (exists e, revoked_entry (db_now d) c = Ok e /\ rv_serial_number e = bytes) as (e & He & Hb).
  { unfold revoked_entry. rewrite Hs, hex_no_space, hex_roundtrip. by eexists. }
  unfold crl_issuer. destruct (in_issuing_group ca c) eqn:Hgr.
  - destruct Hi as (es & Hes & Hm). assert (e ∈ es) as Hin by (apply Hes; eauto). destruct es as [|e0 es]; [by apply not_elem_of_nil in Hin|].
    destruct Hm as (pem & -> & Hp). eexists pem, _. split; [apply elem_of_app; right; left|]. split; [exact Hp|]. by exists e.
  - destruct Hr as (es & Hes & Hm). assert (e ∈ es) as Hin by (apply Hes; eauto). destruct es as [|e0 es]; [by apply not_elem_of_nil in Hin|].
    destruct Hm as (pem & -> & Hp). eexists pem, _. split; [apply elem_of_app; left; left|]. split; [exact Hp|]. by exists e.
Qed.

(** The certificate [sign_csr] yields. *)
Lemma sign_csr_inv ca csr host d signed d' : sign_csr ca csr host d = (Ok signed, d') ->
  exists req serial now, csr_from_pem csr = Ok req /\ sc_serial_hex signed = hex_encode (uuid_bytes serial) /\
    csr_signed_by req (mkLeafParams (uuid_to_string host) "Firewall Manager Agent" serial true true
      (now - DAY) (now + 365 * HOST_CERT_VALIDITY_YEARS * DAY)) (ca_issuer ca) = Ok (sc_cert_pem signed).
Proof.
  unfold sign_csr. intros H. apply bind_inv_ok in H as (req & d1 & H1 & H). unfold lift_result in H1. injection H1 as H1%map_err_ok <-.
  apply bind_inv_ok in H as (serial & d2 & _ & H). apply bind_inv_ok in H as (now & d3 & H3 & H). unfold gets in H3. injection H3 as <- <-.
  apply bind_inv_ok in H as (cert & d4 & H4 & H). unfold lift_result in H4. injection H4 as H4%map_err_ok <-. inv_ret H. eauto 10.
Qed.

Context {CL : CaLaws} {TL : TlsLaws}.

(** C23. A host's certificate is its identity: the listener takes a connection that
    presents a certificate signed at enrollment for a host, when it verifies it,
    as that host, and takes it as nobody else. *)
Theorem signed_cert_identifies_host {UTL : UuidTextLaws} ca csr host d signed d' leaf acceptor rest remote :
  sign_csr ca csr host d = (Ok signed, d') -> pem_to_der (sc_cert_pem signed) = Ok leaf ->
  accept_turn acceptor (Tcp (Some (leaf :: rest)) remote) =
    if client_verified (tc_roots acceptor) (tc_crls acceptor) (leaf :: rest) then Some (mkClient host remote) else None.
Proof.
  intros Hs Hl. destruct (sign_csr_inv _ _ _ _ _ _ Hs) as (req & serial & now & _ & _ & Hsign).
  destruct (leaf_subject _ _ _ _ _ Hsign Hl) as (c & Hc & Hcn). cbn. unfold parse_host_id. rewrite Hc, Hcn. cbn.
  by rewrite uuid_parse_to_string.
Qed.

(** C8. Revocation takes effect on the next connection: after an administrator
    revokes an unexpired host certificate that was signed by the CA whose list it
    now falls under (the name and the key of its signer are those of the root, or of
    the issuing CA, that signs the list it is put on; a certificate of an issuing CA
    that has since been replaced is not such a one), the running listener refuses
    every connection that presents it, unless the new TLS configuration could not be
    built, in which case the listener goes on with the old one. *)
Theorem revocation_takes_effect {HL : HexLaws} ca0 csr host d0 signed d1 leaf ca cfg auth c s old :
  sign_csr ca0 csr host d0 = (Ok signed, d1) -> pem_to_der (sc_cert_pem signed) = Ok leaf ->
  healthy (cw_db (sv_world s)) -> is_admin (au_role auth) = true -> sv_acceptor s = Some old ->
  c ∈ db_certs (cw_db (sv_world s)) -> ct_serial_number c = sc_serial_hex signed ->
  (db_now (cw_db (sv_world s)) < ct_expires_at c)%Z ->
  issuer_cn (ca_issuer ca0) = issuer_cn (crl_issuer ca c) -> issuer_key (ca_issuer ca0) = issuer_key (crl_issuer ca c) ->
  exists s', revoke_cert ca cfg auth (ct_id c) s = (Ok 200%Z, s') /\
    ((exists tls, sv_acceptor s' = Some tls /\ forall rest remote, accept_turn tls (Tcp (Some (leaf :: rest)) remote) = None) \/
     (exists e w, build_agent_tls_config ca cfg w = (Err e, sv_world s') /\ sv_acceptor s' = Some old)).
Proof.
  intros Hs Hl Hd Ha Hold Hc Hser Hexp Hcn Hkey. destruct (sign_csr_inv _ _ _ _ _ _ Hs) as (req & serial & now & _ & Hhex & Hsign).
  destruct (revoke_cert_run ca cfg auth (ct_id c) s c Hd Ha Hc eq_refl) as (rows & n & Hrun). eexists. split; [exact Hrun|].
  unfold final, swap_acceptor. cbn [sv_acceptor sv_world]. rewrite Hold. set (w := mkCaWorld _ _).
  destruct (build_agent_tls_config ca cfg w) as [[tls|e] w'] eqn:Hb; [left|right; exists e, w; done].
  exists tls. split; [done|]. intros rest remote. destruct (build_config_inv _ _ _ _ _ Hb) as (crls & d' & Hg & Hin).
  destruct (generated_crls_name ca (cw_db w) crls d' (revoke_row (db_now (cw_db (sv_world s))) c) (uuid_bytes serial))
    as (pem & q & Hpem & Hq & He); [exact Hd|exact Hg|by apply revoked_row_in|by apply revoked_row_live|cbn; congruence|].
  change (crl_issuer ca (revoke_row _ c)) with (crl_issuer ca c) in Hq.
  destruct (crl_names_serial _ _ _ _ _ _ _ _ Hsign Hl Hq Hcn Hkey He) as (der & Hder & Hn).
  cbn. by rewrite (verifier_honours_crls _ _ leaf rest der) by (try done; by eapply Hin).
Qed.
End revocation.

(** ** Revoking the root's row *)

Section root_row.
Context {SQL : Sql} {SHA : Sha256} {JS : SerdeJson} {UT : UuidText} {RFC : Rfc3339} {RC : Rcgen} {HX : Hex} {B64 : Base64}
  {X : X509} {TLS : Rustls} {SQLL : SqlLaws} {UTL : UuidTextLaws} {HL : HexLaws}.

(** A UUID's text is not hex. *)
Lemma uuid_serial_not_hex u : is_ok (hex_decode (trim (uuid_to_string u))) = false.
Proof.
  rewrite trim_nonblank; [apply hex_rejects_hyphen, uuid_to_string_hyphen|].
  eapply str_forallb_impl; [|apply (uuid_to_string_chars u)]. intros a H. by apply andb_true_iff in H as [H _].
Qed.

Lemma ensure_same_certs d0 ca cp kp sans : keeps (fun w => same_certs d0 (cw_db w)) (ensure_agent_listener_cert ca cp kp sans).
Proof.
  assert (forall E F A (f : E -> F) (m : M Disk E A), keeps (E:=F) (fun w : CaWorld => same_certs d0 (cw_db w))
    (fun w => let '(r, k) := m (cw_disk w) in (map_err f r, mkCaWorld k (cw_db w)))) as Hdisk.
  { intros E F A f m w Hw. unfold final. by destruct (m (cw_disk w)). }
  unfold ensure_agent_listener_cert. apply keeps_bind; [by intros w Hw|intros w0]. destruct (_ && _); [apply keeps_ret|].
  apply keeps_bind.
  { intros w Hw. unfold final, on_db_as. assert (same_certs d0 (snd (issue_server_cert ca sans (cw_db w)))) as Hi.
    - unfold issue_server_cert, mbind, M_bind, draw, lift_result, gets. repeat case_match; simplify_eq/=; exact Hw.
    - by destruct (issue_server_cert ca sans (cw_db w)). }
  intros cert. do 2 (apply keeps_bind; [apply Hdisk|intros _]). apply keeps_bind; [|intros _; apply keeps_ret].
  apply (keeps_ignore (E:=string)), Hdisk.
Qed.

(** A database with a live revoked row whose serial is a UUID's text. *)
Definition poisoned (d : Db) : Prop :=
  healthy d /\ exists c u, c ∈ db_certs d /\ revoked_live (db_now d) c = true /\ ct_serial_number c = uuid_to_string u.

Lemma poisoned_crls ca d : poisoned d -> exists msg, generate_crls ca d = (Err (CeRcgen msg), d).
Proof. intros (Hd & c & u & Hc & Hl & Hs). apply (crls_blocked ca d c Hd Hc Hl). rewrite Hs. apply uuid_serial_not_hex. Qed.

Lemma poisoned_config ca cfg w : poisoned (cw_db w) -> exists e, build_agent_tls_config ca cfg w = (Err e, w).
Proof.
  intros Hp. destruct (poisoned_crls ca _ Hp) as (msg & Hg). exists (TlsCa (CeRcgen msg)). unfold build_agent_tls_config.
  apply bind_err. unfold on_db_as. rewrite Hg. by destruct w.
Qed.

Lemma poisoned_start ca cfg sans w : poisoned (cw_db w) -> sans <> [] -> is_ok (outcome (start_acceptor ca cfg sans) w) = false.
Proof.
  intros (Hd & c & u & Hc & Hl & Hs) Hne. unfold outcome, start_acceptor. destruct sans as [|s sans]; [done|].
  pose proof (ensure_same_certs (cw_db w) ca (agent_tls_cert_path cfg) (agent_tls_key_path cfg) (s :: sans) w ltac:(done)) as (Hsc & Hsn & Hsf).
  unfold final in *. unfold mbind, M_bind, fail_as. destruct (ensure_agent_listener_cert _ _ _ _ w) as [[o|e] w1]; [|done]. cbn in Hsc, Hsn, Hsf |- *.
  destruct (poisoned_config ca cfg w1) as (e & ->); [|done]. split; [unfold healthy; by rewrite Hsf|].
  exists c, u. by rewrite Hsc, Hsn.
Qed.

(** Revoking the root's own row: its serial is stored as a UUID's text, which is
    not the hex the CRL needs. The request succeeds, but the listener keeps its old
    configuration, and from then on, until that row expires, no CRL is served and
    the server does not start with the agents' listener enabled. *)
Theorem root_revocation_disables ca cfg auth c u s :
  healthy (cw_db (sv_world s)) -> is_admin (au_role auth) = true -> c ∈ db_certs (cw_db (sv_world s)) ->
  ct_serial_number c = uuid_to_string u -> (db_now (cw_db (sv_world s)) < ct_expires_at c)%Z ->
  exists s', revoke_cert ca cfg auth (ct_id c) s = (Ok 200%Z, s') /\ sv_acceptor s' = sv_acceptor s /\
    forall w, healthy (cw_db w) -> db_certs (cw_db w) = db_certs (cw_db (sv_world s')) -> (db_now (cw_db w) < ct_expires_at c)%Z ->
      (forall ca' cfg' sans, sans <> [] -> is_ok (outcome (start_acceptor ca' cfg' sans) w) = false) /\
      (forall ca', outcome (get_crl_pem (E:=AppError) ca') (cw_db w) = Ok (500%Z, "Failed to generate CRL")).
Proof.
  intros Hd Ha Hc Hs He. destruct (revoke_cert_run ca cfg auth (ct_id c) s c Hd Ha Hc eq_refl) as (rows & n & Hrun).
  set (w1 := mkCaWorld _ _) in Hrun. set (rc := revoke_row (db_now (cw_db (sv_world s))) c).
  assert (rc ∈ db_certs (cw_db w1)) as Hin by by apply revoked_row_in.
  assert (poisoned (cw_db w1)) as Hp by (split; [exact Hd|]; exists rc, u; split_and!; [done|by apply revoked_row_live|done]).
  assert (final (swap_acceptor ca cfg) (mkServer w1 (sv_acceptor s)) = mkServer w1 (sv_acceptor s)) as Hsw.
  { unfold final, swap_acceptor. cbn [sv_acceptor sv_world]. destruct (poisoned_config ca cfg w1 Hp) as (e & ->). by destruct (sv_acceptor s). }
  exists (mkServer w1 (sv_acceptor s)). rewrite <- Hsw at 1. split; [exact Hrun|]. split; [done|].
  intros w Hw Hcs Hn. assert (poisoned (cw_db w)) as Hpw.
  { split; [done|]. exists rc, u. rewrite Hcs. split_and!; [done| |done]. unfold revoked_live. cbn. by apply Z.ltb_lt. }
  split; [intros; by apply poisoned_start|]. intros ca'. destruct (poisoned_crls ca' _ Hpw) as (msg & Hg).
  unfold outcome, get_crl_pem. erewrite bind_ok by (unfold attempt; rewrite Hg; reflexivity). done.
Qed.
End root_row.

(** ** Concrete certificates, for the witnesses *)

(** A leaf is its subject, serial, issuer name and issuer key; a CRL its issuer's
    name and key and the serials. As PEM they are one line of text. *)
Notation tls_leaf := (string * string * string * N)%type.
Notation tls_crl := (string * N * list string)%type.
Definition one_line (s : string) : string := s +:+ newline.

Definition tls_rcgen : Rcgen := {|
  KeyPair := N; Issuer := string * N; Csr := string;
  key_generate n := Ok n;
  key_from_pem s := ok_or (of_text s) "not a key";
  key_serialize_pem k := to_text (k : N);
  key_spki k := to_text (k : N);
  ca_self_signed p k := Ok (cp_common_name p +:+ to_text (k : N));
  issuer_new p k := (cp_common_name p, k);
  issuer_from_ca_cert_pem pem k := Ok ("sub", k);
  csr_from_pem s := Ok s;
  csr_signed_by csr p i := Ok (one_line (to_text ((lp_common_name p, uuid_bytes (lp_serial p), i.1, i.2) : tls_leaf)));
  dns_names_ok _ := Ok tt;
  server_signed_by p k i :=
    Ok (to_text ((sp_dns_names p, map ip_code (sp_ip_addresses p), i.1, (sp_not_after p / SECOND)%Z) : toy_cert));
  crl_signed_by p i := Ok (one_line (to_text ((i.1, i.2, map rv_serial_number (crl_revoked_certs p)) : tls_crl)))
|}.
Definition tls_x509 : X509 := {|
  x509_from_der s := match (of_text s : option tls_leaf) with
    | Some (cn, serial, issuer, _) => Ok (mkX509 issuer cn [Some issuer] [Some cn] 0 0 false None "" serial None)
    | None => Err "not a certificate"
    end;
  x509_from_pem := @x509_from_pem toy_x509;
  x509_time_text := pretty
|}.
Definition crl_matches (crl leaf : string) : bool :=
  match (of_text crl : option tls_crl), (of_text leaf : option tls_leaf) with
  | Some (cn, k, serials), Some (_, serial, cn', k') => bool_decide (cn = cn') && bool_decide (k = k') && existsb (String.eqb serial) serials
  | _, _ => false
  end.
Definition tls_rustls : Rustls := {|
  pemfile_certs s := [Ok s]; pemfile_private_key s := Ok (Some s); root_store_check _ := Ok tt; verifier_check _ _ := Ok tt;
  single_cert_check _ _ := Ok tt;
  client_verified _ crls chain := match chain with leaf :: _ => negb (existsb (fun c => crl_matches c leaf) crls) | [] => false end
|}.

Definition tls_ca_laws : @CaLaws tls_rcgen tls_x509.
Proof.
  refine {| issuer_cn := (fst : @Issuer tls_rcgen -> string) |}; [|done|].
  - intros k. simpl. by rewrite of_to_text.
  - intros p k i pem H Hne. injection H as <-.
    eexists. split; [simpl; by rewrite of_to_text|]. split_and!; [|done|done]. simpl. do 2 f_equal.
    rewrite map_map. apply map_ext. by intros [].
Defined.

Lemma pos_bits_chars p : str_forallb (fun c => bool_decide (c = "0"%char \/ c = "1"%char \/ c = "."%char)) (pos_bits p) = true.
Proof. induction p; simpl; by rewrite ?IHp. Qed.

Lemma pem_to_der_line {A} `{Countable A} (a : A) : @pem_to_der toy_base64 (one_line (to_text a)) = Ok (to_text a).
Proof.
  unfold pem_to_der, one_line. pose proof (pos_bits_chars (encode a)) as Hc. fold (to_text a) in Hc.
  assert (lines (to_text a +:+ newline) = [to_text a]) as ->.
  { apply (lines_line (to_text a) ""). eapply str_forallb_impl; [|exact Hc]. intros c [->|[->| ->]]%bool_decide_eq_true; done. }
  assert (starts_with "-----" (to_text a) = false) as Hs by (unfold to_text; by destruct (encode a)).
  cbn [List.filter]. rewrite Hs. cbn [negb str_concat]. rewrite str_app_nil_r. rewrite trim_nonblank; [done|].
  eapply str_forallb_impl; [|exact Hc]. intros c [->|[->| ->]]%bool_decide_eq_true; done.
Qed.

Definition tls_laws : @TlsLaws tls_rcgen toy_base64 tls_x509 tls_rustls tls_ca_laws.
Proof.
  refine {| issuer_key := (snd : @Issuer tls_rcgen -> @KeyPair tls_rcgen); crl_names := crl_matches |}.
  - intros csr p i pem der H Hd. injection H as <-. rewrite pem_to_der_line in Hd. injection Hd as <-. cbn. rewrite of_to_text. by eexists.
  - intros csr p i pem leaf q j crl H Hd Hq Hcn Hk (e & He & Hs). injection H as <-. rewrite pem_to_der_line in Hd. injection Hd as <-.
    injection Hq as <-. eexists. split; [apply pem_to_der_line|]. unfold crl_matches. rewrite !of_to_text. cbn in Hcn, Hk |- *.
    rewrite !bool_decide_eq_true_2 by done. cbn. apply existsb_exists. exists (rv_serial_number e). split; [by apply in_map, list_elem_of_In|].
    rewrite Hs. apply String.eqb_refl.
  - intros roots crls leaf rest crl Hin Hn. cbn. apply negb_false_iff, existsb_exists. exists crl. split; [by apply list_elem_of_In|done].
Defined.

(** ** Examples *)

Definition tls_ca : @CertAuthority tls_rcgen := mkCa "/ca" ((ROOT_SUBJECT_CN, 1%N) : @Issuer tls_rcgen) "root" None.
Definition tls_admin : AuthUser := mkAuthUser (uuid_of 1) "root" Admin (mkClaims "" 0 0 "" "" "") None.
Definition tls_paths : TlsPaths := mkPaths "/agent.pem" "/agent.key" "/chain.pem" "/chain.key".
Definition blank_ca_world : CaWorld := mkCaWorld (mkDisk ∅ ∅) empty_db.
Notation tls_ensure := (@ensure_agent_listener_cert tls_rcgen tls_x509 tls_ca "/agent.pem" "/agent.key").

Lemma tls_ensure_issues sans : outcome (tls_ensure sans) blank_ca_world = Ok Issued.
Proof. reflexivity. Qed.

Lemma listener_cert_reused_iff_witness :
  let restart sans := let w1 := final (tls_ensure sans) blank_ca_world in tls_ensure sans w1 = (Ok Reused, w1) in
  restart ["fwm.test"; "10.0.0.5"] /\ ~ restart ["10.0.0.5"; "fwm.test"].
Proof.
  assert (forall sans, sans <> [] -> let w1 := final (tls_ensure sans) blank_ca_world in
    tls_ensure sans w1 = (Ok Reused, w1) <-> issued_sans sans = canonical_sans sans) as H.
  { intros sans Hs w1. replace w1 with (mkCaWorld (cw_disk w1) (cw_db w1)) at 1 2 by by destruct w1.
    apply (@listener_cert_reused_iff tls_rcgen tls_x509 tls_ca_laws tls_ca "/agent.pem" "/agent.key" sans blank_ca_world w1 (cw_db w1));
      [reflexivity|discriminate|done|reflexivity|discriminate|reflexivity]. }
  cbv zeta. rewrite !H by done. split; [reflexivity|discriminate].
Defined.

(** A host's certificate, its row, and a server with its listener running. *)
Definition tls_sign : result SignedCert CertError * Db := @sign_csr toy_uuid_text tls_rcgen toy_hex tls_ca "csr" (uuid_of 5) empty_db.
Definition tls_signed : SignedCert := match fst tls_sign with Ok s => s | Err _ => mkSigned "" "" [] None end.
Definition tls_leaf_der : string := match @pem_to_der toy_base64 (sc_cert_pem tls_signed) with Ok der => der | Err _ => "" end.
Definition leaf_row : CertRow :=
  mkCert (uuid_of 9) (Some (uuid_of 5)) (sc_serial_hex tls_signed) "" CertActive 0 DAY None (sc_cert_pem tls_signed) "leaf" None None.
Definition no_crls : TlsConfig := mkTls ["root"] [] ["cert"] "key".
Definition running (c : CertRow) : Server :=
  mkServer (mkCaWorld (mkDisk {["/agent.pem" := mkFile "cert" 420; "/agent.key" := mkFile "key" 384]} ∅) (set_db_certs [c] empty_db))
    (Some no_crls).
Notation tls_revoke := (@revoke_cert toy_sql toy_sha256 toy_serde toy_uuid_text toy_rfc3339 tls_rcgen toy_hex toy_base64 tls_rustls tls_ca
  tls_paths tls_admin).
Notation tls_accept := (@accept_turn toy_uuid_text tls_x509 tls_rustls).

Lemma signed_cert_identifies_host_witness :
  tls_accept no_crls (Tcp (Some [tls_leaf_der]) "10.0.0.9") = Some (mkClient (uuid_of 5) "10.0.0.9").
Proof.
  refine (eq_trans (@signed_cert_identifies_host toy_uuid_text tls_rcgen toy_hex toy_base64 tls_x509 tls_rustls tls_ca_laws tls_laws
    toy_uuid_text_laws tls_ca "csr" (uuid_of 5) empty_db tls_signed (snd tls_sign) tls_leaf_der no_crls [] "10.0.0.9" _ _) _);
    vm_compute; reflexivity.
Defined.

Lemma revocation_takes_effect_witness :
  exists s', tls_revoke (uuid_of 9) (running leaf_row) = (Ok 200%Z, s') /\
    exists tls, sv_acceptor s' = Some tls /\ forall rest remote, tls_accept tls (Tcp (Some (tls_leaf_der :: rest)) remote) = None.
Proof.
  destruct (@revocation_takes_effect toy_sql toy_sha256 toy_serde toy_uuid_text toy_rfc3339 tls_rcgen toy_hex toy_base64 tls_x509 tls_rustls
    toy_sql_laws tls_ca_laws tls_laws toy_hex_laws tls_ca "csr" (uuid_of 5) empty_db tls_signed (snd tls_sign) tls_leaf_der
    tls_ca tls_paths tls_admin leaf_row (running leaf_row) no_crls) as (s' & Hrun & Hs');
    [vm_compute; reflexivity|vm_compute; reflexivity|reflexivity|reflexivity|reflexivity|left|reflexivity|reflexivity|reflexivity|reflexivity|].
  exists s'. split; [exact Hrun|]. destruct Hs' as [H|(e & w & _ & Hold)]; [exact H|exfalso].
  assert (match sv_acceptor (snd (tls_revoke (uuid_of 9) (running leaf_row))) with Some tls => tc_crls tls | None => [] end <> []) as Hne
    by (vm_compute; discriminate).
  change (ct_id leaf_row) with (uuid_of 9) in Hrun. rewrite Hrun in Hne. cbn [snd] in Hne. by rewrite Hold in Hne.
Defined.

(** The root's row as the first start writes it. *)
Definition root_row_example : CertRow := root_cert_row (uuid_of 3) (@uuid_to_string toy_uuid_text (uuid_of 2)) "root" 0.

Lemma root_revocation_disables_witness :
  exists s', tls_revoke (uuid_of 3) (running root_row_example) = (Ok 200%Z, s') /\ sv_acceptor s' = Some no_crls /\
    outcome (@get_crl_pem toy_sql tls_rcgen toy_hex AppError tls_ca) (cw_db (sv_world s')) = Ok (500%Z, "Failed to generate CRL").
Proof.
  destruct (@root_revocation_disables toy_sql toy_sha256 toy_serde toy_uuid_text toy_rfc3339 tls_rcgen toy_hex toy_base64 tls_x509 tls_rustls
    toy_sql_laws toy_uuid_text_laws toy_hex_laws tls_ca tls_paths tls_admin root_row_example (uuid_of 2) (running root_row_example))
    as (s' & Hrun & Ha & H); [reflexivity|reflexivity|left|reflexivity|reflexivity|].
  exists s'. split; [exact Hrun|]. split; [exact Ha|].
  assert (healthy (cw_db (sv_world (snd (tls_revoke (uuid_of 3) (running root_row_example)))))) as Hh by (vm_compute; reflexivity).
  change (ct_id root_row_example) with (uuid_of 3) in Hrun. rewrite Hrun in Hh.
  assert (db_now (cw_db (sv_world (snd (tls_revoke (uuid_of 3) (running root_row_example))))) = 0%Z) as Hn by (vm_compute; reflexivity).
  rewrite Hrun in Hn. cbn [snd] in Hh, Hn. apply H; [exact Hh|reflexivity|rewrite Hn; reflexivity].
Defined.
