(* ===== verification/AppConfig.v ===== *)
(** * AppConfig: the manager's configuration

    [crates/fw-core/src/config.rs]: the sections, their defaults and [AppConfig::load].
    Reading the file and the environment into one tree, and the text forms the
    [config] crate accepts for a value, are parameters. With it, what [main.rs] and
    [build_router] take from the configuration when the server starts. *)

From S2P Require Import Prelude Text Models Net Wire WireJson Db AuditLog Auth Ca CaToy CaFacts Listener ListenerFacts.

(** ** Sections *)

Record DatabaseConfig := mkDatabaseConfig { dbc_url : string }.
Record WebServerConfig := mkWebServerConfig { ws_host : string; ws_port : Z; ws_agent_port : Z; ws_static_dir : string }.
Record SecurityConfig := mkSecurityConfig {
  sec_ip_whitelist : list string; sec_jwt_signing_key_path : string; sec_jwt_verify_key_path : string; sec_trusted_proxies : list string;
  sec_allowed_origins : list string; sec_web_tls_cert_path : string; sec_web_tls_key_path : string; sec_agent_tls_cert_path : string;
  sec_agent_tls_key_path : string; sec_agent_tls_sans : list string; sec_ca_issuing_chain_path : string; sec_ca_issuing_key_path : string
}.
Record WorkerConfig := mkWorkerConfig { wc_health_poll_interval_secs : Z; wc_drift_poll_interval_secs : Z }.
Record RateLimitConfig := mkRateLimitConfig { rl_enrollment_burst : Z; rl_auth_burst : Z; rl_api_burst : Z }.
Record AppConfig := mkAppConfig {
  app_database : DatabaseConfig; app_server : WebServerConfig; app_security : SecurityConfig; app_worker : WorkerConfig;
  app_rate_limit : RateLimitConfig
}.

Definition default_static_dir : string := "/usr/share/firewall-manager/frontend".
Definition default_agent_port : Z := 8443.
Definition default_web_tls_cert_path : string := "/etc/firewall-manager/tls/cert.pem".
Definition default_web_tls_key_path : string := "/etc/firewall-manager/tls/key.pem".
Definition default_agent_tls_cert_path : string := "/etc/firewall-manager/tls/agent-cert.pem".
Definition default_agent_tls_key_path : string := "/etc/firewall-manager/tls/agent-key.pem".
Definition default_agent_tls_sans : list string := ["localhost"; "127.0.0.1"].
Definition default_ca_issuing_chain_path : string := "/etc/firewall-manager/ca/issuing/chain.pem".
Definition default_ca_issuing_key_path : string := "/etc/firewall-manager/ca/issuing/key.pem".
Definition default_health_poll : Z := 300.
Definition default_drift_poll : Z := 900.
Definition default_enrollment_burst : Z := 3.
Definition default_auth_burst : Z := 10.
Definition default_api_burst : Z := 30.

(** ** Reading *)

(** The [config] crate: the tree of the file with the environment over it, and a
    value as text, as an unsigned integer of a width, or as a list of texts. *)
Class ConfigLib := {
  cfg_build : string -> list (string * string) -> result Json string;
  cfg_str : Json -> option string;
  cfg_uint : Z -> Json -> option Z;
  cfg_strings : Json -> option (list string);
  cfg_error : Json -> string
}.
Class ConfigLaws `{!ConfigLib} := {
  cfg_str_text : forall s, cfg_str (JStr s) = Some s;
  cfg_uint_number : forall bits n, (0 <= n < 2 ^ bits)%Z -> cfg_uint bits (JNum n) = Some n;
  cfg_uint_range : forall bits j n, cfg_uint bits j = Some n -> (0 <= n < 2 ^ bits)%Z
}.

Section config.
Context {CFG : ConfigLib}.

Definition de_table {A} (f : list (string * Json) -> option A) (j : Json) : option A := match j with JObj fs => f fs | _ => None end.

Definition de_database (fs : list (string * Json)) : option DatabaseConfig := mkDatabaseConfig <$> de_field cfg_str "url" fs.

Definition de_server (fs : list (string * Json)) : option WebServerConfig :=
  host ← de_field cfg_str "host" fs; port ← de_field (cfg_uint 16) "port" fs;
  agent_port ← de_default_field (cfg_uint 16) default_agent_port "agent_port" fs;
  static_dir ← de_default_field cfg_str default_static_dir "static_dir" fs;
  Some (mkWebServerConfig host port agent_port static_dir).

Definition de_security (fs : list (string * Json)) : option SecurityConfig :=
  whitelist ← de_default_field cfg_strings [] "ip_whitelist" fs;
  signing ← de_field cfg_str "jwt_signing_key_path" fs; verify ← de_field cfg_str "jwt_verify_key_path" fs;
  proxies ← de_default_field cfg_strings [] "trusted_proxies" fs; origins ← de_default_field cfg_strings [] "allowed_origins" fs;
  web_cert ← de_default_field cfg_str default_web_tls_cert_path "web_tls_cert_path" fs;
  web_key ← de_default_field cfg_str default_web_tls_key_path "web_tls_key_path" fs;
  agent_cert ← de_default_field cfg_str default_agent_tls_cert_path "agent_tls_cert_path" fs;
  agent_key ← de_default_field cfg_str default_agent_tls_key_path "agent_tls_key_path" fs;
  sans ← de_default_field cfg_strings default_agent_tls_sans "agent_tls_sans" fs;
  chain ← de_default_field cfg_str default_ca_issuing_chain_path "ca_issuing_chain_path" fs;
  key ← de_default_field cfg_str default_ca_issuing_key_path "ca_issuing_key_path" fs;
  Some (mkSecurityConfig whitelist signing verify proxies origins web_cert web_key agent_cert agent_key sans chain key).

Definition de_worker (fs : list (string * Json)) : option WorkerConfig :=
  health ← de_default_field (cfg_uint 64) default_health_poll "health_poll_interval_secs" fs;
  drift ← de_default_field (cfg_uint 64) default_drift_poll "drift_poll_interval_secs" fs;
  Some (mkWorkerConfig health drift).

Definition de_rate_limit (fs : list (string * Json)) : option RateLimitConfig :=
  enrollment ← de_default_field (cfg_uint 32) default_enrollment_burst "enrollment_burst" fs;
  auth ← de_default_field (cfg_uint 32) default_auth_burst "auth_burst" fs;
  api ← de_default_field (cfg_uint 32) default_api_burst "api_burst" fs;
  Some (mkRateLimitConfig enrollment auth api).

Definition de_app_config : Json -> option AppConfig := de_table (fun fs =>
  database ← de_field (de_table de_database) "database" fs; server ← de_field (de_table de_server) "server" fs;
  security ← de_field (de_table de_security) "security" fs; worker ← de_field (de_table de_worker) "worker" fs;
  rate_limit ← de_field (de_table de_rate_limit) "rate_limit" fs;
  Some (mkAppConfig database server security worker rate_limit)).

Definition env_var (env : list (string * string)) (name : string) : option string := snd <$> List.find (fun x => bool_decide (x.1 = name)) env.

Definition AppConfig_load (env : list (string * string)) : result AppConfig AppError :=
  let config_path := default "/etc/firewall-manager/config.toml" (env_var env "FIREWALL_MANAGER_CONFIG") in
  match cfg_build config_path env with
  | Err e => Err (Config e)
  | Ok tree => match de_app_config tree with Some c => Ok c | None => Err (Config (cfg_error tree)) end
  end.

(** ** What the server takes from it *)

(** The allowed addresses and proxies of the process, with the database for revocation. *)
Definition auth_config_of `{!IpNetLib} (verify_key : string) (c : AppConfig) : AuthConfig :=
  AuthConfig_new verify_key (sec_ip_whitelist (app_security c)) (sec_trusted_proxies (app_security c)) true.

Definition tls_paths_of (c : AppConfig) : TlsPaths :=
  mkPaths (sec_agent_tls_cert_path (app_security c)) (sec_agent_tls_key_path (app_security c))
    (sec_ca_issuing_chain_path (app_security c)) (sec_ca_issuing_key_path (app_security c)).

(** The governors of [build_router]: a period in milliseconds and a burst; a zero
    burst has no configuration, and [expect] ends the process ([None]). *)
Definition governor (period_ms burst : Z) : option (Z * Z) := if (burst =? 0)%Z then None else Some (period_ms, burst).
Definition governors (c : AppConfig) : option (list (string * (Z * Z))) :=
  let rl := app_rate_limit c in
  e ← governor 12000 (rl_enrollment_burst rl); a ← governor 3000 (rl_auth_burst rl); p ← governor 500 (rl_api_burst rl);
  Some [("enrollment", e); ("auth", a); ("api", p)].
End config.

(** ** Theorems *)

Section facts.
Context {CFG : ConfigLib} {CL : ConfigLaws}.

Definition u_fits (bits n : Z) : Prop := (0 <= n < 2 ^ bits)%Z.
Definition config_typed (c : AppConfig) : Prop :=
  u_fits 16 (ws_port (app_server c)) /\ u_fits 16 (ws_agent_port (app_server c)) /\
  u_fits 64 (wc_health_poll_interval_secs (app_worker c)) /\ u_fits 64 (wc_drift_poll_interval_secs (app_worker c)) /\
  u_fits 32 (rl_enrollment_burst (app_rate_limit c)) /\ u_fits 32 (rl_auth_burst (app_rate_limit c)) /\ u_fits 32 (rl_api_burst (app_rate_limit c)).

Lemma uint_field bits k fs n : de_field (cfg_uint bits) k fs = Some n -> u_fits bits n.
Proof. unfold de_field. destruct (lookup_field k fs) as [[j|]|]; cbn; try done. apply cfg_uint_range. Qed.

Lemma uint_default_field bits d k fs n : u_fits bits d -> de_default_field (cfg_uint bits) d k fs = Some n -> u_fits bits n.
Proof. intros Hd. unfold de_default_field. destruct (lookup_field k fs) as [[j|]|]; cbn; [apply cfg_uint_range|by intros [= <-]|done]. Qed.

Lemma de_table_field {A} (f : list (string * Json) -> option A) k fs a :
  de_field (de_table f) k fs = Some a -> exists fs', lookup_field k fs = Some (Some (JObj fs')) /\ f fs' = Some a.
Proof. unfold de_field. destruct (lookup_field k fs) as [[[]|]|]; cbn; try done. eauto. Qed.

(** One field of a section in a hypothesis. *)
Ltac next_field H := let x := fresh "x" in let Hx := fresh "Hx" in apply bind_Some in H as (x & Hx & H).

Lemma de_app_config_typed j c : de_app_config j = Some c -> config_typed c.
Proof.
  unfold de_app_config, de_table. destruct j as [| | | | |fs]; try done. intros H. do 5 next_field H. injection H as <-.
  apply de_table_field in Hx0 as (ss & _ & Hs). apply de_table_field in Hx2 as (ws & _ & Hw). apply de_table_field in Hx3 as (rs & _ & Hr).
  unfold de_server in Hs. do 4 next_field Hs. injection Hs as <-. unfold de_worker in Hw. do 2 next_field Hw. injection Hw as <-.
  unfold de_rate_limit in Hr. do 3 next_field Hr. injection Hr as <-.
  split_and!; cbn; try (by eapply uint_field); eapply uint_default_field; try eassumption; unfold u_fits; vm_compute; split; (discriminate || reflexivity).
Qed.

(** Nothing but numbers of their types gets into a configuration: whatever the file
    and the environment hold, if the manager loads them, its ports are [u16]s, its
    polling intervals [u64]s and its bursts [u32]s. *)
Lemma load_typed env c : AppConfig_load env = Ok c -> config_typed c.
Proof.
  unfold AppConfig_load. destruct (cfg_build _ _) as [j|e]; [|done]. destruct (de_app_config j) as [c'|] eqn:Hc; [|done]. intros [= <-].
  by eapply de_app_config_typed.
Qed.

(** The least a configuration file must have. *)
Definition minimal_tree (url host : string) (port : Z) (signing verify : string) : Json := JObj [
  ("database", JObj [("url", JStr url)]); ("server", JObj [("host", JStr host); ("port", JNum port)]);
  ("security", JObj [("jwt_signing_key_path", JStr signing); ("jwt_verify_key_path", JStr verify)]);
  ("worker", JObj []); ("rate_limit", JObj [])].
Definition minimal_config (url host : string) (port : Z) (signing verify : string) : AppConfig := mkAppConfig
  (mkDatabaseConfig url) (mkWebServerConfig host port 8443 "/usr/share/firewall-manager/frontend")
  (mkSecurityConfig [] signing verify [] [] "/etc/firewall-manager/tls/cert.pem" "/etc/firewall-manager/tls/key.pem"
     "/etc/firewall-manager/tls/agent-cert.pem" "/etc/firewall-manager/tls/agent-key.pem" ["localhost"; "127.0.0.1"]
     "/etc/firewall-manager/ca/issuing/chain.pem" "/etc/firewall-manager/ca/issuing/key.pem")
  (mkWorkerConfig 300 900) (mkRateLimitConfig 3 10 30).

Lemma absent_default {A} (de : Json -> option A) d k fs : lookup_field k fs = Some None -> de_default_field de d k fs = Some d.
Proof. intros H. unfold de_default_field. by rewrite H. Qed.

(** A field that is there, as text or number, or is absent. *)
Ltac read_present :=
  match goal with
  | |- mbind _ (de_field ?de ?k ?fs) = _ => erewrite (de_field_at de k fs) by reflexivity
  | |- mbind _ (de_default_field ?de ?d ?k ?fs) = _ => rewrite (absent_default de d k fs) by reflexivity
  end; cbn [snd]; rewrite ?cfg_str_text; cbn [mbind option_bind fmap option_fmap option_map].

Lemma minimal_database url : de_database [("url", JStr url)] = Some (mkDatabaseConfig url).
Proof. unfold de_database. erewrite de_field_at by reflexivity. cbn [snd]. by rewrite cfg_str_text. Qed.

Lemma minimal_server host port : u_fits 16 port -> de_server [("host", JStr host); ("port", JNum port)] =
  Some (mkWebServerConfig host port default_agent_port default_static_dir).
Proof. intros Hp. unfold de_server. do 2 read_present. rewrite cfg_uint_number by exact Hp. cbn [mbind option_bind]. by do 2 read_present. Qed.

Lemma minimal_security signing verify :
  de_security [("jwt_signing_key_path", JStr signing); ("jwt_verify_key_path", JStr verify)] = Some (app_security (minimal_config "" "" 0 signing verify)).
Proof. unfold de_security. by do 12 read_present. Qed.

Lemma minimal_tree_read url host port signing verify : u_fits 16 port ->
  de_app_config (minimal_tree url host port signing verify) = Some (minimal_config url host port signing verify).
Proof.
  intros Hp. unfold de_app_config, minimal_tree. cbn [de_table].
  read_present. cbn [de_table]. rewrite minimal_database. cbn [mbind option_bind]. read_present. cbn [de_table]. rewrite minimal_server by done.
  cbn [mbind option_bind]. read_present. cbn [de_table]. rewrite minimal_security. cbn [mbind option_bind]. read_present. cbn [de_table].
  change (de_worker []) with (Some (mkWorkerConfig 300 900)). cbn [mbind option_bind]. read_present. reflexivity.
Qed.

Context {RC : Rcgen} {X : X509} {LAWS : CaLaws}.

(** A minimal configuration is enough: from a file with just the database, the
    address, the port and the key paths, the manager reads the documented defaults,
    its three rate limiters can be built, the agent listener is enabled, and the
    listener's certificate, once issued for the default names, is kept by every
    start more than 30 days before its expiry. *)
Theorem minimal_config_serves env tree url host port signing verify :
  let path := default "/etc/firewall-manager/config.toml" (env_var env "FIREWALL_MANAGER_CONFIG") in
  cfg_build path env = Ok tree -> tree = minimal_tree url host port signing verify -> u_fits 16 port ->
  exists c, AppConfig_load env = Ok c /\ c = minimal_config url host port signing verify /\
    governors c = Some [("enrollment", (12000, 3)%Z); ("auth", (3000, 10)%Z); ("api", (500, 30)%Z)] /\
    let paths := tls_paths_of c in let sans := sec_agent_tls_sans (app_security c) in
    forall ca w w1 d, ca_named ca ->
      ensure_agent_listener_cert ca (agent_tls_cert_path paths) (agent_tls_key_path paths) sans w = (Ok Issued, w1) ->
      (0 <= db_now d)%Z -> (db_now d / SECOND + 30 * 86400 < (db_now (cw_db w) + 365 * DAY) / SECOND)%Z ->
      ensure_agent_listener_cert ca (agent_tls_cert_path paths) (agent_tls_key_path paths) sans (mkCaWorld (cw_disk w1) d) =
        (Ok Reused, mkCaWorld (cw_disk w1) d).
Proof.
  intros path Hb -> Hp. exists (minimal_config url host port signing verify). split_and!.
  - unfold AppConfig_load. fold path. by rewrite Hb, minimal_tree_read.
  - done.
  - done.
  - intros paths sans ca w w1 d Hca Hi Hn He. refine (proj2 (listener_cert_reused_iff ca _ _ _ w w1 d Hca _ _ Hi Hn He) _); vm_compute; (discriminate || reflexivity).
Qed.
End facts.

(** ** Witness *)

Definition toy_config_lib : ConfigLib := {|
  cfg_build path env := if bool_decide (path = "/etc/firewall-manager/config.toml")
    then Ok (minimal_tree "postgres://db" "192.0.2.9" 443 "/jwt/signing.pem" "/jwt/verify.pem") else Err "no such file";
  cfg_str j := match j with JStr s => Some s | _ => None end;
  cfg_uint bits j := match j with JNum n => if (0 <=? n)%Z && (n <? 2 ^ bits)%Z then Some n else None | _ => None end;
  cfg_strings j := match j with JArr l => mapM (fun j => match j with JStr s => Some s | _ => None end) l | _ => None end;
  cfg_error _ := "missing field"
|}.
Lemma toy_config_laws : @ConfigLaws toy_config_lib.
Proof.
  split; [done|..]; cbn.
  - intros bits n [H1 H2]. by rewrite (proj2 (Z.leb_le _ _) H1), (proj2 (Z.ltb_lt _ _) H2).
  - intros bits j n. destruct j; try done. destruct (_ && _) eqn:H; [|done]. intros [= <-]. apply andb_true_iff in H as [H1%Z.leb_le H2%Z.ltb_lt]. done.
Qed.

Lemma minimal_config_serves_witness :
  exists c, @AppConfig_load toy_config_lib [("LANG", "C")] = Ok c /\ ws_agent_port (app_server c) = 8443%Z /\
    governors c = Some [("enrollment", (12000, 3)%Z); ("auth", (3000, 10)%Z); ("api", (500, 30)%Z)] /\
    let w1 := final (@ensure_agent_listener_cert tls_rcgen tls_x509 tls_ca (sec_agent_tls_cert_path (app_security c))
      (sec_agent_tls_key_path (app_security c)) (sec_agent_tls_sans (app_security c))) blank_ca_world in
    @ensure_agent_listener_cert tls_rcgen tls_x509 tls_ca (sec_agent_tls_cert_path (app_security c))
      (sec_agent_tls_key_path (app_security c)) (sec_agent_tls_sans (app_security c)) (mkCaWorld (cw_disk w1) (cw_db w1)) =
      (Ok Reused, mkCaWorld (cw_disk w1) (cw_db w1)).
Proof.
  destruct (@minimal_config_serves toy_config_lib toy_config_laws tls_rcgen tls_x509 tls_ca_laws [("LANG", "C")] _
    "postgres://db" "192.0.2.9" 443 "/jwt/signing.pem" "/jwt/verify.pem" eq_refl eq_refl) as (c & Hl & Hc & Hg & Hk).
  { unfold u_fits. vm_compute. split; [discriminate|reflexivity]. }
  exists c. split_and!; [exact Hl|by rewrite Hc|exact Hg|]. subst c. intros w1.
  apply (Hk tls_ca blank_ca_world w1 (cw_db w1)); [reflexivity|reflexivity|vm_compute; discriminate|vm_compute; reflexivity].
Defined.
