(* ===== verification/Login.v ===== *)
(** * Login: passwords, sessions and accounts

    [crates/fw-auth/src/password.rs], [issue_access_token] of [jwt.rs] and the
    handlers of [crates/fw-web/src/routes/auth.rs]: login with its lockout,
    refresh, logout and password change, with [bootstrap_admin_password] of
    [lib.rs]. Argon2 is a parameter ([Argon2]), as are the Unicode tables. *)

From S2P Require Import Prelude Text Models Net Db AuditLog Auth PolicyAdmin Ca.

(** ** Passwords *)

(** The [argon2] crate: hashing with a random salt, given by its draw, and
    verification against a stored hash. *)
Class Argon2 := {
  argon2_hash : N -> string -> result string string;
  argon2_verify : string -> string -> result bool string
}.

(** A hash verifies its password and contains its salt. *)
Class Argon2Laws `{!Argon2} := {
  argon2_verify_hash : forall n p h, argon2_hash n p = Ok h -> argon2_verify p h = Ok true;
  argon2_salted : forall n p m q h, argon2_hash n p = Ok h -> argon2_hash m q = Ok h -> n = m
}.

(** The character classes of Unicode, for the characters that are not ASCII. *)
Class Unicode := { uni_uppercase : string -> bool; uni_lowercase : string -> bool }.

Definition ascii_in (lo hi : nat) (c : ascii) : bool := ((lo <=? nat_of_ascii c) && (nat_of_ascii c <=? hi))%nat.
Definition is_continuation (c : ascii) : bool := ascii_in 128 191 c.

(** [s.chars()]: the UTF-8 sequence of each character. *)
Fixpoint chars (s : string) : list string :=
  match s with
  | "" => []
  | String c s' =>
      match chars s' with
      | w :: ws => if match w with String d _ => is_continuation d | "" => false end
                   then String c w :: ws else String c "" :: w :: ws
      | [] => [String c ""]
      end
  end.

(** The class of a one-byte character, and of the others. *)
Definition char_test (f : ascii -> bool) (g : string -> bool) (w : string) : bool :=
  match w with String c "" => f c | _ => g w end.

Inductive PasswordError := PwHash (msg : string) | PwVerify (msg : string) | PwWeak (msg : string).

(** Its [Display] and its conversion to an [AppError]. *)
Definition password_error_text (e : PasswordError) : string :=
  match e with
  | PwHash m => "hash error: " +:+ m
  | PwVerify m => "verify error: " +:+ m
  | PwWeak m => "weak password: " +:+ m
  end.
Definition password_app_error (e : PasswordError) : AppError :=
  match e with
  | PwWeak m => BadRequest ("Weak password: " +:+ m)
  | e => Internal ("Password error: " +:+ password_error_text e)
  end.

Section passwords.
Context {UNI : Unicode} {A2 : Argon2}.

Definition is_special (c : ascii) : bool :=
  (nat_of_ascii c <? 128)%nat && negb (ascii_in 48 57 c || ascii_in 65 90 c || ascii_in 97 122 c).

Definition validate_password_strength (password : string) : result unit PasswordError :=
  let any f g := existsb (char_test f g) (chars password) in
  if (String.length password <? 8)%nat then Err (PwWeak "must be at least 8 characters")
  else if negb (any (ascii_in 65 90) uni_uppercase) then Err (PwWeak "must contain an uppercase letter")
  else if negb (any (ascii_in 97 122) uni_lowercase) then Err (PwWeak "must contain a lowercase letter")
  else if negb (any (ascii_in 48 57) (fun _ => false)) then Err (PwWeak "must contain a digit")
  else if negb (any is_special (fun _ => false)) then Err (PwWeak "must contain a special character")
  else Ok tt.

Definition hash_password (password : string) : M Db PasswordError string :=
  n ← draw; lift_result (map_err PwHash (argon2_hash n password)).

Definition verify_password (password hash : string) : result bool PasswordError :=
  map_err PwVerify (argon2_verify password hash).
End passwords.

(** An internal error of the hasher, as the handlers report it. *)
Definition internal_password {A} (m : M Db PasswordError A) : DB A := fun d =>
  let '(r, d') := m d in (map_err (fun e => Internal (password_error_text e)) r, d').

(** ** Tokens *)

Inductive JwtError := JwtExpired | JwtEncode (msg : string) | JwtDecode (msg : string) | JwtKeyLoad (msg : string).
Definition jwt_error_text (e : JwtError) : string :=
  match e with
  | JwtExpired => "token expired"
  | JwtEncode m => "encode error: " +:+ m
  | JwtDecode m => "decode error: " +:+ m
  | JwtKeyLoad m => "key load error: " +:+ m
  end.

Definition DEFAULT_ACCESS_TTL_SECS : Z := 900.

(** ** Requests and answers *)

Record LoginRequest := mkLogin { lg_username : string; lg_password : string; lg_mfa_code : option string }.
Record UserInfo := mkUserInfo {
  ui_id : Uuid; ui_username : string; ui_display_name : string; ui_email : string; ui_role : string;
  ui_auth_provider : string; ui_mfa_enabled : bool; ui_is_active : bool; ui_force_password_reset : bool;
  ui_last_login_at : option string
}.
Record LoginResponse := mkLoginResponse { lr_access_token : string; lr_refresh_token : string; lr_user : UserInfo }.

(** [format!("{:?}", p).to_lowercase()]. *)
Definition auth_provider_text (p : AuthProvider) : string :=
  match p with Local => "local" | AzureSso => "azuresso" | Keycloak => "keycloak" | Oidc => "oidc" end.

Definition is_local (p : AuthProvider) : bool := match p with Local => true | _ => false end.

Section login.
Context {SQL : Sql} {SHA : Sha256} {JS : SerdeJson} {UT : UuidText} {RFC : Rfc3339} {JWT : Jwt} {A2 : Argon2}
  {UNI : Unicode}.

Definition issue_access_token (signing_key : string) (user : Uuid) (role username : string)
  : M Db JwtError (string * string) :=
  now ← gets (fun d => db_now d / SECOND)%Z;
  jti_uuid ← (fun d => let '(r, d') := fresh_uuid d in (map_err (fun _ => JwtEncode "") r, d'));
  let jti := uuid_to_string jti_uuid in
  let claims := mkClaims (uuid_to_string user) now (now + DEFAULT_ACCESS_TTL_SECS) jti role username in
  token ← lift_result (map_err JwtEncode (jwt_encode signing_key claims));
  mret (token, jti).

Definition internal_jwt {A} (m : M Db JwtError A) : DB A := fun d =>
  let '(r, d') := m d in (map_err (fun e => Internal (jwt_error_text e)) r, d').

(** ** Login *)

Definition login_matches (username : string) (u : UserRow) : bool :=
  bool_decide (u_username u = username) && is_local (u_auth_provider u).

(** What an unknown user is replaced with. *)
Definition dummy_user : UserRow :=
  mkUser (uuid_of 0) "" "" "" Operator Local (Some "$argon2id$v=19$m=65536,t=3,p=1$AAAAAAAAAAAAAAAA$dummy")
    false false false None 0 0 0 None.

Definition is_user (id : Uuid) (u : UserRow) : bool := bool_decide (u_id u = id).

(** [failed_login_attempts] and [locked_until] with new values. *)
Definition with_attempts (n : Z) (locked : option DateTime) (last_login : option DateTime) (u : UserRow) : UserRow :=
  mkUser (u_id u) (u_username u) (u_display_name u) (u_email u) (u_role u) (u_auth_provider u) (u_password_hash u)
    (u_mfa_enabled u) (u_is_active u) (u_force_password_reset u) last_login (u_created_at u) (u_updated_at u) n locked.

Definition LOCK_PERIOD : Z := 30 * 60 * SECOND.

(** [failed_login_attempts] is an INTEGER: a count out of its range is an error. *)
Definition count_failure (id : Uuid) : DB unit :=
  execute_if (fun d => forallb (fun u => negb (is_user id u) || (u_failed_login_attempts u + 1 <? 2 ^ 31)%Z) (db_users d))
    (fun d => set_db_users (update_where (is_user id)
       (fun u => with_attempts (u_failed_login_attempts u + 1) (u_locked_until u) (u_last_login_at u) u) (db_users d)) d).

Definition lock_account (id : Uuid) : DB unit :=
  execute (fun d => set_db_users (update_where (is_user id)
    (fun u => with_attempts (u_failed_login_attempts u) (Some (db_now d + LOCK_PERIOD)%Z) (u_last_login_at u) u)
    (db_users d)) d).

Definition reset_attempts (id : Uuid) : DB unit :=
  execute (fun d => set_db_users (update_where (is_user id)
    (fun u => with_attempts 0 None (Some (db_now d)) u) (db_users d)) d).

(** [token_hash] is unique and [user_id] a reference; a session lasts an hour. *)
Definition insert_refresh (user : Uuid) (hash jti : string) : DB unit :=
  execute_if (fun d => user_exists user d && forallb (fun t => negb (bool_decide (rt_token_hash t = hash))) (db_refresh d))
    (fun d => set_db_refresh (db_refresh d ++
       [mkRefresh user hash (db_now d) (db_now d) (db_now d + HOUR)%Z false None (Some jti)]) d).

Definition login_rejected (req : LoginRequest) (row : UserRow) : DB LoginResponse :=
  _ ← ignore (count_failure (u_id row));
  _ ← (if (5 <=? wrap32 (u_failed_login_attempts row + 1))%Z then ignore (lock_account (u_id row)) else mret tt);
  _ ← log_event (mkEvent "user_login_failed" None (Some (lg_username req)) (Some "user")
        (Some (uuid_to_string (u_id row))) (JObj [("reason", JStr "invalid_password")]) None None);
  throw (Unauthorized "Invalid credentials").

Definition login_accepted (signing_key : string) (row : UserRow) : DB LoginResponse :=
  _ ← ignore (reset_attempts (u_id row));
  issued ← internal_jwt (issue_access_token signing_key (u_id row) (role_as_str (u_role row)) (u_username row));
  refresh_uuid ← fresh_uuid;
  let refresh_token := uuid_to_string refresh_uuid in
  refresh_hash ← internal_password (hash_password refresh_token);
  _ ← ignore (insert_refresh (u_id row) refresh_hash issued.2);
  _ ← log_event (mkEvent "user_login" (Some (u_id row)) (Some (u_username row)) (Some "user")
        (Some (uuid_to_string (u_id row))) (JObj []) None None);
  mret (mkLoginResponse issued.1 refresh_token
    (mkUserInfo (u_id row) (u_username row) (u_display_name row) (u_email row) (role_as_str (u_role row))
       (auth_provider_text (u_auth_provider row)) (u_mfa_enabled row) (u_is_active row) (u_force_password_reset row)
       (to_rfc3339 <$> u_last_login_at row))).

Definition is_locked (now : DateTime) (u : UserRow) : bool :=
  match u_locked_until u with Some t => (now <? t)%Z | None => false end.

Definition password_valid (password : string) (u : UserRow) : bool :=
  unwrap_or false (verify_password password (default "" (u_password_hash u))).

Definition login (signing_key : string) (req : LoginRequest) : DB LoginResponse :=
  user ← fetch (fun d => head (sql_scan (List.filter (login_matches (lg_username req)) (db_users d))));
  let row := default dummy_user user in
  _ ← guard_or (u_is_active row) (Unauthorized "Invalid credentials");
  now ← gets db_now;
  _ ← guard_or (negb (is_locked now row)) (Unauthorized "Account locked");
  if password_valid (lg_password req) row then login_accepted signing_key row else login_rejected req row.

(** ** Refresh and logout *)

(** The answer of [refresh_token] and [get_me]: what is not in the token is blank. *)
Definition brief_user (id : Uuid) (username role : string) : UserInfo :=
  mkUserInfo id username "" "" role "local" false true false None.

Definition live_refresh (hash : string) (now : DateTime) (t : RefreshTokenRow) : bool :=
  bool_decide (rt_token_hash t = hash) && negb (rt_revoked t) && (now <? rt_expires_at t)%Z.

(** The join of the matching sessions with their users. *)
Definition find_session (hash : string) (d : Db) : option (UserRow * RefreshTokenRow) :=
  head (sql_scan (concat (map (fun t => map (fun u => (u, t)) (List.filter (is_user (rt_user_id t)) (db_users d)))
    (List.filter (live_refresh hash (db_now d)) (db_refresh d))))).

Definition has_token_hash (hash : string) (t : RefreshTokenRow) : bool := bool_decide (rt_token_hash t = hash).

Definition refresh_token (signing_key token : string) : DB LoginResponse :=
  hash ← internal_password (hash_password token);
  row ← fetch (find_session hash);
  '(u, t) ← match row with Some r => mret r | None => throw (Unauthorized "Invalid refresh token") end;
  _ ← guard_or (negb (rt_revoked t)) (Unauthorized "Token revoked");
  issued ← internal_jwt (issue_access_token signing_key (u_id u) (role_as_str (u_role u)) (u_username u));
  _ ← ignore (execute (fun d => set_db_refresh (update_where (has_token_hash hash)
        (fun t => mkRefresh (rt_user_id t) (rt_token_hash t) (rt_issued_at t) (db_now d) (rt_expires_at t) (rt_revoked t)
                    (rt_revoked_at t) (Some issued.2)) (db_refresh d)) d));
  mret (mkLoginResponse issued.1 token (brief_user (u_id u) (u_username u) (role_as_str (u_role u)))).

Definition logout (auth : AuthUser) (token : string) : DB Z :=
  hash ← internal_password (hash_password token);
  _ ← ignore (execute (fun d => set_db_refresh (update_where (has_token_hash hash)
        (fun t => mkRefresh (rt_user_id t) (rt_token_hash t) (rt_issued_at t) (rt_last_used_at t) (rt_expires_at t) true
                    (Some (db_now d)) (rt_jti t)) (db_refresh d)) d));
  _ ← log_event (user_event auth "user_logout" "user" (uuid_to_string (au_user_id auth)) (JObj []));
  mret 200%Z.

(** [AuthUser]'s extractor: the identity [require_auth] left in the request. *)
Definition auth_user_from_parts (ext : option AuthUser) : result AuthUser Refusal :=
  ok_or ext (401%Z, "Authentication required").

(** [POST /auth/logout] is a route of the public router, which [require_auth] is not
    a layer of: no identity is in the request. *)
Definition logout_route (token : string) : DB (result Z Refusal) :=
  match auth_user_from_parts None with
  | Ok auth => code ← logout auth token; mret (Ok code)
  | Err refusal => mret (Err refusal)
  end.

Definition get_me (auth : AuthUser) : UserInfo :=
  brief_user (au_user_id auth) (au_username auth) (role_as_str (au_role auth)).

(** Both answer 200 and do nothing. *)
Definition mfa_setup (auth : AuthUser) (secret code : string) : DB Z := mret 200%Z.
Definition mfa_verify (auth : AuthUser) (code : string) : DB Z := mret 200%Z.

(** ** Password change *)

Definition with_password (hash : string) (now : DateTime) (u : UserRow) : UserRow :=
  mkUser (u_id u) (u_username u) (u_display_name u) (u_email u) (u_role u) (u_auth_provider u) (Some hash)
    (u_mfa_enabled u) (u_is_active u) false (u_last_login_at u) (u_created_at u) now (u_failed_login_attempts u)
    (u_locked_until u).

(** [query_scalar] of the nullable [password_hash] as a [String]: a NULL is a
    decoding error. *)
Definition stored_hash (id : Uuid) : DB (option string) :=
  query (fun d => match head (sql_scan (List.filter (is_user id) (db_users d))) with
                  | None => (Ok None, d)
                  | Some u => match u_password_hash u with Some h => (Ok (Some h), d) | None => (Err Database, d) end
                  end).

Definition change_password (auth : AuthUser) (current_password new_password : string) : DB Z :=
  _ ← lift_result (map_err password_app_error (validate_password_strength new_password));
  found ← stored_hash (au_user_id auth);
  hash ← or_not_found "User not found" found;
  _ ← guard_or (unwrap_or false (verify_password current_password hash)) (Unauthorized "Invalid current password");
  new_hash ← internal_password (hash_password new_password);
  _ ← execute (fun d => set_db_users (update_where (is_user (au_user_id auth))
        (with_password new_hash (db_now d)) (db_users d)) d);
  mret 200%Z.

(** ** The first administrator *)

Definition ADMIN_PLACEHOLDER_HASH_PREFIX : string := "$argon2id$v=19$m=65536,t=3,p=1$AAAAAAAAAAAAAAAA".

Definition is_placeholder_admin (u : UserRow) : bool :=
  bool_decide (u_username u = "admin") && starts_with ADMIN_PLACEHOLDER_HASH_PREFIX (default "" (u_password_hash u)).

(** [password] is the random text; it is shown once when the result is [true]. *)
Definition bootstrap_admin_password (password : string) : M Db AppError bool :=
  found ← attempt (query (fun d =>
    match head (sql_scan (List.filter (fun u => bool_decide (u_username u = "admin")) (db_users d))) with
    | None => (Ok None, d)
    | Some u => match u_password_hash u with Some h => (Ok (Some h), d) | None => (Err Database, d) end
    end));
  match unwrap_or None found with
  | None => mret false
  | Some current_hash =>
      if negb (starts_with ADMIN_PLACEHOLDER_HASH_PREFIX current_hash) then mret false
      else
        hashed ← attempt (hash_password password);
        match hashed with
        | Err _ => mret false
        | Ok new_hash =>
            rows ← attempt (query (fun d =>
              (Ok (length (List.filter is_placeholder_admin (db_users d))),
               set_db_users (update_where is_placeholder_admin (fun u =>
                 mkUser (u_id u) (u_username u) (u_display_name u) (u_email u) (u_role u) (u_auth_provider u)
                   (Some new_hash) (u_mfa_enabled u) (u_is_active u) (u_force_password_reset u) (u_last_login_at u)
                   (u_created_at u) (u_updated_at u) (u_failed_login_attempts u) (u_locked_until u)) (db_users d)) d)));
            mret (match rows with Ok n => (n =? 1)%nat | Err _ => false end)
        end
  end.
End login.
