(* ===== verification/LoginFacts.v ===== *)
(** * LoginFacts: what the accounts and sessions of the manager guarantee

    The lockout bounds how fast a password can be guessed, a login yields a token
    the API accepts as that user, a password change takes effect, and what the
    salted session hashes mean for refresh and logout. *)

From S2P Require Import Prelude Text Models Net Codec Db AuditLog Auth PolicyAdmin Ca Login.

Section facts.
Context {SQL : Sql} {SHA : Sha256} {JS : SerdeJson} {UT : UuidText} {RFC : Rfc3339} {JWT : Jwt} {A2 : Argon2}
  {UNI : Unicode} {SQLL : SqlLaws}.

(** ** The row of an account *)

(** [r] is the account of the local user [name], and no other row shares its name
    or its id (both are unique in the schema). *)
Record account (name : string) (r : UserRow) (d : Db) : Prop := {
  acc_in : r ∈ db_users d;
  acc_matches : login_matches name r = true;
  acc_sole : forall u, u ∈ db_users d -> login_matches name u = true \/ u_id u = u_id r -> u = r
}.

Lemma account_found name r d : account name r d ->
  head (sql_scan (List.filter (login_matches name) (db_users d))) = Some r.
Proof. intros [Hin Hm Hs]. apply head_scan_sole; [done|done|]. intros u Hu Hp. apply Hs; auto. Qed.

(** An update of the account by id leaves the updated account. *)
Lemma account_update name r d (f : UserRow -> UserRow) :
  (forall u, u_id (f u) = u_id u /\ login_matches name (f u) = login_matches name u) ->
  account name r d ->
  account name (f r) (set_db_users (update_where (is_user (u_id r)) f (db_users d)) d).
Proof.
  intros Hf [Hin Hm Hs]. split.
  - cbn. unfold update_where. apply list_elem_of_In, in_map_iff. exists r. unfold is_user.
    rewrite bool_decide_eq_true_2 by done. split; [done|by apply list_elem_of_In].
  - by rewrite (proj2 (Hf r)).
  - cbn. intros u' (u & Hu & ->)%update_where_in Hor. unfold is_user in *. case_bool_decide as Hid.
    + by rewrite (Hs u Hu (or_intror Hid)).
    + exfalso. apply Hid. rewrite (proj1 (Hf r)) in Hor. by rewrite (Hs u Hu Hor).
Qed.

Lemma account_frame name r d d' : db_users d' = db_users d -> account name r d -> account name r d'.
Proof. intros Hu [Hin Hm Hs]. by split; rewrite ?Hu in *. Qed.

Lemma with_attempts_stable name n l ll u :
  u_id (with_attempts n l ll u) = u_id u /\ login_matches name (with_attempts n l ll u) = login_matches name u.
Proof. done. Qed.

(** ** Lockout *)

(** The account after a rejected password. *)
Definition after_failure (now : DateTime) (r : UserRow) : UserRow :=
  let n := (u_failed_login_attempts r + 1)%Z in
  with_attempts n (if (5 <=? n)%Z then Some (now + LOCK_PERIOD)%Z else u_locked_until r) (u_last_login_at r) r.

(** One more failure. *)
Definition failed_once (u : UserRow) : UserRow :=
  with_attempts (u_failed_login_attempts u + 1) (u_locked_until u) (u_last_login_at u) u.

Lemma count_run name r d : healthy d -> account name r d -> (u_failed_login_attempts r < 2 ^ 31 - 1)%Z ->
  exists d', count_failure (u_id r) d = (Ok tt, d') /\ healthy d' /\ db_now d' = db_now d /\ account name (failed_once r) d'.
Proof.
  intros Hd Hacc Hr.
  assert (forallb (fun u => negb (is_user (u_id r) u) || (u_failed_login_attempts u + 1 <? 2 ^ 31)%Z) (db_users d) = true) as Hok.
  { apply forallb_forall. intros u Hu. unfold is_user. case_bool_decide as Hid; [|done]. simpl.
    rewrite (acc_sole _ _ _ Hacc u (proj2 (list_elem_of_In _ _) Hu) (or_intror Hid)). apply Z.ltb_lt. lia. }
  eexists. split; [unfold count_failure, execute_if, query; rewrite Hd, Hok; reflexivity|].
  split_and!; [done|done|]. by apply (account_update name r d failed_once).
Qed.

Lemma rejected_run name req r d : healthy d -> account name r d ->
  (0 <= u_failed_login_attempts r < 2 ^ 31 - 1)%Z ->
  exists d', login_rejected req r d = (Err (Unauthorized "Invalid credentials"), d') /\
    healthy d' /\ db_now d' = db_now d /\ account name (after_failure (db_now d) r) d'.
Proof.
  intros Hd Hacc Hr. unfold login_rejected.
  destruct (count_run name r d Hd Hacc) as (d1 & Hc & Hd1 & Hnow1 & Hacc1); [lia|].
  erewrite bind_ok by (unfold ignore; rewrite Hc; reflexivity). cbn [snd].
  assert (wrap32 (u_failed_login_attempts r + 1) = u_failed_login_attempts r + 1)%Z as ->.
  { unfold wrap32. rewrite Z.mod_small by lia. lia. }
  assert (exists d2, (if (5 <=? u_failed_login_attempts r + 1)%Z then ignore (lock_account (u_id r)) else mret tt) d1
      = (Ok tt : result unit AppError, d2) /\ healthy d2 /\ db_now d2 = db_now d /\
      account name (after_failure (db_now d) r) d2) as (d2 & Hrun & Hd2 & Hnow2 & Hacc2).
  { unfold after_failure. destruct (5 <=? _)%Z.
    - eexists. split; [unfold ignore, lock_account; rewrite execute_healthy by done; reflexivity|]. split_and!; [done|done|].
      rewrite <- Hnow1. by apply (account_update name (failed_once r) d1 (fun u => with_attempts (u_failed_login_attempts u)
        (Some (db_now d1 + LOCK_PERIOD)%Z) (u_last_login_at u) u)).
    - by eexists. }
  erewrite bind_ok by exact Hrun.
  match goal with |- context [log_event ?e] => destruct (log_healthy (E:=AppError) e d2 Hd2) as (rows & n & Hl) end.
  erewrite bind_ok by exact Hl. eexists. split; [reflexivity|]. split_and!; [done|done|].
  by eapply account_frame; [|exact Hacc2].
Qed.

(** One attempt with a wrong password: refused as locked and nothing changes, or
    counted. *)
Lemma wrong_login_run sk name req r d : healthy d -> account name r d -> u_is_active r = true ->
  lg_username req = name -> password_valid (lg_password req) r = false ->
  (0 <= u_failed_login_attempts r < 2 ^ 31 - 1)%Z ->
  if is_locked (db_now d) r then login sk req d = (Err (Unauthorized "Account locked"), d)
  else exists d', login sk req d = (Err (Unauthorized "Invalid credentials"), d') /\
    healthy d' /\ db_now d' = db_now d /\ account name (after_failure (db_now d) r) d'.
Proof.
  intros Hd Hacc Hact <- Hpw Hr.
  assert (login sk req d = (if is_locked (db_now d) r then (Err (Unauthorized "Account locked"), d)
    else login_rejected req r d)) as ->.
  { unfold login. erewrite bind_ok by by apply fetch_healthy. rewrite (account_found _ _ _ Hacc). cbv zeta. change (default dummy_user (Some r)) with r.
    rewrite Hact. erewrite bind_ok by reflexivity. erewrite bind_ok by (unfold gets; reflexivity).
    unfold guard_or. destruct (is_locked (db_now d) r); [reflexivity|]. erewrite bind_ok by reflexivity.
    by rewrite Hpw. }
  destruct (is_locked (db_now d) r); [done|]. by apply rejected_run.
Qed.

(** A locked account refuses any password, and nothing changes. *)
Lemma locked_login_run sk name req r d : healthy d -> account name r d -> u_is_active r = true -> lg_username req = name ->
  is_locked (db_now d) r = true -> login sk req d = (Err (Unauthorized "Account locked"), d).
Proof.
  intros Hd Hacc Hact <- Hl. unfold login. erewrite bind_ok by by apply fetch_healthy. rewrite (account_found _ _ _ Hacc). cbv zeta.
  change (default dummy_user (Some r)) with r. rewrite Hact. erewrite bind_ok by reflexivity. erewrite bind_ok by (unfold gets; reflexivity).
  unfold guard_or. by rewrite Hl.
Qed.

(** Login attempts at given times, one after the other: the request, and the database
    it is served on. *)
Fixpoint login_trace (sk : string) (l : list (DateTime * LoginRequest)) (d : Db) : list (LoginRequest * Db) :=
  match l with
  | [] => []
  | (t, req) :: l' => (req, set_db_now t d) :: login_trace sk l' (login sk req (set_db_now t d)).2
  end.

(** An attempt that is refused as locked whatever password it carries, the right one
    included, and that changes nothing: no password is compared. *)
Definition refused_unseen (sk : string) (a : LoginRequest * Db) : Prop :=
  forall password, login sk (mkLogin (lg_username a.1) password (lg_mfa_code a.1)) a.2 = (Err (Unauthorized "Account locked"), a.2).

(** Times that do not decrease, from [t0] to [t1]. *)
Fixpoint ascending (t0 t1 : DateTime) (l : list (DateTime * LoginRequest)) : Prop :=
  match l with [] => True | (t, _) :: l' => (t0 <= t <= t1)%Z /\ ascending t t1 l' end.

Definition wrong_for (name : string) (r : UserRow) (l : list (DateTime * LoginRequest)) : Prop :=
  Forall (fun a => lg_username a.2 = name /\ password_valid (lg_password a.2) r = false) l.

(** The guesses an account still allows between [t0] and [t1]. *)
Definition allowance (r : UserRow) (t0 t1 : DateTime) : Z :=
  if (u_failed_login_attempts r <? 5)%Z then 5 - u_failed_login_attempts r + (t1 - t0) / LOCK_PERIOD
  else let s := Z.max t0 (default t0 (u_locked_until r)) in
       if (t1 <? s)%Z then 0 else 1 + (t1 - s) / LOCK_PERIOD.

Lemma LOCK_PERIOD_pos : (0 < LOCK_PERIOD)%Z.
Proof. done. Qed.

(** A guess costs one. *)
Lemma allowance_guess r t0 t t1 : (0 <= u_failed_login_attempts r)%Z -> (t0 <= t <= t1)%Z -> is_locked t r = false ->
  (1 + allowance (after_failure t r) t t1 <= allowance r t0 t1)%Z.
Proof.
  intros Hn Ht Hl. pose proof LOCK_PERIOD_pos as HW. unfold allowance, after_failure, is_locked in *. cbn.
  set (n := u_failed_login_attempts r) in *.
  assert (forall a b, a <= b -> (t1 - b) / LOCK_PERIOD <= (t1 - a) / LOCK_PERIOD)%Z as Hmono
    by (intros; apply Z.div_le_mono; lia).
  assert ((t1 - (t + LOCK_PERIOD)) / LOCK_PERIOD = (t1 - t) / LOCK_PERIOD - 1)%Z as Hstep.
  { replace (t1 - (t + LOCK_PERIOD))%Z with (t1 - t + (-1) * LOCK_PERIOD)%Z by lia. rewrite Z.div_add by lia. lia. }
  assert (0 <= (t1 - t) / LOCK_PERIOD)%Z by (apply Z.div_pos; lia).
  pose proof (Hmono t0 t ltac:(lia)).
  destruct (Z.ltb_spec n 5), (Z.ltb_spec (n + 1) 5), (Z.leb_spec 5 (n + 1)); try lia; cbn.
  - rewrite Z.max_r by lia. destruct (Z.ltb_spec t1 (t + LOCK_PERIOD)); lia.
  - rewrite Z.max_r by lia.
    assert (Z.max t0 (default t0 (u_locked_until r)) <= t)%Z as Hs
      by (destruct (u_locked_until r) as [x|]; cbn; [apply Z.ltb_ge in Hl|]; lia).
    destruct (Z.ltb_spec t1 (Z.max t0 (default t0 (u_locked_until r)))); [lia|]. pose proof (Hmono _ _ Hs).
    destruct (Z.ltb_spec t1 (t + LOCK_PERIOD)); lia.
Qed.

(** Waiting out a lock costs nothing. *)
Lemma allowance_locked r t0 t t1 : (t0 <= t)%Z -> is_locked t r = true -> (5 <= u_failed_login_attempts r)%Z ->
  allowance r t t1 = allowance r t0 t1.
Proof.
  intros Ht Hl Hn. unfold allowance, is_locked in *. destruct (Z.ltb_spec (u_failed_login_attempts r) 5); [lia|].
  destruct (u_locked_until r) as [x|]; [|done]. cbn. apply Z.ltb_lt in Hl. by rewrite !Z.max_r by lia.
Qed.

Lemma allowance_nonneg r t0 t1 : (t0 <= t1)%Z -> (0 <= allowance r t0 t1)%Z.
Proof.
  intros Ht. pose proof LOCK_PERIOD_pos. unfold allowance.
  destruct (Z.ltb_spec (u_failed_login_attempts r) 5); [assert (0 <= (t1 - t0) / LOCK_PERIOD)%Z by (apply Z.div_pos; lia); lia|].
  destruct (Z.ltb_spec t1 (Z.max t0 (default t0 (u_locked_until r)))) as [|Hs]; [done|].
  assert (0 <= (t1 - Z.max t0 (default t0 (u_locked_until r))) / LOCK_PERIOD)%Z by (apply Z.div_pos; lia). lia.
Qed.

Lemma guesses_within_allowance sk name l : forall r t0 t1 d,
  healthy d -> account name r d -> u_is_active r = true ->
  (u_failed_login_attempts r < 5 -> u_locked_until r = None)%Z ->
  (0 <= u_failed_login_attempts r)%Z -> (u_failed_login_attempts r + Z.of_nat (length l) < 2 ^ 31)%Z ->
  wrong_for name r l -> (t0 <= t1)%Z -> ascending t0 t1 l ->
  exists compared unseen, login_trace sk l d ≡ₚ compared ++ unseen /\ (Z.of_nat (length compared) <= allowance r t0 t1)%Z /\
    Forall (refused_unseen sk) unseen.
Proof.
  induction l as [|[t req] l IH]; intros r t0 t1 d Hd Hacc Hact Hlock H0 Hlen Hw Ht Hasc;
    [exists [], []; split_and!; [done|by apply allowance_nonneg|done]|].
  unfold wrong_for in Hw. apply Forall_cons in Hw as [[Hname Hpw] Hw']. destruct Hasc as [Htt Hasc]. cbn [login_trace length] in *.
  assert (account name r (set_db_now t d)) as Hacc' by (by eapply account_frame; [|exact Hacc]).
  pose proof (wrong_login_run sk name req r (set_db_now t d) Hd Hacc' Hact Hname Hpw ltac:(lia)) as Hrun.
  cbn [set_db_now db_now] in Hrun. cbn in Hrun. destruct (is_locked t r) eqn:Hl.
  - rewrite Hrun. cbn [snd]. destruct (IH r t t1 (set_db_now t d)) as (compared & unseen & Hp & Hc & Hu); try done; [lia..|].
    exists compared, ((req, set_db_now t d) :: unseen). rewrite Hp. split; [by apply Permutation_middle|]. split.
    + rewrite <- (allowance_locked r t0 t t1); [done|lia|done|]. destruct (Z.lt_ge_cases (u_failed_login_attempts r) 5) as [Hlt|]; [|done].
      exfalso. unfold is_locked in Hl. by rewrite Hlock in Hl.
    + constructor; [|done]. intros password. by apply (locked_login_run sk name _ r).
  - destruct Hrun as (d' & -> & Hd' & Hnow' & Hacc2). cbn [snd]. pose proof (allowance_guess r t0 t t1 H0 ltac:(lia) Hl).
    destruct (IH (after_failure t r) t t1 d') as (compared & unseen & Hp & Hc & Hu); try done; unfold after_failure; cbn; try lia.
    { intros Hlt. destruct (Z.leb_spec 5 (u_failed_login_attempts r + 1)); [lia|]. apply Hlock. lia. }
    exists ((req, set_db_now t d) :: compared), unseen. rewrite Hp. split; [done|]. split; [cbn [length]; lia|done].
Qed.

(** C21. The lockout bounds password guessing: for an active account with no failures,
    however many wrong passwords are sent at whatever (non-decreasing) times
    between [t0] and [t1], on a database that answers, at most five plus one per
    elapsed half hour of the attempts are compared with the password; each of the
    others is refused as locked and changes nothing, and would be so whatever password
    it carried, the right one too. *)
Theorem lockout_bounds_guesses sk name (r : UserRow) l t0 t1 d :
  healthy d -> account name r d -> u_is_active r = true ->
  u_failed_login_attempts r = 0%Z -> u_locked_until r = None ->
  wrong_for name r l -> (t0 <= t1)%Z -> ascending t0 t1 l -> (Z.of_nat (length l) < 2 ^ 31)%Z ->
  exists compared unseen, login_trace sk l d ≡ₚ compared ++ unseen /\
    (Z.of_nat (length compared) <= 5 + (t1 - t0) / LOCK_PERIOD)%Z /\ Forall (refused_unseen sk) unseen.
Proof.
  intros Hd Hacc Hact H0 Hl Hw Ht Hasc Hlen.
  assert (5 + (t1 - t0) / LOCK_PERIOD = allowance r t0 t1)%Z as -> by (unfold allowance; by rewrite H0).
  apply (guesses_within_allowance sk name); try done; rewrite H0; lia.
Qed.

(** ** Sessions *)

(** Every session's hash was made with an earlier salt, and its token id is an
    earlier draw. *)
Record sessions_wf (d : Db) : Prop := {
  sw_hash : forall t, t ∈ db_refresh d -> exists n p, (n < db_next_uuid d)%N /\ argon2_hash n p = Ok (rt_token_hash t);
  sw_jti : forall t j, t ∈ db_refresh d -> rt_jti t = Some j ->
    exists n, (n < db_next_uuid d)%N /\ j = uuid_to_string (uuid_of n)
}.

Lemma sessions_wf_frame d d' : db_refresh d' = db_refresh d -> (db_next_uuid d <= db_next_uuid d')%N ->
  sessions_wf d -> sessions_wf d'.
Proof.
  intros Hr Hn [Hh Hj]. split; rewrite Hr.
  - intros t Ht. destruct (Hh t Ht) as (n & q & ? & ?). exists n, q. split; [lia|done].
  - intros t j Ht Htj. destruct (Hj t j Ht Htj) as (n & ? & ?). exists n. split; [lia|done].
Qed.

Lemma sessions_wf_faults : faults_irrelevant sessions_wf.
Proof. intros fs d. by apply sessions_wf_frame. Qed.

(** A statement on the sessions that keeps their hashes and gives them known ids. *)
Lemma sessions_wf_update d p (f : RefreshTokenRow -> RefreshTokenRow) :
  (forall t, rt_token_hash (f t) = rt_token_hash t) ->
  (forall t j, rt_jti (f t) = Some j -> rt_jti t = Some j \/
     exists n, (n < db_next_uuid d)%N /\ j = uuid_to_string (uuid_of n)) ->
  sessions_wf d -> sessions_wf (set_db_refresh (update_where p f (db_refresh d)) d).
Proof.
  intros Hfh Hfj [Hh Hj]. split; cbn.
  - intros t' (t & Ht & ->)%update_where_in. destruct (Hh t Ht) as (n & q & ? & ?). exists n, q.
    split; [done|]. destruct (p t); [by rewrite Hfh|done].
  - intros t' j (t & Ht & ->)%update_where_in Hj'. destruct (p t); [|by eauto].
    destruct (Hfj t j Hj') as [?|?]; eauto.
Qed.

(** The hash [hash_password] makes is none of an existing session's. *)
Lemma fresh_hash_unknown {A2L : Argon2Laws} tok d h t : sessions_wf d ->
  argon2_hash (db_next_uuid d) tok = Ok h -> t ∈ db_refresh d -> rt_token_hash t <> h.
Proof.
  intros [Hh _] Hn Ht <-. destruct (Hh t Ht) as (m & q & Hm & Hq).
  pose proof (argon2_salted _ _ _ _ _ Hn Hq). lia.
Qed.

Lemma hash_run tok d : exists r, internal_password (hash_password tok) d = (r, set_db_next_uuid (db_next_uuid d + 1) d) /\
  (forall h, r = Ok h <-> argon2_hash (db_next_uuid d) tok = Ok h).
Proof.
  unfold internal_password, hash_password. erewrite bind_ok by (unfold draw; reflexivity). unfold lift_result.
  destruct (argon2_hash _ _) as [h|e]; eexists; (split; [reflexivity|]); intros x; cbn; split; congruence.
Qed.

Lemma update_where_none {A} (p : A -> bool) f (l : list A) : (forall x, x ∈ l -> p x = false) -> update_where p f l = l.
Proof.
  induction l as [|x l IH]; intros H; [done|]. cbn. rewrite H by left. f_equal. apply IH. intros y Hy. apply H. by right.
Qed.

Lemma find_session_none h d : (forall t, t ∈ db_refresh d -> rt_token_hash t <> h) -> find_session h d = None.
Proof.
  intros H. unfold find_session. rewrite (filter_none (live_refresh h (db_now d)) (db_refresh d)).
  - cbn. assert (sql_scan ([] : list (UserRow * RefreshTokenRow)) ≡ₚ []) as Hp by apply sql_scan_perm.
    by apply Permutation_nil_r in Hp as ->.
  - intros t Ht. unfold live_refresh. by rewrite bool_decide_eq_false_2 by by apply H.
Qed.

Lemma refresh_fails {A2L : Argon2Laws} sk tok d : sessions_wf d ->
  exists e fs, refresh_token sk tok d = (Err e, set_db_faults fs (set_db_next_uuid (db_next_uuid d + 1) d)).
Proof.
  intros Hw. unfold refresh_token. destruct (hash_run tok d) as (r & Hr & Hiff). destruct r as [h|e].
  2: { erewrite bind_err by exact Hr. exists e, (db_faults d). by destruct d. }
  erewrite bind_ok by exact Hr. set (d1 := set_db_next_uuid _ d).
  assert (find_session h d1 = None) as Hnone.
  { apply find_session_none. cbn. intros t Ht. eapply fresh_hash_unknown; [done| |done]. by apply Hiff. }
  assert (forall fs, find_session h (set_db_faults fs d1) = find_session h d1) as Hfs by done.
  unfold mbind at 1, M_bind at 1. unfold fetch, query. destruct (db_faults d1) as [|[] fs] eqn:Hf.
  - rewrite Hnone. exists (Unauthorized "Invalid refresh token"), []. rewrite <- Hf. by destruct d.
  - by eexists _, fs.
  - rewrite Hfs, Hnone. by eexists _, fs.
Qed.

Lemma logout_sessions {A2L : Argon2Laws} auth tok d : sessions_wf d ->
  db_refresh (final (logout auth tok) d) = db_refresh d /\ sessions_wf (final (logout auth tok) d).
Proof.
  intros Hw. unfold logout. rewrite bind_final. destruct (hash_run tok d) as (r & Hr & Hiff).
  unfold outcome, final at 2 3 5 6. rewrite Hr. cbn [fst snd]. set (d1 := set_db_next_uuid _ d).
  assert (sessions_wf d1) as Hw1 by (apply (sessions_wf_frame d d1); [done|cbn; lia|exact Hw]).
  destruct r as [h|e]; [|done].
  set (P := fun x => db_refresh x = db_refresh d /\ sessions_wf x).
  assert (faults_irrelevant P) as HPf by (intros fs x [? ?]; split; [done|by apply sessions_wf_faults]).
  match goal with |- db_refresh ?x = _ /\ _ => change (P x) end.
  assert (keeps P (log_event (E:=AppError) (user_event auth "user_logout" "user" (uuid_to_string (au_user_id auth)) (JObj [])))) as Hlog.
  { apply keeps_log_event; [exact HPf|..]; intros ? x [? ?]; (split; [done|]);
      by apply (sessions_wf_frame x). }
  apply keeps_bind; [|intros _; apply keeps_bind; [exact Hlog|intros; apply keeps_ret]|done].
  apply keeps_ignore, keeps_execute; [exact HPf|]. intros x [Hx Hwx].
  rewrite update_where_none; [by split; [|destruct x]|].
  intros t Ht. apply bool_decide_eq_false_2. rewrite Hx in Ht.
  eapply fresh_hash_unknown; [exact Hw| |done]. by apply Hiff.
Qed.

Lemma issue_run sk id role name d : exists r,
  internal_jwt (issue_access_token sk id role name) d = (r, set_db_next_uuid (db_next_uuid d + 1) d) /\
  forall tok jti, r = Ok (tok, jti) <->
    jti = uuid_to_string (uuid_of (db_next_uuid d)) /\
    jwt_encode sk (mkClaims (uuid_to_string id) (db_now d / SECOND) (db_now d / SECOND + DEFAULT_ACCESS_TTL_SECS) jti role name)
      = Ok tok.
Proof.
  unfold internal_jwt, issue_access_token. erewrite bind_ok by (unfold gets; reflexivity).
  erewrite bind_ok by reflexivity. unfold lift_result, mbind, M_bind.
  destruct (jwt_encode sk _) as [t|e] eqn:He; eexists; (split; [reflexivity|]); intros tok jti; cbn; split;
    [intros [= <- <-]; split; [done|exact He]|intros [-> He']; pose proof (eq_trans (eq_sym He) He'); by simplify_eq|done|intros [-> He']; pose proof (eq_trans (eq_sym He) He'); by simplify_eq].
Qed.

Lemma keeps_sessions_users (f : Db -> list UserRow) :
  keeps sessions_wf (execute (fun d => set_db_users (f d) d)).
Proof. apply keeps_execute; [apply sessions_wf_faults|]. intros d. by apply sessions_wf_frame. Qed.

Lemma keeps_sessions_log e : keeps sessions_wf (log_event (E:=AppError) e).
Proof. apply keeps_log_event; [apply sessions_wf_faults|..]; intros ? x; by apply sessions_wf_frame. Qed.

Lemma sessions_wf_insert user h jti d n p m : sessions_wf d ->
  (n < db_next_uuid d)%N -> argon2_hash n p = Ok h -> (m < db_next_uuid d)%N -> jti = uuid_to_string (uuid_of m) ->
  sessions_wf (final (ignore (F:=AppError) (insert_refresh user h jti)) d).
Proof.
  intros Hw Hn Hh Hm ->.
  set (P := fun x => sessions_wf x /\ db_next_uuid x = db_next_uuid d).
  cut (P (final (ignore (F:=AppError) (insert_refresh user h (uuid_to_string (uuid_of m)))) d)); [by intros []|].
  apply (keeps_ignore P); [|done].
  apply keeps_execute_if; [intros fs x [? ?]; split; [by apply sessions_wf_faults|done]|].
  intros x [[Hxh Hxj] Hx]. split; [|done]. split; cbn.
  - intros t [Ht|Ht]%elem_of_app; [by apply Hxh|]. apply list_elem_of_singleton in Ht as ->. exists n, p. by rewrite Hx.
  - intros t j [Ht|Ht]%elem_of_app Hj; [by eapply Hxj|]. apply list_elem_of_singleton in Ht as ->. cbn in Hj. simplify_eq.
    exists m. by rewrite Hx.
Qed.

Lemma accepted_sessions sk row : keeps sessions_wf (login_accepted sk row).
Proof.
  unfold login_accepted. apply keeps_bind; [apply keeps_ignore, keeps_sessions_users|intros _].
  intros d Hw. rewrite bind_final. unfold outcome, final at 2 3.
  destruct (issue_run sk (u_id row) (role_as_str (u_role row)) (u_username row) d) as (r & Hr & Hiff). rewrite Hr. cbn [fst snd].
  assert (sessions_wf (set_db_next_uuid (db_next_uuid d + 1) d)) as Hw1 by (apply (sessions_wf_frame d); [done|cbn; lia|done]).
  destruct r as [[tok jti]|e]; [|done]. destruct (proj1 (Hiff tok jti) eq_refl) as [Hjti _].
  set (d1 := set_db_next_uuid (db_next_uuid d + 1) d) in *.
  rewrite bind_final. unfold outcome, final at 2, fresh_uuid. cbn [fst snd]. cbv zeta.
  set (d2 := set_db_next_uuid (db_next_uuid d1 + 1) d1).
  rewrite bind_final. unfold outcome, final at 2 3.
  match goal with |- context [hash_password ?t] => destruct (hash_run t d2) as (r & Hrh & Hiffh) end. rewrite Hrh. cbn [fst snd].
  set (d3 := set_db_next_uuid (db_next_uuid d2 + 1) d2).
  assert (sessions_wf d3) as Hw3 by (apply (sessions_wf_frame d); [done|cbn; lia|done]).
  destruct r as [h|e]; [|done]. cbn [snd]. rewrite bind_final. cbn [outcome ignore fst].
  match goal with |- sessions_wf (final ?m ?x) => assert (keeps sessions_wf m) as Hk end.
  { apply keeps_bind; [apply keeps_sessions_log|intros; apply keeps_ret]. }
  apply Hk. eapply (sessions_wf_insert _ _ _ d3 (db_next_uuid d2) _ (db_next_uuid d)); try done; try (cbn; lia).
  by apply Hiffh.
Qed.

Lemma login_sessions sk req : keeps sessions_wf (login sk req).
Proof.
  unfold login. apply keeps_bind; [apply keeps_fetch, sessions_wf_faults|intros o].
  repeat (apply keeps_bind; [auto with keeps|intros]).
  destruct (password_valid _ _); [apply accepted_sessions|].
  unfold login_rejected. apply keeps_bind.
  { apply keeps_ignore, keeps_execute_if; [apply sessions_wf_faults|]. intros d. by apply sessions_wf_frame. }
  intros _. apply keeps_bind; [destruct (5 <=? _)%Z; [apply keeps_ignore, keeps_sessions_users|apply keeps_ret]|intros _].
  apply keeps_bind; [apply keeps_sessions_log|intros; apply keeps_throw].
Qed.

(** The requests that touch sessions, and the passing of time. *)
Inductive SessionOp :=
  | OpLogin (req : LoginRequest)
  | OpRefresh (token : string)
  | OpLogout (auth : AuthUser) (token : string)
  | OpTime (t : DateTime).

Definition run_session_op (sk : string) (d : Db) (op : SessionOp) : Db :=
  match op with
  | OpLogin req => final (login sk req) d
  | OpRefresh token => final (refresh_token sk token) d
  | OpLogout auth token => final (logout auth token) d
  | OpTime t => set_db_now t d
  end.

Lemma session_op_wf {A2L : Argon2Laws} sk d op : sessions_wf d -> sessions_wf (run_session_op sk d op).
Proof.
  intros Hw. destruct op; cbn.
  - by apply login_sessions.
  - destruct (refresh_fails sk token d Hw) as (e & fs & H). unfold final. rewrite H. cbn.
    apply (sessions_wf_frame d); [done|cbn; lia|done].
  - by apply logout_sessions.
  - by apply (sessions_wf_frame d).
Qed.

(** C40. Sessions can neither be refreshed nor ended: a session is stored under a
    salted hash and looked up by hashing the token again with a new salt, so after
    any sequence of logins, refreshes and logouts (with any database failures)
    every refresh is refused, whatever token it presents, and every logout leaves
    all sessions as they were. *)
Theorem sessions_never_refresh_or_end {A2L : Argon2Laws} sk (ops : list SessionOp) (d0 : Db) :
  db_refresh d0 = [] ->
  let d := fold_left (run_session_op sk) ops d0 in
  (forall token, is_ok (outcome (refresh_token sk token) d) = false) /\
  (forall auth token, db_refresh (final (logout auth token) d) = db_refresh d).
Proof.
  intros H0 d. assert (sessions_wf d) as Hw.
  { assert (sessions_wf d0) as Hw0 by (split; rewrite H0; intros ? * ?%not_elem_of_nil; done).
    subst d. clear H0. revert d0 Hw0. induction ops as [|op ops IH]; intros d0 Hw0; [done|].
    cbn. apply IH. by apply session_op_wf. }
  split.
  - intros token. destruct (refresh_fails sk token d Hw) as (e & fs & H). unfold outcome. by rewrite H.
  - intros auth token. by apply logout_sessions.
Qed.

(** ** A login and the requests after it *)

(** The session a successful login adds. *)
Definition new_session (r : UserRow) (h jti : string) (now : DateTime) : RefreshTokenRow :=
  mkRefresh (u_id r) h now now (now + HOUR)%Z false None (Some jti).

Lemma accepted_run {A2L : Argon2Laws} sk name r d : healthy d -> account name r d -> sessions_wf d ->
  (forall claims, is_ok (jwt_encode sk claims) = true) -> (forall n p, is_ok (argon2_hash n p) = true) ->
  let jti := uuid_to_string (uuid_of (db_next_uuid d)) in
  exists resp h d', login_accepted sk r d = (Ok resp, d') /\ healthy d' /\
    jwt_encode sk (mkClaims (uuid_to_string (u_id r)) (db_now d / SECOND) (db_now d / SECOND + DEFAULT_ACCESS_TTL_SECS)
      jti (role_as_str (u_role r)) (u_username r)) = Ok (lr_access_token resp) /\
    db_refresh d' = db_refresh d ++ [new_session r h jti (db_now d)].
Proof.
  intros Hd Hacc Hw Hjwt Harg jti. unfold login_accepted.
  erewrite bind_ok by (unfold ignore, reset_attempts; rewrite execute_healthy by done; reflexivity). cbn [snd].
  set (d1 := set_db_users _ d).
  destruct (issue_run sk (u_id r) (role_as_str (u_role r)) (u_username r) d1) as (r1 & Hr1 & Hiff).
  specialize (Hjwt (mkClaims (uuid_to_string (u_id r)) (db_now d / SECOND) (db_now d / SECOND + DEFAULT_ACCESS_TTL_SECS)
    jti (role_as_str (u_role r)) (u_username r))). destruct (jwt_encode sk _) as [tok|] eqn:Htok; [|done].
  assert (r1 = Ok (tok, jti)) as -> by (apply Hiff; by split). erewrite bind_ok by exact Hr1.
  erewrite bind_ok by (unfold fresh_uuid; reflexivity). set (d2 := set_db_next_uuid _ (set_db_next_uuid _ d1)).
  match goal with |- context [hash_password ?t] => destruct (hash_run t d2) as (r2 & Hr2 & Hiff2); specialize (Harg (db_next_uuid d2) t);
    destruct (argon2_hash (db_next_uuid d2) t) as [h|] eqn:Hh; [|done] end.
  assert (r2 = Ok h) as -> by by apply Hiff2. erewrite bind_ok by exact Hr2. set (d3 := set_db_next_uuid _ d2).
  assert (user_exists (u_id r) d3 && forallb (fun t => negb (bool_decide (rt_token_hash t = h))) (db_refresh d3) = true) as Hins.
  { apply andb_true_iff. split.
    - unfold user_exists. apply existsb_exists. eexists.
      assert (with_attempts 0 None (Some (db_now d)) r ∈ db_users d1) as Hin
        by by apply (acc_in name), (account_update name r d (fun u => with_attempts 0 None (Some (db_now d)) u)).
      split; [by apply list_elem_of_In, Hin|by apply bool_decide_eq_true_2].
    - apply forallb_forall. intros t Ht. apply negb_true_iff, bool_decide_eq_false_2.
      eapply fresh_hash_unknown; [|exact Hh|by apply list_elem_of_In].
      apply (sessions_wf_frame d); [done|cbn; lia|done]. }
  erewrite bind_ok by (unfold ignore, insert_refresh, execute_if, query; change (db_faults d3) with (db_faults d); rewrite Hd, Hins; reflexivity).
  cbn [snd]. set (d4 := set_db_refresh _ d3).
  match goal with |- context [log_event ?e] => destruct (log_healthy (E:=AppError) e d4 Hd) as (rows & n & Hl) end.
  erewrite bind_ok by exact Hl. eexists _, h, _. split; [reflexivity|]. split_and!; [done|reflexivity|done].
Qed.

(** C27. A login opens the API: with the right password an active, unlocked account
    gets an access token, and for the next fifteen minutes a request that carries
    it from an allowed address is let through as that user, with the account's
    role. *)
Theorem login_token_authenticates {IPN : IpNetLib} {A2L : Argon2Laws} {JL : JwtLaws} {UTL : UuidTextLaws} sk (c : AuthConfig) req r d t xff peer :
  healthy d -> account (lg_username req) r d -> u_is_active r = true -> is_locked (db_now d) r = false ->
  password_valid (lg_password req) r = true ->
  sessions_wf d -> (db_next_uuid d < 2 ^ 128)%N ->
  (forall claims, is_ok (jwt_encode sk claims) = true) -> (forall n p, is_ok (argon2_hash n p) = true) ->
  jwt_key_pair sk (verify_key_pem c) -> (t / SECOND <= db_now d / SECOND + DEFAULT_ACCESS_TTL_SECS)%Z ->
  (ip_whitelist c = [] \/ exists ip, resolve_client_ip (mkRequest None xff peer) (trusted_proxies c) = Some ip /\
     is_ip_allowed c ip = true) ->
  exists resp d', login sk req d = (Ok resp, d') /\
    exists u, outcome (E:=AppError) (require_auth c (mkRequest (Some ("Bearer " +:+ lr_access_token resp)) xff peer))
        (set_db_now t d') = Ok (Ok u) /\
      au_user_id u = u_id r /\ au_role u = u_role r /\ au_username u = u_username r.
Proof.
  intros Hd Hacc Hact Hl Hpw Hw Hn Hjwt Harg Hkey Ht Hip.
  destruct (accepted_run sk _ r d Hd Hacc Hw Hjwt Harg) as (resp & h & d' & Hrun & Hd' & Htok & Href).
  exists resp, d'. split.
  { unfold login. erewrite bind_ok by by apply fetch_healthy. rewrite (account_found _ _ _ Hacc). cbv zeta.
    change (default dummy_user (Some r)) with r. rewrite Hact. erewrite bind_ok by reflexivity.
    erewrite bind_ok by (unfold gets; reflexivity). rewrite Hl. erewrite bind_ok by reflexivity. by rewrite Hpw. }
  set (jti := uuid_to_string (uuid_of (db_next_uuid d))) in *. set (claims := mkClaims _ _ _ _ _ _) in Htok.
  set (d1 := set_db_now t d').
  assert (jwt_decode (verify_key_pem c) (lr_access_token resp) (db_now d1 / 1000000000) = Ok claims) as Hdec.
  { eapply jwt_roundtrip; [exact Hkey|exact Htok|]. unfold d1, claims. cbn. unfold SECOND, DEFAULT_ACCESS_TTL_SECS in *. lia. }
  assert (is_jti_revoked (E:=AppError) jti d1 = (Ok false, d1)) as Hrev.
  { unfold is_jti_revoked. erewrite bind_ok by (unfold attempt; rewrite fetch_healthy by exact Hd'; reflexivity).
    rewrite (head_scan_sole _ _ (new_session r h jti (db_now d))); [done|..].
    - cbn. rewrite Href. apply elem_of_app. right. by left.
    - by apply bool_decide_eq_true_2.
    - cbn. rewrite Href. intros y [Hy|Hy]%elem_of_app Hj; [|by apply list_elem_of_singleton in Hy].
      exfalso. apply bool_decide_eq_true in Hj. destruct (sw_jti _ Hw y jti Hy Hj) as (n & Hlt & Hj').
      apply uuid_to_string_inj, uuid_of_inj in Hj'; lia. }
  eexists. split.
  - unfold outcome, require_auth.
    assert (forall b, (ip_whitelist c = [] \/ b = None) -> match ip_whitelist c with [] => None | _ => b end = None :> option Refusal)
      as Hnone by (intros b [->| ->]; [done|by destruct (ip_whitelist c)]).
    rewrite Hnone. 2: { destruct Hip as [?|(ip & Hr & Ha)]; [by left|right].
      change (resolve_client_ip _ _) with (resolve_client_ip (mkRequest None xff peer) (trusted_proxies c)). by rewrite Hr, Ha. }
    assert (extract_bearer_token (mkRequest (Some ("Bearer " +:+ lr_access_token resp)) xff peer) = Some (lr_access_token resp)) as ->
      by reflexivity.
    erewrite bind_ok by (unfold gets; reflexivity). rewrite Hdec.
    erewrite bind_ok by (destruct (ac_db c); [exact Hrev|reflexivity]). cbn [cl_role claims].
    by rewrite parse_role_as_str.
  - cbn. by rewrite uuid_parse_to_string.
Qed.

(** A password change takes effect: it is refused unless the new password is
    strong and the current one right, and afterwards the account accepts the new
    password and needs no reset; the sessions stay open. *)
Theorem change_password_effect {A2L : Argon2Laws} auth cur new d d' name r :
  healthy d -> account name r d -> u_id r = au_user_id auth ->
  change_password auth cur new d = (Ok 200%Z, d') ->
  validate_password_strength new = Ok tt /\ password_valid cur r = true /\
  (exists r', account name r' d' /\ u_id r' = u_id r /\ password_valid new r' = true /\ u_force_password_reset r' = false) /\
  db_refresh d' = db_refresh d.
Proof.
  intros Hd Hacc Hid H. unfold change_password in H.
  apply bind_inv_ok in H as ([] & d0 & Hv & H). unfold lift_result in Hv.
  destruct (validate_password_strength new) as [[]|e] eqn:Hstrong; [|done]. injection Hv as <-.
  apply bind_inv_ok in H as (o & dx & Ho & H). unfold stored_hash, query in Ho. rewrite Hd in Ho.
  assert (head (sql_scan (List.filter (is_user (au_user_id auth)) (db_users d))) = Some r) as Hfind.
  { apply head_scan_sole; [apply Hacc|by apply bool_decide_eq_true_2|].
    intros u Hu Hp%bool_decide_eq_true. apply (acc_sole _ _ _ Hacc); [done|right; congruence]. }
  rewrite Hfind in Ho. destruct (u_password_hash r) as [h|] eqn:Hh; [|done]. injection Ho as <- <-.
  erewrite bind_ok in H by reflexivity. unfold guard_or in H.
  destruct (unwrap_or false (verify_password cur h)) eqn:Hcur; [|done]. erewrite bind_ok in H by reflexivity.
  apply bind_inv_ok in H as (nh & d1 & Hn & H). destruct (hash_run new d) as (x & Hx & Hiff).
  rewrite Hx in Hn. simplify_eq/=. erewrite bind_ok in H by by apply execute_healthy. inv_ret H.
  assert (password_valid new (with_password nh (db_now d) r) = true) as Hnew.
  { unfold password_valid, verify_password. cbn.
    rewrite (argon2_verify_hash (db_next_uuid d) new nh) by by apply Hiff. done. }
  split_and!; [done|unfold password_valid; by rewrite Hh| |done].
  exists (with_password nh (db_now d) r). split_and!; [|done|exact Hnew|done].
  rewrite <- Hid. eapply (account_update name r (set_db_next_uuid (db_next_uuid d + 1) d)); [done|].
  by eapply account_frame; [|exact Hacc].
Qed.
End facts.

(** ** Witnesses *)

(** A hash is the text of the salt and the password. *)
Definition toy_argon2 : Argon2 := {|
  argon2_hash n p := Ok (to_text (n, p));
  argon2_verify p h := match (of_text h : option (N * string)) with
    | Some (_, q) => Ok (bool_decide (p = q)) | None => Err "not a hash" end
|}.
Lemma toy_argon2_laws : @Argon2Laws toy_argon2.
Proof.
  split; simpl.
  - intros n p h [= <-]. rewrite of_to_text. by rewrite bool_decide_eq_true_2.
  - intros n p m q h [= <-] [= H]. apply (f_equal (of_text (A:=N * string))) in H. rewrite !of_to_text in H. by simplify_eq.
Qed.
Definition toy_unicode : Unicode := {| uni_uppercase _ := false; uni_lowercase _ := false |}.

Definition login_user : UserRow :=
  mkUser (uuid_of 7) "op" "" "op@example" Operator Local (Some (to_text (1%N, "Secret-1"))) false true true None 0 0 0 None.
Definition login_db : Db := set_db_users [login_user] empty_db.
Notation toy_login := (@login toy_sql toy_sha256 toy_serde toy_uuid_text toy_rfc3339 toy_jwt toy_argon2).

Lemma login_account : account "op" login_user login_db.
Proof. split; [left|reflexivity|]. by intros u Hu%list_elem_of_singleton _. Qed.

Definition wrong_guess (t : DateTime) : DateTime * LoginRequest := (t, mkLogin "op" "guess" None).

Lemma lockout_bounds_guesses_witness :
  exists compared unseen, @login_trace toy_sql toy_sha256 toy_serde toy_uuid_text toy_rfc3339 toy_jwt toy_argon2 "sk"
     (map wrong_guess [0; 1; 2; 3; 4; 5; 6; 7]%Z) login_db ≡ₚ compared ++ unseen /\
    (Z.of_nat (length compared) <= 5 + (7 - 0) / LOCK_PERIOD)%Z /\
    Forall (@refused_unseen toy_sql toy_sha256 toy_serde toy_uuid_text toy_rfc3339 toy_jwt toy_argon2 "sk") unseen.
Proof.
  apply (@lockout_bounds_guesses toy_sql toy_sha256 toy_serde toy_uuid_text toy_rfc3339 toy_jwt toy_argon2 toy_sql_laws
    "sk" "op" login_user); try reflexivity.
  - exact login_account.
  - unfold wrong_for. repeat constructor.
  - lia.
  - cbn. repeat split; lia.
Defined.

Definition login_cfg : @AuthConfig toy_ipnet := @AuthConfig_new toy_ipnet "vk" [] [] true.

Lemma login_token_authenticates_witness :
  exists resp d', toy_login "sk" (mkLogin "op" "Secret-1" None) login_db = (Ok resp, d') /\
    exists u, outcome (E:=AppError) (@require_auth toy_ipnet toy_uuid_text toy_jwt toy_sql AppError login_cfg
      (mkRequest (Some ("Bearer " +:+ lr_access_token resp)) None None)) (set_db_now (600 * SECOND) d') = Ok (Ok u) /\
      au_user_id u = uuid_of 7 /\ au_role u = Operator /\ au_username u = "op".
Proof.
  apply (@login_token_authenticates toy_sql toy_sha256 toy_serde toy_uuid_text toy_rfc3339 toy_jwt toy_argon2 toy_sql_laws
    toy_ipnet toy_argon2_laws toy_jwt_laws toy_uuid_text_laws "sk" login_cfg (mkLogin "op" "Secret-1" None) login_user login_db);
    try reflexivity.
  - exact login_account.
  - split; intros ? * ?%not_elem_of_nil; done.
  - vm_compute. discriminate.
  - by left.
Defined.

Lemma sessions_never_refresh_or_end_witness :
  let d := fold_left (@run_session_op toy_sql toy_sha256 toy_serde toy_uuid_text toy_rfc3339 toy_jwt toy_argon2 "sk")
    [OpLogin (mkLogin "op" "Secret-1" None)] login_db in
  length (db_refresh d) = 1%nat /\
  is_ok (outcome (@refresh_token toy_sql toy_uuid_text toy_jwt toy_argon2 "sk" (@uuid_to_string toy_uuid_text (uuid_of 101))) d) = false.
Proof.
  split; [vm_compute; reflexivity|].
  apply (@sessions_never_refresh_or_end toy_sql toy_sha256 toy_serde toy_uuid_text toy_rfc3339 toy_jwt toy_argon2
    toy_sql_laws toy_argon2_laws "sk" [OpLogin (mkLogin "op" "Secret-1" None)] login_db). reflexivity.
Defined.

Definition login_auth : AuthUser := mkAuthUser (uuid_of 7) "op" Operator (mkClaims "" 0 0 "" "" "") None.

Lemma change_password_effect_witness :
  exists d', @change_password toy_sql toy_argon2 toy_unicode login_auth "Secret-1" "Better-22" login_db = (Ok 200%Z, d') /\
    exists r', account "op" r' d' /\ @password_valid toy_argon2 "Better-22" r' = true /\ u_force_password_reset r' = false.
Proof.
  destruct (@change_password toy_sql toy_argon2 toy_unicode login_auth "Secret-1" "Better-22" login_db) as [r d'] eqn:H.
  assert (r = Ok 200%Z) as -> by (apply (f_equal fst) in H; vm_compute in H; by rewrite <- H).
  exists d'. split; [done|].
  destruct (@change_password_effect toy_sql toy_argon2 toy_unicode toy_sql_laws toy_argon2_laws login_auth "Secret-1" "Better-22"
    login_db d' "op" login_user eq_refl login_account eq_refl H) as (_ & _ & (r' & H1 & _ & H2 & H3) & _).
  by exists r'.
Defined.
