(* ===== verification/Users.v ===== *)
(** * Users: user management

    [crates/fw-web/src/routes/users.rs]: creating, editing and deleting accounts.
    A deletion reaches every table that refers to the user, by the ON DELETE
    clauses of the schema: its sessions, enrollment tokens and operator scope go,
    the rows it authored (the audit log included) lose the reference. *)

From S2P Require Import Prelude Text Models Net Codec Db AuditLog Auth PolicyAdmin Ca Login LoginFacts.

(** ** Data *)

Record CreateUserRequest := mkCreateUser {
  cu_username : string; cu_display_name : string; cu_email : string; cu_role : UserRole; cu_password : string
}.
Record UpdateUserRequest := mkUpdateUser {
  uu_display_name : option string; uu_email : option string; uu_role : option UserRole; uu_is_active : option bool
}.

(** The columns the handlers return: [models::User] has no password hash. *)
Record User := mkUserView {
  uv_id : Uuid; uv_username : string; uv_display_name : string; uv_email : string; uv_role : UserRole;
  uv_auth_provider : AuthProvider; uv_mfa_enabled : bool; uv_is_active : bool; uv_force_password_reset : bool;
  uv_last_login_at : option DateTime; uv_created_at : DateTime; uv_updated_at : DateTime;
  uv_failed_login_attempts : Z; uv_locked_until : option DateTime
}.
Definition user_view (u : UserRow) : User :=
  mkUserView (u_id u) (u_username u) (u_display_name u) (u_email u) (u_role u) (u_auth_provider u) (u_mfa_enabled u)
    (u_is_active u) (u_force_password_reset u) (u_last_login_at u) (u_created_at u) (u_updated_at u)
    (u_failed_login_attempts u) (u_locked_until u).

(** The server's collation of text. *)
Class Collation := { text_le : string -> string -> Prop; text_le_dec :: forall a b, Decision (text_le a b) }.

(** ** Deletion and its references *)

Definition clear_user (id : Uuid) (o : option Uuid) : option Uuid := if bool_decide (o = Some id) then None else o.

Definition rule_without_author (id : Uuid) (r : FirewallRule) : FirewallRule :=
  mkRule (rule_id r) (rule_name r) (rule_description r) (rule_action r) (rule_direction r) (rule_protocol r)
    (src_cidr r) (src_port_start r) (src_port_end r) (dst_cidr r) (dst_port_start r) (dst_port_end r)
    (interface_in r) (interface_out r) (rule_comment r) (rule_log r) (rule_priority r)
    (clear_user id (rule_created_by r)) (rule_created_at r) (rule_updated_at r).

Definition audit_without_actor (id : Uuid) (r : AuditRow) : AuditRow :=
  mkAudit (ar_id r) (ar_action r) (ar_row_hash r) (ar_prev_hash r) (clear_user id (ar_actor_user_id r))
    (ar_actor_username r) (ar_target_type r) (ar_target_id r) (ar_details r) (ar_ip_address r) (ar_request_id r)
    (ar_created_at r).

(** ON DELETE CASCADE. *)
Definition drop_user_rows (id : Uuid) (d : Db) : Db :=
  set_db_users (delete_where (is_user id) (db_users d))
  (set_db_refresh (delete_where (fun t => bool_decide (rt_user_id t = id)) (db_refresh d))
  (set_db_tokens (delete_where (fun t => bool_decide (et_created_by t = id)) (db_tokens d))
  (set_db_operator_groups (delete_where (fun '(u, _) => bool_decide (u = id)) (db_operator_groups d)) d))).

(** ON DELETE SET NULL. *)
Definition forget_user (id : Uuid) (d : Db) : Db :=
  set_db_rules (map (fun r => mkRuleRow (rule_without_author id (rr_rule r)) (rr_group_id r) (rr_group_order r)) (db_rules d))
  (set_db_policy_sets (map (fun s => mkPolicySet (ps_id s) (ps_name s) (ps_description s) (clear_user id (ps_created_by s))
     (ps_created_at s) (ps_updated_at s) (ps_default_input_policy s) (ps_default_output_policy s)) (db_policy_sets d))
  (set_db_rule_groups (map (fun g => mkRuleGroup (rg_id g) (rg_name g) (rg_description g) (clear_user id (rg_created_by g))
     (rg_created_at g) (rg_updated_at g)) (db_rule_groups d))
  (set_db_assignments (map (fun a => mkAssignment (hpa_host_id a) (hpa_policy_set_id a) (clear_user id (hpa_assigned_by a))
     (hpa_assigned_at a)) (db_assignments d))
  (set_db_protected (map (fun p => mkProtected (pc_host_id p) (pc_cidr p) (pc_label p) (clear_user id (pc_created_by p))
     (pc_created_at p)) (db_protected d))
  (set_db_decisions (map (fun x => mkDecision (rpd_rule_id x) (rpd_policy_set_id x) (rpd_decision x) (rpd_reason x)
     (clear_user id (rpd_reviewer_id x)) (rpd_reviewed_at x) (rpd_created_at x)) (db_decisions d))
  (set_db_audit (map (audit_without_actor id) (db_audit d)) d)))))).

Definition drop_user (id : Uuid) (d : Db) : Db := forget_user id (drop_user_rows id d).

Section users.
Context {SQL : Sql} {SHA : Sha256} {JS : SerdeJson} {UT : UuidText} {RFC : Rfc3339} {A2 : Argon2} {UNI : Unicode}
  {COL : Collation}.

(** ** Handlers *)

Definition username_le (a b : UserRow) : Prop := text_le (u_username a) (u_username b).
#[export] Instance username_le_dec a b : Decision (username_le a b).
Proof. unfold username_le. apply _. Defined.

Definition list_users : DB (list User) := fetch (fun d => map user_view (sql_sort username_le (db_users d))).

(** The id, the name and the address are unique. *)
Definition insert_user (req : CreateUserRequest) (hash : string) (d : Db) : option (UserRow * Db) :=
  let u := mkUser (uuid_of (db_next_uuid d)) (cu_username req) (cu_display_name req) (cu_email req) (cu_role req) Local
             (Some hash) false true false None (db_now d) (db_now d) 0 None in
  if forallb (fun x => negb (bool_decide (u_id x = u_id u)) && negb (bool_decide (u_username x = u_username u)) &&
                       negb (bool_decide (u_email x = u_email u))) (db_users d)
  then Some (u, set_db_next_uuid (db_next_uuid d + 1) (set_db_users (db_users d ++ [u]) d))
  else None.

Definition create_user (auth : AuthUser) (req : CreateUserRequest) : DB (Z * User) :=
  _ ← require_admin_role auth;
  _ ← lift_result (map_err password_app_error (validate_password_strength (cu_password req)));
  hash ← internal_password (hash_password (cu_password req));
  u ← execute_returning (insert_user req hash);
  _ ← log_event (user_event auth "user_created" "user" (uuid_to_string (u_id u)) (JObj [("username", JStr (u_username u))]));
  mret (201%Z, user_view u).

Definition find_user (id : Uuid) (d : Db) : option UserRow :=
  head (sql_scan (List.filter (is_user id) (db_users d))).

Definition get_user (id : Uuid) : DB User :=
  o ← fetch (find_user id); u ← or_not_found "User not found" o; mret (user_view u).

Definition updated_user (req : UpdateUserRequest) (now : DateTime) (u : UserRow) : UserRow :=
  mkUser (u_id u) (u_username u) (default (u_display_name u) (uu_display_name req)) (default (u_email u) (uu_email req))
    (default (u_role u) (uu_role req)) (u_auth_provider u) (u_password_hash u) (u_mfa_enabled u)
    (default (u_is_active u) (uu_is_active req)) (u_force_password_reset u) (u_last_login_at u) (u_created_at u) now
    (u_failed_login_attempts u) (u_locked_until u).

Definition apply_user_update (id : Uuid) (req : UpdateUserRequest) (d : Db) : option (option UserRow * Db) :=
  match find_user id d with
  | None => Some (None, d)
  | Some u =>
      let u' := updated_user req (db_now d) u in
      if forallb (fun x => is_user id x || negb (bool_decide (u_email x = u_email u'))) (db_users d)
      then Some (Some u', set_db_users (update_where (is_user id) (updated_user req (db_now d)) (db_users d)) d)
      else None
  end.

Definition update_user (auth : AuthUser) (id : Uuid) (req : UpdateUserRequest) : DB User :=
  _ ← require_admin_role auth;
  o ← execute_returning (apply_user_update id req);
  u ← or_not_found "User not found" o;
  _ ← log_event (user_event auth "user_updated" "user" (uuid_to_string (u_id u)) (JObj []));
  mret (user_view u).

Definition delete_user (auth : AuthUser) (id : Uuid) : DB Z :=
  _ ← require_admin_role auth;
  _ ← execute (drop_user id);
  _ ← log_event (user_event auth "user_deleted" "user" (uuid_to_string id) (JObj []));
  mret 204%Z.

(** ** Accounts stay unique *)

(** The keys of [users]. *)
Record users_wf (d : Db) : Prop := {
  uw_id : NoDup (map u_id (db_users d));
  uw_username : NoDup (map u_username (db_users d));
  uw_email : NoDup (map u_email (db_users d))
}.

Lemma users_wf_frame d d' : db_users d' = db_users d -> users_wf d -> users_wf d'.
Proof. intros H [? ? ?]. by split; rewrite H. Qed.

Lemma users_wf_faults : faults_irrelevant users_wf.
Proof. intros fs d. by apply users_wf_frame. Qed.

Lemma users_wf_update d p (f : UserRow -> UserRow) :
  (forall u, u_id (f u) = u_id u /\ u_username (f u) = u_username u /\ u_email (f u) = u_email u) ->
  users_wf d -> users_wf (set_db_users (update_where p f (db_users d)) d).
Proof. intros Hf [? ? ?]. by split; cbn; rewrite update_where_map; try (intros x; by destruct (Hf x) as (? & ? & ?)). Qed.

Lemma NoDup_snoc {A} (l : list A) x : NoDup l -> x ∉ l -> NoDup (l ++ [x]).
Proof.
  intros Hl Hx. apply NoDup_app. split_and!; [done| |apply NoDup_singleton].
  intros y Hy Hy'. apply list_elem_of_singleton in Hy' as ->. done.
Qed.

Lemma insert_user_wf req h d u d' : users_wf d -> insert_user req h d = Some (u, d') -> users_wf d'.
Proof.
  intros [Hi Hn He]. unfold insert_user. set (u0 := mkUser _ _ _ _ _ _ _ _ _ _ _ _ _ _ _).
  destruct (forallb _ _) eqn:Hf; [|done]. intros [= <- <-].
  rewrite forallb_forall in Hf.
  assert (forall B (g : UserRow -> B), (forall x, List.In x (db_users d) -> g x <> g u0) ->
    NoDup (map g (db_users d)) -> NoDup (map g (db_users d ++ [u0]))) as Hsnoc.
  { intros B g Hg Hnd. rewrite map_app. apply NoDup_snoc; [done|].
    intros Hin. apply list_elem_of_In, in_map_iff in Hin as (x & Hx & Hxin). by apply (Hg x). }
  split; cbn; (apply Hsnoc; [|done]); intros x Hx Heq; specialize (Hf x Hx);
    rewrite !andb_true_iff, !negb_true_iff, !bool_decide_eq_false in Hf; destruct Hf as [[? ?] ?]; done.
Qed.

(** Rewriting the one row with a given key keeps another key unique if the new
    value of it is used by no other row. *)
Lemma NoDup_update_key {A} (g : UserRow -> A) (p : UserRow -> bool) f l :
  NoDup (map g l) -> (forall x y, x ∈ l -> y ∈ l -> p x = true -> p y = true -> x = y) -> NoDup l ->
  (forall x y, x ∈ l -> y ∈ l -> p x = false -> p y = true -> g x <> g (f y)) ->
  NoDup (map g (update_where p f l)).
Proof.
  induction l as [|x l IH]; intros Hg Hsame Hl Hne; [constructor|]. cbn in *.
  apply NoDup_cons in Hg as [Hx Hg], Hl as [Hxl Hl]. constructor.
  - intros Hin. apply list_elem_of_In, in_map_iff in Hin as (z & Hz & Hzin). apply list_elem_of_In, update_where_in in Hzin as (y & Hy & ->).
    assert (g x ∈ map g l -> False) as Hx' by done. destruct (p x) eqn:Hpx, (p y) eqn:Hpy.
    + apply Hxl. rewrite (Hsame x y); [done|left|by right|done|done].
    + apply (Hne y x); [by right|left|done|done|done].
    + apply (Hne x y); [left|by right|done|done|done].
    + apply Hx'. rewrite <- Hz. apply list_elem_of_In, in_map. by apply list_elem_of_In.
  - apply IH; [done| |done|].
    + intros a b Ha Hb. apply Hsame; by right.
    + intros a b Ha Hb. apply Hne; by right.
Qed.

Lemma update_user_wf {SQLL : SqlLaws} id req d o d' : users_wf d -> apply_user_update id req d = Some (o, d') -> users_wf d'.
Proof.
  intros [Hi Hn He]. unfold apply_user_update. destruct (find_user id d) as [u|] eqn:Hu; [|by intros [= <- <-]].
  destruct (forallb _ _) eqn:Hf; [|done]. intros [= <- <-]. rewrite forallb_forall in Hf.
  apply head_scan_in in Hu as [Hu Hid].
  assert (NoDup (db_users d)) as Hnd by (by eapply NoDup_fmap_1).
  split; cbn; [by rewrite update_where_map|by rewrite update_where_map|].
  apply NoDup_update_key; [done| |done|].
  - intros x y Hx Hy Hpx%bool_decide_eq_true Hpy%bool_decide_eq_true. by apply (NoDup_key_inj u_id (db_users d)); [|..|congruence].
  - intros x y Hx Hy Hpx Hpy Heq. assert (y = u) as ->.
    { apply bool_decide_eq_true in Hpy, Hid. by apply (NoDup_key_inj u_id (db_users d)); [|..|congruence]. }
    apply list_elem_of_In in Hx. specialize (Hf x Hx). rewrite Hpx in Hf. cbn in Hf.
    by apply negb_true_iff, bool_decide_eq_false in Hf.
Qed.

Lemma drop_user_wf id d : users_wf d -> users_wf (drop_user id d).
Proof.
  intros [Hi Hn He].
  assert (forall B (g : UserRow -> B), NoDup (map g (db_users d)) -> NoDup (map g (db_users (drop_user id d)))) as Hdel.
  { intros B g Hg. cbn. eapply sublist_NoDup; [exact Hg|apply map_delete_where]. }
  split; by apply Hdel.
Qed.
End users.
