(* ===== verification/UserFacts.v ===== *)
(** * UserFacts: what managing accounts does to sessions and to the audit log

    Accounts keep unique keys under every request; deleting a user ends its
    sessions at once, deactivating it does not; and a deletion rewrites the
    audit rows of the deleted user, which the verification then reports. *)

From S2P Require Import Prelude Text Models Net Codec Db AuditLog Auth PolicyAdmin Ca Login LoginFacts Users.

Section facts.
Context {SQL : Sql} {SHA : Sha256} {JS : SerdeJson} {UT : UuidText} {RFC : Rfc3339} {JWT : Jwt} {A2 : Argon2}
  {UNI : Unicode} {SQLL : SqlLaws}.

(** ** Unique accounts *)

Inductive AccountOp :=
  | AoLogin (req : LoginRequest)
  | AoRefresh (token : string)
  | AoLogout (auth : AuthUser) (token : string)
  | AoChangePassword (auth : AuthUser) (current new : string)
  | AoCreate (auth : AuthUser) (req : CreateUserRequest)
  | AoUpdate (auth : AuthUser) (id : Uuid) (req : UpdateUserRequest)
  | AoDelete (auth : AuthUser) (id : Uuid)
  | AoBootstrap (password : string).

Definition run_account_op (sk : string) (op : AccountOp) : DB unit :=
  match op with
  | AoLogin req => ignore (login sk req)
  | AoRefresh token => ignore (refresh_token sk token)
  | AoLogout auth token => ignore (logout auth token)
  | AoChangePassword auth cur new => ignore (change_password auth cur new)
  | AoCreate auth req => ignore (create_user auth req)
  | AoUpdate auth id req => ignore (update_user auth id req)
  | AoDelete auth id => ignore (delete_user auth id)
  | AoBootstrap password => ignore (bootstrap_admin_password password)
  end.

Lemma keeps_users_log e : keeps users_wf (log_event (E:=AppError) e).
Proof. apply keeps_log_event; [apply users_wf_faults|..]; intros ? x; by apply users_wf_frame. Qed.

Lemma keeps_users_fetch {A} (f : Db -> A) : keeps users_wf (fetch f).
Proof. apply keeps_fetch, users_wf_faults. Qed.

Lemma keeps_users_hash pw : keeps users_wf (internal_password (hash_password pw)).
Proof.
  intros d Hd. destruct (hash_run pw d) as (r & Hr & _). unfold final. rewrite Hr. by apply (users_wf_frame d).
Qed.

Lemma keeps_users_issue sk id role name : keeps users_wf (internal_jwt (issue_access_token sk id role name)).
Proof.
  intros d Hd. destruct (issue_run sk id role name d) as (r & Hr & _). unfold final. rewrite Hr. by apply (users_wf_frame d).
Qed.

Lemma keeps_users_fresh : keeps users_wf fresh_uuid.
Proof. intros d Hd. by apply (users_wf_frame d). Qed.

(** A statement that updates account rows and keeps their keys. *)
Lemma keeps_users_update p (f : Db -> UserRow -> UserRow) :
  (forall d u, u_id (f d u) = u_id u /\ u_username (f d u) = u_username u /\ u_email (f d u) = u_email u) ->
  keeps users_wf (execute (fun d => set_db_users (update_where p (f d) (db_users d)) d)).
Proof. intros Hf. apply keeps_execute; [apply users_wf_faults|]. intros d Hd. apply users_wf_update; [apply Hf|done]. Qed.

Lemma keeps_users_query {A} (f : Db -> result A AppError * Db) :
  (forall d, users_wf d -> users_wf (snd (f d))) -> keeps users_wf (query f).
Proof.
  intros Hf d Hd. unfold final, query. destruct (db_faults d) as [|[] fs]; [by apply Hf|by apply users_wf_faults|].
  by apply Hf, users_wf_faults.
Qed.

Lemma keeps_users_role auth : keeps users_wf (require_admin_role auth).
Proof. unfold require_admin_role. auto with keeps. Qed.

Lemma keeps_users_not_found {A} msg (o : option A) : keeps users_wf (or_not_found msg o).
Proof. unfold or_not_found. destruct o; auto with keeps. Qed.

Lemma keeps_users_refresh (f : Db -> list RefreshTokenRow) : keeps users_wf (execute (fun d => set_db_refresh (f d) d)).
Proof. apply keeps_execute; [apply users_wf_faults|]. intros d. by apply users_wf_frame. Qed.
End facts.

#[export] Hint Resolve keeps_users_log keeps_users_fetch keeps_users_hash keeps_users_issue keeps_users_fresh
  keeps_users_role keeps_users_not_found keeps_users_refresh : keeps.

Section invariant.
Context {SQL : Sql} {SHA : Sha256} {JS : SerdeJson} {UT : UuidText} {RFC : Rfc3339} {JWT : Jwt} {A2 : Argon2}
  {UNI : Unicode} {SQLL : SqlLaws}.

Lemma login_users sk req : keeps users_wf (login sk req).
Proof.
  unfold login. repeat (apply keeps_bind; [auto with keeps|intros]).
  destruct (password_valid _ _); unfold login_accepted, login_rejected, reset_attempts, lock_account.
  - apply keeps_bind; [by apply keeps_ignore, keeps_users_update|intros _].
    do 3 (apply keeps_bind; [auto with keeps|intros]).
    apply keeps_bind; [apply keeps_ignore, keeps_execute_if; [apply users_wf_faults|intros ?; by apply users_wf_frame]|intros _].
    keeps_tac.
  - apply keeps_bind; [apply keeps_ignore, keeps_execute_if; [apply users_wf_faults|]; intros d Hd; by apply users_wf_update|].
    intros _. apply keeps_bind; [destruct (5 <=? _)%Z; [by apply keeps_ignore, keeps_users_update|apply keeps_ret]|intros _].
    keeps_tac.
Qed.

Lemma refresh_users sk token : keeps users_wf (refresh_token sk token).
Proof. unfold refresh_token. keeps_tac. Qed.

Lemma change_password_users auth cur new : keeps users_wf (change_password auth cur new).
Proof.
  unfold change_password, stored_hash. apply keeps_bind; [auto with keeps|intros _].
  apply keeps_bind; [apply keeps_users_query; intros d Hd; by repeat case_match|intros o].
  do 3 (apply keeps_bind; [auto with keeps|intros]). apply keeps_bind; [by apply keeps_users_update|auto with keeps].
Qed.

Lemma bootstrap_users password : keeps users_wf (bootstrap_admin_password password).
Proof.
  unfold bootstrap_admin_password. apply keeps_bind.
  { apply keeps_attempt, keeps_users_query. intros d Hd. by repeat case_match. }
  intros r. destruct (unwrap_or None r) as [h|]; [|auto with keeps]. destruct (negb _); [auto with keeps|].
  apply keeps_bind; [apply keeps_attempt; intros d Hd; by apply (users_wf_frame d)|intros [nh|e]; [|auto with keeps]].
  apply keeps_bind; [|auto with keeps]. apply keeps_attempt, keeps_users_query. intros d Hd. cbn.
  by apply users_wf_update.
Qed.

Lemma create_user_users auth req : keeps users_wf (create_user auth req).
Proof.
  unfold create_user. do 3 (apply keeps_bind; [auto with keeps|intros]).
  apply keeps_bind; [|intros; keeps_tac]. apply keeps_execute_returning; [apply users_wf_faults|].
  intros d u d'. apply insert_user_wf.
Qed.

Lemma update_user_users auth id req : keeps users_wf (update_user auth id req).
Proof.
  unfold update_user. apply keeps_bind; [auto with keeps|intros _]. apply keeps_bind; [|intros; keeps_tac].
  apply keeps_execute_returning; [apply users_wf_faults|]. intros d o d'. apply update_user_wf.
Qed.

Lemma delete_user_users auth id : keeps users_wf (delete_user auth id).
Proof.
  unfold delete_user. apply keeps_bind; [auto with keeps|intros _]. apply keeps_bind; [|intros; keeps_tac].
  apply keeps_execute; [apply users_wf_faults|]. intros d. apply drop_user_wf.
Qed.

(** Accounts stay unique: whatever sequence of logins, refreshes, logouts,
    password changes, account creations, edits and deletions is made, by
    whomever and with whatever database failures, no two accounts share an id, a
    user name or an address. *)
Theorem account_ops_keep_keys sk (ops : list AccountOp) (d : Db) :
  users_wf d -> users_wf (fold_left (fun d op => final (run_account_op sk op) d) ops d).
Proof.
  revert d. induction ops as [|op ops IH]; intros d Hd; [done|]. cbn. apply IH.
  assert (keeps users_wf (run_account_op sk op)) as Hk; [|by apply Hk].
  destruct op; cbn; apply keeps_ignore;
    [apply login_users|apply refresh_users|unfold logout; keeps_tac|apply change_password_users|apply create_user_users
    |apply update_user_users|apply delete_user_users|apply bootstrap_users].
Qed.

(** ** Deleting and deactivating *)

Lemma delete_user_run auth id d : healthy d -> is_admin (au_role auth) = true ->
  exists rows n, delete_user auth id d = (Ok 204%Z, set_db_audit rows (set_db_audit_seq n (drop_user id d))).
Proof.
  intros Hd Ha. unfold delete_user, require_admin_role, guard_or. rewrite Ha. erewrite bind_ok by reflexivity.
  erewrite bind_ok by by apply execute_healthy.
  match goal with |- context [log_event ?e] => destruct (log_healthy (E:=AppError) e (drop_user id d) Hd) as (rows & n & Hl) end.
  erewrite bind_ok by exact Hl. by eexists rows, n.
Qed.

Lemma jti_revoked_iff jti d : healthy d ->
  (forall t, t ∈ db_refresh d -> rt_jti t <> Some jti) -> is_jti_revoked (E:=AppError) jti d = (Ok true, d).
Proof.
  intros Hd Hno. unfold is_jti_revoked. erewrite bind_ok by (unfold attempt; rewrite fetch_healthy by done; reflexivity).
  destruct (head _) as [t|] eqn:Ht; [|done]. apply head_scan_in in Ht as [Ht Hj%bool_decide_eq_true]. by apply Hno in Hj.
Qed.

(** Deleting a user locks it out at once: after the deletion the account is
    gone, so is its operator scope, and every access token issued to it counts as
    revoked although it has not expired. *)
Theorem delete_user_ends_sessions auth id d : healthy d -> is_admin (au_role auth) = true ->
  exists d', delete_user auth id d = (Ok 204%Z, d') /\ user_exists id d' = false /\
    (forall g, (id, g) ∉ db_operator_groups d') /\
    forall jti, (forall t, t ∈ db_refresh d -> rt_jti t = Some jti -> rt_user_id t = id) ->
      is_jti_revoked (E:=AppError) jti d' = (Ok true, d').
Proof.
  intros Hd Ha. destruct (delete_user_run auth id d Hd Ha) as (rows & n & Hrun). eexists. split; [exact Hrun|]. split_and!.
  - unfold user_exists. apply not_true_iff_false. intros H. apply existsb_exists in H as (u & Hu & Hid).
    apply list_elem_of_In in Hu. cbn in Hu. apply delete_where_in in Hu as [_ Hn]. unfold is_user in Hn. by rewrite Hid in Hn.
  - intros g Hg. cbn in Hg. apply delete_where_in in Hg as [_ Hn]. by rewrite bool_decide_eq_true_2 in Hn.
  - intros jti Hown. apply jti_revoked_iff; [done|]. cbn. intros t Ht Hj. apply delete_where_in in Ht as [Ht Hn].
    by rewrite bool_decide_eq_true_2 in Hn by by apply Hown.
Qed.

(** Deactivating a user closes the login but not the sessions: what
    [require_auth] asks of the database is answered as before. *)
Theorem deactivation_keeps_sessions auth id d d' u : healthy d ->
  update_user auth id (mkUpdateUser None None None (Some false)) d = (Ok u, d') ->
  uv_is_active u = false /\ db_refresh d' = db_refresh d /\
  forall jti, fst (is_jti_revoked (E:=AppError) jti d') = fst (is_jti_revoked (E:=AppError) jti d).
Proof.
  intros Hd H. unfold update_user in H. apply bind_inv_ok in H as ([] & d0 & Hr & H).
  unfold require_admin_role, guard_or in Hr. destruct (is_admin _); [|done]. injection Hr as <-.
  apply bind_inv_ok in H as (o & d1 & Ho & H). unfold execute_returning, query in Ho. rewrite Hd in Ho.
  unfold apply_user_update in Ho. destruct (find_user id d) as [x|]; [|by injection Ho as <- <-; inv_ret H].
  destruct (forallb _ _); [|done]. injection Ho as <- <-. erewrite bind_ok in H by reflexivity.
  match type of H with context [log_event ?e] => 
    destruct (log_healthy (E:=AppError) e (set_db_users (update_where (is_user id)
      (updated_user (mkUpdateUser None None None (Some false)) (db_now d)) (db_users d)) d) Hd) as (rows & n & Hl) end.
  erewrite bind_ok in H by exact Hl. inv_ret H. split_and!; [done|done|]. intros jti. unfold is_jti_revoked.
  erewrite !bind_ok by (unfold attempt; rewrite fetch_healthy by done; reflexivity). done.
Qed.

(** ** The audit log *)

Lemma clear_user_ne id o : o <> Some id -> clear_user id o = o.
Proof. intros H. unfold clear_user. by rewrite bool_decide_eq_false_2. Qed.

Lemma audit_without_actor_ne id r : ar_actor_user_id r <> Some id -> audit_without_actor id r = r.
Proof. intros H. unfold audit_without_actor. rewrite clear_user_ne by done. by destruct r. Qed.

(** A row that loses its actor no longer has its hash. *)
Lemma cleared_row_mismatch {UTL : UuidTextLaws} id prev r : ar_actor_user_id r = Some id ->
  expected_hash prev (audit_without_actor id r) = expected_hash prev r -> sha256_collision.
Proof.
  intros Ha Heq. unfold expected_hash in Heq. eexists _, _. split; [|exact Heq].
  unfold event_bytes, row_event, audit_without_actor, clear_user. cbn. rewrite Ha, bool_decide_eq_true_2 by done. cbn.
  intros Hb. apply (f_equal String.length) in Hb. rewrite !str_length_app in Hb. cbn in Hb.
  assert (String.length (uuid_to_string id) <> 0)%nat; [|lia].
  pose proof (uuid_to_string_hyphen id). by destruct (uuid_to_string id).
Qed.

(** Deleting a user damages the audit log: of a log that verified, the
    verification afterwards reports exactly the rows of events the deleted user
    caused (up to a SHA-256 collision), as if they had been tampered with. *)
Theorem delete_user_breaks_audit {UTL : UuidTextLaws} id (d : Db) :
  verify_rows "" (db_audit d) = [] ->
  verify_rows "" (db_audit (drop_user id d)) =
    map ar_id (List.filter (fun r => bool_decide (ar_actor_user_id r = Some id)) (db_audit d)) \/ sha256_collision.
Proof.
  change (db_audit (drop_user id d)) with (map (audit_without_actor id) (db_audit d)).
  generalize (db_audit d) as rows. generalize "" as prev. intros prev rows. revert prev.
  induction rows as [|r rows IH]; intros prev Hv; [by left|]. cbn in *.
  case_bool_decide as He; [|done]. destruct (IH _ Hv) as [Hi|]; [|by right].
  change (ar_row_hash (audit_without_actor id r)) with (ar_row_hash r). rewrite Hi.
  destruct (decide (ar_actor_user_id r = Some id)) as [Ha|Ha].
  - rewrite (bool_decide_eq_true_2 _ Ha). case_bool_decide as Hx; [right|by left].
    eapply (cleared_row_mismatch id prev r Ha). congruence.
  - left. rewrite (bool_decide_eq_false_2 _ Ha), audit_without_actor_ne by done. by rewrite bool_decide_eq_true_2.
Qed.

(** An administrator's deletion of its own account is not logged: the event's
    actor no longer exists. *)
Theorem self_deletion_unlogged auth d : healthy d -> is_admin (au_role auth) = true ->
  exists d', delete_user auth (au_user_id auth) d = (Ok 204%Z, d') /\ length (db_audit d') = length (db_audit d).
Proof.
  intros Hd Ha. unfold delete_user, require_admin_role, guard_or. rewrite Ha. erewrite bind_ok by reflexivity.
  erewrite bind_ok by by apply execute_healthy. set (d1 := drop_user _ d).
  match goal with |- context [log_event ?e] => assert (loggable e d1 = false) as Hno end.
  { apply andb_false_iff. right. cbn. unfold user_exists. apply not_true_iff_false. intros H.
    apply existsb_exists in H as (u & Hu & Hid). apply list_elem_of_In in Hu. cbn in Hu.
    apply delete_where_in in Hu as [_ Hn]. unfold is_user in Hn. by rewrite Hid in Hn. }
  assert (healthy d1) as Hd1 by exact Hd.
  eexists. split.
  - erewrite bind_ok by (by apply log_event_refused). reflexivity.
  - cbn. by rewrite length_map.
Qed.
End invariant.

(** ** Examples *)

Definition root_auth : AuthUser := mkAuthUser (uuid_of 1) "root" Admin (mkClaims "" 0 0 "" "" "") None.
Definition root_user : UserRow :=
  mkUser (uuid_of 1) "root" "" "root@example" Admin Local (Some (to_text (1%N, "Secret-1"))) false true true None 0 0 0 None.
Definition session_row : RefreshTokenRow := mkRefresh (uuid_of 7) "h" 0 0 HOUR false None (Some "jti-7").
(** Two accounts, a session of the second and one audited event of each. *)
Definition accounts_db : Db :=
  let d := set_db_operator_groups [(uuid_of 7, uuid_of 3)] (set_db_refresh [session_row] (set_db_users [root_user; login_user] empty_db)) in
  let say who := final (@log_event toy_sha256 toy_serde toy_uuid_text toy_rfc3339 AppError
    (mkEvent "rule_created" (Some who) None None None (JObj []) None None)) in
  say (uuid_of 7) (say (uuid_of 1) d).

Lemma accounts_db_wf : users_wf accounts_db.
Proof. split; vm_compute; repeat constructor; set_solver. Qed.

Lemma account_ops_keep_keys_witness :
  let ops := [AoLogin (mkLogin "op" "Secret-1" None); AoCreate root_auth (mkCreateUser "op" "" "other@example" Operator "Secret-1");
              AoDelete root_auth (uuid_of 7)] in
  users_wf (fold_left (fun d op => final (@run_account_op toy_sql toy_sha256 toy_serde toy_uuid_text toy_rfc3339 toy_jwt toy_argon2
    toy_unicode "sk" op) d) ops accounts_db).
Proof.
  cbv zeta. apply (@account_ops_keep_keys toy_sql toy_sha256 toy_serde toy_uuid_text toy_rfc3339 toy_jwt toy_argon2 toy_unicode toy_sql_laws).
  exact accounts_db_wf.
Defined.

Lemma delete_user_ends_sessions_witness :
  (exists t, t ∈ db_refresh accounts_db /\ rt_jti t = Some "jti-7") /\
  exists d', @delete_user toy_sha256 toy_serde toy_uuid_text toy_rfc3339 root_auth (uuid_of 7) accounts_db = (Ok 204%Z, d') /\
    @is_jti_revoked toy_sql AppError "jti-7" d' = (Ok true, d').
Proof.
  split; [exists session_row; split; [left|reflexivity]|].
  destruct (@delete_user_ends_sessions toy_sql toy_sha256 toy_serde toy_uuid_text toy_rfc3339 toy_sql_laws root_auth (uuid_of 7) accounts_db
    eq_refl eq_refl) as (d' & Hrun & _ & _ & Hj).
  exists d'. split; [exact Hrun|]. apply Hj. intros t Ht _. by apply list_elem_of_singleton in Ht as ->.
Defined.

Lemma delete_user_breaks_audit_witness :
  @verify_rows toy_sha256 toy_serde toy_uuid_text toy_rfc3339 "" (db_audit accounts_db) = [] /\
  @verify_rows toy_sha256 toy_serde toy_uuid_text toy_rfc3339 "" (db_audit (drop_user (uuid_of 7) accounts_db)) = [2%Z].
Proof.
  split; [vm_compute; reflexivity|].
  destruct (@delete_user_breaks_audit toy_sha256 toy_serde toy_uuid_text toy_rfc3339 toy_uuid_text_laws (uuid_of 7) accounts_db eq_refl)
    as [H|_]; [rewrite H; reflexivity|vm_compute; reflexivity].
Defined.
