(* ===== verification/Settings.v ===== *)
(** * Settings: the manager's settings

    [crates/fw-web/src/routes/settings.rs]: the sections kept as JSON text in
    [system_config], the address whitelist and the trusted proxies that the
    running authentication also holds, and the check-in interval that a change
    pushes to every host. *)

From S2P Require Import Prelude Text Models Net Db AuditLog Auth PolicyAdmin.

(** ** JSON text *)

(** [serde_json::from_str]. *)
Class SerdeParse := { json_parse : string -> option Json }.

(** The values [serde_json] holds: its integers, and objects with their keys in order. *)
Fixpoint keys_increase (fields : list (string * Json)) : bool :=
  match fields with
  | (k, _) :: ((k', _) :: _) as rest => String.ltb k k' && keys_increase rest
  | _ => true
  end.
Fixpoint json_value (j : Json) : bool :=
  match j with
  | JNum z => (- 2 ^ 63 <=? z)%Z && (z <? 2 ^ 64)%Z
  | JArr l => forallb json_value l
  | JObj fields => keys_increase fields && forallb (fun '(_, v) => json_value v) fields
  | JNull | JBool _ | JStr _ => true
  end.

(** [from_str] reads back what [to_string] writes. *)
Class SerdeParseLaws `{!SerdeJson, !SerdeParse} := {
  json_parse_to_string : forall j, json_value j = true -> json_parse (json_to_string j) = Some j
}.

Definition json_get (key : string) (j : Json) : option Json :=
  match j with JObj fields => snd <$> List.find (fun '(k, _) => bool_decide (k = key)) fields | _ => None end.
Definition json_str (j : Json) : option string := match j with JStr s => Some s | _ => None end.
Definition json_i64 (j : Json) : option Z :=
  match j with JNum z => if (- 2 ^ 63 <=? z)%Z && (z <? 2 ^ 63)%Z then Some z else None | _ => None end.
(** A [Vec<String>] and its JSON. *)
Definition json_strings (j : Json) : option (list string) := match j with JArr l => mapM json_str l | _ => None end.
Definition strings_json (l : list string) : Json := JArr (map JStr l).

(** ** Networks of one address *)

(** [Ipv4Net::new(ip, 32)] and [Ipv6Net::new(ip, 128)]: the network of one address. *)
Class IpNetHost {LIB : IpNetLib} := { ipnet_host : IpAddr -> IpNet }.
Class IpNetTextLaws {LIB : IpNetLib} {HOST : IpNetHost} := {
  ipnet_parse_to_string : forall n, ipnet_parse (ipnet_to_string n) = Some n;
  ipnet_host_contains : forall a ip, ip_wf a -> ip_wf ip -> ipnet_contains (ipnet_host a) ip = bool_decide (ip = a)
}.

(** ** State *)

(** The part of [AppState] the settings touch. *)
Record Web {LIB : IpNetLib} := mkWeb { web_db : Db; web_auth : AuthConfig }.
Arguments mkWeb {LIB} _ _.

Record Settings := mkSettings {
  st_oidc : Json; st_smtp : Json; st_polling : Json; st_ip_whitelist : list string;
  st_web_tls_strategy : string; st_notification : Json
}.
Record UpdateSettingsRequest := mkUpdateSettings {
  us_oidc : option Json; us_smtp : option Json; us_polling : option Json; us_ip_whitelist : option (list string);
  us_web_tls_strategy : option string; us_notification : option Json
}.

(** [iter().map(f).collect::<Result<Vec<_>, _>>()]: the first error wins. *)
Fixpoint collect_results {A B E} (f : A -> result B E) (l : list A) : result (list B) E :=
  match l with
  | [] => Ok []
  | x :: l' => let? y := f x in let? ys := collect_results f l' in Ok (y :: ys)
  end.

Section settings.
Context {SQL : Sql} {SHA : Sha256} {JS : SerdeJson} {UT : UuidText} {RFC : Rfc3339} {JP : SerdeParse}.

(** ** [system_config] *)

(** [SELECT value FROM system_config WHERE key = $1]. *)
Definition config_value (key : string) (d : Db) : option string :=
  snd <$> head (sql_scan (List.filter (fun '(k, _) => bool_decide (k = key)) (db_config d))).

(** A failing query reads as an absent key. *)
Definition get_config_json {E} (key : string) : M Db E (option Json) :=
  r ← attempt (fetch (config_value key));
  mret (unwrap_or None r ≫= json_parse).

(** [INSERT .. ON CONFLICT (key) DO UPDATE]. *)
Definition upsert_config (key value : string) (d : Db) : Db :=
  set_db_config (if existsb (fun '(k, _) => bool_decide (k = key)) (db_config d)
                 then update_where (fun '(k, _) => bool_decide (k = key)) (fun '(k, _) => (k, value)) (db_config d)
                 else db_config d ++ [(key, value)]) d.

Definition set_config (key : string) (value : Json) : DB unit := execute (upsert_config key (json_to_string value)).

(** [n.clamp(1, 86_400)] of the integer in [check_in_interval_secs]. *)
Definition interval_of (v : Json) : option Z :=
  (fun n => Z.min (Z.max n 1) 86400) <$> (json_get "check_in_interval_secs" v ≫= json_i64).

Definition global_check_in_interval {E} : M Db E Z :=
  v ← get_config_json "settings_polling";
  mret (default 900%Z (v ≫= interval_of)).

(** ** The combined settings *)

Definition default_oidc : Json :=
  JObj [("client_id", JStr ""); ("client_secret", JStr ""); ("enabled", JBool false); ("issuer", JStr ""); ("redirect_uri", JStr "")].
Definition default_smtp : Json :=
  JObj [("enabled", JBool false); ("from", JStr ""); ("host", JStr ""); ("password", JStr ""); ("port", JNum 587);
        ("tls_mode", JStr "starttls"); ("username", JStr "")].
Definition default_polling : Json := JObj [("check_in_interval_secs", JNum 900)].
Definition default_notification : Json :=
  JObj [("email_enabled", JBool false); ("webhook_enabled", JBool false); ("webhook_url", JStr "")].

Definition string_list (value : option string) : list string := default [] (s ← value; j ← json_parse s; json_strings j).

Definition get_settings : DB Settings :=
  whitelist ← fetch (config_value "ip_whitelist");
  oidc ← get_config_json "settings_oidc";
  smtp ← get_config_json "settings_smtp";
  polling ← get_config_json "settings_polling";
  strategy ← get_config_json "settings_web_tls_strategy";
  notification ← get_config_json "settings_notification";
  mret (mkSettings (default default_oidc oidc) (default default_smtp smtp) (default default_polling polling)
          (string_list whitelist) (default "internal_ca" (strategy ≫= json_str)) (default default_notification notification)).

(** [UPDATE host_config_overrides SET .. WHERE check_in_interval_secs IS DISTINCT
    FROM $1]; an [INTEGER] version past its range is an error. *)
Definition interval_differs (interval : Z) (o : ConfigOverrideRow) : bool :=
  negb (bool_decide (co_check_in_interval_secs o = interval)).
Definition with_interval (interval : Z) (o : ConfigOverrideRow) : ConfigOverrideRow :=
  mkOverride (co_host_id o) interval (co_push_enabled o) (co_safe_mode_enabled o) (co_backend_override o)
    (co_config_version o + 1) (co_last_known_good_hash o) (co_updated_at o).
Definition push_interval (interval : Z) : DB unit :=
  execute_if (fun d => forallb (fun o => negb (interval_differs interval o) || (co_config_version o <? 2 ^ 31 - 1)%Z) (db_overrides d))
    (fun d => set_db_overrides (update_where (interval_differs interval) (with_interval interval) (db_overrides d)) d).

(** [if let Some(v) = .. { set_config(..).await?; }]. *)
Definition set_section (key : string) (v : option Json) : DB unit :=
  match v with Some j => set_config key j | None => mret tt end.

Definition update_settings (auth : AuthUser) (req : UpdateSettingsRequest) : DB Settings :=
  _ ← require_admin_role auth;
  _ ← set_section "ip_whitelist" (strings_json <$> us_ip_whitelist req);
  _ ← set_section "settings_oidc" (us_oidc req);
  _ ← set_section "settings_smtp" (us_smtp req);
  _ ← match us_polling req with
      | Some v =>
          _ ← set_config "settings_polling" v;
          match interval_of v with Some n => push_interval n | None => mret tt end
      | None => mret tt
      end;
  _ ← set_section "settings_web_tls_strategy" (JStr <$> us_web_tls_strategy req);
  _ ← set_section "settings_notification" (us_notification req);
  _ ← log_event (user_event auth "config_changed" "system" "settings" (JObj []));
  get_settings.

(** ** Single-sign-on and mail *)

Definition get_oidc_config : DB (option OidcConfigRow) :=
  fetch (fun d => head (sql_scan (List.filter (fun o => bool_decide (oc_id o = 1%Z)) (db_oidc d)))).

(** The request body is not used. *)
Definition update_oidc_config (auth : AuthUser) (req : Json) : DB Z :=
  _ ← require_admin_role auth;
  _ ← log_event (user_event auth "config_changed" "settings" "oidc" (JObj []));
  mret 200%Z.

Definition get_smtp_config : DB (bool * string) :=
  enabled ← fetch (fun d => default "" (config_value "smtp_enabled" d));
  host ← fetch (fun d => default "" (config_value "smtp_host" d));
  mret (bool_decide (enabled = "true"), host).

Definition update_smtp_config (auth : AuthUser) (req : Json) : DB Z :=
  _ ← require_admin_role auth;
  _ ← log_event (user_event auth "config_changed" "settings" "smtp" (JObj []));
  mret 200%Z.

(** ** Whitelist and trusted proxies *)

Definition get_ip_whitelist : DB (list string) := fetch (fun d => string_list (config_value "ip_whitelist" d)).
Definition get_trusted_proxies : DB (list string) := fetch (fun d => string_list (config_value "trusted_proxies" d)).
End settings.

Section lists.
Context {SQL : Sql} {SHA : Sha256} {JS : SerdeJson} {UT : UuidText} {RFC : Rfc3339} {JP : SerdeParse} {LIB : IpNetLib} {HOST : IpNetHost}.
Notation WEB := (M Web AppError).

(** A database operation inside the server. *)
Definition on_web {A} (m : DB A) : WEB A := fun s => let '(r, d) := m (web_db s) in (r, mkWeb d (web_auth s)).
Definition set_auth (f : AuthConfig -> AuthConfig) : WEB unit := modify (fun s => mkWeb (web_db s) (f (web_auth s))).

Definition validate_cidr_or_ip (entry : string) : result string string :=
  let trimmed := trim entry in
  if is_empty trimmed then Err entry
  else match ipnet_parse trimmed with
       | Some net => Ok (ipnet_to_string net)
       | None => match ip_parse trimmed with
                 | Some ip => Ok (ipnet_to_string (ipnet_host ip))
                 | None => Err entry
                 end
       end.

Definition invalid_entry (bad : string) : AppError :=
  BadRequest ("Invalid IP/CIDR entry: '" +:+ bad +:+ "'. Use formats like 10.0.0.0/8, 192.168.1.0/24, or 10.0.0.1").
Definition lockout_message (ip : IpAddr) : AppError :=
  BadRequest ("Lockout prevention: your IP (" +:+ ip_to_string ip +:+ ") is not in the new whitelist. Add your IP or subnet to the list before saving, or clear the list to allow all IPs.").

Definition entry_covers (ip : IpAddr) (entry : string) : bool :=
  match ipnet_parse entry with Some net => ipnet_contains net ip | None => false end.

(** [PUT /settings/ip-whitelist]. *)
Definition put_ip_whitelist (auth : AuthUser) (entries : list string) : WEB Z :=
  _ ← on_web (require_admin_role auth);
  validated ← lift_result (map_err invalid_entry (collect_results validate_cidr_or_ip entries));
  let requester_ip := default (V4 0) (au_ip auth) in
  _ ← guard_or (bool_decide (validated = []) || existsb (entry_covers requester_ip) validated) (lockout_message requester_ip);
  _ ← on_web (set_config "ip_whitelist" (strings_json validated));
  _ ← set_auth (update_ip_whitelist validated);
  _ ← on_web (log_event (user_event auth "config_changed" "settings" "ip_whitelist" (JObj [])));
  mret 200%Z.

(** [PUT /settings/trusted-proxies]. *)
Definition put_trusted_proxies (auth : AuthUser) (entries : list string) : WEB Z :=
  _ ← on_web (require_admin_role auth);
  validated ← lift_result (map_err invalid_entry (collect_results validate_cidr_or_ip entries));
  _ ← on_web (set_config "trusted_proxies" (strings_json validated));
  _ ← set_auth (update_trusted_proxies validated);
  mret 200%Z.
End lists.

(** ** Facts *)

Section config_facts.
Context {SQL : Sql} {JP : SerdeParse} {SQLL : SqlLaws}.

Lemma global_interval_run {E} d : healthy d -> exists i, global_check_in_interval (E:=E) d = (Ok i, d) /\ (1 <= i <= 86400)%Z.
Proof using.
  intros Hd. unfold global_check_in_interval, get_config_json, attempt, mbind, M_bind.
  rewrite fetch_healthy by done. eexists. split; [reflexivity|].
  match goal with |- context [default _ ?o] => destruct o as [n|] eqn:Hn end; simpl; [|lia].
  apply bind_Some in Hn as (v & _ & Hv). apply fmap_Some in Hv as (m & _ & ->). lia.
Qed.

(** Reading a key after writing it, and after writing another. *)
Lemma config_upsert_same key v d : config_value key (upsert_config key v d) = Some v.
Proof.
  set (p := fun kv : string * string => bool_decide (kv.1 = key)).
  assert (exists kv, kv ∈ db_config (upsert_config key v d) /\ kv.1 = key) as (kv & Hin & Hk).
  { unfold upsert_config. cbn. destruct (existsb _ _) eqn:He.
    - apply existsb_exists in He as ([k w] & Hkw & Hk). exists (k, v). split; [|by apply bool_decide_eq_true in Hk].
      apply list_elem_of_In, in_map_iff. exists (k, w). by rewrite Hk.
    - exists (key, v). split; [set_solver|done]. }
  assert (forall kv', kv' ∈ db_config (upsert_config key v d) -> kv'.1 = key -> kv'.2 = v) as Hall.
  { intros [k' v'] Hin' Hk'. unfold upsert_config in Hin'. cbn in *. subst k'. destruct (existsb _ _) eqn:He.
    - apply update_where_in in Hin' as ([k w] & _ & Heq). destruct (bool_decide (k = key)) eqn:Hb; simplify_eq; [done|].
      by rewrite bool_decide_eq_true_2 in Hb.
    - apply elem_of_app in Hin' as [Hin'|Hin'%list_elem_of_singleton]; [|by simplify_eq].
      rewrite <- not_true_iff_false, existsb_exists in He. destruct He. exists (key, v'). split; [by apply list_elem_of_In|].
      by apply bool_decide_eq_true_2. }
  unfold config_value. destruct (head_scan_some (fun '(k, _) => bool_decide (k = key)) (db_config (upsert_config key v d)) kv)
    as [[k' v'] Hy]; [done|destruct kv; by apply bool_decide_eq_true_2|].
  rewrite Hy. apply head_scan_in in Hy as [Hy Hk'%bool_decide_eq_true]. cbn. f_equal. exact (Hall _ Hy Hk').
Qed.

Lemma config_upsert_other key key' v d : key' <> key -> config_value key' (upsert_config key v d) = config_value key' d.
Proof using.
  intros Hne. unfold config_value. do 3 f_equal. unfold upsert_config. cbn. destruct (existsb _ _).
  - unfold update_where. induction (db_config d) as [|[k w] l IH]; [done|]. cbn [map List.filter].
    case_bool_decide as Hk; [subst k; rewrite bool_decide_eq_false_2 by done|by rewrite IH]. exact IH.
  - rewrite List.filter_app. cbn. rewrite bool_decide_eq_false_2 by done. apply app_nil_r.
Qed.

Lemma get_config_run {E} key d : healthy d -> get_config_json (E:=E) key d = (Ok (config_value key d ≫= json_parse), d).
Proof using.
  intros Hd. unfold get_config_json. erewrite bind_ok by (unfold attempt; rewrite fetch_healthy by done; reflexivity). done.
Qed.
End config_facts.
