(* ===== verification/SettingsFacts.v ===== *)
(** * SettingsFacts: what saving settings does

    Saved sections are read back; a new check-in interval reaches every host; the
    whitelist in force is the one asked for, and setting it does not shut out an
    administrator who connects directly. *)

From S2P Require Import Prelude Text Codec Models Net Wire Db AuditLog Auth AgentApi PolicyAdmin Settings.

Section facts.
Context {SQL : Sql} {SHA : Sha256} {JS : SerdeJson} {UT : UuidText} {RFC : Rfc3339} {JP : SerdeParse} {SQLL : SqlLaws}.

(** ** Saving sections *)

Definition apply_section (key : string) (v : option Json) (d : Db) : Db :=
  match v with Some j => upsert_config key (json_to_string j) d | None => d end.

Lemma set_section_run key v d : healthy d -> set_section key v d = (Ok tt, apply_section key v d).
Proof. intros Hd. destruct v; [|done]. by apply execute_healthy. Qed.

Lemma apply_section_healthy key v d : healthy d -> healthy (apply_section key v d).
Proof. by destruct v. Qed.

Lemma apply_section_overrides key v d : db_overrides (apply_section key v d) = db_overrides d.
Proof. by destruct v. Qed.

Lemma apply_section_value key v key' d : config_value key' (apply_section key v d) =
  if bool_decide (key' = key) then match v with Some j => Some (json_to_string j) | None => config_value key' d end
  else config_value key' d.
Proof.
  destruct v; cbn; case_bool_decide; subst; [by rewrite config_upsert_same|by rewrite config_upsert_other|done|done].
Qed.

Lemma apply_section_config key v d d' :
  db_config d = db_config d' -> db_config (apply_section key v d) = db_config (apply_section key v d').
Proof. intros H. destruct v; [cbn; by rewrite H|done]. Qed.

(** What [get_settings] reads. *)
Definition read_section (key : string) (d : Db) : option Json := config_value key d ≫= json_parse.
Definition settings_of (d : Db) : Settings :=
  mkSettings (default default_oidc (read_section "settings_oidc" d)) (default default_smtp (read_section "settings_smtp" d))
    (default default_polling (read_section "settings_polling" d)) (string_list (config_value "ip_whitelist" d))
    (default "internal_ca" (read_section "settings_web_tls_strategy" d ≫= json_str))
    (default default_notification (read_section "settings_notification" d)).

Lemma get_settings_run d : healthy d -> get_settings d = (Ok (settings_of d), d).
Proof.
  intros Hd. unfold get_settings. erewrite bind_ok by by apply fetch_healthy.
  do 5 (erewrite bind_ok by by apply get_config_run). done.
Qed.

(** The tables after the sections of a request are saved. *)
Definition saved (req : UpdateSettingsRequest) (d : Db) : Db :=
  let d := apply_section "ip_whitelist" (strings_json <$> us_ip_whitelist req) d in
  let d := apply_section "settings_smtp" (us_smtp req) (apply_section "settings_oidc" (us_oidc req) d) in
  let d := apply_section "settings_polling" (us_polling req) d in
  let d := match us_polling req ≫= interval_of with
           | Some n => set_db_overrides (update_where (interval_differs n) (with_interval n) (db_overrides d)) d
           | None => d
           end in
  apply_section "settings_notification" (us_notification req)
    (apply_section "settings_web_tls_strategy" (JStr <$> us_web_tls_strategy req) d).

(** No configuration version is at the end of its range. *)
Definition versions_fit (d : Db) : Prop := forall o, o ∈ db_overrides d -> (co_config_version o < 2 ^ 31 - 1)%Z.

Lemma push_interval_run n d : healthy d -> versions_fit d ->
  push_interval n d = (Ok tt, set_db_overrides (update_where (interval_differs n) (with_interval n) (db_overrides d)) d).
Proof.
  intros Hd Hv. unfold push_interval, execute_if, query. rewrite Hd.
  rewrite (proj2 (forallb_forall _ _)); [done|]. intros o Ho%list_elem_of_In. apply orb_true_iff. right.
  apply Z.ltb_lt. by apply Hv.
Qed.

Lemma saved_healthy req d : healthy d -> healthy (saved req d).
Proof. intros Hd. unfold saved. destruct (us_polling req ≫= interval_of); repeat apply apply_section_healthy; auto using apply_section_healthy. Qed.

Lemma update_settings_run auth req d : healthy d -> is_admin (au_role auth) = true -> versions_fit d ->
  exists rows n, update_settings auth req d =
    (Ok (settings_of (saved req d)), set_db_audit rows (set_db_audit_seq n (saved req d))).
Proof.
  intros Hd Ha Hv. unfold update_settings, require_admin_role, guard_or. rewrite Ha. erewrite bind_ok by reflexivity.
  do 3 (erewrite bind_ok by (apply set_section_run; auto using apply_section_healthy)).
  set (d3 := apply_section "settings_smtp" _ _).
  assert (healthy d3) as H3 by (unfold d3; auto using apply_section_healthy).
  assert (db_overrides d3 = db_overrides d) as Ho by (unfold d3; by rewrite !apply_section_overrides).
  match goal with |- context [(?pm ≫= _) d3] => 
    assert (exists d4, pm d3 = (Ok tt, d4) /\ healthy d4 /\
      apply_section "settings_notification" (us_notification req)
        (apply_section "settings_web_tls_strategy" (JStr <$> us_web_tls_strategy req) d4) = saved req d) as (d4 & Hrun & H4 & Hs) end.
  { unfold saved. fold d3. destruct (us_polling req) as [v|]; [|by exists d3].
    erewrite bind_ok by (apply (set_section_run "settings_polling" (Some v)); exact H3). cbn [apply_section mbind option_bind].
    destruct (interval_of v) as [i|]; [|by eexists].
    eexists. split; [apply push_interval_run; [done|]|done]. intros o Hin. apply Hv. by rewrite <- Ho. }
  erewrite bind_ok by exact Hrun.
  do 2 (erewrite bind_ok by (apply set_section_run; auto using apply_section_healthy)). rewrite Hs.
  assert (healthy (saved req d)) as H6 by by apply saved_healthy.
  match goal with |- context [log_event ?e] => destruct (log_healthy (E:=AppError) e (saved req d) H6) as (rows & n & Hl) end.
  erewrite bind_ok by exact Hl. exists rows, n. by rewrite get_settings_run.
Qed.

Lemma saved_value req key d : config_value key (saved req d) = config_value key
  (apply_section "settings_notification" (us_notification req) (apply_section "settings_web_tls_strategy" (JStr <$> us_web_tls_strategy req)
    (apply_section "settings_polling" (us_polling req) (apply_section "settings_smtp" (us_smtp req)
      (apply_section "settings_oidc" (us_oidc req) (apply_section "ip_whitelist" (strings_json <$> us_ip_whitelist req) d)))))).
Proof.
  unfold saved. destruct (us_polling req ≫= interval_of) as [n|]; [|done].
  unfold config_value. do 4 f_equal. by do 2 apply apply_section_config.
Qed.

(** The section of a request that is kept under a key. *)
Definition section_of (key : string) (req : UpdateSettingsRequest) : option Json :=
  if bool_decide (key = "settings_notification") then us_notification req
  else if bool_decide (key = "settings_web_tls_strategy") then JStr <$> us_web_tls_strategy req
  else if bool_decide (key = "settings_polling") then us_polling req
  else if bool_decide (key = "settings_smtp") then us_smtp req
  else if bool_decide (key = "settings_oidc") then us_oidc req
  else if bool_decide (key = "ip_whitelist") then strings_json <$> us_ip_whitelist req
  else None.

Lemma saved_lookup key req d : config_value key (saved req d) =
  match section_of key req with Some j => Some (json_to_string j) | None => config_value key d end.
Proof.
  rewrite saved_value, !apply_section_value. unfold section_of.
  repeat case_bool_decide; subst; try discriminate; try done.
Qed.

(** The settings with the sections of a request put in. *)
Definition merged (req : UpdateSettingsRequest) (s : Settings) : Settings :=
  mkSettings (default (st_oidc s) (us_oidc req)) (default (st_smtp s) (us_smtp req)) (default (st_polling s) (us_polling req))
    (default (st_ip_whitelist s) (us_ip_whitelist req)) (default (st_web_tls_strategy s) (us_web_tls_strategy req))
    (default (st_notification s) (us_notification req)).

(** Every section of the request is a JSON value. *)
Definition request_values (req : UpdateSettingsRequest) : Prop :=
  forall key j, section_of key req = Some j -> json_value j = true.

Lemma saved_section {JPL : SerdeParseLaws} key req d : request_values req ->
  read_section key (saved req d) = match section_of key req with Some j => Some j | None => read_section key d end.
Proof.
  intros Hv. unfold read_section. rewrite saved_lookup. destruct (section_of key req) as [j|] eqn:Hs; [|done].
  cbn. by eapply json_parse_to_string, Hv.
Qed.

Lemma json_strings_of l : json_strings (strings_json l) = Some l.
Proof. unfold json_strings, strings_json. induction l as [|s l IH]; [done|]. cbn in *. by rewrite IH. Qed.

Lemma string_list_section key d : string_list (config_value key d) = default [] (read_section key d ≫= json_strings).
Proof. unfold string_list, read_section. by destruct (config_value key d). Qed.

(** Saving settings and reading them: on a database without faults, an
    administrator's request replaces exactly the sections it names, the answer
    and every later read show the new sections with the others unchanged, and
    every section comes back as the JSON it was sent as. *)
Theorem settings_read_back {JPL : SerdeParseLaws} auth req d s0 :
  healthy d -> is_admin (au_role auth) = true -> versions_fit d -> request_values req -> get_settings d = (Ok s0, d) ->
  exists d', update_settings auth req d = (Ok (merged req s0), d') /\ get_settings d' = (Ok (merged req s0), d').
Proof.
  intros Hd Ha Hf Hv H0. rewrite get_settings_run in H0 by done. injection H0 as <-.
  destruct (update_settings_run auth req d Hd Ha Hf) as (rows & n & Hrun).
  assert (settings_of (saved req d) = merged req (settings_of d)) as Hs.
  { unfold settings_of at 1. rewrite string_list_section, !saved_section by done. unfold section_of, merged, settings_of. cbn.
    rewrite string_list_section. f_equal.
    all: try by destruct (us_oidc req). all: try by destruct (us_smtp req). all: try by destruct (us_polling req).
    all: try by destruct (us_notification req). all: try by destruct (us_web_tls_strategy req).
    destruct (us_ip_whitelist req) as [l|]; [exact (f_equal (default []) (json_strings_of l))|done]. }
  rewrite Hs in Hrun. eexists. split; [exact Hrun|]. rewrite get_settings_run; [by rewrite <- Hs|by apply saved_healthy].
Qed.

(** ** The check-in interval *)

Lemma saved_overrides req d n : us_polling req ≫= interval_of = Some n ->
  db_overrides (saved req d) = update_where (interval_differs n) (with_interval n) (db_overrides d).
Proof. intros Hn. unfold saved. rewrite Hn, !apply_section_overrides. done. Qed.

Lemma interval_of_range v n : interval_of v = Some n -> (1 <= n <= 86400)%Z.
Proof. unfold interval_of. intros (m & _ & ->)%fmap_Some. lia. Qed.

(** C25. A new fleet-wide check-in interval reaches every host: when it is saved,
    every host's configuration holds it, within 1 second and 1 day; a host that
    had another interval is sent the new one, with the rest of its configuration
    unchanged, at its next check-in, while a host that already had it is sent
    nothing; and hosts enrolled from then on start with it. *)
Theorem interval_reaches_hosts {JPL : SerdeParseLaws} auth req d v n o :
  healthy d -> is_admin (au_role auth) = true -> versions_fit d -> request_values req ->
  us_polling req = Some v -> interval_of v = Some n ->
  o ∈ db_overrides d -> (forall o', o' ∈ db_overrides d -> co_host_id o' = co_host_id o -> o' = o) ->
  (1 <= n <= 86400)%Z /\
  exists s d', update_settings auth req d = (Ok s, d') /\
    (forall o', o' ∈ db_overrides d' -> co_check_in_interval_secs o' = n) /\
    config_for (co_host_id o) (co_config_version o) d' =
      (Ok (if interval_differs n o
           then Some (mkConfigUpdate n (co_push_enabled o) (co_safe_mode_enabled o) (co_backend_override o) (co_config_version o + 1))
           else None), d') /\
    global_check_in_interval (E:=AppError) d' = (Ok n, d').
Proof.
  intros Hd Ha Hf Hv Hp Hn Ho Hsole. split; [by eapply interval_of_range|].
  destruct (update_settings_run auth req d Hd Ha Hf) as (rows & k & Hrun). eexists _, _. split; [exact Hrun|].
  pose proof (saved_healthy req d Hd) as Hs. pose proof (saved_overrides req d n ltac:(by rewrite Hp)) as Hov. split_and!.
  - cbn. rewrite Hov. intros o' (y & _ & ->)%update_where_in. unfold interval_differs. case_bool_decide; done.
  - unfold config_for. erewrite bind_ok by by apply fetch_healthy. cbn. rewrite Hov.
    erewrite (head_scan_sole _ _ (if interval_differs n o then with_interval n o else o)).
    + destruct (interval_differs n o); cbn; [by rewrite (proj2 (Z.ltb_lt _ _)) by lia|by rewrite Z.ltb_irrefl].
    + apply list_elem_of_In, in_map_iff. exists o. split; [done|by apply list_elem_of_In].
    + apply bool_decide_eq_true_2. by destruct (interval_differs n o).
    + intros y (z & Hz & ->)%update_where_in Hh%bool_decide_eq_true.
      assert (z = o) as -> by (apply Hsole; [done|]; by destruct (interval_differs n z)). done.
  - unfold global_check_in_interval. erewrite bind_ok by by apply get_config_run. unfold mret, M_ret. do 2 f_equal.
    change (default 900%Z (read_section "settings_polling" (saved req d) ≫= interval_of) = n).
    rewrite saved_section by done. change (section_of _ req) with (us_polling req). rewrite Hp.
    exact (f_equal (default 900%Z) Hn).
Qed.

(** Mail settings saved with the others are not the ones [GET /settings/smtp] shows. *)
Theorem smtp_view_unaffected auth req d : healthy d -> is_admin (au_role auth) = true -> versions_fit d ->
  fst (get_smtp_config (final (update_settings auth req) d)) = fst (get_smtp_config d).
Proof.
  intros Hd Ha Hf. destruct (update_settings_run auth req d Hd Ha Hf) as (rows & k & Hrun). unfold final. rewrite Hrun. cbn [snd].
  assert (forall d, healthy d -> get_smtp_config d = (Ok (bool_decide (default "" (config_value "smtp_enabled" d) = "true"),
    default "" (config_value "smtp_host" d)), d)) as Hg.
  { intros d0 Hd0. unfold get_smtp_config. do 2 (erewrite bind_ok by by apply fetch_healthy). done. }
  rewrite !Hg; [|done|by apply (saved_healthy req)].
  change (config_value ?k (set_db_audit rows _)) with (config_value k (saved req d)). by rewrite !saved_lookup.
Qed.
End facts.

(** ** The whitelist *)

Section whitelist.
Context {SQL : Sql} {SHA : Sha256} {JS : SerdeJson} {UT : UuidText} {RFC : Rfc3339} {JP : SerdeParse} {LIB : IpNetLib}
  {HOST : IpNetHost} {SQLL : SqlLaws}.

Lemma collect_results_ok {A B E} (f : A -> result B E) l ys :
  collect_results f l = Ok ys <-> Forall2 (fun x y => f x = Ok y) l ys.
Proof.
  revert ys. induction l as [|x l IH]; intros ys; cbn.
  - split; [intros [= <-]; constructor|by inversion 1].
  - rewrite and_then_ok. setoid_rewrite and_then_ok. split.
    + intros (y & Hy & ys' & Hys & [= <-]). constructor; [done|by apply IH].
    + inversion 1; subst. eexists. split; [done|]. eexists. split; [by apply IH|done].
Qed.

(** What an entry admits: the network it names, or the one address. *)
Definition entry_allows (ip : IpAddr) (entry : string) : bool :=
  match ipnet_parse (trim entry) with
  | Some n => ipnet_contains n ip
  | None => match ip_parse (trim entry) with Some a => bool_decide (ip = a) | None => false end
  end.

Lemma validated_covers {TL : IpNetTextLaws} ip e v : ip_wf ip -> validate_cidr_or_ip e = Ok v ->
  entry_covers ip v = entry_allows ip e /\ is_Some (ipnet_parse v).
Proof.
  intros Hip. unfold validate_cidr_or_ip, entry_covers, entry_allows. destruct (is_empty _); [done|].
  destruct (ipnet_parse (trim e)) as [n|]; [intros [= <-]; by rewrite ipnet_parse_to_string|].
  destruct (ip_parse (trim e)) as [a|] eqn:Ha; [|done]. intros [= <-]. rewrite ipnet_parse_to_string. split; [|done].
  apply ipnet_host_contains; [by eapply ip_parse_wf|done].
Qed.

Lemma in_parsed_nets ip l : in_nets (parse_nets l) ip = existsb (entry_covers ip) l.
Proof.
  induction l as [|e l IH]; [done|].
  change (existsb _ (e :: l)) with (entry_covers ip e || existsb (entry_covers ip) l). rewrite <- IH.
  unfold parse_nets, entry_covers. cbn. by destruct (ipnet_parse e).
Qed.

Definition admitted (entries : list string) (ip : IpAddr) : bool :=
  bool_decide (entries = []) || existsb (entry_allows ip) entries.

Lemma validated_exists {TL : IpNetTextLaws} ip entries vs : ip_wf ip -> Forall2 (fun e v => validate_cidr_or_ip e = Ok v) entries vs ->
  existsb (entry_covers ip) vs = existsb (entry_allows ip) entries.
Proof.
  intros Hip. induction 1 as [|e v es vs Hv _ IH]; [done|]. cbn. rewrite IH. by destruct (validated_covers ip e v Hip Hv) as [-> _].
Qed.

(** The whitelist in force after an update admits what its entries say. *)
Lemma updated_whitelist_allows {TL : IpNetTextLaws} ip entries vs c : ip_wf ip -> collect_results validate_cidr_or_ip entries = Ok vs ->
  is_ip_allowed (update_ip_whitelist vs c) ip = admitted entries ip.
Proof.
  intros Hip Hvs%collect_results_ok. unfold is_ip_allowed, admitted. rewrite <- (validated_exists ip entries vs Hip Hvs), <- in_parsed_nets.
  cbn. inversion Hvs as [|e v es vs' Hv Hr]; subst; [done|]. cbn. destruct (validated_covers ip e v Hip Hv) as [_ [n ->]]. done.
Qed.

(** The successful run. *)
Lemma put_whitelist_inv auth entries s r s' : put_ip_whitelist auth entries s = (Ok r, s') ->
  is_admin (au_role auth) = true /\ exists vs, collect_results validate_cidr_or_ip entries = Ok vs /\
    (vs = [] \/ existsb (entry_covers (default (V4 0) (au_ip auth))) vs = true) /\
    web_auth s' = update_ip_whitelist vs (web_auth s) /\
    exists d1, set_config "ip_whitelist" (strings_json vs) (web_db s) = (Ok tt, d1) /\
      web_db s' = final (log_event (E:=AppError) (user_event auth "config_changed" "settings" "ip_whitelist" (JObj []))) d1.
Proof.
  unfold put_ip_whitelist. intros H. apply bind_inv_ok in H as ([] & s1 & Hr & H).
  unfold on_web, require_admin_role, guard_or in Hr. destruct (is_admin _); [|done]. injection Hr as <-. split; [done|].
  apply bind_inv_ok in H as (vs & s2 & Hv & H). unfold lift_result in Hv. injection Hv as Hv <-.
  destruct (collect_results _ _) as [vs'|] eqn:Hc; [injection Hv as ->|done]. exists vs. split; [done|].
  apply bind_inv_ok in H as ([] & s3 & Hg & H). unfold guard_or in Hg. destruct (_ || _) eqn:Hb; [|done]. injection Hg as <-.
  split; [apply orb_true_iff in Hb as [Hb%bool_decide_eq_true|Hb]; [by left|by right]|].
  apply bind_inv_ok in H as ([] & s4 & Hs & H). unfold on_web in Hs.
  destruct (set_config _ _ (web_db _)) as [rs ds] eqn:Hset. injection Hs as -> <-.
  apply bind_inv_ok in H as ([] & s5 & Ha & H). unfold set_auth, modify in Ha. injection Ha as <-.
  apply bind_inv_ok in H as ([] & s6 & Hl & H). unfold on_web in Hl. cbn in Hl.
  destruct (log_event _ ds) as [rl dl] eqn:Hlog. injection Hl as -> <-. inv_ret H.
  split; [done|]. exists ds. split; [by destruct s|]. unfold final. by rewrite Hlog.
Qed.

Lemma put_whitelist_err auth entries s e s' : healthy (web_db s) -> put_ip_whitelist auth entries s = (Err e, s') -> s' = s.
Proof.
  intros Hd. destruct s as [d c]. unfold put_ip_whitelist, on_web, require_admin_role, guard_or, mbind, M_bind. cbn [web_db web_auth].
  destruct (is_admin _); [|by intros [= _ <-]]. cbn. destruct (collect_results _ _) as [vs|]; cbn; [|by intros [= _ <-]].
  destruct (_ || _); [|by intros [= _ <-]]. cbn. unfold set_config. rewrite execute_healthy by done. cbn.
  match goal with |- context [log_event ?ev ?x] => destruct (log_healthy (E:=AppError) ev x Hd) as (rows & n & ->) end. done.
Qed.

(** Saving the address whitelist: an accepted update puts exactly the asked
    networks and addresses in force (an empty list admits everyone), leaves the
    trusted proxies alone, and stores a list that reads back as the one in force;
    a refused update changes nothing. *)
Theorem whitelist_update_exact {TL : IpNetTextLaws} {JPL : SerdeParseLaws} auth entries s : healthy (web_db s) ->
  let '(r, s') := put_ip_whitelist auth entries s in
  match r with
  | Ok _ =>
      (forall ip, ip_wf ip -> is_ip_allowed (web_auth s') ip = admitted entries ip) /\
      trusted_proxies (web_auth s') = trusted_proxies (web_auth s) /\
      exists l, get_ip_whitelist (web_db s') = (Ok l, web_db s') /\ parse_nets l = ip_whitelist (web_auth s')
  | Err _ => s' = s
  end.
Proof.
  intros Hd. destruct (put_ip_whitelist auth entries s) as [[r|e] s'] eqn:Hp; [|by eapply put_whitelist_err].
  destruct (put_whitelist_inv _ _ _ _ _ Hp) as (_ & vs & Hv & _ & Hc & d1 & Hs & Hl). split_and!.
  - intros ip Hip. rewrite Hc. by apply updated_whitelist_allows.
  - by rewrite Hc.
  - unfold set_config in Hs. rewrite execute_healthy in Hs by done. injection Hs as Hs.
    match type of Hl with _ = final (log_event ?ev) _ => destruct (log_healthy (E:=AppError) ev d1) as (rows & n & Hrun); [by rewrite <- Hs|] end.
    unfold final in Hl. rewrite Hrun in Hl. cbn in Hl. exists vs. split; [|by rewrite Hc].
    unfold get_ip_whitelist. rewrite Hl, fetch_healthy by (rewrite <- Hs; done). do 2 f_equal.
    change (string_list (config_value "ip_whitelist" d1) = vs). rewrite <- Hs, config_upsert_same. unfold string_list.
    cbn [mbind option_bind]. rewrite json_parse_to_string; [exact (f_equal (default []) (json_strings_of vs))|].
    clear. induction vs as [|v vs IH]; [done|]. exact IH.
Qed.

Lemma jti_revoked_run {E} jti d : healthy d -> is_jti_revoked (E:=E) jti d =
  (Ok (default true (rt_revoked <$> head (sql_scan (List.filter (fun t => bool_decide (rt_jti t = Some jti)) (db_refresh d))))), d).
Proof.
  intros Hd. unfold is_jti_revoked. by erewrite bind_ok by (unfold attempt; rewrite fetch_healthy by done; reflexivity).
Qed.

(** The address of an authenticated user is the peer's. *)
Lemma require_auth_peer {JWT : Jwt} {E} c req d u : outcome (require_auth (E:=E) c req) d = Ok (Ok u) -> au_ip u = rq_peer req.
Proof.
  unfold outcome, require_auth. intros H. match type of H with context [match ?x with None => _ | Some _ => _ end] => destruct x; [done|] end.
  destruct (extract_bearer_token req); [|done]. unfold mbind, M_bind, gets in H. destruct (jwt_decode _ _ _) as [cl|]; [|done].
  match type of H with context [match ?m d with _ => _ end] => destruct (m d) as [[[]|] ?] end; try done.
  destruct (parse_role _); [|done]. cbn in H. by simplify_eq/=.
Qed.

(** Past the address check, authentication depends on the key, the sessions and the clock. *)
Lemma require_auth_past_ip {JWT : Jwt} {E} c req d d' u ip vs : healthy d -> healthy d' -> db_refresh d' = db_refresh d -> db_now d' = db_now d ->
  outcome (require_auth (E:=E) c req) d = Ok (Ok u) -> resolve_client_ip req (trusted_proxies c) = Some ip ->
  is_ip_allowed (update_ip_whitelist vs c) ip = true ->
  outcome (require_auth (E:=E) (update_ip_whitelist vs c) req) d' = Ok (Ok u).
Proof.
  intros Hd Hd' Hr Hn H Hip Hal. unfold require_auth in *. cbn [trusted_proxies update_ip_whitelist verify_key_pem ac_db] in *.
  rewrite Hip in *. rewrite Hal.
  match type of H with context [match ?x with None => _ | Some _ => _ end] => destruct x as [rf|]; [done|] end.
  match goal with |- context [match ?x with None => _ | Some rf => mret (Err rf) end] => assert (x = None) as -> by by destruct (ip_whitelist (update_ip_whitelist vs c)) end.
  destruct (extract_bearer_token req); [|done]. unfold outcome in *. erewrite bind_ok in H by (unfold gets; reflexivity).
  erewrite bind_ok by (unfold gets; reflexivity). rewrite Hn. destruct (jwt_decode _ _ _) as [cl|]; [|done].
  destruct (ac_db c); [|unfold mbind, M_bind in *; cbn in *; by destruct (parse_role _)]. erewrite bind_ok in H by by apply jti_revoked_run.
  erewrite bind_ok by by apply jti_revoked_run. rewrite Hr. by destruct (default _ _); [|destruct (parse_role _)].
Qed.

(** C35. Lockout prevention: when the server accepts a new whitelist from an
    administrator who connects to it directly, the very request that set it is
    still let in under the new list. *)
Theorem whitelist_keeps_requester {JWT : Jwt} auth entries c req d r s' ip : healthy d ->
  outcome (require_auth (E:=AppError) c req) d = Ok (Ok auth) ->
  rq_peer req = Some ip -> resolve_client_ip req (trusted_proxies c) = Some ip ->
  put_ip_whitelist auth entries (mkWeb d c) = (Ok r, s') ->
  outcome (require_auth (E:=AppError) (web_auth s') req) (web_db s') = Ok (Ok auth).
Proof.
  intros Hd Hauth Hpeer Hip Hput. destruct (put_whitelist_inv _ _ _ _ _ Hput) as (_ & vs & _ & Hcov & Hc & d1 & Hs & Hl).
  cbn in *. unfold set_config in Hs. rewrite execute_healthy in Hs by done. injection Hs as Hs. assert (healthy d1) as Hd1 by by rewrite <- Hs.
  match type of Hl with _ = final (log_event ?ev) _ => destruct (log_healthy (E:=AppError) ev d1 Hd1) as (rows & n & Hrun) end.
  unfold final in Hl. rewrite Hrun in Hl. cbn in Hl. rewrite Hc, Hl.
  apply (require_auth_past_ip c req d _ auth ip vs); try done; try by rewrite <- Hs.
  assert (au_ip auth = Some ip) as Hai by (rewrite (require_auth_peer c req d auth Hauth); done).
  rewrite Hai in Hcov. cbn in Hcov. unfold is_ip_allowed. cbn. destruct Hcov as [->|Hcov]; [done|].
  rewrite <- in_parsed_nets in Hcov. by destruct (parse_nets vs).
Qed.
End whitelist.

(** ** Concrete text forms, for the witnesses *)

Fixpoint json_tree (j : Json) : gen_tree (bool + Z + string) :=
  match j with
  | JNull => GenNode 0 []
  | JBool b => GenLeaf (inl (inl b))
  | JNum z => GenLeaf (inl (inr z))
  | JStr s => GenLeaf (inr s)
  | JArr l => GenNode 1 (map json_tree l)
  | JObj fields => GenNode 2 (map (fun '(k, v) => GenNode 3 [GenLeaf (inr k); json_tree v]) fields)
  end.
Fixpoint tree_json (t : gen_tree (bool + Z + string)) : Json :=
  match t with
  | GenLeaf (inl (inl b)) => JBool b
  | GenLeaf (inl (inr z)) => JNum z
  | GenLeaf (inr s) => JStr s
  | GenNode 1 l => JArr (map tree_json l)
  | GenNode 2 l => JObj (map (fun t => match t with GenNode _ [GenLeaf (inr k); v] => (k, tree_json v) | _ => ("", JNull) end) l)
  | GenNode _ _ => JNull
  end.
Lemma tree_json_tree : forall j, tree_json (json_tree j) = j.
Proof.
  fix IH 1. intros [| | | |l|fields]; cbn; try done; f_equal.
  - induction l as [|j l IHl]; cbn; [done|]. by rewrite IH, IHl.
  - induction fields as [|[k v] fields IHf]; cbn; [done|]. by rewrite IH, IHf.
Qed.
Definition text_serde : SerdeJson := {| json_to_string j := to_text (json_tree j) |}.
Definition text_parse : SerdeParse := {| json_parse s := tree_json <$> of_text s |}.
Lemma text_parse_laws : @SerdeParseLaws text_serde text_parse.
Proof. split. intros j _. cbn [json_parse json_to_string text_parse text_serde]. rewrite of_to_text. exact (f_equal Some (tree_json_tree j)). Qed.

Definition net_text (n : ToyNet) : string := String "#" (to_text (is_ipv4 (toy_addr n), ip_bits (toy_addr n), toy_len n)).
Definition text_net (s : string) : option ToyNet :=
  match s with
  | String "#" s' => '(v4, bits, len) ← (of_text s' : option (bool * Z * Z)); toy_make (if v4 : bool then V4 bits else V6 bits) len
  | _ => toy_parse s
  end.
Lemma toy_make_self n : toy_make (toy_addr n) (toy_len n) = Some n.
Proof.
  unfold toy_make. destruct n as [a len Hok]. cbn. case_decide as H; [|done]. do 2 f_equal. apply (proof_irrel H Hok).
Qed.
Lemma text_net_text n : text_net (net_text n) = Some n.
Proof. unfold text_net, net_text. rewrite of_to_text. cbn. pose proof (toy_make_self n) as H. by destruct (toy_addr n). Qed.

Definition text_ipnet : IpNetLib := {|
  IpNet := ToyNet; ipnet_parse := text_net; ipnet_network n := mask_addr (toy_addr n) (toy_len n);
  ipnet_contains := toy_contains; ipnet_to_string := net_text
|}.
Definition any_net : ToyNet := mkToyNet (V4 0) 0 eq_refl.
Definition text_host : @IpNetHost text_ipnet := {| ipnet_host a := (default any_net (toy_make a (ip_width a)) : @IpNet text_ipnet) |}.
Lemma text_net_laws : @IpNetTextLaws text_ipnet text_host.
Proof.
  split; [exact text_net_text|]. intros a ip Ha Hip. cbn.
  assert (toy_contains (default any_net (toy_make a (ip_width a))) ip =
    Bool.eqb (is_ipv4 ip) (is_ipv4 a) && (prefix_bits ip (ip_width a) =? prefix_bits a (ip_width a))%Z) as ->.
  { unfold toy_make. case_decide as Hok; [done|]. destruct Hok. apply bool_decide_eq_true_2. split; [done|]. by destruct a. }
  unfold prefix_bits. rewrite Z.sub_diag. destruct ip as [b|b], a as [c|c]; cbn; try (symmetry; apply bool_decide_eq_false_2; congruence).
  - rewrite !Z.shiftr_0_r. destruct (Z.eqb_spec b c); [subst; by rewrite bool_decide_eq_true_2|by rewrite bool_decide_eq_false_2 by congruence].
  - rewrite !Z.shiftr_0_r. destruct (Z.eqb_spec b c); [subst; by rewrite bool_decide_eq_true_2|by rewrite bool_decide_eq_false_2 by congruence].
Qed.

(** ** Examples *)

Definition chief : AuthUser := mkAuthUser (uuid_of 1) "root" Admin (mkClaims "" 0 0 "" "" "") (Some (V4 (10 * 2 ^ 24 + 1))).
Definition settings_db : Db :=
  set_db_overrides [mkOverride (uuid_of 3) 900 true false None 4 None 0; mkOverride (uuid_of 4) 60 true false None 2 None 0] empty_db.
Definition polling_request : UpdateSettingsRequest :=
  mkUpdateSettings None None (Some (JObj [("check_in_interval_secs", JNum 60)])) (Some ["10.0.0.0/8"]) None None.

Lemma polling_request_values : request_values polling_request.
Proof. intros key j. unfold section_of. repeat case_bool_decide; cbn; intros Hj; simplify_eq/=; done. Qed.

Lemma settings_fit : versions_fit settings_db.
Proof. intros o Ho. vm_compute in Ho. apply elem_of_cons in Ho as [->|Ho%list_elem_of_singleton]; [|subst o]; by vm_compute. Qed.

Lemma settings_read_back_witness :
  exists d', @update_settings toy_sql toy_sha256 text_serde toy_uuid_text toy_rfc3339 text_parse chief polling_request settings_db =
    (Ok (mkSettings default_oidc default_smtp (JObj [("check_in_interval_secs", JNum 60)]) ["10.0.0.0/8"] "internal_ca" default_notification), d').
Proof.
  destruct (@settings_read_back toy_sql toy_sha256 text_serde toy_uuid_text toy_rfc3339 text_parse toy_sql_laws text_parse_laws
    chief polling_request settings_db (mkSettings default_oidc default_smtp default_polling [] "internal_ca" default_notification)
    eq_refl eq_refl settings_fit polling_request_values eq_refl) as (d' & H & _). by exists d'.
Defined.

Lemma interval_reaches_hosts_witness :
  exists s d', @update_settings toy_sql toy_sha256 text_serde toy_uuid_text toy_rfc3339 text_parse chief polling_request settings_db = (Ok s, d') /\
    @config_for toy_sql (uuid_of 3) 4 d' = (Ok (Some (mkConfigUpdate 60 true false None 5)), d').
Proof.
  destruct (@interval_reaches_hosts toy_sql toy_sha256 text_serde toy_uuid_text toy_rfc3339 text_parse toy_sql_laws text_parse_laws
    chief polling_request settings_db (JObj [("check_in_interval_secs", JNum 60)]) 60 (mkOverride (uuid_of 3) 900 true false None 4 None 0)
    eq_refl eq_refl settings_fit polling_request_values eq_refl eq_refl) as (_ & s & d' & H & _ & Hc & _).
  - left.
  - intros o' Ho' Hh. vm_compute in Ho'. apply elem_of_cons in Ho' as [->|Ho'%list_elem_of_singleton]; [done|]. subst o'.
    vm_compute in Hh. discriminate.
  - exists s, d'. split; [exact H|exact Hc].
Defined.

Notation text_put := (@put_ip_whitelist toy_sha256 text_serde toy_uuid_text toy_rfc3339 text_ipnet text_host).
Notation text_require := (@require_auth text_ipnet toy_uuid_text toy_jwt toy_sql AppError).
Definition ip_of (a b : Z) : IpAddr := V4 (a * 2 ^ 24 + b).

Lemma whitelist_update_exact_witness :
  exists s', text_put chief [" 10.0.0.0/8 "; "192.0.0.7"] (mkWeb empty_db (@AuthConfig_new text_ipnet "key" [] [] true)) = (Ok 200%Z, s') /\
    @is_ip_allowed text_ipnet (web_auth s') (ip_of 192 7) = true /\ @is_ip_allowed text_ipnet (web_auth s') (ip_of 192 8) = false.
Proof.
  pose proof (@whitelist_update_exact toy_sql toy_sha256 text_serde toy_uuid_text toy_rfc3339 text_parse text_ipnet text_host toy_sql_laws
    text_net_laws text_parse_laws chief [" 10.0.0.0/8 "; "192.0.0.7"] (mkWeb empty_db (@AuthConfig_new text_ipnet "key" [] [] true)) eq_refl) as H.
  destruct (text_put _ _ _) as [r s'] eqn:Hp. assert (r = Ok 200%Z) as -> by (apply (f_equal fst) in Hp; vm_compute in Hp; by rewrite <- Hp).
  destruct H as [H _]. exists s'. split; [done|]. rewrite !H by (unfold ip_wf; vm_compute; split; [discriminate|reflexivity]).
  split; vm_compute; reflexivity.
Defined.

(** An administrator's token, and its requests: made directly, and through a
    trusted proxy at 10.0.0.1 on behalf of 192.0.0.7. *)
Definition chief_token : string := to_text (claims_code (mkClaims "" 0 900 "jti-1" "admin" "root")).
Definition direct_request : Request := mkRequest (Some ("Bearer " +:+ chief_token)) None (Some (ip_of 10 1)).
Definition proxied_request : Request := mkRequest (Some ("Bearer " +:+ chief_token)) (Some "192.0.0.7") (Some (ip_of 10 1)).
Definition proxied_config : @AuthConfig text_ipnet := @AuthConfig_new text_ipnet "key" [] ["10.0.0.1/32"] true.
Definition direct_config : @AuthConfig text_ipnet := @AuthConfig_new text_ipnet "key" [] [] true.
Definition request_auth : AuthUser :=
  mkAuthUser (uuid_of 0) "root" Admin (mkClaims "" 0 900 "jti-1" "admin" "root") (Some (ip_of 10 1)).

Lemma whitelist_keeps_requester_witness :
  exists s', text_put request_auth ["10.0.0.0/8"] (mkWeb auth_db direct_config) = (Ok 200%Z, s') /\
    outcome (text_require (web_auth s') direct_request) (web_db s') = Ok (Ok request_auth).
Proof.
  destruct (text_put request_auth ["10.0.0.0/8"] (mkWeb auth_db direct_config)) as [r s'] eqn:Hp.
  assert (r = Ok 200%Z) as -> by (apply (f_equal fst) in Hp; vm_compute in Hp; by rewrite <- Hp).
  exists s'. split; [done|].
  apply (@whitelist_keeps_requester toy_sql toy_sha256 text_serde toy_uuid_text toy_rfc3339 text_ipnet text_host toy_jwt
    request_auth ["10.0.0.0/8"] direct_config direct_request auth_db 200%Z s' (ip_of 10 1)); [reflexivity..|exact Hp].
Defined.

(** Behind a trusted proxy the check looks at the proxy's address, while
    authentication looks at the client's: the accepted list shuts the
    administrator out. *)
Lemma proxied_admin_locked_out :
  outcome (text_require proxied_config proxied_request) auth_db = Ok (Ok request_auth) /\
  let '(r, s') := text_put request_auth ["10.0.0.0/8"] (mkWeb auth_db proxied_config) in
  r = Ok 200%Z /\ outcome (text_require (web_auth s') proxied_request) (web_db s') = Ok (Err (403%Z, "Access denied")).
Proof. vm_compute. done. Qed.
