(* ===== verification/Enrollment.v ===== *)
(** * Enrollment: how a host becomes known

    [crates/fw-web/src/routes/enrollment.rs] (tokens, submission, polling,
    approval) and the approved-bundle cache of [AppState] ([lib.rs]). Certificates
    are signed by Ca.v. *)

From S2P Require Import Prelude Text Models Net Wire Db AuditLog Auth AgentApi PolicyAdmin Ca Settings.

(** ** Data *)

Record PullConfigBundle := mkPullBundle {
  pcb_check_in_interval_secs : Z; pcb_push_enabled : bool; pcb_config_version : Z; pcb_manager_agent_url : string
}.
Record PkiBundle := mkPki {
  pki_ca_chain : list string; pki_server_cert : string; pki_crl_pem : option string;
  pki_pull_config : option PullConfigBundle
}.
Record ApprovedEntry := mkApproved { ae_pki_bundle : PkiBundle; ae_host_id : Uuid; ae_created_at : DateTime }.

(** The manager: its database and the bundles waiting to be fetched. *)
Record Manager := mkManager { mg_db : Db; mg_approved : gmap string ApprovedEntry }.

Notation MG := (M Manager AppError).

(** A database operation inside the manager. *)
Definition on_db {E A} (m : M Db E A) : M Manager E A := fun s =>
  let '(r, d) := m (mg_db s) in (r, mkManager d (mg_approved s)).

Record ServerConfig := mkServerConfig { sv_host : string; sv_agent_port : Z }.

(** The range of a [timestamptz], from 4713 BC to 294276 AD: a result outside of it
    is an error of the statement. *)
Definition timestamp_ok (t : DateTime) : bool :=
  ((-210866803200 * SECOND <=? t) && (t <? 9224318016000 * SECOND))%Z.

Section enrollment.
Context {SQL : Sql} {SHA : Sha256} {JS : SerdeJson} {UT : UuidText} {RFC : Rfc3339} {PG : PgInet}
  {RC : Rcgen} {HX : Hex} {JP : SerdeParse}.

(** ** Tokens *)

Definition create_token (u : AuthUser) (token fqdn : string) (ip : option string) (ttl_hours : option Z) : DB string :=
  _ ← require_admin_role u;
  let token_hash := sha256_hex token in
  let ttl := default 24%Z ttl_hours in
  _ ← execute_returning (fun d =>
    match inet_cast ip with
    | Some ip' =>
        if forallb (fun t => negb (bool_decide (et_token_hash t = token_hash))) (db_tokens d) &&
           user_exists (au_user_id u) d && timestamp_ok (db_now d + ttl * HOUR)
        then Some (tt, set_db_tokens (db_tokens d ++
               [mkToken token_hash fqdn ip' (au_user_id u) (db_now d + ttl * HOUR) None None]) d)
        else None
    | None => None
    end);
  _ ← log_event (user_event u "enrollment_token_issued" "enrollment" fqdn
        (JObj [("fqdn", JStr fqdn); ("ttl_hours", JNum ttl)]));
  mret token.

Definition with_used_at (t : DateTime) (k : EnrollmentToken) : EnrollmentToken :=
  mkToken (et_token_hash k) (et_host_fqdn k) (et_host_ip k) (et_created_by k) (et_expires_at k) (Some t) (et_revoked_at k).
Definition with_revoked_at (t : DateTime) (k : EnrollmentToken) : EnrollmentToken :=
  mkToken (et_token_hash k) (et_host_fqdn k) (et_host_ip k) (et_created_by k) (et_expires_at k) (et_used_at k) (Some t).
Definition has_hash (h : string) (k : EnrollmentToken) : bool := bool_decide (et_token_hash k = h).

Definition revoke_token (u : AuthUser) (hash : string) : DB Z :=
  _ ← require_admin_role u;
  _ ← execute (fun d => set_db_tokens (update_where (has_hash hash) (with_revoked_at (db_now d)) (db_tokens d)) d);
  _ ← log_event (user_event u "enrollment_token_revoked" "enrollment" hash (JObj []));
  mret 200%Z.

(** ** Submission *)

Record SubmitEnrollmentRequest := mkSubmit {
  se_token : string; se_csr : string; se_fqdn : string; se_ip_address : string;
  se_hostname : option string; se_os_details : Json
}.

Definition find_token (hash : string) (d : Db) : option EnrollmentToken :=
  head (sql_scan (List.filter (has_hash hash) (db_tokens d))).

(** [INSERT .. ON CONFLICT (machine_id) DO UPDATE SET polling_token, csr, created_at]. *)
Definition upsert_request (req : SubmitEnrollmentRequest) (polling_hash : string) (d : Db) : option (unit * Db) :=
  let machine_id := se_fqdn req +:+ "-" +:+ se_ip_address req in
  let same r := bool_decide (er_machine_id r = machine_id) in
  match inet_text (se_ip_address req) with
  | Some ip =>
      if forallb (fun r => same r || negb (bool_decide (er_polling_token r = polling_hash))) (db_requests d)
      then Some (tt, if existsb same (db_requests d)
        then set_db_requests (update_where same (fun r =>
               mkEnrollmentRequest (er_id r) (er_machine_id r) (er_fqdn r) (er_ip_address r) (er_hostname r)
                 (er_os_details r) polling_hash (Some (se_csr req)) (db_now d) (er_expires_at r)) (db_requests d)) d
        else set_db_next_uuid (db_next_uuid d + 1) (set_db_requests (db_requests d ++
               [mkEnrollmentRequest (uuid_of (db_next_uuid d)) machine_id (se_fqdn req) ip (se_hostname req)
                  (se_os_details req) polling_hash (Some (se_csr req)) (db_now d) (db_now d + DAY)]) d))
      else None
  | None => None
  end.

Definition validate_token (token_hash fqdn : string) : DB unit :=
  row ← fetch (fun d => (fun t => (et_expires_at t, et_used_at t)) <$> find_token token_hash d);
  match row with
  | Some (expires_at, used_at) =>
      _ ← guard_or (bool_decide (used_at = None)) (BadRequest "Token already used");
      now ← gets db_now;
      _ ← guard_or (negb (expires_at <? now)%Z) (BadRequest "Token expired");
      token_fqdn ← fetch (fun d => et_host_fqdn <$> find_token token_hash d);
      guard_or (bool_decide (token_fqdn = Some fqdn)) (BadRequest "FQDN does not match token")
  | None => throw (BadRequest "Invalid token")
  end.

Definition submit_enrollment (req : SubmitEnrollmentRequest) : DB string :=
  let token_hash := sha256_hex (se_token req) in
  _ ← validate_token token_hash (se_fqdn req);
  _ ← ignore (execute (fun d => set_db_tokens
        (update_where (has_hash token_hash) (with_used_at (db_now d)) (db_tokens d)) d));
  polling_uuid ← fresh_uuid;
  let polling_token := uuid_to_string polling_uuid in
  _ ← execute_returning (upsert_request req (sha256_hex polling_token));
  _ ← log_event (mkEvent "enrollment_token_used" None None (Some "enrollment") (Some (se_fqdn req))
        (JObj [("fqdn", JStr (se_fqdn req)); ("ip", JStr (se_ip_address req))]) (Some (se_ip_address req)) None);
  mret polling_token.

(** ** Polling *)

Inductive EnrollmentStatus :=
  | StPending
  | StApproved (bundle : PkiBundle) (host_id : string).

Definition live_request (hash : string) (d : Db) (r : EnrollmentRequest) : bool :=
  bool_decide (er_polling_token r = hash) && (db_now d <? er_expires_at r)%Z.

Definition poll_enrollment_status (token : string) : MG EnrollmentStatus :=
  let hash := sha256_hex token in
  cached ← gets (fun s => mg_approved s !! hash);
  match cached with
  | Some entry =>
      _ ← modify (fun s => mkManager (mg_db s) (delete hash (mg_approved s)));
      mret (StApproved (ae_pki_bundle entry) (uuid_to_string (ae_host_id entry)))
  | None =>
      row ← on_db (fetch (fun d => head (sql_scan (List.filter (live_request hash d) (db_requests d)))));
      match row with
      | Some _ => mret StPending
      | None => throw (NotFound "Enrollment not found or expired")
      end
  end.

(** ** Approval *)

Definition insert_host (r : EnrollmentRequest) (d : Db) : option (Uuid * Db) :=
  let host := uuid_of (db_next_uuid d) in
  if negb (host_exists host d) &&
     forallb (fun h => negb (bool_decide (h_fqdn h = er_fqdn r) && bool_decide (h_ip_address h = er_ip_address r))) (db_hosts d)
  then Some (host, set_db_next_uuid (db_next_uuid d + 1) (set_db_hosts (db_hosts d ++
         [mkHost host (er_fqdn r) (er_ip_address r) (default (er_fqdn r) (er_hostname r))
            None (Some (default "unknown" (json_get "os_name" (er_os_details r) ≫= json_str)))
            None None Pending None None 12443 "" (db_now d) (db_now d)]) d))
  else None.

Definition insert_cert (host : Uuid) (signed : SignedCert) (issuer : string) (d : Db) : option (unit * Db) :=
  if forallb (fun c => negb (bool_decide (ct_serial_number c = sc_serial_hex signed))) (db_certs d) && host_exists host d
  then Some (tt, set_db_next_uuid (db_next_uuid d + 1) (set_db_certs (db_certs d ++
         [mkCert (uuid_of (db_next_uuid d)) (Some host) (sc_serial_hex signed) (uuid_to_string host) CertActive
            (db_now d) (db_now d + 365 * 86400 * 1000000000)%Z None (sc_cert_pem signed) "leaf" None
            (if is_empty issuer then None else Some issuer)]) d))
  else None.

Definition find_request (id : Uuid) (d : Db) : option EnrollmentRequest :=
  head (sql_scan (List.filter (fun r => bool_decide (er_id r = id)) (db_requests d))).

Definition approve_enrollment (cfg : ServerConfig) (ca : CertAuthority) (u : AuthUser) (id : Uuid) : MG Z :=
  _ ← on_db (require_admin_role u);
  found ← on_db (fetch (find_request id));
  r ← on_db (or_not_found "Enrollment request not found" found);
  collision ← on_db (fetch (fun d => length (List.filter (fun h =>
      bool_decide (h_fqdn h = er_fqdn r) && bool_decide (h_ip_address h = er_ip_address r)) (db_hosts d))));
  _ ← guard_or (collision =? 0)%nat (Conflict "Host already registered");
  host ← on_db (execute_returning (insert_host r));
  interval ← on_db global_check_in_interval;
  _ ← on_db (ignore (execute_if (host_exists host) (fun d =>
        if existsb (fun o => bool_decide (co_host_id o = host)) (db_overrides d) then d
        else set_db_overrides (db_overrides d ++ [mkOverride host interval true false None 1 None (db_now d)]) d)));
  let url := "https://" +:+ sv_host cfg +:+ ":" +:+ pretty (sv_agent_port cfg) in
  csr ← match er_csr r with Some c => mret c | None => throw (BadRequest "Enrollment request has no CSR") end;
  signed_r ← attempt (on_db (sign_csr ca csr host));
  signed ← match signed_r with
           | Ok s => mret s
           | Err e => throw (Internal ("CA sign failed: " +:+ cert_error_text e))
           end;
  _ ← on_db (execute_returning (insert_cert host signed (issuing_serial_hex ca)));
  now ← gets (fun s => db_now (mg_db s));
  let bundle := mkPki (sc_ca_chain signed) (sc_cert_pem signed) (sc_crl_pem signed)
                  (Some (mkPullBundle interval true 1 url)) in
  _ ← modify (fun s => mkManager (mg_db s) (<[er_polling_token r := mkApproved bundle host now]> (mg_approved s)));
  _ ← on_db (execute (fun d => set_db_requests (delete_where (fun r => bool_decide (er_id r = id)) (db_requests d)) d));
  _ ← on_db (log_event (user_event u "host_enrolled" "host" (uuid_to_string host)
        (JObj [("fqdn", JStr (er_fqdn r)); ("ip", JStr (er_ip_address r))])));
  mret 200%Z.

Definition deny_enrollment (u : AuthUser) (id : Uuid) : DB Z :=
  _ ← require_admin_role u;
  _ ← execute (fun d => set_db_requests (delete_where (fun r => bool_decide (er_id r = id)) (db_requests d)) d);
  mret 200%Z.
End enrollment.
