(* ===== verification/EnrollmentFacts.v ===== *)
(** * EnrollmentFacts: what enrollment guarantees

    Tokens are single-use and bound to a name; an approval hands out one
    certificate, to the holder of the polling token, once; and the two ways an
    enrollment can get stuck. *)

From S2P Require Import Prelude Text Models Net Policy Wire Db AuditLog Auth AgentApi PolicyAdmin Deployment.
From S2P Require Import AdminFacts DeploymentFacts Ca CaToy Settings Enrollment.

Section facts.
Context {SQL : Sql} {SHA : Sha256} {JS : SerdeJson} {UT : UuidText} {RFC : Rfc3339} {PG : PgInet}
  {RC : Rcgen} {HX : Hex} {JP : SerdeParse}.

(** ** Tokens *)

Lemma validate_token_ok {SQLL : SqlLaws} hash fqdn d d1 : healthy d -> validate_token hash fqdn d = (Ok tt, d1) ->
  d1 = d /\ exists k, k ∈ db_tokens d /\ et_token_hash k = hash /\ et_used_at k = None /\
    (db_now d <= et_expires_at k)%Z /\ et_host_fqdn k = fqdn.
Proof.
  intros Hd. unfold validate_token. erewrite bind_ok by by apply fetch_healthy.
  destruct (find_token hash d) as [k|] eqn:Hk; simpl; [|done].
  destruct (head_scan_in _ _ _ Hk) as [Hin Hh]. apply bool_decide_eq_true in Hh.
  unfold guard_or. case_bool_decide as Hu; [|done]. erewrite bind_ok by reflexivity.
  erewrite bind_ok by (unfold gets; reflexivity).
  destruct (Z.ltb_spec (et_expires_at k) (db_now d)); [done|]. erewrite bind_ok by reflexivity.
  erewrite bind_ok by by apply fetch_healthy. rewrite Hk. simpl. case_bool_decide as Hf; [|done].
  intros [= <-]. split; [done|]. exists k. split_and!; [done..|]. by simplify_eq.
Qed.

(** A submission on a healthy database: a valid token, marked as used, and the
    request stored under the hash of the polling token. *)
Lemma submit_inv {SQLL : SqlLaws} req d pt d1 : healthy d -> submit_enrollment req d = (Ok pt, d1) ->
  let h := sha256_hex (se_token req) in
  let used := set_db_next_uuid (db_next_uuid d + 1)
    (set_db_tokens (update_where (has_hash h) (with_used_at (db_now d)) (db_tokens d)) d) in
  (exists dx rows n, upsert_request req (sha256_hex pt) used = Some (tt, dx) /\
     d1 = set_db_audit rows (set_db_audit_seq n dx)) /\
  exists k, k ∈ db_tokens d /\ et_token_hash k = h /\ et_used_at k = None /\
    (db_now d <= et_expires_at k)%Z /\ et_host_fqdn k = se_fqdn req.
Proof.
  intros Hd H h used. unfold submit_enrollment in H. apply bind_inv_ok in H as ([] & d2 & Hv & H).
  apply validate_token_ok in Hv as [-> Hk]; [|done]. split; [|exact Hk].
  erewrite bind_ok in H by (unfold ignore; rewrite execute_healthy by done; reflexivity). cbn [snd] in H.
  unfold fresh_uuid in H. erewrite bind_ok in H by reflexivity.
  apply bind_inv_ok in H as ([] & d3 & Hu & H).
  unfold execute_returning, query in Hu. cbn [db_faults set_db_next_uuid set_db_tokens] in Hu. rewrite Hd in Hu.
  match type of Hu with context [upsert_request ?a ?b ?c] => destruct (upsert_request a b c) as [[[] dx]|] eqn:Hup end; [|done].
  injection Hu as <-.
  assert (healthy dx) as Hdx.
  { unfold upsert_request in Hup. destruct (inet_text _); [|done]. destruct (forallb _ _); [|done].
    destruct (existsb _ _); by simplify_eq/=. }
  match type of H with (mbind _ (log_event ?e)) _ = _ => destruct (log_healthy (E:=AppError) e dx Hdx) as (rows & n & Hl) end.
  erewrite bind_ok in H by exact Hl. inv_ret H. by exists dx, rows, n.
Qed.

Lemma upsert_frame req ph d dx : upsert_request req ph d = Some (tt, dx) ->
  db_faults dx = db_faults d /\ db_tokens dx = db_tokens d /\ db_now dx = db_now d.
Proof.
  unfold upsert_request. destruct (inet_text _); [|done]. destruct (forallb _ _); [|done].
  destruct (existsb _ _); by intros [= <-].
Qed.

(** Only the machine's own row carries the new polling token, with its old expiry
    if there was one. *)
Lemma upsert_expiry req ph d dx r : upsert_request req ph d = Some (tt, dx) ->
  NoDup (er_machine_id <$> db_requests d) -> r ∈ db_requests d ->
  er_machine_id r = se_fqdn req +:+ "-" +:+ se_ip_address req ->
  forall x, x ∈ db_requests dx -> er_polling_token x = ph -> er_expires_at x = er_expires_at r.
Proof.
  unfold upsert_request. destruct (inet_text _); [|done]. destruct (forallb _ _) eqn:Hfree; [|done].
  intros Hup Hnd Hr Hm x Hx Hpt. destruct (existsb _ _) eqn:He; cycle 1.
  { exfalso. apply not_true_iff_false in He. apply He. apply existsb_exists. exists r.
    split; [by apply list_elem_of_In|by apply bool_decide_eq_true_2]. }
  injection Hup as <-. apply update_where_in in Hx as (y & Hy & ->).
  destruct (bool_decide (er_machine_id y = _)) eqn:Hym; cbn.
  - apply bool_decide_eq_true in Hym.
    by rewrite (NoDup_key_inj er_machine_id _ y r Hnd Hy Hr) by (by rewrite Hym, Hm).
  - exfalso. rewrite forallb_forall in Hfree. apply list_elem_of_In in Hy. specialize (Hfree y Hy).
    rewrite Hym in Hfree. simpl in Hfree. apply negb_true_iff, bool_decide_eq_false in Hfree. by apply Hfree.
Qed.

Lemma submit_ok {SQLL : SqlLaws} req d pt d1 : healthy d -> submit_enrollment req d = (Ok pt, d1) ->
  healthy d1 /\
  db_tokens d1 = update_where (has_hash (sha256_hex (se_token req))) (with_used_at (db_now d)) (db_tokens d).
Proof.
  intros Hd H. destruct (submit_inv req d pt d1 Hd H) as [(dx & rows & n & Hup & ->) _].
  apply upsert_frame in Hup as (Hf & Ht & _). split; [unfold healthy; cbn; by rewrite Hf|cbn; by rewrite Ht].
Qed.

(** C17. An enrollment token admits one host, once: a submission is accepted only
    with the secret of a token that exists, has not been used, has not expired and
    was issued for the submitted name; and after it any further submission with
    the same secret is refused and changes nothing. *)
Theorem enrollment_token_single_use {SQLL : SqlLaws} (req req2 : SubmitEnrollmentRequest) (d d1 : Db) pt :
  healthy d -> submit_enrollment req d = (Ok pt, d1) -> se_token req2 = se_token req ->
  (exists k, k ∈ db_tokens d /\ et_token_hash k = sha256_hex (se_token req) /\ et_used_at k = None /\
     (db_now d <= et_expires_at k)%Z /\ et_host_fqdn k = se_fqdn req) /\
  submit_enrollment req2 d1 = (Err (BadRequest "Token already used"), d1).
Proof.
  intros Hd Hs Ht. destruct (submit_ok req d pt d1 Hd Hs) as [Hd1 Htok].
  destruct (submit_inv req d pt d1 Hd Hs) as [_ Hk]. split; [done|].
  destruct Hk as (k & Hin & Hh & _). unfold submit_enrollment, validate_token. rewrite Ht.
  set (h := sha256_hex (se_token req)) in *.
  destruct (head_scan_some (has_hash h) (db_tokens d1) (with_used_at (db_now d) k)) as [y Hy].
  { rewrite Htok. unfold update_where. apply list_elem_of_In, in_map_iff. exists k.
    unfold has_hash. rewrite bool_decide_eq_true_2 by done. split; [done|by apply list_elem_of_In]. }
  { by apply bool_decide_eq_true_2. }
  destruct (head_scan_in _ _ _ Hy) as [Hyin Hyh]. rewrite Htok in Hyin.
  apply update_where_in in Hyin as (z & Hz & ->).
  apply bind_err. erewrite bind_ok by by apply fetch_healthy. unfold find_token. rewrite Hy. simpl.
  assert (has_hash h z = true) as Hhz by (destruct (has_hash h z) eqn:He; [done|by rewrite He in Hyh]).
  rewrite Hhz. by apply bind_err.
Qed.

(** ** Approval *)

(** A database operation of the manager. *)
Lemma on_db_run {E A} (m : M Db E A) s r d : m (mg_db s) = (r, d) -> on_db m s = (r, mkManager d (mg_approved s)).
Proof. intros H. unfold on_db. by rewrite H. Qed.

Lemma on_db_inv {E A} (m : M Db E A) s a s' : on_db m s = (Ok a, s') ->
  m (mg_db s) = (Ok a, mg_db s') /\ mg_approved s' = mg_approved s.
Proof. unfold on_db. destruct (m (mg_db s)) as [[x|e] d]; intros [= <- <-]. done. Qed.

(** The state after the host row and its configuration are in. *)
Lemma approve_prefix cfg ca u id s r : healthy (mg_db s) -> is_admin (au_role u) = true ->
  find_request id (mg_db s) = Some r ->
  List.filter (fun h => bool_decide (h_fqdn h = er_fqdn r) && bool_decide (h_ip_address h = er_ip_address r)) (db_hosts (mg_db s)) = [] ->
  host_exists (uuid_of (db_next_uuid (mg_db s))) (mg_db s) = false ->
  exists host interval d1, insert_host r (mg_db s) = Some (host, d1) /\ (1 <= interval <= 86400)%Z /\
    (global_check_in_interval (E:=AppError) (mg_db s)).1 = Ok interval /\
    let d2 := set_db_overrides (if existsb (fun o => bool_decide (co_host_id o = host)) (db_overrides d1) then db_overrides d1
                else db_overrides d1 ++ [mkOverride host interval true false None 1 None (db_now d1)]) d1 in
    approve_enrollment cfg ca u id s =
    (csr ← match er_csr r with Some c => mret c | None => throw (BadRequest "Enrollment request has no CSR") end;
     signed_r ← attempt (on_db (sign_csr ca csr host));
     signed ← match signed_r with Ok s => mret s | Err e => throw (Internal ("CA sign failed: " +:+ cert_error_text e)) end;
     _ ← on_db (execute_returning (insert_cert host signed (issuing_serial_hex ca)));
     now ← gets (fun s => db_now (mg_db s));
     _ ← modify (fun s => mkManager (mg_db s) (<[er_polling_token r := mkApproved (mkPki (sc_ca_chain signed)
            (sc_cert_pem signed) (sc_crl_pem signed) (Some (mkPullBundle interval true 1
            ("https://" +:+ sv_host cfg +:+ ":" +:+ pretty (sv_agent_port cfg))))) host now]> (mg_approved s)));
     _ ← on_db (execute (fun d => set_db_requests (delete_where (fun r => bool_decide (er_id r = id)) (db_requests d)) d));
     _ ← on_db (log_event (user_event u "host_enrolled" "host" (uuid_to_string host)
           (JObj [("fqdn", JStr (er_fqdn r)); ("ip", JStr (er_ip_address r))])));
     mret 200%Z) (mkManager d2 (mg_approved s)).
Proof.
  intros Hd Ha Hr Hc Hnew.
  assert (forallb (fun h => negb (bool_decide (h_fqdn h = er_fqdn r) && bool_decide (h_ip_address h = er_ip_address r)))
    (db_hosts (mg_db s)) = true) as Hfree.
  { apply forallb_forall. intros h Hh. apply negb_true_iff, not_true_iff_false. intros Hx.
    assert (List.In h []) as []. rewrite <- Hc. by apply List.filter_In. }
  destruct (insert_host r (mg_db s)) as [[host d1]|] eqn:Hins; [|unfold insert_host in Hins; rewrite Hnew, Hfree in Hins; discriminate Hins].
  assert (healthy d1 /\ host_exists host d1 = true) as [Hd1 Hex].
  { unfold insert_host in Hins. rewrite Hnew, Hfree in Hins. cbn [negb andb] in Hins. simplify_eq. split; [done|].
    unfold host_exists. apply existsb_exists. eexists. split; [cbn; apply in_or_app; right; left; reflexivity|].
    by apply bool_decide_eq_true_2. }
  destruct (global_interval_run (E:=AppError) d1 Hd1) as (i & Hi & Hrange).
  assert ((global_check_in_interval (E:=AppError) (mg_db s)).1 = Ok i) as Hgi.
  { unfold insert_host in Hins. rewrite Hnew, Hfree in Hins. injection Hins as _ <-. revert Hi.
    unfold global_check_in_interval, get_config_json, attempt, mbind, M_bind. rewrite !fetch_healthy by done. by intros [= <-]. }
  exists host, i, d1. split; [done|]. split; [exact Hrange|]. split; [exact Hgi|]. cbv zeta.
  unfold approve_enrollment.
  erewrite bind_ok by (apply on_db_run; unfold require_admin_role, guard_or; rewrite Ha; reflexivity).
  erewrite bind_ok by (apply on_db_run, fetch_healthy, Hd). cbn [mg_db].
  rewrite Hr. erewrite bind_ok by (apply on_db_run; reflexivity).
  erewrite bind_ok by (apply on_db_run, fetch_healthy, Hd). cbn [mg_db]. rewrite Hc. cbn [length Nat.eqb guard_or].
  erewrite bind_ok by reflexivity.
  erewrite bind_ok by (apply on_db_run; unfold execute_returning, query; cbn [mg_db]; rewrite Hd, Hins; reflexivity).
  erewrite bind_ok by (apply on_db_run; exact Hi).
  erewrite bind_ok by (apply on_db_run; unfold ignore, execute_if, query; cbn [mg_db]; rewrite Hd1, Hex; reflexivity).
  cbn [snd mg_approved]. f_equal. f_equal.
  destruct (existsb _ (db_overrides d1)); [by destruct d1|done].
Qed.

(** The end of an approval, once the certificate is signed. *)
Lemma sign_csr_run ca csr_pem host csr d : csr_from_pem csr_pem = Ok csr ->
  (forall p, is_ok (csr_signed_by csr p (ca_issuer ca)) = true) ->
  exists pem params, csr_signed_by csr params (ca_issuer ca) = Ok pem /\ lp_common_name params = uuid_to_string host /\
    lp_client_auth params = true /\ lp_serial params = uuid_of (db_next_uuid d) /\
    sign_csr ca csr_pem host d =
      (Ok (mkSigned pem (hex_encode (uuid_bytes (uuid_of (db_next_uuid d)))) (ca_chain_for_agents ca) None),
       set_db_next_uuid (db_next_uuid d + 1) d).
Proof.
  intros Hk Hs.
  set (params := mkLeafParams (uuid_to_string host) "Firewall Manager Agent" (uuid_of (db_next_uuid d))
    true true (db_now d - DAY) (db_now d + 365 * HOST_CERT_VALIDITY_YEARS * DAY)).
  specialize (Hs params). destruct (csr_signed_by csr params (ca_issuer ca)) as [pem|] eqn:Hpem; [|done].
  exists pem, params. split_and!; [done..|]. unfold sign_csr.
  erewrite bind_ok by (unfold lift_result; rewrite Hk; reflexivity).
  erewrite bind_ok by reflexivity. erewrite bind_ok by (unfold gets; reflexivity).
  erewrite bind_ok by (unfold lift_result; unfold params in Hpem; cbn [db_now set_db_next_uuid]; rewrite Hpem; reflexivity).
  done.
Qed.

(** An administrator looks at a pending request of a new host whose CSR can be
    signed and whose serial is new. *)
Record approvable (u : AuthUser) (id : Uuid) (s : Manager) (r : EnrollmentRequest)
    (ca : CertAuthority) (csr : string) (key : Csr) : Prop := {
  ap_healthy : healthy (mg_db s);
  ap_admin : is_admin (au_role u) = true;
  ap_request : find_request id (mg_db s) = Some r;
  ap_new : List.filter (fun h => bool_decide (h_fqdn h = er_fqdn r) && bool_decide (h_ip_address h = er_ip_address r))
             (db_hosts (mg_db s)) = [];
  ap_fresh : host_exists (uuid_of (db_next_uuid (mg_db s))) (mg_db s) = false;
  ap_csr : er_csr r = Some csr;
  ap_key : csr_from_pem csr = Ok key;
  ap_sign : forall p, is_ok (csr_signed_by key p (ca_issuer ca)) = true;
  ap_serial : hex_encode (uuid_bytes (uuid_of (db_next_uuid (mg_db s) + 1))) ∉ (ct_serial_number <$> db_certs (mg_db s))
}.

Lemma inserted_host r d host d1 : insert_host r d = Some (host, d1) ->
  host_exists host d = false /\ host_exists host d1 = true /\ db_requests d1 = db_requests d /\ db_certs d1 = db_certs d /\
  db_next_uuid d1 = (db_next_uuid d + 1)%N /\ db_faults d1 = db_faults d /\
  exists h, db_hosts d1 = db_hosts d ++ [h] /\ h_id h = host /\ h_fqdn h = er_fqdn r /\ h_ip_address h = er_ip_address r.
Proof.
  unfold insert_host. destruct (host_exists _ _) eqn:Hn; [done|]. destruct (forallb _ _); [|done]. intros [= <- <-]. split_and!; try done; [|by eexists].
  unfold host_exists. apply existsb_exists. eexists. split; [cbn; apply in_or_app; right; left; reflexivity|].
  by apply bool_decide_eq_true_2.
Qed.

(** What an approval leaves behind: one new host with the request's name and address,
    one new certificate row, and the bundle with what was signed. *)
Record approved (cfg : ServerConfig) (ca : CertAuthority) (s : Manager) (r : EnrollmentRequest) (key : Csr)
    (host : Uuid) (bundle : PkiBundle) (d' : Db) : Prop := {
  av_healthy : healthy d';
  av_new : host_exists host (mg_db s) = false;
  av_host : exists h, db_hosts d' = db_hosts (mg_db s) ++ [h] /\ h_id h = host /\ h_fqdn h = er_fqdn r /\ h_ip_address h = er_ip_address r;
  av_requests : db_requests d' = delete_where (fun x => bool_decide (er_id x = er_id r)) (db_requests (mg_db s));
  av_signed : exists params c, csr_signed_by key params (ca_issuer ca) = Ok (pki_server_cert bundle) /\
    lp_common_name params = uuid_to_string host /\ lp_client_auth params = true /\
    db_certs d' = db_certs (mg_db s) ++ [c] /\ ct_host_id c = Some host /\ ct_cert_pem c = pki_server_cert bundle /\
    ct_serial_number c = hex_encode (uuid_bytes (lp_serial params)) /\ ct_status c = CertActive;
  av_pull : exists i, (1 <= i <= 86400)%Z /\ (global_check_in_interval (E:=AppError) (mg_db s)).1 = Ok i /\
    pki_pull_config bundle = Some (mkPullBundle i true 1 ("https://" +:+ sv_host cfg +:+ ":" +:+ pretty (sv_agent_port cfg)));
  av_chain : pki_ca_chain bundle = ca_chain_for_agents ca
}.

Lemma approve_run {SQLL : SqlLaws} cfg ca u id s r csr key : approvable u id s r ca csr key ->
  exists host bundle now d', approve_enrollment cfg ca u id s =
      (Ok 200%Z, mkManager d' (<[er_polling_token r := mkApproved bundle host now]> (mg_approved s))) /\
    approved cfg ca s r key host bundle d'.
Proof.
  intros [Hd Ha Hr Hc Hnew Hcsr Hkey Hsign Hserial].
  destruct (head_scan_in _ _ _ Hr) as [_ Hrid%bool_decide_eq_true].
  destruct (approve_prefix cfg ca u id s r Hd Ha Hr Hc Hnew) as (host & interval & d1 & Hins & Hint & Hgi & Hrun). cbv zeta in Hrun.
  set (d2 := set_db_overrides _ d1) in Hrun. rewrite Hrun. clear Hrun.
  destruct (inserted_host _ _ _ _ Hins) as (Hfresh & Hex & Hreq & Hcerts & Hnext & Hf & Hrow).
  assert (healthy d2) as Hd2 by (unfold healthy; cbn; by rewrite Hf).
  rewrite Hcsr. erewrite bind_ok by reflexivity.
  destruct (sign_csr_run ca csr host key d2 Hkey Hsign) as (pem & params & Hpem & Hcn & Hca & Hser & Hrun).
  erewrite bind_ok by (unfold attempt, on_db; cbn [mg_db]; rewrite Hrun; reflexivity). erewrite bind_ok by reflexivity.
  cbn [mg_db mg_approved] in *. set (d3 := set_db_next_uuid _ d2). set (signed := mkSigned _ _ _ _).
  assert (exists cert, insert_cert host signed (issuing_serial_hex ca) d3 = Some (tt, set_db_next_uuid (db_next_uuid d3 + 1) (set_db_certs (db_certs d2 ++ [cert]) d3)) /\
    ct_host_id cert = Some host /\ ct_cert_pem cert = pem /\ ct_serial_number cert = sc_serial_hex signed /\ ct_status cert = CertActive)
    as (cert & Hic & Hch & Hcp & Hcs & Hst).
  { unfold insert_cert. change (host_exists host d3) with (host_exists host d1). rewrite Hex.
    assert (forallb (fun c => negb (bool_decide (ct_serial_number c = sc_serial_hex signed))) (db_certs d3) = true) as ->;
      [|by eexists].
    apply forallb_forall. intros c Hcin. apply negb_true_iff, bool_decide_eq_false. intros Hsn. apply Hserial.
    change (db_certs d3) with (db_certs d1) in Hcin. rewrite Hcerts in Hcin.
    apply list_elem_of_fmap. exists c. rewrite <- Hnext. split; [by rewrite Hsn|by apply list_elem_of_In]. }
  erewrite bind_ok by (apply on_db_run; unfold execute_returning, query; cbn [mg_db];
    change (db_faults d3) with (db_faults d2); rewrite Hd2, Hic; reflexivity).
  erewrite bind_ok by (unfold gets; reflexivity). erewrite bind_ok by (unfold modify; reflexivity).
  cbn [mg_db mg_approved]. set (d4 := set_db_next_uuid _ (set_db_certs _ d3)).
  erewrite bind_ok by (apply on_db_run; cbn [mg_db]; apply execute_healthy; exact Hd2). cbn [mg_db mg_approved].
  set (d5 := set_db_requests _ d4).
  match goal with |- context [log_event ?e] => destruct (log_healthy (E:=AppError) e d5 Hd2) as (rows & n & Hl) end.
  erewrite bind_ok by (apply on_db_run; exact Hl). cbn [mg_approved].
  eexists host, _, _, _. split; [reflexivity|]. split; [exact Hd2|exact Hfresh|exact Hrow|cbn; by rewrite Hreq, Hrid| |by exists interval|done].
  exists params, cert. split_and!; [exact Hpem|done|done|cbn; by rewrite Hcerts|done|done| |done]. by rewrite Hcs, Hser.
Qed.

(** C16. An approval delivers exactly one identity, to the holder of the polling
    token, once. For a request of a name and address that are not registered, whose
    CSR can be signed and whose drawn ids are new: approval adds one host, with an id
    no host had and the name and address of the request, and nothing else to the
    hosts; it signs the request's key as a client certificate whose common name is
    that id, and adds one certificate row, active, with that host, that certificate
    and its serial number, which revocation goes by; the next poll with the token
    returns that certificate and that id, and the poll after it finds nothing. *)
Theorem approval_delivers_once {SQLL : SqlLaws} cfg ca (u : AuthUser) (id : Uuid) (s : Manager)
    (r : EnrollmentRequest) (pt csr : string) (key : Csr) :
  approvable u id s r ca csr key -> sha256_hex pt = er_polling_token r ->
  NoDup (er_polling_token <$> db_requests (mg_db s)) ->
  exists s1 host bundle params h c,
    approve_enrollment cfg ca u id s = (Ok 200%Z, s1) /\
    host_exists host (mg_db s) = false /\ db_hosts (mg_db s1) = db_hosts (mg_db s) ++ [h] /\
    (h_id h, h_fqdn h, h_ip_address h) = (host, er_fqdn r, er_ip_address r) /\
    csr_signed_by key params (ca_issuer ca) = Ok (pki_server_cert bundle) /\
    lp_common_name params = uuid_to_string host /\ lp_client_auth params = true /\
    db_certs (mg_db s1) = db_certs (mg_db s) ++ [c] /\
    (ct_host_id c, ct_cert_pem c, ct_serial_number c, ct_status c) =
      (Some host, pki_server_cert bundle, hex_encode (uuid_bytes (lp_serial params)), CertActive) /\
    exists s2, poll_enrollment_status pt s1 = (Ok (StApproved bundle (uuid_to_string host)), s2) /\
      poll_enrollment_status pt s2 = (Err (NotFound "Enrollment not found or expired"), s2).
Proof.
  intros Hap Hpt Hnd.
  destruct (approve_run cfg ca u id s r csr key Hap) as (host & bundle & now & d' & Hrun & [Hd' Hnew (h & Hh & Hid & Hfq & Hipa) Hreq
    (params & c & Hpem & Hcn & Hca & Hcerts & Hch & Hcp & Hcs & Hst) _ _]).
  eexists _, host, bundle, params, h, c. split; [exact Hrun|]. split_and!; try done; [congruence|congruence|]. eexists. split.
  - unfold poll_enrollment_status. erewrite bind_ok by (unfold gets; reflexivity). cbn [mg_approved].
    rewrite Hpt, lookup_insert_eq. by erewrite bind_ok by (unfold modify; reflexivity).
  - unfold poll_enrollment_status. erewrite bind_ok by (unfold gets; reflexivity). cbn [mg_approved mg_db].
    rewrite Hpt, lookup_delete_eq. erewrite bind_ok by (apply on_db_run, fetch_healthy; exact Hd').
    destruct (head _) as [r'|] eqn:Hr'; [|done]. exfalso. apply head_scan_in in Hr' as [Hin' Hp'].
    cbn in Hin'. rewrite Hreq in Hin'. apply delete_where_in in Hin' as [Hin' Hne].
    destruct (head_scan_in _ _ _ (ap_request _ _ _ _ _ _ _ Hap)) as [Hrin Hrid].
    apply andb_true_iff in Hp' as [Hp' _]. apply bool_decide_eq_true in Hp'.
    assert (r' = r) as -> by by eapply (NoDup_key_inj er_polling_token). by apply bool_decide_eq_false in Hne.
Qed.

(** ** Ways to get stuck *)

(** A failed approval cannot be repeated: when the CSR does not parse, the
    approval is an error, but the host has already been registered, so the
    second attempt is refused because the host exists. The request can only be
    denied, and the host row stays. *)
Theorem failed_approval_blocks_retry cfg ca (u : AuthUser) (id : Uuid) (s : Manager) (r : EnrollmentRequest) csr e :
  healthy (mg_db s) -> is_admin (au_role u) = true -> find_request id (mg_db s) = Some r ->
  List.filter (fun h => bool_decide (h_fqdn h = er_fqdn r) && bool_decide (h_ip_address h = er_ip_address r)) (db_hosts (mg_db s)) = [] ->
  host_exists (uuid_of (db_next_uuid (mg_db s))) (mg_db s) = false ->
  er_csr r = Some csr -> csr_from_pem csr = Err e ->
  exists s1 host, approve_enrollment cfg ca u id s = (Err (Internal ("CA sign failed: rcgen error: " +:+ e)), s1) /\
    host_exists host (mg_db s1) = true /\
    approve_enrollment cfg ca u id s1 = (Err (Conflict "Host already registered"), s1).
Proof.
  intros Hd Ha Hr Hc Hnew Hcsr Hkey.
  destruct (approve_prefix cfg ca u id s r Hd Ha Hr Hc Hnew) as (host & interval & d1 & Hins & _ & _ & Hrun). cbv zeta in Hrun.
  set (d2 := set_db_overrides _ d1) in Hrun.
  destruct (inserted_host _ _ _ _ Hins) as (_ & Hex & Hreq & _ & _ & Hf & _).
  exists (mkManager d2 (mg_approved s)), host. split_and!.
  - rewrite Hrun, Hcsr. erewrite bind_ok by reflexivity.
    erewrite bind_ok; [|unfold attempt, on_db, sign_csr; erewrite bind_err by (unfold lift_result; rewrite Hkey; reflexivity); reflexivity].
    done.
  - exact Hex.
  - assert (healthy d2) as Hd2 by (unfold healthy; cbn; by rewrite Hf).
    unfold approve_enrollment.
    erewrite bind_ok by (apply on_db_run; unfold require_admin_role, guard_or; rewrite Ha; reflexivity).
    erewrite bind_ok by (apply on_db_run, fetch_healthy, Hd2). cbn [mg_db mg_approved].
    assert (find_request id d2 = Some r) as -> by (unfold find_request in *; cbn; by rewrite Hreq).
    erewrite bind_ok by (apply on_db_run; reflexivity).
    erewrite bind_ok by (apply on_db_run, fetch_healthy, Hd2). cbn [mg_db mg_approved].
    assert (exists h hs, List.filter (fun h => bool_decide (h_fqdn h = er_fqdn r) && bool_decide (h_ip_address h = er_ip_address r))
      (db_hosts d2) = h :: hs) as (h & hs & Hhs).
    { unfold insert_host in Hins. destruct (negb _ && forallb _ _); [|done]. simplify_eq. cbn. rewrite List.filter_app, Hc. cbn.
      rewrite !bool_decide_eq_true_2 by done. by eexists _, _. }
    by rewrite Hhs.
Qed.

(** A machine whose earlier request expired cannot enroll again: its new
    submission is accepted and uses up the token, but the request keeps the old
    expiry time, so polling with the token it was just given finds nothing (and
    the administrators' list does not show it). *)
Theorem expired_request_stuck {SQLL : SqlLaws} (req : SubmitEnrollmentRequest) (d d1 : Db) pt (r : EnrollmentRequest)
    (cache : gmap string ApprovedEntry) :
  healthy d -> r ∈ db_requests d -> er_machine_id r = se_fqdn req +:+ "-" +:+ se_ip_address req ->
  NoDup (er_machine_id <$> db_requests d) -> (er_expires_at r <= db_now d)%Z ->
  submit_enrollment req d = (Ok pt, d1) -> cache !! sha256_hex pt = None ->
  poll_enrollment_status pt (mkManager d1 cache) =
    (Err (NotFound "Enrollment not found or expired"), mkManager d1 cache).
Proof.
  intros Hd Hr Hm Hnd Hexp Hs Hcache. destruct (submit_ok req d pt d1 Hd Hs) as [Hd1 _].
  destruct (submit_inv req d pt d1 Hd Hs) as [(dx & rows & n & Hup & ->) _].
  destruct (upsert_frame _ _ _ _ Hup) as (_ & _ & Hnow).
  pose proof (upsert_expiry _ _ _ _ r Hup Hnd Hr Hm) as Hall.
  unfold poll_enrollment_status. erewrite bind_ok by (unfold gets; reflexivity). cbn [mg_approved mg_db]. rewrite Hcache.
  erewrite bind_ok by (apply on_db_run, fetch_healthy; exact Hd1). cbn [mg_db mg_approved].
  destruct (head _) as [x|] eqn:Hx; [|done]. exfalso. apply head_scan_in in Hx as [Hin Hp].
  apply andb_true_iff in Hp as [Hp Hlt]. apply bool_decide_eq_true in Hp. specialize (Hall x Hin Hp).
  apply Z.ltb_lt in Hlt. cbn in Hlt, Hnow. lia.
Qed.

(** Revoking a token has no effect on enrollment: a revoked token that is
    unused, unexpired and issued for the name still validates. *)
Theorem revoked_token_still_valid {SQLL : SqlLaws} (u : AuthUser) (hash fqdn : string) (d : Db) (k : EnrollmentToken) :
  healthy d -> is_admin (au_role u) = true -> NoDup (et_token_hash <$> db_tokens d) ->
  k ∈ db_tokens d -> et_token_hash k = hash -> et_used_at k = None -> (db_now d <= et_expires_at k)%Z ->
  et_host_fqdn k = fqdn ->
  exists d', revoke_token u hash d = (Ok 200%Z, d') /\ with_revoked_at (db_now d) k ∈ db_tokens d' /\
    validate_token hash fqdn d' = (Ok tt, d').
Proof.
  intros Hd Ha Hnd Hk Hh Hu Hx Hf. unfold revoke_token, require_admin_role, guard_or. rewrite Ha.
  erewrite bind_ok by reflexivity. erewrite bind_ok by by apply execute_healthy.
  set (d1 := set_db_tokens _ d).
  match goal with |- context [log_event ?e] => destruct (log_healthy (E:=AppError) e d1 Hd) as (rows & n & Hl) end.
  erewrite bind_ok by exact Hl. eexists. split; [reflexivity|]. set (d2 := set_db_audit _ _).
  assert (with_revoked_at (db_now d) k ∈ db_tokens d2) as Hin.
  { cbn. unfold update_where. apply list_elem_of_In, in_map_iff. exists k.
    unfold has_hash. rewrite bool_decide_eq_true_2 by done. split; [done|by apply list_elem_of_In]. }
  split; [done|].
  destruct (head_scan_some (has_hash hash) (db_tokens d2) _ Hin) as [y Hy]; [by apply bool_decide_eq_true_2|].
  assert (y = with_revoked_at (db_now d) k) as ->.
  { apply head_scan_in in Hy as [Hyin Hyh]. apply bool_decide_eq_true in Hyh.
    eapply (NoDup_key_inj et_token_hash (db_tokens d2)); [|done|done|by rewrite Hyh].
    cbn. change (et_token_hash <$> update_where ?p ?f ?l) with (map et_token_hash (update_where p f l)).
    by rewrite update_where_map. }
  unfold validate_token. erewrite bind_ok by by apply fetch_healthy. unfold find_token. rewrite Hy. cbn -[Z.ltb].
  rewrite Hu. cbn. erewrite bind_ok by reflexivity. erewrite bind_ok by (unfold gets; reflexivity). cbn [db_now].
  destruct (Z.ltb_spec (et_expires_at k) (db_now d2)); [cbn in *; lia|]. erewrite bind_ok by reflexivity.
  erewrite bind_ok by by apply fetch_healthy. rewrite Hy. cbn. by rewrite bool_decide_eq_true_2 by (by rewrite Hf).
Qed.
End facts.

(** ** Witnesses *)

Definition toy_json_parse : SerdeParse := {| json_parse _ := None |}.

Definition enroll_db : Db :=
  set_db_tokens [mkToken (@sha256_hex toy_sha256 "secret") "h.example" None (uuid_of 7) HOUR None None]
  (set_db_users [mkUser (uuid_of 7) "root" "" "root@example" Admin Local None false true false None 0 0 0 None] empty_db).
Definition ex_submit : SubmitEnrollmentRequest := mkSubmit "secret" "csr" "h.example" "192.0.2.1" None JNull.
Notation toy_submit := (@submit_enrollment toy_sql toy_sha256 toy_serde toy_uuid_text toy_rfc3339 toy_pg).

Lemma enrollment_token_single_use_witness :
  exists pt d1, toy_submit ex_submit enroll_db = (Ok pt, d1) /\
    toy_submit ex_submit d1 = (Err (BadRequest "Token already used"), d1).
Proof.
  destruct (toy_submit ex_submit enroll_db) as [[pt|e] d1] eqn:Hs; [|exfalso; revert Hs; vm_compute; discriminate].
  exists pt, d1. split; [done|].
  apply (@enrollment_token_single_use toy_sql toy_sha256 toy_serde toy_uuid_text toy_rfc3339 toy_pg toy_sql_laws
    ex_submit ex_submit enroll_db d1 pt eq_refl Hs eq_refl).
Defined.

Definition ex_request_row (csr polling : string) (expires : Z) : EnrollmentRequest :=
  mkEnrollmentRequest (uuid_of 40) "h.example-192.0.2.1" "h.example" "192.0.2.1" None JNull
    (@sha256_hex toy_sha256 polling) (Some csr) 0 expires.
Definition approve_state (csr : string) : Manager :=
  mkManager (set_db_requests [ex_request_row csr "poll" DAY] enroll_db) ∅.
Definition ex_cfg : ServerConfig := mkServerConfig "192.0.2.10" 8443.
Definition ex_ca : @CertAuthority toy_rcgen := @mkCa toy_rcgen "/ca" ("root", 1%N) "root" None.

Lemma approval_delivers_once_witness :
  exists s1 host bundle s2,
    @approve_enrollment toy_sql toy_sha256 toy_serde toy_uuid_text toy_rfc3339 toy_rcgen toy_hex toy_json_parse
      ex_cfg ex_ca (ex_admin Admin) (uuid_of 40) (approve_state "csr") = (Ok 200%Z, s1) /\
    @poll_enrollment_status toy_sql toy_sha256 toy_uuid_text "poll" s1 =
      (Ok (StApproved bundle (@uuid_to_string toy_uuid_text host)), s2) /\
    is_ok (@poll_enrollment_status toy_sql toy_sha256 toy_uuid_text "poll" s2).1 = false.
Proof.
  destruct (@approval_delivers_once toy_sql toy_sha256 toy_serde toy_uuid_text toy_rfc3339 toy_rcgen toy_hex
    toy_json_parse toy_sql_laws ex_cfg ex_ca (ex_admin Admin) (uuid_of 40) (approve_state "csr")
    (ex_request_row "csr" "poll" DAY) "poll" "csr" "csr") as (s1 & host & bundle & params & h & c & H1 & _ & _ & _ & _ & _ & _ & _ & _ & s2 & H2 & H3).
  - split; try reflexivity. apply not_elem_of_nil.
  - reflexivity.
  - apply NoDup_singleton.
  - exists s1, host, bundle, s2. split_and!; [exact H1|exact H2|]. by rewrite H3.
Defined.

Lemma failed_approval_blocks_retry_witness :
  let approve := @approve_enrollment toy_sql toy_sha256 toy_serde toy_uuid_text toy_rfc3339 toy_rcgen toy_hex
    toy_json_parse ex_cfg ex_ca (ex_admin Admin) (uuid_of 40) in
  exists s1, approve (approve_state "bad") = (Err (Internal "CA sign failed: rcgen error: not a CSR"), s1) /\
    approve s1 = (Err (Conflict "Host already registered"), s1).
Proof.
  intros approve.
  destruct (@failed_approval_blocks_retry toy_sql toy_sha256 toy_serde toy_uuid_text toy_rfc3339 toy_rcgen toy_hex
    toy_json_parse ex_cfg ex_ca (ex_admin Admin) (uuid_of 40) (approve_state "bad") (ex_request_row "bad" "poll" DAY)
    "bad" "not a CSR") as (s1 & host & H1 & _ & H2); try reflexivity.
  by exists s1.
Defined.

(** The first request expired at time 0. *)
Lemma expired_request_stuck_witness :
  let d := set_db_requests [ex_request_row "csr" "old" 0] enroll_db in
  exists pt d1, toy_submit ex_submit d = (Ok pt, d1) /\
    @poll_enrollment_status toy_sql toy_sha256 toy_uuid_text pt (mkManager d1 ∅) =
      (Err (NotFound "Enrollment not found or expired"), mkManager d1 ∅).
Proof.
  intros d. destruct (toy_submit ex_submit d) as [[pt|e] d1] eqn:Hs; [|exfalso; revert Hs; vm_compute; discriminate].
  exists pt, d1. split; [done|].
  apply (@expired_request_stuck toy_sql toy_sha256 toy_serde toy_uuid_text toy_rfc3339 toy_pg toy_sql_laws
    ex_submit d d1 pt (ex_request_row "csr" "old" 0) ∅).
  - reflexivity.
  - left.
  - reflexivity.
  - apply NoDup_singleton.
  - vm_compute. discriminate.
  - exact Hs.
  - apply lookup_empty.
Defined.

Lemma revoked_token_still_valid_witness :
  exists d', @revoke_token toy_sha256 toy_serde toy_uuid_text toy_rfc3339 (ex_admin Admin)
      (@sha256_hex toy_sha256 "secret") enroll_db = (Ok 200%Z, d') /\
    @validate_token toy_sql (@sha256_hex toy_sha256 "secret") "h.example" d' = (Ok tt, d').
Proof.
  destruct (@revoked_token_still_valid toy_sql toy_sha256 toy_serde toy_uuid_text toy_rfc3339 toy_sql_laws (ex_admin Admin)
    (@sha256_hex toy_sha256 "secret") "h.example" enroll_db
    (mkToken (@sha256_hex toy_sha256 "secret") "h.example" None (uuid_of 7) HOUR None None)) as (d' & H1 & _ & H2);
    try reflexivity.
  - apply NoDup_singleton.
  - left.
  - vm_compute. discriminate.
  - by exists d'.
Defined.
