(* ===== verification/WebBodies.v ===== *)
(** * WebBodies: the request bodies of the administration API

    What [serde] derives to read the request structs of
    [crates/fw-web/src/routes/] and the enums of [crates/fw-core/src/models.rs] in
    them. A derived reader takes an object, whose unknown fields it skips, or an
    array of the fields in order; an [Option] field of an object may be absent; an
    integer outside its type is an error. *)

From S2P Require Import Prelude Text Models Net Wire WireJson Db Auth PolicyAdmin Ca Login Users Settings Enrollment.

(** ** Derived readers *)

(** The fields of a struct: of an object as they are, of an array by position; the
    last [defaults] fields have [#[serde(default)]] and may be missing from an array. *)
Definition struct_fields (names : list string) (defaults : nat) (j : Json) : option (list (string * Json)) :=
  match j with
  | JObj fs => Some fs
  | JArr vs =>
      if (length names - defaults <=? length vs)%nat && (length vs <=? length names)%nat then Some (zip names vs) else None
  | _ => None
  end.

(** A unit variant is its name, or an object with that one key and no content. *)
Definition variant_name (j : Json) : option string :=
  match j with JStr s => Some s | JObj [(k, JNull)] => Some k | _ => None end.
Definition de_variant {A} (as_str : A -> string) (variants : list A) (j : Json) : option A :=
  name ← variant_name j; List.find (fun v => bool_decide (as_str v = name)) variants.

Definition de_action : Json -> option FirewallAction := de_variant action_as_str [Allow; Deny; Reject; Limit; Masquerade].
Definition de_direction : Json -> option FirewallDirection := de_variant direction_as_str [In; Out; Forward].
Definition de_protocol : Json -> option FirewallProtocol :=
  de_variant protocol_as_str [Any; Tcp; Udp; Icmp; Icmpv6; Gre; Esp; Ah; Sctp].
Definition de_default_policy : Json -> option FirewallDefaultPolicy := de_variant default_policy_as_str [DefAllow; DefDeny; DefReject].
Definition de_role : Json -> option UserRole := de_variant role_as_str [Admin; Operator; Reporter; BreakGlassOperator].

(** [deserialize_some] with [#[serde(default)]]: an absent field is [None], a null
    one [Some(None)]. *)
Definition deserialize_some {A} (de : Json -> option A) (k : string) (fields : list (string * Json)) : option (option (option A)) :=
  o ← lookup_field k fields; match o with None => Some None | Some v => Some <$> de_opt de v end.

(** ** auth.rs *)

Definition de_login_request (j : Json) : option LoginRequest :=
  fs ← struct_fields ["username"; "password"; "mfa_code"] 0 j;
  username ← de_field de_str "username" fs; password ← de_field de_str "password" fs;
  code ← de_opt_field de_str "mfa_code" fs; Some (mkLogin username password code).

(** [RefreshRequest] and [LogoutRequest]. *)
Definition de_refresh_request (j : Json) : option string :=
  fs ← struct_fields ["refresh_token"] 0 j; de_field de_str "refresh_token" fs.
Definition de_mfa_setup_request (j : Json) : option (string * string) :=
  fs ← struct_fields ["secret"; "code"] 0 j; secret ← de_field de_str "secret" fs; code ← de_field de_str "code" fs; Some (secret, code).
Definition de_mfa_verify_request (j : Json) : option string :=
  fs ← struct_fields ["code"] 0 j; de_field de_str "code" fs.
Definition de_change_password_request (j : Json) : option (string * string) :=
  fs ← struct_fields ["current_password"; "new_password"] 0 j;
  current ← de_field de_str "current_password" fs; new ← de_field de_str "new_password" fs; Some (current, new).

(** ** policy_sets.rs, rule_groups.rs, rules.rs *)

Definition de_create_policy_set (j : Json) : option CreatePolicySetRequest :=
  fs ← struct_fields ["name"; "description"; "default_input_policy"; "default_output_policy"] 0 j;
  name ← de_field de_str "name" fs; description ← de_opt_field de_str "description" fs;
  input ← de_opt_field de_default_policy "default_input_policy" fs;
  output ← de_opt_field de_default_policy "default_output_policy" fs;
  Some (mkCreatePolicySet name description input output).

Definition de_update_policy_set (j : Json) : option UpdatePolicySetRequest :=
  fs ← struct_fields ["name"; "description"; "default_input_policy"; "default_output_policy"] 2 j;
  name ← de_opt_field de_str "name" fs; description ← de_opt_field de_str "description" fs;
  input ← deserialize_some de_default_policy "default_input_policy" fs;
  output ← deserialize_some de_default_policy "default_output_policy" fs;
  Some (mkUpdatePolicySet name description input output).

Section bodies.
Context {UT : UuidText}.

Definition de_add_group_request (j : Json) : option (Uuid * option Z) :=
  fs ← struct_fields ["rule_group_id"; "set_group_order"] 0 j;
  group ← de_field de_uuid "rule_group_id" fs; order ← de_opt_field de_i32 "set_group_order" fs; Some (group, order).
Definition de_reorder_groups_request (j : Json) : option (list Uuid) :=
  fs ← struct_fields ["rule_group_ids"] 0 j; de_field (de_list de_uuid) "rule_group_ids" fs.
Definition de_reorder_rules_request (j : Json) : option (list Uuid) :=
  fs ← struct_fields ["rule_ids"] 0 j; de_field (de_list de_uuid) "rule_ids" fs.
End bodies.

(** [CreateRuleGroupRequest] and [groups::CreateGroupRequest]. *)
Definition de_create_group_request (j : Json) : option (string * option string) :=
  fs ← struct_fields ["name"; "description"] 0 j;
  name ← de_field de_str "name" fs; description ← de_opt_field de_str "description" fs; Some (name, description).
Definition de_update_rule_group (j : Json) : option (option string * option string) :=
  fs ← struct_fields ["name"; "description"] 0 j;
  name ← de_opt_field de_str "name" fs; description ← de_opt_field de_str "description" fs; Some (name, description).

Definition de_create_rule (j : Json) : option CreateRuleInGroupRequest :=
  fs ← struct_fields ["name"; "description"; "action"; "direction"; "protocol"; "src_cidr"; "src_port_start"; "src_port_end";
    "dst_cidr"; "dst_port_start"; "dst_port_end"; "interface_in"; "interface_out"; "comment"; "log"; "priority"; "group_order"] 0 j;
  name ← de_field de_str "name" fs; description ← de_opt_field de_str "description" fs;
  action ← de_field de_action "action" fs; direction ← de_field de_direction "direction" fs; protocol ← de_field de_protocol "protocol" fs;
  src ← de_opt_field de_str "src_cidr" fs; sps ← de_opt_field de_i32 "src_port_start" fs; spe ← de_opt_field de_i32 "src_port_end" fs;
  dst ← de_opt_field de_str "dst_cidr" fs; dps ← de_opt_field de_i32 "dst_port_start" fs; dpe ← de_opt_field de_i32 "dst_port_end" fs;
  ifin ← de_opt_field de_str "interface_in" fs; ifout ← de_opt_field de_str "interface_out" fs;
  comment ← de_opt_field de_str "comment" fs; log ← de_opt_field de_bool "log" fs;
  priority ← de_opt_field de_i32 "priority" fs; order ← de_opt_field de_i32 "group_order" fs;
  Some (mkCreateRule name description action direction protocol src sps spe dst dps dpe ifin ifout comment log priority order).

Definition de_update_rule (j : Json) : option UpdateRuleRequest :=
  fs ← struct_fields ["name"; "description"; "action"; "direction"; "protocol"; "src_cidr"; "src_port_start"; "src_port_end";
    "dst_cidr"; "dst_port_start"; "dst_port_end"; "interface_in"; "interface_out"; "comment"; "log"; "priority"] 0 j;
  name ← de_opt_field de_str "name" fs; description ← de_opt_field de_str "description" fs;
  action ← de_opt_field de_action "action" fs; direction ← de_opt_field de_direction "direction" fs;
  protocol ← de_opt_field de_protocol "protocol" fs;
  src ← de_opt_field de_str "src_cidr" fs; sps ← de_opt_field de_i32 "src_port_start" fs; spe ← de_opt_field de_i32 "src_port_end" fs;
  dst ← de_opt_field de_str "dst_cidr" fs; dps ← de_opt_field de_i32 "dst_port_start" fs; dpe ← de_opt_field de_i32 "dst_port_end" fs;
  ifin ← de_opt_field de_str "interface_in" fs; ifout ← de_opt_field de_str "interface_out" fs;
  comment ← de_opt_field de_str "comment" fs; log ← de_opt_field de_bool "log" fs; priority ← de_opt_field de_i32 "priority" fs;
  Some (mkUpdateRule name description action direction protocol src sps spe dst dps dpe ifin ifout comment log priority).

(** ** hosts.rs, deployment.rs *)

Definition de_update_host (j : Json) : option (option string * option string) :=
  fs ← struct_fields ["display_name"; "notes"] 0 j;
  name ← de_opt_field de_str "display_name" fs; notes ← de_opt_field de_str "notes" fs; Some (name, notes).
Definition de_add_protected_cidr (j : Json) : option (string * option string) :=
  fs ← struct_fields ["cidr"; "label"] 0 j;
  cidr ← de_field de_str "cidr" fs; label ← de_opt_field de_str "label" fs; Some (cidr, label).

Section deployment_bodies.
Context {UT : UuidText}.

(** [AssignPolicySetRequest] of hosts.rs and [PreviewRequest]. *)
Definition de_policy_set_id (j : Json) : option Uuid :=
  fs ← struct_fields ["policy_set_id"] 0 j; de_field de_uuid "policy_set_id" fs.
(** [AssignRequest] and [UnassignRequest]. *)
Definition de_assign_request (j : Json) : option (Uuid * list Uuid * list Uuid) :=
  fs ← struct_fields ["policy_set_id"; "host_ids"; "group_ids"] 1 j;
  ps ← de_field de_uuid "policy_set_id" fs; hosts ← de_field (de_list de_uuid) "host_ids" fs;
  groups ← de_default_field (de_list de_uuid) [] "group_ids" fs; Some (ps, hosts, groups).
End deployment_bodies.

(** ** users.rs, settings.rs, enrollment.rs *)

Definition de_create_user (j : Json) : option CreateUserRequest :=
  fs ← struct_fields ["username"; "display_name"; "email"; "role"; "password"] 0 j;
  username ← de_field de_str "username" fs; display ← de_field de_str "display_name" fs; email ← de_field de_str "email" fs;
  role ← de_field de_role "role" fs; password ← de_field de_str "password" fs; Some (mkCreateUser username display email role password).
Definition de_update_user (j : Json) : option UpdateUserRequest :=
  fs ← struct_fields ["display_name"; "email"; "role"; "is_active"] 0 j;
  display ← de_opt_field de_str "display_name" fs; email ← de_opt_field de_str "email" fs;
  role ← de_opt_field de_role "role" fs; active ← de_opt_field de_bool "is_active" fs; Some (mkUpdateUser display email role active).

Definition de_update_settings (j : Json) : option UpdateSettingsRequest :=
  fs ← struct_fields ["oidc"; "smtp"; "polling"; "ip_whitelist"; "web_tls_strategy"; "notification"] 0 j;
  oidc ← de_opt_field de_value "oidc" fs; smtp ← de_opt_field de_value "smtp" fs; polling ← de_opt_field de_value "polling" fs;
  whitelist ← de_opt_field (de_list de_str) "ip_whitelist" fs; strategy ← de_opt_field de_str "web_tls_strategy" fs;
  notification ← de_opt_field de_value "notification" fs; Some (mkUpdateSettings oidc smtp polling whitelist strategy notification).
Definition de_update_list (j : Json) : option (list string) :=
  fs ← struct_fields ["entries"] 0 j; de_field (de_list de_str) "entries" fs.

Definition de_submit_enrollment (j : Json) : option SubmitEnrollmentRequest :=
  fs ← struct_fields ["token"; "csr"; "fqdn"; "ip_address"; "hostname"; "os_details"] 0 j;
  token ← de_field de_str "token" fs; csr ← de_field de_str "csr" fs; fqdn ← de_field de_str "fqdn" fs;
  ip ← de_field de_str "ip_address" fs; hostname ← de_opt_field de_str "hostname" fs; os ← de_field de_value "os_details" fs;
  Some (mkSubmit token csr fqdn ip hostname os).
Definition de_create_token (j : Json) : option (string * option string * option Z) :=
  fs ← struct_fields ["host_fqdn"; "host_ip"; "ttl_hours"] 0 j;
  fqdn ← de_field de_str "host_fqdn" fs; ip ← de_opt_field de_str "host_ip" fs; ttl ← de_opt_field de_i64 "ttl_hours" fs;
  Some (fqdn, ip, ttl).

(** ** What a read request is known to satisfy *)

(** A value read for an [Option<iN>] field is in range. *)
Lemma de_opt_field_int bits k fs o : de_opt_field (de_int bits) k fs = Some o ->
  match o with Some z => (- 2 ^ (bits - 1) <= z < 2 ^ (bits - 1))%Z | None => True end.
Proof.
  unfold de_opt_field. intros (v & _ & Hv)%bind_Some. destruct v as [j|]; [|by simplify_eq].
  destruct j; simplify_eq/=; try done. case_match eqn:Hc; [|done]. simplify_eq/=. apply andb_true_iff in Hc as [?%Z.leb_le ?%Z.ltb_lt]. lia.
Qed.
