(* ===== verification/Races.v ===== *)
(** * Races: what holds, and what does not, when requests overlap

    The statements of [log_event] (fw-core audit.rs), [submit_enrollment]
    (enrollment.rs) and [login] (auth.rs) as programs of [Interleave]: each reads,
    decides, and writes in separate statements with no transaction around them.
    Each program is proved to run to the handler of its own file; the theorems are
    about every interleaving of any number of them, with the clock running. *)

From S2P Require Import Prelude Text Models Net Codec Db AuditLog Interleave Auth PolicyAdmin Ca Login LoginFacts.
From S2P Require Import AdminFacts Settings Enrollment EnrollmentFacts.

(** ** Statements on other tables *)

(** [R] and [I] look at the part [v] of the database only. *)
Class Sees {X} (v : Db -> X) (R : relation Db) (I : Db -> Prop) :=
  sees d d' : v d' = v d -> I d -> R d d' /\ I d'.

Lemma polite_elsewhere {X B} (v : Db -> X) R I `{!Sees v R I} (m : DB B) :
  (forall d, v (final m d) = v d) -> polite R I m.
Proof. intros H d Hd. by apply sees. Qed.

(** [UPDATE enrollment_tokens SET used_at = NOW() WHERE token_hash = $1]. *)
Definition mark_used (token_hash : string) : DB unit :=
  execute (fun d => set_db_tokens (update_where (has_hash token_hash) (with_used_at (db_now d)) (db_tokens d)) d).

(** A statement that leaves the part [v] of the database alone: by computation. *)
Ltac elsewhere v :=
  apply (polite_elsewhere v); [tc_solve|]; intros ?; unfold final, audit_insert, upsert_request, mark_used, count_failure,
    lock_account, reset_attempts, insert_refresh, internal_jwt, issue_access_token, internal_password, hash_password,
    draw, fresh_uuid, gets, fetch, execute, execute_if, execute_returning, query, lift_result, mbind, M_bind, mret, M_ret;
  repeat case_match; simplify_eq/=; done.

(** The clock runs while requests wait. *)
Inductive tick : relation Db := tick_to t d : (db_now d <= t)%Z -> tick d (set_db_now t d).

Section programs.
Context {SQL : Sql} {SHA : Sha256} {JS : SerdeJson} {UT : UuidText} {RFC : Rfc3339} {JWT : Jwt} {A2 : Argon2}
  {UNI : Unicode} {PG : PgInet}.

Notation DBP := (Prog Db AppError).
#[local] Notation sql m := (stmt (W:=Db) (E:=AppError) m).

(** ** The programs *)

Definition log_prog (e : AuditEvent) : DBP unit :=
  now ← sql (gets db_now);
  prev_r ← attempting (sql (fetch last_row_hash));
  let prev := default "" (unwrap_or None prev_r) in
  let row_hash := sha256_hex (event_bytes prev e now) in
  ignoring (sql (audit_insert e prev row_hash now)).

Definition validate_prog (token_hash fqdn : string) : DBP unit :=
  row ← sql (fetch (A:=option (DateTime * option DateTime)) (fun d => (fun t => (et_expires_at t, et_used_at t)) <$> find_token token_hash d));
  match row with
  | Some (expires_at, used_at) =>
      _ ← require (W:=Db) (bool_decide (used_at = None)) (BadRequest "Token already used");
      now ← sql (gets db_now);
      _ ← require (W:=Db) (negb (expires_at <? now)%Z) (BadRequest "Token expired");
      token_fqdn ← sql (fetch (A:=option string) (fun d => et_host_fqdn <$> find_token token_hash d));
      require (bool_decide (token_fqdn = Some fqdn)) (BadRequest "FQDN does not match token")
  | None => fail (BadRequest "Invalid token")
  end.

Definition submit_prog (req : SubmitEnrollmentRequest) : DBP string :=
  let token_hash := sha256_hex (se_token req) in
  _ ← validate_prog token_hash (se_fqdn req);
  _ ← ignoring (sql (mark_used token_hash));
  polling_uuid ← sql fresh_uuid;
  let polling_token := uuid_to_string polling_uuid in
  _ ← sql (execute_returning (upsert_request req (sha256_hex polling_token)));
  _ ← log_prog (mkEvent "enrollment_token_used" None None (Some "enrollment") (Some (se_fqdn req))
        (JObj [("fqdn", JStr (se_fqdn req)); ("ip", JStr (se_ip_address req))]) (Some (se_ip_address req)) None);
  mret polling_token.

Definition rejected_prog (req : LoginRequest) (row : UserRow) : DBP LoginResponse :=
  _ ← ignoring (sql (count_failure (u_id row)));
  _ ← (if (5 <=? wrap32 (u_failed_login_attempts row + 1))%Z then ignoring (sql (lock_account (u_id row))) else mret tt);
  _ ← log_prog (mkEvent "user_login_failed" None (Some (lg_username req)) (Some "user")
        (Some (uuid_to_string (u_id row))) (JObj [("reason", JStr "invalid_password")]) None None);
  fail (Unauthorized "Invalid credentials").

Definition accepted_prog (signing_key : string) (row : UserRow) : DBP LoginResponse :=
  _ ← ignoring (sql (reset_attempts (u_id row)));
  issued ← sql (internal_jwt (issue_access_token signing_key (u_id row) (role_as_str (u_role row)) (u_username row)));
  refresh_uuid ← sql fresh_uuid;
  let refresh_token := uuid_to_string refresh_uuid in
  refresh_hash ← sql (internal_password (hash_password refresh_token));
  _ ← ignoring (sql (insert_refresh (u_id row) refresh_hash issued.2));
  _ ← log_prog (mkEvent "user_login" (Some (u_id row)) (Some (u_username row)) (Some "user")
        (Some (uuid_to_string (u_id row))) (JObj []) None None);
  mret (mkLoginResponse issued.1 refresh_token
    (mkUserInfo (u_id row) (u_username row) (u_display_name row) (u_email row) (role_as_str (u_role row))
       (auth_provider_text (u_auth_provider row)) (u_mfa_enabled row) (u_is_active row) (u_force_password_reset row)
       (to_rfc3339 <$> u_last_login_at row))).

Definition login_prog (signing_key : string) (req : LoginRequest) : DBP LoginResponse :=
  user ← sql (fetch (fun d => head (sql_scan (List.filter (login_matches (lg_username req)) (db_users d)))));
  let row := default dummy_user user in
  _ ← require (W:=Db) (u_is_active row) (Unauthorized "Invalid credentials");
  now ← sql (gets db_now);
  _ ← require (W:=Db) (negb (is_locked now row)) (Unauthorized "Account locked");
  if password_valid (lg_password req) row then accepted_prog signing_key row else rejected_prog req row.

(** Undisturbed, the programs are the handlers. *)
Lemma log_prog_implements e : implements (log_prog e) (log_event e).
Proof. unfold log_prog, log_event. implements_tac. Qed.

#[local] Hint Resolve log_prog_implements : implements.

Lemma submit_prog_implements req : implements (submit_prog req) (submit_enrollment req).
Proof. unfold submit_prog, submit_enrollment, validate_prog, validate_token. implements_tac. Qed.

Lemma login_prog_implements sk req : implements (login_prog sk req) (login sk req).
Proof. unfold login_prog, login, accepted_prog, login_accepted, rejected_prog, login_rejected. implements_tac. Qed.

(** Requests of different kinds, observed by whether they succeed. *)
Inductive Request :=
  | RqLog (e : AuditEvent)
  | RqSubmit (req : SubmitEnrollmentRequest)
  | RqLogin (signing_key : string) (req : LoginRequest).

Definition serving (q : Request) : DBP bool :=
  match q with
  | RqLog e => succeeded (log_prog e)
  | RqSubmit req => succeeded (submit_prog req)
  | RqLogin sk req => succeeded (login_prog sk req)
  end.

Lemma serving_lookup (qs : list Request) i q : qs !! i = Some q -> (serving <$> qs) !! i = Some (serving q).
Proof. intros H. by rewrite list_lookup_fmap, H. Qed.

Lemma Forall_serving R I : (forall q, safe R I (serving q)) -> forall qs, Forall (safe R I) (serving <$> qs).
Proof. intros H qs. by apply Forall_fmap, Forall_true. Qed.

(** ** The audit log *)

(** Every row's hash is that of its own fields and of the previous hash it names,
    which is empty or the hash of a row before it. *)
Definition rooted (rows : list AuditRow) : Prop := forall i r, rows !! i = Some r ->
  (exists t, to_micros t = ar_created_at r /\ ar_row_hash r = sha256_hex (event_bytes (ar_prev_hash r) (row_event r) t)) /\
  (ar_prev_hash r = "" \/ exists j q, (j < i)%nat /\ rows !! j = Some q /\ ar_prev_hash r = ar_row_hash q).

Definition grows : relation Db := fun d d' => db_audit d `prefix_of` db_audit d'.
Definition forest (d : Db) : Prop := rooted (db_audit d).
#[local] Instance grows_preorder : PreOrder grows.
Proof. split; [intros d; unfold grows; done|]. intros d1 d2 d3. unfold grows. apply transitivity. Qed.

(** A hash that names a row of the log, or none. *)
Definition names (prev : string) (d : Db) : Prop := prev = "" \/ exists q, q ∈ db_audit d /\ prev = ar_row_hash q.

Lemma names_grows prev d d' : grows d d' -> names prev d -> names prev d'.
Proof. intros [l Hl] [->|(q & Hq & ->)]; [by left|]. right. exists q. split; [|done]. rewrite Hl. set_solver. Qed.

Lemma rooted_snoc e prev t id d : forest d -> names prev d ->
  rooted (db_audit d ++ [mkAudit id (ev_action e) (sha256_hex (event_bytes prev e t)) prev (ev_actor_user_id e)
    (ev_actor_username e) (ev_target_type e) (ev_target_id e) (ev_details e) (ev_ip_address e) (ev_request_id e) (to_micros t)]).
Proof.
  intros Hf Hn i r Hi. apply lookup_app_Some in Hi as [Hi|[Hlen Hi]].
  - destruct (Hf i r Hi) as [H1 [H2|(j & q & Hj & Hq & H2)]]; split; [done|by left|done|].
    right. exists j, q. split_and!; [done|by apply lookup_app_l_Some|done].
  - apply list_lookup_singleton_Some in Hi as [Hi <-]. cbn [ar_row_hash ar_prev_hash ar_created_at]. split.
    + exists t. split; [done|]. by destruct e.
    + destruct Hn as [->|(q & Hq & ->)]; [by left|]. apply list_elem_of_lookup in Hq as [j Hj].
      right. exists j, q. split_and!; [|by apply lookup_app_l_Some|done]. apply lookup_lt_Some in Hj. lia.
Qed.

#[local] Instance forest_sees : Sees db_audit grows forest.
Proof. intros d d' H Hd. unfold grows, forest. by rewrite H. Qed.

Lemma insert_forest e prev t d : names prev d -> forest d ->
  let m := audit_insert e prev (sha256_hex (event_bytes prev e t)) t in grows d (final m d) /\ forest (final m d).
Proof.
  intros Hn Hf m. unfold m, audit_insert, final, query, grows, forest.
  destruct (db_faults d) as [|[] fs]; [|done|]; (destruct (loggable _ _); [|done]); cbn;
    (split; [apply prefix_app_r; done|]); by apply rooted_snoc.
Qed.

Lemma safe_log e : safe grows forest (log_prog e).
Proof.
  intros d Hd d1 H1 Hf1. split_and!; [done|done|]. intros d2 H2 Hf2. cbn.
  assert (db_audit (final (fetch (last_row_hash)) d2) = db_audit d2) as Hsame
    by (unfold final, fetch, query; by destruct (db_faults d2) as [|[] fs]).
  unfold grows, forest in *. rewrite Hsame. split_and!; [done|done|].
  intros d3 H3 Hf3.
  match goal with |- context [audit_insert ?e ?p _ ?t] => destruct (insert_forest e p t d3) as [Hg Hr]; [|done|] end.
  - eapply (names_grows _ d2); [exact H3|]. unfold outcome, fetch, query.
    destruct (db_faults d2) as [|[] fs]; [|by left|]; cbn; unfold last_row_hash; cbn;
      (destruct (last (db_audit d2)) as [q|] eqn:Hq; [|by left]); right; exists q;
      (split; [by apply last_Some_elem_of|done]).
  - by split_and!.
Qed.

#[local] Hint Resolve safe_log : polite.
#[local] Hint Extern 1 (polite grows forest _) => elsewhere db_audit : polite.

Lemma serving_forest q : safe grows forest (serving q).
Proof.
  destruct q as [e|req|sk req]; (apply safe_succeeded; [tc_solve|]).
  - apply safe_log.
  - unfold submit_prog, validate_prog. safe_tac.
  - unfold login_prog, accepted_prog, rejected_prog. safe_tac.
Qed.

Lemma tick_forest u v : tick u v -> forest u -> grows u v /\ forest v.
Proof. intros [t d Ht] Hd. by apply sees. Qed.

(** C28. The audit log under concurrency: in every interleaving of log entries,
    enrollment submissions and logins, failed statements included, rows are only
    ever appended, and each row's hash covers its own fields and the previous hash
    it names, which is empty or the hash of a row before it. (Not always of the
    row just before it: see [overlapping_events_break_chain].) *)
Theorem audit_log_rooted (d d' : Db) (qs : list Request) ps :
  rooted (db_audit d) -> rtc (step tick) (d, serving <$> qs) (d', ps) ->
  rooted (db_audit d') /\ db_audit d `prefix_of` db_audit d'.
Proof.
  intros Hd Hr. apply (pool_safe grows forest tick (serving <$> qs) ps); [apply tick_forest|done| |done].
  apply Forall_serving, serving_forest.
Qed.

(** An event between its SELECT and its INSERT. *)
Definition insert_prog (e : AuditEvent) (prev : string) (now : DateTime) : DBP unit :=
  ignoring (sql (audit_insert e prev (sha256_hex (event_bytes prev e now)) now)).

Lemma log_reads e d ps i : healthy d -> ps !! i = Some (log_prog e) ->
  rtc (step tick) (d, ps) (d, <[i := insert_prog e (default "" (last_row_hash d)) (db_now d)]> ps).
Proof.
  intros Hd Hi. unfold log_prog in Hi. pose proof (lookup_lt_Some _ _ _ Hi) as Hlt.
  eapply rtc_l; [apply (step_stmt _ _ _ _ _ _ _ Hi)|]. eapply rtc_l.
  { apply (step_stmt _ _ _ i). by apply list_lookup_insert_eq. }
  unfold final, outcome. cbn [gets fst snd]. rewrite fetch_healthy by done. cbn [fst snd].
  by rewrite list_insert_insert_eq.
Qed.

Lemma insert_runs e prev t d : healthy d -> loggable e d = true -> exists r,
  run (insert_prog e prev t) d = (Ok tt, set_db_audit (db_audit d ++ [r]) (set_db_audit_seq (db_audit_seq d + 1) d)) /\
  row_event r = e /\ ar_created_at r = to_micros t /\ ar_row_hash r = sha256_hex (event_bytes prev e t).
Proof.
  intros Hd He. cbn. unfold audit_insert, query. rewrite Hd, He. eexists. split; [reflexivity|]. by destruct e.
Qed.

(** A digest of a text that starts with the digest itself. *)
Definition sha256_cycle : Prop := exists h s, sha256_hex (h +:+ s) = h.

(** Two events whose statements overlap: both read the same last row, and the
    second row inserted does not follow the first. The log then fails its own
    verification although nothing was tampered with, unless SHA-256 collides or
    a digest contains itself. *)
Theorem overlapping_events_break_chain (e1 e2 : AuditEvent) (d : Db) :
  healthy d -> loggable e1 d = true -> loggable e2 d = true -> to_micros (db_now d) = db_now d ->
  exists d', rtc (step tick) (d, [log_prog e1; log_prog e2]) (d', [Answer (Ok tt); Answer (Ok tt)]) /\
    length (db_audit d') = (length (db_audit d) + 2)%nat /\
    (verify_rows "" (db_audit d') <> [] \/ sha256_collision \/ sha256_cycle).
Proof.
  intros Hd H1 H2 Ht. set (prev := default "" (last_row_hash d)).
  destruct (insert_runs e1 prev (db_now d) d Hd H1) as (r1 & Hr1 & He1 & Hc1 & Hh1).
  set (d1 := set_db_audit _ _) in Hr1.
  destruct (insert_runs e2 prev (db_now d) d1 Hd H2) as (r2 & Hr2 & He2 & Hc2 & Hh2).
  set (d2 := set_db_audit _ _) in Hr2. exists d2. split_and!.
  - etrans; [by apply (log_reads e1 d _ 0)|]. etrans; [by apply (log_reads e2 d _ 1)|].
    etrans; [eapply (run_reachable _ _ 0); [reflexivity|exact Hr1]|].
    change [Answer (Ok tt); Answer (Ok tt)] with (<[1%nat := Answer (Ok tt)]> [Answer (Ok tt); insert_prog e2 prev (db_now d)]).
    eapply (run_reachable _ _ 1); [reflexivity|exact Hr2].
  - cbn. rewrite !length_app. simpl. lia.
  - destruct (decide (verify_rows "" (db_audit d2) = [])) as [Hv|]; [right|by left].
    cbn in Hv. apply verify_rows_ok, chain_ok_app in Hv as [_ [Hv _]].
    rewrite last_snoc in Hv. cbn in Hv. unfold expected_hash in Hv. rewrite He2, Hc2, Hh2, Ht in Hv.
    destruct (decide (ar_row_hash r1 = prev)) as [Hp|Hp].
    + right. rewrite Hh1, event_bytes_prev in Hp. by eexists _, _.
    + left. apply (hash_neq_collision _ _ Hv). rewrite event_bytes_prev, (event_bytes_prev prev). intros Heq.
      by apply str_app_inj_l in Heq.
Qed.

(** ** Enrollment tokens *)

Definition anyhow : relation Db := fun _ _ => True.
#[local] Instance anyhow_preorder : PreOrder anyhow.
Proof. done. Qed.

(** The token with this hash has been used. *)
Definition spent (h : string) (d : Db) : Prop := forall k, k ∈ db_tokens d -> has_hash h k = true -> et_used_at k <> None.
#[local] Instance spent_sees h : Sees db_tokens anyhow (spent h).
Proof. intros d d' H Hd. split; [done|]. unfold spent. by rewrite H. Qed.

Lemma polite_mark h h' : polite anyhow (spent h) (mark_used h').
Proof.
  intros d Hd. split; [done|]. unfold final, mark_used, execute, query.
  destruct (db_faults d) as [|[] fs]; [|done|]; intros k Hk Hh; apply update_where_in in Hk as (k' & Hk' & ->);
    (destruct (has_hash h' k'); [done|by apply Hd]).
Qed.

#[local] Hint Resolve polite_mark : polite.
#[local] Hint Extern 2 (polite anyhow (spent _) _) => elsewhere db_tokens : polite.

Lemma serving_spent h q : safe anyhow (spent h) (serving q).
Proof.
  destruct q as [e|req|sk req]; (apply safe_succeeded; [tc_solve|]);
    unfold submit_prog, validate_prog, login_prog, accepted_prog, rejected_prog, log_prog; safe_tac.
Qed.

Lemma submit_refused {SQLL : SqlLaws} req d : spent (sha256_hex (se_token req)) d ->
  stable anyhow (spent (sha256_hex (se_token req))) (fun r _ => is_ok r = false) (submit_prog req) d.
Proof.
  intros Hd. unfold submit_prog. apply stable_finally; [tc_solve|done|].
  apply (stable_weaken _ _ (fun r _ => is_ok r = false)).
  { intros [a|e] d' _ Hr; [done|]. by intros d2 _ _. }
  unfold validate_prog. apply stable_first; [auto with polite| |done].
  intros d1 row H1 Ho. assert (row = None \/ exists x t, row = Some (x, Some t)) as [->|(x & t & ->)]; [|by intros d2 _ _..].
  unfold outcome, fetch, query in Ho.
  assert (exists d2, db_tokens d2 = db_tokens d1 /\ row = (fun t => (et_expires_at t, et_used_at t)) <$> find_token (sha256_hex (se_token req)) d2)
    as (d2 & H2 & ->) by (destruct (db_faults d1) as [|[] fs]; simplify_eq/=; by eexists).
  destruct (find_token _ d2) as [k|] eqn:Hk; [right|by left]. apply head_scan_in in Hk as [Hk Hh].
  rewrite H2 in Hk. specialize (H1 k Hk Hh). cbn. destruct (et_used_at k) as [t|]; [by eexists _, _|done].
Qed.

(** C18. A spent enrollment token stays spent: once a token is marked as used, then
    in every interleaving of later requests, whatever they are, no submission with
    its secret is accepted. (Submissions that had read the token before it was
    marked are another matter, see [overlapping_submissions_accepted].) *)
Theorem spent_token_refused {SQLL : SqlLaws} (token : string) (d d' : Db) (qs : list Request) ps i req :
  spent (sha256_hex token) d -> rtc (step tick) (d, serving <$> qs) (d', ps) ->
  qs !! i = Some (RqSubmit req) -> se_token req = token ->
  spent (sha256_hex token) d' /\ forall r, ps !! i = Some (Answer r) -> r = Ok false.
Proof.
  intros Hd Hr Hi <-.
  refine (pool_one anyhow _ tick _ _ _ _ _ _ (fun r _ => r = Ok false) _ Hd _ (serving_lookup _ _ _ Hi) _ Hr).
  - intros u v [t x Ht] Hx. by apply sees.
  - apply Forall_serving, serving_spent.
  - apply stable_refused; [tc_solve|done|by apply submit_refused].
Qed.

(** ** Account lockout *)

(** The account [name], whose id is [id], is locked until after now. *)
Definition locked (name : string) (id : Uuid) (until : DateTime) (d : Db) : Prop :=
  (db_now d < until)%Z /\
  forall u, u ∈ db_users d -> login_matches name u = true \/ u_id u = id ->
    login_matches name u = true /\ u_id u = id /\ u_locked_until u = Some until.

#[local] Instance locked_sees name id until : Sees (fun d => (db_users d, db_now d)) anyhow (locked name id until).
Proof. intros d d' H Hd. split; [done|]. unfold locked. injection H as -> ->. done. Qed.

(** A change to another account's counters. *)
Lemma locked_update name id until id' n lock last d : id' <> id -> locked name id until d ->
  locked name id until (set_db_users (update_where (is_user id') (fun u => with_attempts (n u) (lock u) (last u) u) (db_users d)) d).
Proof.
  intros Hne [Hnow Hd]. split; [done|]. intros u Hu Hm. cbn in Hu. apply update_where_in in Hu as (y & Hy & ->).
  unfold is_user in *. case_bool_decide as Hid; [|by apply Hd].
  destruct (Hd y Hy) as (_ & Hyid & _); [|congruence]. destruct Hm as [Hm|Hm]; [by left|by right].
Qed.

Lemma polite_count name id until id' : id' <> id -> polite anyhow (locked name id until) (count_failure id').
Proof.
  intros Hne d Hd. split; [done|]. unfold final, count_failure, execute_if, query.
  destruct (db_faults d) as [|[] fs]; [|done|]; (destruct (forallb _ _); [|done]); by apply (locked_update _ _ _ _ _ u_locked_until u_last_login_at).
Qed.
Lemma polite_lock name id until id' : id' <> id -> polite anyhow (locked name id until) (lock_account id').
Proof.
  intros Hne d Hd. split; [done|]. unfold final, lock_account, execute, query.
  destruct (db_faults d) as [|[] fs]; [|done|]; by apply (locked_update _ _ _ _ _ (fun _ => _) u_last_login_at).
Qed.
Lemma polite_reset name id until id' : id' <> id -> polite anyhow (locked name id until) (reset_attempts id').
Proof.
  intros Hne d Hd. split; [done|]. unfold final, reset_attempts, execute, query.
  destruct (db_faults d) as [|[] fs]; [|done|]; by apply (locked_update _ _ _ _ (fun _ => _) (fun _ => _) (fun _ => _)).
Qed.

#[local] Hint Resolve polite_count polite_lock polite_reset : polite.
#[local] Hint Extern 2 (polite anyhow (locked _ _ _) _) => elsewhere (fun d => (db_users d, db_now d)) : polite.

Lemma fetch_same {B} (f : Db -> B) (g : list UserRow -> B) d b :
  (forall d, f d = g (db_users d)) -> outcome (fetch f) d = Ok b -> b = g (db_users d).
Proof.
  intros Hf. unfold outcome, fetch, query. destruct (db_faults d) as [|[] fs]; cbn; rewrite ?Hf; by intros [= <-].
Qed.

Section lockout.
Context {SQLL : SqlLaws} (name : string) (id : Uuid) (until : DateTime).
Notation I := (locked name id until).

(** What a login reads of the accounts. *)
Lemma login_reads n d user : outcome (fetch (fun d => head (sql_scan (List.filter (login_matches n) (db_users d))))) d = Ok user ->
  user = None \/ exists row, user = Some row /\ row ∈ db_users d /\ login_matches n row = true.
Proof.
  intros Ho. apply (fetch_same _ (fun us => head (sql_scan (List.filter (login_matches n) us)))) in Ho as ->; [|done].
  destruct (head _) as [row|] eqn:Hh; [right|by left]. apply head_scan_in in Hh. by exists row.
Qed.

Lemma login_refused sk req d : lg_username req = name -> I d ->
  stable anyhow I (fun r _ => is_ok r = false) (login_prog sk req) d.
Proof.
  intros Hn Hd. unfold login_prog. apply stable_first; [auto with polite| |done].
  intros d1 user H1 Ho. destruct (login_reads _ _ _ Ho) as [->|(row & -> & Hrow & Hm)]; [by intros d2 _ _|].
  rewrite Hn in Hm. destruct H1 as [_ H1]. destruct (H1 row Hrow (or_introl Hm)) as (_ & _ & Hl).
  change (default dummy_user (Some row)) with row. destruct (u_is_active row); [|by intros d2 _ _].
  rewrite require_pass. apply stable_first; [auto with polite| |done]. intros d2 now [Hlt _] [= <-].
  unfold is_locked. rewrite Hl, (proj2 (Z.ltb_lt _ _) Hlt). by intros d3 _ _.
Qed.

Lemma login_other sk req : lg_username req <> name -> safe anyhow I (login_prog sk req).
Proof.
  intros Hn d Hd. unfold login_prog. apply stable_first; [auto with polite| |done].
  intros d1 user H1 Ho. destruct (login_reads _ _ _ Ho) as [->|(row & -> & Hrow & Hm)]; [by intros d2 _ _|].
  assert (u_id row <> id) as Hid.
  { intros Hid. destruct (proj2 H1 row Hrow (or_intror Hid)) as (Hm' & _). apply Hn.
    unfold login_matches in *. apply andb_true_iff in Hm as [?%bool_decide_eq_true _], Hm' as [?%bool_decide_eq_true _]. congruence. }
  change (default dummy_user (Some row)) with row. match goal with |- stable _ _ _ ?p (final ?m _) =>
    assert (polite anyhow I m) as Hp by auto with polite; assert (safe anyhow I p) as Hs; [|by apply Hs, Hp] end.
  unfold accepted_prog, rejected_prog, log_prog. safe_tac.
Qed.

Lemma serving_locked q : safe anyhow I (serving q).
Proof.
  destruct q as [e|req|sk req]; (apply safe_succeeded; [tc_solve|]).
  - unfold log_prog. safe_tac.
  - unfold submit_prog, validate_prog, log_prog. safe_tac.
  - destruct (decide (lg_username req = name)) as [Hn|Hn]; [|by apply login_other].
    intros d Hd. eapply stable_weaken; [|by apply login_refused]. done.
Qed.
End lockout.

(** The clock runs, but not past the end of the lock. *)
Inductive tick_before (until : DateTime) : relation Db :=
  tick_before_to t d : (db_now d <= t < until)%Z -> tick_before until d (set_db_now t d).

Lemma tick_locked name id until u v : tick_before until u v -> locked name id until u -> anyhow u v /\ locked name id until v.
Proof. intros [t d Ht] [_ Hd]. split; [done|]. split; [cbn; lia|done]. Qed.

(** C22. A locked account stays locked: until its lock runs out, in every interleaving
    of later requests (logins to it and to other accounts, submissions, log
    entries), every login to it is refused, even with the right password, and the
    lock is neither lifted nor shortened by any of them. *)
Theorem locked_account_refuses {SQLL : SqlLaws} name (r : UserRow) until (d d' : Db) (qs : list Request) ps i sk req :
  account name r d -> u_locked_until r = Some until -> (db_now d < until)%Z ->
  rtc (step (tick_before until)) (d, serving <$> qs) (d', ps) ->
  qs !! i = Some (RqLogin sk req) -> lg_username req = name ->
  (forall u, u ∈ db_users d' -> login_matches name u = true -> u_locked_until u = Some until) /\
  forall res, ps !! i = Some (Answer res) -> res = Ok false.
Proof.
  intros [Hin Hm Hsole] Hl Hnow Hr Hi Hn.
  assert (locked name (u_id r) until d) as Hd.
  { split; [done|]. intros u Hu Hu'. by rewrite (Hsole u Hu Hu'). }
  destruct (pool_one anyhow (locked name (u_id r) until) (tick_before until) _ _ _ _ _ _ (fun r _ => r = Ok false)
    (tick_locked _ _ _) Hd (Forall_serving _ _ (serving_locked name (u_id r) until) qs) (serving_lookup _ _ _ Hi)
    (stable_refused anyhow _ _ _ Hd (login_refused _ _ _ sk req d Hn Hd)) Hr) as [[_ H1] H2].
  split; [|exact H2]. intros u Hu Hmu. by destruct (H1 u Hu (or_introl Hmu)) as (_ & _ & ?).
Qed.

(** ** Guessing in parallel *)

Notation wrong := (Err (Unauthorized "Invalid credentials")).

Section parallel.
Context {SQLL : SqlLaws} (name : string) (r : UserRow).
Context (Hactive : u_is_active r = true) (Hfew : (0 <= u_failed_login_attempts r < 4)%Z).

(** A login with a wrong password up to the comparison: nothing is written. *)
Lemma wrong_login_reads sk req d ps i : healthy d -> account name r d -> is_locked (db_now d) r = false ->
  lg_username req = name -> password_valid (lg_password req) r = false -> ps !! i = Some (login_prog sk req) ->
  rtc (step tick) (d, ps) (d, <[i := rejected_prog req r]> ps).
Proof.
  intros Hd Hacc Hlock Hn Hpw Hi. unfold login_prog in Hi. pose proof (lookup_lt_Some _ _ _ Hi) as Hlt.
  eapply rtc_l; [apply (step_stmt _ _ _ _ _ _ _ Hi)|]. unfold final, outcome. rewrite fetch_healthy by done.
  rewrite Hn, (account_found name r d Hacc). cbn [fst snd finally].
  change (default dummy_user (Some r)) with r. rewrite Hactive, require_pass. eapply rtc_l.
  { apply (step_stmt _ _ _ i). by apply list_lookup_insert_eq. }
  unfold final, outcome. cbn [gets fst snd]. rewrite list_insert_insert_eq.
  cbn [finally]. rewrite Hlock, require_pass, Hpw. done.
Qed.

(** The rest of it, on the account as the others have left it. *)
Lemma stale_rejection req c d : healthy d -> account name c d -> u_id c = u_id r -> (u_failed_login_attempts c < 2 ^ 31 - 1)%Z ->
  exists d', run (rejected_prog req r) d = (wrong, d') /\ healthy d' /\ account name (failed_once c) d'.
Proof.
  intros Hd Hacc Hid Hc.
  assert (implements (rejected_prog req r) (login_rejected req r)) as -> by (unfold rejected_prog, login_rejected; implements_tac).
  unfold login_rejected. destruct (count_run name c d Hd Hacc Hc) as (d1 & Hrun & Hd1 & _ & Hacc1). rewrite Hid in Hrun.
  erewrite bind_ok by (unfold ignore; rewrite Hrun; reflexivity). cbn [snd].
  assert (5 <=? wrap32 (u_failed_login_attempts r + 1) = false)%Z as ->.
  { apply Z.leb_gt. unfold wrap32. rewrite Z.mod_small by lia. lia. }
  erewrite bind_ok by reflexivity.
  match goal with |- context [log_event ?e] => destruct (log_healthy (E:=AppError) e d1 Hd1) as (rows & n & Hl) end.
  erewrite bind_ok by exact Hl. eexists. split; [reflexivity|]. split; [done|]. by eapply account_frame; [|exact Hacc1].
Qed.

Lemma stale_rejections reqs c d l : healthy d -> account name c d -> u_id c = u_id r ->
  (u_failed_login_attempts c + Z.of_nat (length reqs) < 2 ^ 31)%Z ->
  exists d' c', rtc (step tick) (d, l ++ ((fun q => rejected_prog q r) <$> reqs)) (d', l ++ replicate (length reqs) (Answer wrong)) /\
    account name c' d' /\ u_failed_login_attempts c' = (u_failed_login_attempts c + Z.of_nat (length reqs))%Z /\
    u_locked_until c' = u_locked_until c.
Proof.
  revert c d l. induction reqs as [|req reqs IH]; intros c d l Hd Hacc Hid Hc.
  { exists d, c. split_and!; [done|done|simpl; lia|done]. }
  cbn [length] in Hc. destruct (stale_rejection req c d Hd Hacc Hid) as (d1 & Hrun & Hd1 & Hacc1); [lia|].
  destruct (IH (failed_once c) d1 (l ++ [Answer wrong]) Hd1 Hacc1 Hid) as (d2 & c2 & H2 & Hacc2 & Hn2 & Hl2); [cbn; lia|].
  exists d2, c2. split_and!; [|done|rewrite Hn2; cbn; lia|done]. etrans.
  - eapply (run_reachable _ _ (length l)); [by rewrite fmap_cons, list_lookup_middle|exact Hrun].
  - rewrite (insert_app_r_alt l), Nat.sub_diag by done. by rewrite <- !(assoc_L (++)) in H2.
Qed.

(** The lockout does not bound guesses that overlap: any number of wrong passwords
    sent to an account with fewer than four failures can all be compared, if every
    login reads the account before any of them counts. The failures are all
    counted, and the account is still not locked. *)
Theorem parallel_guesses_unlocked sk (reqs : list LoginRequest) (d : Db) :
  healthy d -> account name r d -> is_locked (db_now d) r = false ->
  Forall (fun q => lg_username q = name /\ password_valid (lg_password q) r = false) reqs ->
  (u_failed_login_attempts r + Z.of_nat (length reqs) < 2 ^ 31)%Z ->
  exists d' r', rtc (step tick) (d, login_prog sk <$> reqs) (d', replicate (length reqs) (Answer wrong)) /\
    account name r' d' /\ u_failed_login_attempts r' = (u_failed_login_attempts r + Z.of_nat (length reqs))%Z /\
    u_locked_until r' = u_locked_until r.
Proof.
  intros Hd Hacc Hlock Hall Hc.
  destruct (stale_rejections reqs r d [] Hd Hacc eq_refl Hc) as (d' & r' & Hr & H'). exists d', r'. split; [|done].
  etrans; [|exact Hr]. apply (all_reachable tick (login_prog sk)). intros q ps i Hq Hi.
  rewrite Forall_forall in Hall. destruct (Hall q Hq). by eapply wrong_login_reads.
Qed.
End parallel.

End programs.

(** ** Witnesses *)

Notation toy_serving := (@serving toy_sql toy_sha256 toy_serde toy_uuid_text toy_rfc3339 toy_jwt toy_argon2 toy_pg).
Notation toy_log_prog := (@log_prog toy_sha256 toy_serde toy_uuid_text toy_rfc3339).
Notation toy_submit_prog := (@submit_prog toy_sql toy_sha256 toy_serde toy_uuid_text toy_rfc3339 toy_pg).

(** Two requests in lockstep, [n] statements each. *)
Fixpoint lockstep (n : nat) : list nat := match n with O => [] | S n' => 0%nat :: 1%nat :: lockstep n' end.

Lemma audit_log_rooted_witness :
  let c := turns (lockstep 3) (audit_db 5000, toy_serving <$> [RqLog (ex_event "host_removed" "a"); RqLog (ex_event "host_enrolled" "b")]) in
  @rooted toy_sha256 toy_serde toy_uuid_text toy_rfc3339 (db_audit c.1) /\ length (db_audit c.1) = 2%nat /\
  toy_verify "" (db_audit c.1) = [2%Z].
Proof.
  intros c. split_and!; [|vm_compute; reflexivity|vm_compute; reflexivity].
  apply (@audit_log_rooted toy_sql toy_sha256 toy_serde toy_uuid_text toy_rfc3339 toy_jwt toy_argon2 toy_pg (audit_db 5000) c.1
    [RqLog (ex_event "host_removed" "a"); RqLog (ex_event "host_enrolled" "b")] c.2).
  - intros i r Hi. done.
  - rewrite <- surjective_pairing. apply turns_reachable.
Defined.

Lemma overlapping_events_break_chain_witness :
  exists d', rtc (step tick) (audit_db 5000, [toy_log_prog (ex_event "host_removed" "a"); toy_log_prog (ex_event "host_enrolled" "b")])
      (d', [Answer (Ok tt); Answer (Ok tt)]) /\ length (db_audit d') = 2%nat.
Proof.
  destruct (@overlapping_events_break_chain toy_sha256 toy_serde toy_uuid_text toy_rfc3339
    (ex_event "host_removed" "a") (ex_event "host_enrolled" "b") (audit_db 5000)) as (d' & H1 & H2 & _);
    [vm_compute; reflexivity..|]. exists d'. split; [exact H1|exact H2].
Defined.

(** The token is spent by a first submission; then it is tried twice at once. *)
Lemma spent_token_refused_witness :
  let qs := [RqSubmit ex_submit; RqSubmit ex_submit] in
  let d := (turns (replicate 9 0%nat) (enroll_db, toy_serving <$> [RqSubmit ex_submit])).1 in
  let c := turns (lockstep 9) (d, toy_serving <$> qs) in
  length (db_requests d) = 1%nat /\ exists r, c.2 !! 1%nat = Some (Answer r) /\ r = Ok false.
Proof.
  intros qs d c. split; [vm_compute; reflexivity|]. eexists. split; [vm_compute; reflexivity|].
  apply (@spent_token_refused toy_sql toy_sha256 toy_serde toy_uuid_text toy_rfc3339 toy_jwt toy_argon2 toy_pg toy_sql_laws
    "secret" d c.1 qs c.2 1%nat ex_submit); [| |reflexivity|reflexivity|vm_compute; reflexivity].
  - intros k Hk _. assert (db_tokens d = [with_used_at 0 (mkToken (@sha256_hex toy_sha256 "secret") "h.example" None (uuid_of 7) HOUR None None)])
      as Ht by (vm_compute; reflexivity). rewrite Ht in Hk. by apply list_elem_of_singleton in Hk as ->.
  - rewrite <- surjective_pairing. apply turns_reachable.
Defined.

(** Single use is a property of submissions that do not overlap: two that read the
    token before either marks it are both accepted, and two hosts are waiting for
    approval with one token. *)
Theorem overlapping_submissions_accepted :
  let other := mkSubmit "secret" "csr" "h.example" "192.0.2.9" None JNull in
  exists d' p1 p2, rtc (step tick) (enroll_db, toy_submit_prog <$> [ex_submit; other]) (d', [Answer (Ok p1); Answer (Ok p2)]) /\
    map er_ip_address (db_requests d') = ["192.0.2.1"; "192.0.2.9"].
Proof.
  intros other. set (c := turns (lockstep 9) (enroll_db, toy_submit_prog <$> [ex_submit; other])).
  assert (exists p1 p2, c = (c.1, [Answer (Ok p1); Answer (Ok p2)])) as (p1 & p2 & Hc) by (eexists _, _; vm_compute; reflexivity).
  exists c.1, p1, p2. split; [rewrite <- Hc; apply turns_reachable|vm_compute; reflexivity].
Qed.

Definition locked_user : UserRow := with_attempts 5 (Some 1000%Z) None login_user.
Definition locked_db : Db := set_db_users [locked_user] login_db.

(** The right password, beside a login to another account. *)
Lemma locked_account_refuses_witness :
  let qs := [RqLogin "sk" (mkLogin "op" "Secret-1" None); RqLogin "sk" (mkLogin "x" "y" None)] in
  let c := turns (lockstep 9) (locked_db, toy_serving <$> qs) in
  exists r, c.2 !! 0%nat = Some (Answer r) /\ r = Ok false.
Proof.
  intros qs c. eexists. split; [vm_compute; reflexivity|].
  apply (@locked_account_refuses toy_sql toy_sha256 toy_serde toy_uuid_text toy_rfc3339 toy_jwt toy_argon2 toy_pg toy_sql_laws
    "op" locked_user 1000 locked_db c.1 qs c.2 0%nat "sk" (mkLogin "op" "Secret-1" None));
    [|reflexivity|reflexivity| |reflexivity|reflexivity|vm_compute; reflexivity].
  - split; [left|reflexivity|]. intros u Hu _. by apply list_elem_of_singleton in Hu as ->.
  - rewrite <- surjective_pairing. apply turns_reachable.
Defined.

(** Eight wrong passwords at once, where one after the other five would do. *)
Lemma parallel_guesses_unlocked_witness :
  exists d' r', rtc (step tick) (login_db, @login_prog toy_sql toy_sha256 toy_serde toy_uuid_text toy_rfc3339 toy_jwt toy_argon2 "sk" <$>
      replicate 8 (mkLogin "op" "guess" None)) (d', replicate 8 (Answer (Err (Unauthorized "Invalid credentials")))) /\
    account "op" r' d' /\ u_failed_login_attempts r' = 8%Z /\ u_locked_until r' = None.
Proof.
  apply (@parallel_guesses_unlocked toy_sql toy_sha256 toy_serde toy_uuid_text toy_rfc3339 toy_jwt toy_argon2 toy_sql_laws
    "op" login_user); try reflexivity.
  - cbn. lia.
  - exact login_account.
  - apply Forall_replicate. split; reflexivity.
Defined.
