(* ===== verification/TypedDb.v ===== *)
(** * TypedDb: the stored integers fit the agent API

    The integer columns the agent API serves (ports, priorities, intervals,
    configuration versions) are [INTEGER]s that the handlers only write in range:
    an invariant of every operation of the manager that writes them, and with it
    every check-in is answered by a message of the wire types of [WireJson]. *)

From S2P Require Import Prelude Text Models Net Wire WireJson Db AuditLog Auth AgentApi PolicyAdmin Deployment AdminFacts.
From S2P Require Import Ca CaToy Login Users Settings SettingsFacts Enrollment.

(** ** The invariant *)

Definition rule_typed (r : FirewallRule) : Prop := rule_ports_ok r = true /\ fits 32 (rule_priority r).
Definition override_typed (o : ConfigOverrideRow) : Prop :=
  (1 <= co_check_in_interval_secs o <= 86400)%Z /\ (1 <= co_config_version o < 2 ^ 31)%Z.

Record typed (d : Db) : Prop := {
  ty_rules : forall r, r ∈ db_rules d -> rule_typed (rr_rule r);
  ty_overrides : forall o, o ∈ db_overrides d -> override_typed o;
  ty_pending : forall a, a ∈ db_pending d -> json_writable (pa_payload a) = true
}.

Lemma typed_frame d d' : db_rules d' = db_rules d -> db_overrides d' = db_overrides d -> db_pending d' = db_pending d ->
  typed d -> typed d'.
Proof. intros H1 H2 H3 [Hr Ho Hp]. by split; rewrite ?H1, ?H2, ?H3. Qed.

#[export] Instance typed_unaudited : Unaudited typed.
Proof. split; intros ? ?; by apply typed_frame. Qed.

(** ** The statements *)

Lemma typed_rules_update p f d : (forall r, r ∈ db_rules d -> p r = true -> rule_typed (rr_rule r) -> rule_typed (rr_rule (f r))) ->
  typed d -> typed (set_db_rules (update_where p f (db_rules d)) d).
Proof.
  intros Hf [Hr Ho Hp]. split; [|done..]. intros x Hx. apply update_where_in in Hx as (y & Hy & ->). destruct (p y) eqn:Hpy; auto.
Qed.

Lemma typed_drop_rules p d : typed d -> typed (drop_rules p d).
Proof. intros [Hr Ho Hp]. split; [|done..]. intros r [Hx _]%delete_where_in. by apply Hr. Qed.

Lemma typed_drop_host id d : typed d -> typed (drop_host id d).
Proof. intros [Hr Ho Hp]. split; [done|..]; intros x [Hx _]%delete_where_in; auto. Qed.

Lemma typed_drop_rule_group id d b d' : typed d -> drop_rule_group id d = Some (b, d') -> typed d'.
Proof.
  intros Ht. unfold drop_rule_group. destruct (_ && _); [done|]. intros [= <- <-].
  eapply typed_frame; [..|by eapply (typed_drop_rules _ d)]; reflexivity.
Qed.

(** [i32] fields of a request. *)
Definition create_typed (req : CreateRuleInGroupRequest) : Prop := opt_fits 32 (cr_priority req) /\ opt_fits 32 (cr_group_order req).
Definition update_typed (req : UpdateRuleRequest) : Prop := opt_fits 32 (ur_priority req).

Section ops.
Context {SQL : Sql} {SHA : Sha256} {JS : SerdeJson} {UT : UuidText} {RFC : Rfc3339} {PG : PgInet}
  {RC : Rcgen} {HX : Hex} {JP : SerdeParse} {A2 : Argon2} {UNI : Unicode}.

Lemma typed_insert_rule u g req d r d' : create_typed req -> typed d -> insert_rule u g req d = Some (r, d') -> typed d'.
Proof.
  intros Hreq [Hr Ho Hp]. unfold insert_rule.
  destruct (inet_cast (cr_src_cidr req)), (inet_cast (cr_dst_cidr req)); try done.
  destruct (coalesce_order (cr_group_order req) _) as [o'|]; try done.
  destruct (rule_ports_ok _ && _ && _ && _ && _) eqn:Hc; [|done]. rewrite !andb_true_iff in Hc. destruct Hc as [[[[Hpo _] _] _] _]. intros [= <- <-].
  split; [|done..]. intros x [Hin| ->%list_elem_of_singleton]%elem_of_app; [by apply Hr|]. split; [done|]. cbn.
  destruct Hreq as [Hreq _]. destruct (cr_priority req); [done|]. cbn. unfold fits. lia.
Qed.

Lemma typed_update_rule_row id req d o d' : update_typed req -> typed d -> update_rule_row id req d = Some (o, d') -> typed d'.
Proof.
  intros Hreq Ht. unfold update_rule_row. destruct (inet_cast (ur_src_cidr req)), (inet_cast (ur_dst_cidr req)); try done.
  cbv zeta. destruct (find_rule id d) as [row|]; [|by intros [= <- <-]].
  destruct (forallb _ _ && _) eqn:Hc; [|done]. apply andb_true_iff in Hc as [Hp _]. intros [= <- <-].
  apply typed_rules_update; [|done]. intros r Hr Hid [_ Hpr]. rewrite forallb_forall in Hp. apply list_elem_of_In in Hr.
  specialize (Hp r Hr). cbn in Hp, Hid. rewrite Hid in Hp. split; [done|]. cbn. unfold update_typed in Hreq. by destruct (ur_priority req).
Qed.

Lemma typed_push_interval n : (1 <= n <= 86400)%Z -> keeps typed (push_interval n).
Proof.
  intros Hn. apply keeps_execute_if_ok; [apply un_faults|]. intros d [Hr Ho Hp] Hall. split; [done| |done]. intros x Hx.
  apply update_where_in in Hx as (y & Hy & ->). rewrite forallb_forall in Hall. destruct (Ho y Hy) as [Hi Hv].
  specialize (Hall y ltac:(by apply list_elem_of_In)). destruct (interval_differs n y); [|done]. cbn in Hall. apply Z.ltb_lt in Hall. split; cbn; lia.
Qed.

Lemma keeps_set_section key v : keeps typed (set_section key v).
Proof. destruct v; [|apply keeps_ret]. unfold set_section, set_config. int_step. eapply typed_frame; [..|eassumption]; reflexivity. Qed.

(** ** The operations *)

(** A [keeps] bind that may use what is known of the value. *)
Lemma keeps_bind_value {W E A B} (P : W -> Prop) (Q : A -> Prop) (m : M W E A) (f : A -> M W E B) :
  keeps P m -> (forall w a w', m w = (Ok a, w') -> Q a) -> (forall a, Q a -> keeps P (f a)) -> keeps P (m ≫= f).
Proof.
  intros Hm HQ Hf w Hw. specialize (Hm w Hw). unfold final, mbind, M_bind in *. destruct (m w) as [[a|e] w'] eqn:Ha; [|done].
  cbn in *. exact (Hf a (HQ _ _ _ Ha) w' Hm).
Qed.

Lemma keeps_on_db {E A} (P : Db -> Prop) (m : M Db E A) : keeps P m -> keeps (fun s => P (mg_db s)) (on_db m).
Proof. intros Hm [d ap] Hd. specialize (Hm d Hd). unfold final, on_db in *. cbn in *. by destruct (m d). Qed.

(** The statement changes no column of the invariant. *)
Ltac unrelated := simplify_eq; eapply typed_frame; [..|eassumption]; reflexivity.

Definition op_typed (op : AdminOp) : Prop :=
  match op with
  | OpCreateRule _ req => create_typed req
  | OpUpdateRule _ req => update_typed req
  | OpAddGroup _ _ o => opt_fits 32 o
  | _ => True
  end.

Lemma typed_insert_assignment u h ps d n d' : typed d -> insert_assignment u h ps d = Some (n, d') -> typed d'.
Proof. intros Ht. unfold insert_assignment. repeat case_match; intros; simplify_eq; try done; unrelated. Qed.

Lemma run_op_typed u op : op_typed op -> keeps typed (run_op u op).
Proof.
  intros Hop. destruct op; simpl in *; apply keeps_bind; try (intros; apply keeps_ret).
  - unfold create_policy_set. repeat int_step. case_match; [|done]. unrelated.
  - unfold update_policy_set. repeat int_step. case_match; [|by simplify_eq]. case_match; [|done]. unrelated.
  - unfold delete_policy_set. repeat int_step. unrelated.
  - unfold add_group_to_set. repeat int_step. repeat (case_match; [|done]). unrelated.
  - unfold remove_group_from_set. repeat int_step. unrelated.
  - unfold reorder_groups. repeat int_step. unrelated.
  - unfold create_rule_group. repeat int_step. case_match; [|done]. unrelated.
  - unfold update_rule_group. repeat int_step. unrelated.
  - unfold delete_rule_group. repeat int_step. by eapply typed_drop_rule_group.
  - unfold create_rule_in_group. repeat int_step; [by eapply typed_insert_rule|unrelated].
  - unfold reorder_group_rules. repeat int_step. by apply typed_rules_update.
  - unfold update_rule. repeat int_step. by eapply typed_update_rule_row.
  - unfold delete_rule. repeat int_step. simplify_eq. by apply typed_drop_rules.
  - unfold delete_host. repeat int_step. by apply typed_drop_host.
  - unfold update_host. repeat int_step. intros d Hd. unfold final, query.
    destruct (db_faults d) as [|[] fs]; [|by apply un_faults|]; (case_match; [destruct (db_coerces_text _)|]); cbn; try done; unrelated.
  - unfold host_assign_policy_set. repeat int_step. by eapply typed_insert_assignment.
  - unfold host_unassign_policy_set. repeat int_step. unrelated.
  - unfold assign_policy_set. repeat int_step. by eapply typed_insert_assignment.
  - unfold unassign_policy_set. repeat int_step. unrelated.
Qed.

Lemma delete_user_typed auth id : keeps typed (delete_user auth id).
Proof.
  unfold delete_user. repeat int_step. destruct H as [Hr Ho Hp]. split; [|done..]. cbn. intros r (x & -> & Hx)%list_elem_of_fmap. exact (Hr x Hx).
Qed.

Lemma update_settings_typed auth req : keeps typed (update_settings auth req).
Proof.
  unfold update_settings, get_settings, get_config_json. repeat (apply keeps_set_section || int_step).
  destruct (us_polling req) as [v|]; [|apply keeps_ret]. unfold set_config. int_step; [int_step; unrelated|].
  destruct (interval_of v) as [n|] eqn:Hn; [|apply keeps_ret]. apply typed_push_interval. by eapply interval_of_range.
Qed.

(** The interval a new host is given is the clamped global one, or the default. *)
Lemma global_interval_range {E} d n d' : global_check_in_interval (E:=E) d = (Ok n, d') -> (1 <= n <= 86400)%Z.
Proof.
  unfold global_check_in_interval. intros H. apply bind_inv_ok in H as (v & d1 & _ & H). inv_ret H.
  destruct (v ≫= interval_of) as [m|] eqn:Hm; [|cbn; lia]. cbn. destruct v; [|done]. by eapply interval_of_range.
Qed.

Lemma on_db_ok {E A} (m : M Db E A) s a s' : on_db m s = (Ok a, s') -> m (mg_db s) = (Ok a, mg_db s').
Proof. unfold on_db. destruct (m (mg_db s)). intros H. by simplify_eq/=. Qed.

(** An approval keeps what its statements keep: the insertions of the host, its
    configuration and its certificate, and the deletion of the request. *)
Lemma approve_keeps (P : Db -> Prop) `{!Unaudited P} cfg ca u id :
  (forall r d h d', P d -> insert_host r d = Some (h, d') -> P d') ->
  (forall host n d, (1 <= n <= 86400)%Z -> host_exists host d = true -> existsb (fun o => bool_decide (co_host_id o = host)) (db_overrides d) = false ->
     P d -> P (set_db_overrides (db_overrides d ++ [mkOverride host n true false None 1 None (db_now d)]) d)) ->
  (forall host signed i d x d', P d -> insert_cert host signed i d = Some (x, d') -> P d') -> (forall x d, P d -> P (set_db_next_uuid x d)) ->
  (forall p d, P d -> P (set_db_requests (delete_where p (db_requests d)) d)) -> keeps (fun s => P (mg_db s)) (approve_enrollment cfg ca u id).
Proof.
  intros Hhost Hover Hcert Hnext Hreq. unfold approve_enrollment. do 5 (int_step; [(apply keeps_on_db; repeat int_step) || apply keeps_guard|]).
  int_step. { apply keeps_on_db. int_step. by eapply Hhost. }
  apply (keeps_bind_value _ (fun n => 1 <= n <= 86400)%Z).
  { apply keeps_on_db. unfold global_check_in_interval, get_config_json. repeat int_step. }
  { intros s n s' Hn%on_db_ok. by eapply global_interval_range. }
  intros interval Hi. int_step.
  { apply keeps_on_db, keeps_ignore, keeps_execute_if_ok; [apply un_faults|]. intros d Hd Hh. case_match; [done|]. by apply Hover. }
  int_step. { case_match; [apply keeps_ret|apply keeps_throw]. }
  int_step. { apply keeps_attempt, keeps_on_db. unfold sign_csr. repeat (apply keeps_lift || apply keeps_gets || int_step).
    intros d Ht. unfold final, cert_db, fresh_uuid. cbn. by apply Hnext. }
  int_step. { case_match; [apply keeps_ret|apply keeps_throw]. }
  int_step. { apply keeps_on_db. int_step. by eapply Hcert. }
  int_step; [apply keeps_gets|]. int_step; [by apply keeps_modify|].
  int_step. { apply keeps_on_db. int_step. by apply Hreq. }
  int_step; [|apply keeps_ret]. apply keeps_on_db. int_step.
Qed.

Lemma approve_typed cfg ca u id : keeps (fun s => typed (mg_db s)) (approve_enrollment cfg ca u id).
Proof.
  apply approve_keeps; [apply _|..]; intros; try by (eapply typed_frame; [..|eassumption]).
  - unfold insert_host in *. case_match; [|done]. unrelated.
  - match goal with Ht : typed _ |- _ => destruct Ht as [Hr Ho Hp] end. split; [done| |done].
    intros o [Hin| ->%list_elem_of_singleton]%elem_of_app; [by apply Ho|]. split; cbn; lia.
  - unfold insert_cert in *. case_match; [|done]. unrelated.
Qed.

Lemma record_drift_typed h hash n src : keeps typed (record_drift h hash n src).
Proof. unfold record_drift. int_step. unrelated. Qed.

Lemma typed_pending_update p f d : (forall a, pa_payload (f a) = pa_payload a) -> typed d ->
  typed (set_db_pending (update_where p f (db_pending d)) d).
Proof.
  intros Hf [Hr Ho Hp]. split; [done..|]. intros x Hx. apply update_where_in in Hx as (y & Hy & ->).
  destruct (p y); [rewrite Hf|]; by apply Hp.
Qed.

Lemma take_pending_typed h : keeps typed (take_pending h).
Proof.
  unfold take_pending. repeat int_step. case_match; [apply keeps_ret|]. int_step. by apply typed_pending_update.
Qed.

(** The parts of a check-in before its answer is put together. *)
Ltac check_in_step :=
  apply record_drift_typed || apply take_pending_typed || int_step ||
  match goal with |- keeps _ (match ?x with _ => _ end) => destruct x end.

Lemma check_in_typed h req : keeps typed (check_in h req).
Proof.
  unfold check_in, record_check_in, mark_healthy, expected_policy, fetch_rules_for_policy_set, config_for. repeat check_in_step; unrelated.
Qed.

Lemma check_in_result_typed h req : keeps typed (check_in_result h req).
Proof.
  unfold check_in_result. repeat check_in_step. by apply typed_pending_update.
Qed.

(** ** The answers *)

Lemma port_fits p : port_ok p = true -> opt_fits 32 p.
Proof. destruct p as [z|]; [|done]. cbn. intros [H1%Z.leb_le H2%Z.leb_le]%andb_true_iff. unfold fits. lia. Qed.

Lemma rule_to_dto_fits r : rule_typed r -> rule_fits (rule_to_dto r).
Proof.
  intros [Hp Hpr]. unfold rule_ports_ok, port_range_ok in Hp. rewrite !andb_true_iff in Hp.
  destruct Hp as [[[H1 H2] _] [[H3 H4] _]]. split_and!; try done; by apply port_fits.
Qed.

Lemma policy_rules_typed {SQLL : SqlLaws} ps d : typed d -> Forall rule_fits (map rule_to_dto (policy_rules ps d)).
Proof.
  intros Ht. apply Forall_forall. intros x (r & -> & Hr)%list_elem_of_fmap. apply rule_to_dto_fits.
  unfold policy_rules in Hr. apply list_elem_of_fmap in Hr as ([sg row] & -> & Hin). rewrite sql_sort_perm in Hin.
  apply list_elem_of_In, in_concat in Hin as (l & Hl & Hin). apply in_map_iff in Hl as (g & <- & _).
  apply in_map_iff in Hin as (row' & [= _ <-] & Hrow). apply List.filter_In in Hrow as [Hrow _]. apply (ty_rules d Ht), list_elem_of_In, Hrow.
Qed.

Lemma keeps_ok {W E A} (P : W -> Prop) (m : M W E A) w a w' : m w = (Ok a, w') -> P w -> keeps P m -> P w'.
Proof. intros Hm Hw Hk. specialize (Hk w Hw). unfold final in Hk. by rewrite Hm in Hk. Qed.

Lemma fetch_ok {A} (f : Db -> A) d a d' : fetch f d = (Ok a, d') -> exists fs, a = f (set_db_faults fs d) /\ d' = set_db_faults fs d.
Proof.
  unfold fetch, query. destruct (db_faults d) as [|[] fs] eqn:Hf; intros [= <- <-].
  - exists []. rewrite <- Hf. by destruct d.
  - by exists fs.
Qed.

Definition config_sane (c : ConfigUpdate) : Prop :=
  (1 <= cu_check_in_interval_secs c <= 86400)%Z /\ (1 <= cu_config_version c < 2 ^ 31)%Z.

Lemma config_for_sane {SQLL : SqlLaws} h v d c d' : typed d -> config_for h v d = (Ok (Some c), d') -> config_sane c.
Proof.
  intros Ht H. apply bind_inv_ok in H as (row & d1 & Hrow & H). apply fetch_ok in Hrow as (fs & -> & ->). inv_ret H.
  destruct (head _) as [o|] eqn:Ho; [|done]. apply head_Some_elem_of in Ho. rewrite sql_scan_perm in Ho.
  apply list_elem_of_In, List.filter_In in Ho as [Ho _]. apply list_elem_of_In in Ho. destruct (ty_overrides d Ht o Ho) as [Hi Hv].
  destruct (v <? co_config_version o)%Z; [|done]. by simplify_eq.
Qed.

Lemma take_pending_trees {SQLL : SqlLaws} h d acts d' : typed d -> take_pending h d = (Ok acts, d') ->
  Forall (fun a => json_writable (pa_dto_payload a) = true) acts.
Proof.
  intros Ht H. apply bind_inv_ok in H as (l & d1 & Hl & H). apply bind_inv_ok in H as (u0 & d2 & _ & H). inv_ret H.
  apply fetch_ok in Hl as (fs & -> & ->). apply Forall_forall. intros y (a & -> & Ha)%list_elem_of_fmap. rewrite sql_sort_perm in Ha.
  apply list_elem_of_In, List.filter_In in Ha as [Ha _]. by apply (ty_pending d Ht), list_elem_of_In.
Qed.

Lemma expected_policy_fits {SQLL : SqlLaws} ps d rules hash d' : typed d -> expected_policy ps d = (Ok (rules, hash), d') -> Forall rule_fits rules.
Proof.
  intros Ht. destruct ps as [p|]; cbn; intros H; [|by inv_ret H]. apply bind_inv_ok in H as (l & d1 & Hl & H). inv_ret H.
  apply fetch_ok in Hl as (fs & -> & ->). apply policy_rules_typed. by apply un_faults.
Qed.

Lemma check_in_fits {SQLL : SqlLaws} h req d resp d' : typed d -> check_in h req d = (Ok resp, d') ->
  response_fits resp /\ (forall c, resp_config resp = Some c -> config_sane c).
Proof.
  intros Ht H. unfold check_in in H.
  apply bind_inv_ok in H as (? & d1 & H1 & H). apply (keeps_ok typed) in H1; [|done|unfold record_check_in; int_step; unrelated].
  apply bind_inv_ok in H as (? & d2 & H2 & H). apply (keeps_ok typed) in H2; [|done|unfold mark_healthy; int_step; unrelated].
  apply bind_inv_ok in H as (ps & d3 & H3 & H). apply (keeps_ok typed) in H3; [|done|int_step].
  apply bind_inv_ok in H as ([rules expected] & d4 & H4 & H). pose proof (expected_policy_fits _ _ _ _ _ H3 H4) as Hr.
  apply (keeps_ok typed) in H4; [|done|unfold expected_policy, fetch_rules_for_policy_set; repeat check_in_step].
  apply bind_inv_ok in H as ([din dout] & d5 & H5 & H). apply (keeps_ok typed) in H5; [|done|repeat check_in_step].
  apply bind_inv_ok in H as (? & d6 & H6 & H). apply (keeps_ok typed) in H6; [|done|repeat check_in_step].
  apply bind_inv_ok in H as (? & d7 & H7 & H). apply (keeps_ok typed) in H7; [|done|repeat check_in_step].
  apply bind_inv_ok in H as (config & d8 & H8 & H).
  assert (forall c, config = Some c -> config_sane c) as Hc by (intros c ->; by eapply config_for_sane).
  apply (keeps_ok typed) in H8; [|done|unfold config_for; repeat check_in_step].
  apply bind_inv_ok in H as (acts & d9 & H9 & H). apply take_pending_trees in H9; [|done]. inv_ret H.
  split; [split_and!; [done| |done]|done]. intros c Hcc. destruct (Hc c Hcc). split; unfold fits; lia.
Qed.

(** ** The manager *)

(** What writes the columns of the invariant, with its arguments. *)
Inductive ManagerOp :=
  | MAdmin (u : AuthUser) (op : AdminOp)
  | MDeleteUser (u : AuthUser) (id : Uuid)
  | MSettings (u : AuthUser) (req : UpdateSettingsRequest)
  | MApprove (cfg : ServerConfig) (ca : CertAuthority) (u : AuthUser) (id : Uuid)
  | MCheckIn (host : Uuid) (req : CheckInRequest)
  | MCheckInResult (host : Uuid) (req : CheckInResultRequest).

Definition manager_op (op : ManagerOp) : M Manager AppError unit :=
  match op with
  | MAdmin u op => on_db (run_op u op)
  | MDeleteUser u id => _ ← on_db (delete_user u id); mret tt
  | MSettings u req => _ ← on_db (update_settings u req); mret tt
  | MApprove cfg ca u id => _ ← approve_enrollment cfg ca u id; mret tt
  | MCheckIn h req => _ ← on_db (check_in h req); mret tt
  | MCheckInResult h req => _ ← on_db (check_in_result h req); mret tt
  end.
Definition manager_op_typed (op : ManagerOp) : Prop := match op with MAdmin _ op => op_typed op | _ => True end.

Lemma manager_op_keeps op : manager_op_typed op -> keeps (fun s => typed (mg_db s)) (manager_op op).
Proof.
  intros Hop. destruct op; cbn in *; try (int_step; [|apply keeps_ret]); try apply keeps_on_db.
  - by apply run_op_typed.
  - apply delete_user_typed.
  - apply update_settings_typed.
  - apply approve_typed.
  - apply check_in_typed.
  - apply check_in_result_typed.
Qed.

(** The manager's integers stay in their types, whatever happens: after any
    sequence of administrative requests, user deletions, settings updates,
    approvals, check-ins and reports, with any statement failing on the way, every
    stored rule has ports from 1 to 65535 and an [i32] priority, every host's
    interval is from 1 to 86400 seconds with a positive [i32] version; so the
    answer to any check-in fits the wire types, and the interval it carries is one
    an agent can sleep for. *)
Theorem manager_typed {SQLL : SqlLaws} ops (s : Manager) : typed (mg_db s) -> Forall manager_op_typed ops ->
  let s' := foldl (fun s op => final (manager_op op) s) s ops in
  typed (mg_db s') /\
  forall host req resp d', check_in host req (mg_db s') = (Ok resp, d') ->
    response_fits resp /\ (forall c, resp_config resp = Some c -> config_sane c).
Proof.
  intros Ht Hops s'. assert (typed (mg_db s')) as Ht'.
  { subst s'. revert s Ht. induction Hops as [|op ops Hop _ IH]; intros s Ht; [done|]. apply IH. by apply (manager_op_keeps op Hop). }
  split; [done|]. intros host req resp d'. by apply check_in_fits.
Qed.
End ops.

(** ** Witness *)

(** A host is given a rule by the administrators, then the global interval changes. *)
Definition typed_db : Db := set_db_overrides [mkOverride (uuid_of 50) 900 true false None 1 None 0] admin_db.
Definition typed_ops : list (@ManagerOp toy_rcgen) := map (@MAdmin toy_rcgen (ex_admin Operator)) ex_ops ++ [@MSettings toy_rcgen chief polling_request].
Definition typed_check_in : CheckInRequest := mkCheckInRequest (uuid_of 50) "" "0.3.6" "ufw" JNull 10 0 false None.

Lemma typed_db_typed : typed typed_db.
Proof.
  split; cbn; [by intros ? ?%not_elem_of_nil| |by intros ? ?%not_elem_of_nil]. intros o ->%list_elem_of_singleton. unfold override_typed. cbn. lia.
Qed.
Lemma typed_ops_typed : Forall (@manager_op_typed toy_rcgen) typed_ops.
Proof. unfold typed_ops, ex_ops. cbn [map app]. repeat apply Forall_cons_2; try apply Forall_nil_2; repeat split. Qed.

Lemma manager_typed_witness :
  let run := foldl (fun s op => final (@manager_op toy_sql toy_sha256 text_serde toy_uuid_text toy_rfc3339 toy_pg toy_rcgen toy_hex text_parse op) s)
    (mkManager typed_db ∅) typed_ops in
  exists resp d', @check_in toy_sql toy_sha256 text_serde toy_uuid_text toy_rfc3339 (uuid_of 50) typed_check_in (mg_db run) = (Ok resp, d') /\
    length (resp_rules resp) = 1%nat /\ cu_check_in_interval_secs <$> resp_config resp = Some 60%Z /\ response_fits resp.
Proof.
  intros run.
  assert (match (@check_in toy_sql toy_sha256 text_serde toy_uuid_text toy_rfc3339 (uuid_of 50) typed_check_in (mg_db run)).1 with
    | Ok resp => length (resp_rules resp) = 1%nat /\ cu_check_in_interval_secs <$> resp_config resp = Some 60%Z
    | Err _ => False end) as Hok by (vm_compute; split; reflexivity).
  assert (forall host req resp d', @check_in toy_sql toy_sha256 text_serde toy_uuid_text toy_rfc3339 host req (mg_db run) = (Ok resp, d') ->
    response_fits resp /\ (forall c, resp_config resp = Some c -> config_sane c)) as Hfit.
  { refine (proj2 (@manager_typed toy_sql toy_sha256 text_serde toy_uuid_text toy_rfc3339 toy_pg toy_rcgen toy_hex text_parse toy_sql_laws
      typed_ops (mkManager typed_db ∅) _ _)).
    - exact typed_db_typed.
    - exact typed_ops_typed. }
  clearbody run. destruct (@check_in toy_sql toy_sha256 text_serde toy_uuid_text toy_rfc3339 (uuid_of 50) typed_check_in (mg_db run)) as [[resp|e] d'] eqn:H; [|done].
  exists resp, d'. destruct Hok as [H1 H2]. split_and!; [done|exact H1|exact H2|]. by eapply Hfit.
Defined.
