(* ===== verification/Views.v ===== *)
(** * Views: what the manager shows

    The endpoints that only read: the fleet status and health probe of
    [routes/health.rs], the drift history of [routes/drift.rs], the host views of
    [routes/hosts.rs], and the lists of [groups.rs], [policy_sets.rs],
    [rule_groups.rs], [rules.rs] and [enrollment.rs]. Text is ordered by the
    server's collation ([Users.Collation]). *)

From S2P Require Import Prelude Text Models Net Policy Wire Db AuditLog Auth AgentApi PolicyAdmin Deployment Users Settings.

(** PostgreSQL's text of a [jsonb] value ([->>] of a value that is not a string). *)
Class PgJson := { jsonb_text : Json -> string }.

(** ** Shapes of the answers *)

(** A host of the list, with its latest check-in and its policy set. *)
Record HostView := mkHostView {
  hv_host : HostRow; hv_health_status : string; hv_container_runtime : option string; hv_backend_type : option string;
  hv_last_check_in : option DateTime; hv_policy_set_name : option string
}.

Record HostDetailResponse := mkHostDetail {
  hd_host : HostRow; hd_health_status : HostHealthStatus; hd_container_runtime : option string
}.

Record CheckInView := mkCheckInView {
  cv_id : Uuid; cv_checked_in_at : DateTime; cv_rules_hash : string; cv_agent_version : string; cv_backend_type : string;
  cv_apply_success : option bool; cv_apply_error : option string; cv_applied_rule_count : option Z; cv_applied_at : option DateTime
}.

Record DriftSnapshotRow := mkDriftRow { ds_drift : DriftSnapshot; ds_fqdn : string; ds_display_name : string }.

Record FleetStatus := mkFleet {
  fs_total_hosts : Z; fs_healthy : Z; fs_degraded : Z; fs_unreachable : Z; fs_pending : Z; fs_total_rules : Z;
  fs_policy_sets : Z; fs_hosts_in_drift : Z; fs_recent_check_ins : Z
}.

Record PolicySetRuleGroup := mkPolicySetRuleGroup {
  pg_rule_group_id : Uuid; pg_name : string; pg_description : string; pg_set_group_order : Z; pg_rule_count : Z
}.

Record RuleGroupWithCounts := mkGroupWithCounts { gc_group : FirewallRuleGroup; gc_rule_count : Z; gc_used_by_count : Z }.

(** ** Orders *)

(** [ORDER BY captured_at DESC, id DESC]. *)
Definition newer (x y : DriftSnapshot) : Prop :=
  (dr_captured_at y < dr_captured_at x)%Z \/ (dr_captured_at x = dr_captured_at y /\ uuid_le (dr_id y) (dr_id x)).
#[export] Instance newer_dec x y : Decision (newer x y).
Proof. unfold newer. apply _. Defined.

(** [ORDER BY host_id, captured_at DESC, id DESC]. *)
Definition by_host_newer (x y : DriftSnapshot) : Prop :=
  (dr_host_id x <> dr_host_id y /\ uuid_le (dr_host_id x) (dr_host_id y)) \/ (dr_host_id x = dr_host_id y /\ newer x y).
#[export] Instance by_host_newer_dec x y : Decision (by_host_newer x y).
Proof. unfold by_host_newer. apply _. Defined.

(** [ORDER BY checked_in_at DESC] and the like. *)
Definition desc {A} (f : A -> Z) (x y : A) : Prop := (f y <= f x)%Z.
#[export] Instance desc_dec {A} (f : A -> Z) x y : Decision (desc f x y).
Proof. unfold desc. apply _. Defined.

(** [SELECT DISTINCT ON (host_id)]: the first row of each host. *)
Fixpoint distinct_on (seen : list Uuid) (l : list DriftSnapshot) : list DriftSnapshot :=
  match l with
  | [] => []
  | x :: l' => if bool_decide (dr_host_id x ∈ seen) then distinct_on seen l' else x :: distinct_on (dr_host_id x :: seen) l'
  end.

(** [health_status::text]. *)
Definition health_status_text (s : HostHealthStatus) : string :=
  match s with Pending => "pending" | Healthy => "healthy" | Degraded => "degraded" | Unreachable => "unreachable" end.

Definition WEB_VERSION : string := "0.3.6".

Section views.
Context {SQL : Sql} {COLL : Collation} {PJ : PgJson}.

Definition by_text {A} (f : A -> string) (x y : A) : Prop := text_le (f x) (f y).
#[export] Instance by_text_dec {A} (f : A -> string) x y : Decision (by_text f x y).
Proof. unfold by_text. apply _. Defined.

(** ** Health *)

(** [SELECT 1]. *)
Definition health_handler {E} : M Db E Json :=
  r ← attempt (fetch (fun _ => tt));
  let db_ok := is_ok r in
  mret (JObj [("service", JStr "firewall-manager-web"); ("version", JStr WEB_VERSION);
              ("status", JStr (if db_ok then "healthy" else "degraded")); ("database", JStr (if db_ok then "ok" else "error"))]).

(** [fetch_one(..).unwrap_or(0)] of a count. *)
Definition count_or_zero {E} (f : Db -> nat) : M Db E Z := r ← attempt (fetch (fun d => Z.of_nat (f d))); mret (unwrap_or 0%Z r).

Definition with_health_status (s : HostHealthStatus) (d : Db) : nat :=
  length (List.filter (fun h => bool_decide (h_health_status h = s)) (db_hosts d)).

Definition latest_per_host (d : Db) : list DriftSnapshot := distinct_on [] (sql_sort by_host_newer (db_drift d)).

Definition hosts_in_drift (d : Db) : nat :=
  length (List.filter (fun x => bool_decide (dr_source x = "check_in_mismatch")) (latest_per_host d)).

Definition recent_check_ins (d : Db) : nat :=
  length (List.filter (fun c => (db_now d - 15 * 60 * SECOND <? ci_checked_in_at c)%Z) (db_check_ins d)).

Definition fleet_status_handler {E} : M Db E FleetStatus :=
  total_hosts ← count_or_zero (fun d => length (db_hosts d));
  healthy ← count_or_zero (with_health_status Healthy);
  degraded ← count_or_zero (with_health_status Degraded);
  unreachable ← count_or_zero (with_health_status Unreachable);
  pending ← count_or_zero (with_health_status Pending);
  total_rules ← count_or_zero (fun d => length (db_rules d));
  policy_sets ← count_or_zero (fun d => length (db_policy_sets d));
  in_drift ← count_or_zero hosts_in_drift;
  recent ← count_or_zero recent_check_ins;
  mret (mkFleet total_hosts healthy degraded unreachable pending total_rules policy_sets in_drift recent).

(** ** Drift history *)

(** [JOIN hosts h ON h.id = d.host_id]. *)
Definition drift_join (d : Db) : list DriftSnapshotRow :=
  concat (map (fun x => map (fun h => mkDriftRow x (h_fqdn h) (h_display_name h))
    (List.filter (fun h => bool_decide (h_id h = dr_host_id x)) (db_hosts d))) (db_drift d)).

Definition drift_row_newer (x y : DriftSnapshotRow) : Prop := newer (ds_drift x) (ds_drift y).
#[export] Instance drift_row_newer_dec x y : Decision (drift_row_newer x y).
Proof. unfold drift_row_newer. apply _. Defined.

(** [q.limit.unwrap_or(200).clamp(1, 1000)]. *)
Definition drift_limit (limit : option Z) : Z := Z.min (Z.max (default 200%Z limit) 1) 1000.

Definition drift_matches (host : option Uuid) (x : DriftSnapshotRow) : bool :=
  match host with None => true | Some h => bool_decide (dr_host_id (ds_drift x) = h) end.

Definition list_drift_snapshots (host : option Uuid) (limit : option Z) : DB (list DriftSnapshotRow) :=
  fetch (fun d => take (Z.to_nat (drift_limit limit)) (sql_sort drift_row_newer (List.filter (drift_matches host) (drift_join d)))).

(** ** Hosts *)

(** [value->>key]. *)
Definition json_field_text (key : string) (j : Json) : option string :=
  match json_get key j with
  | Some (JStr s) => Some s
  | Some JNull | None => None
  | Some v => Some (jsonb_text v)
  end.

Definition latest_check_in (h : Uuid) (d : Db) : option CheckInRow :=
  head (sql_sort (desc ci_checked_in_at) (List.filter (fun c => bool_decide (ci_host_id c = h)) (db_check_ins d))).

(** [host_policy_assignments hpa JOIN firewall_policy_sets ps]. *)
Definition assigned_names (h : Uuid) (d : Db) : list string :=
  concat (map (fun a => map ps_name (List.filter (fun p => bool_decide (ps_id p = hpa_policy_set_id a)) (db_policy_sets d)))
    (List.filter (fun a => bool_decide (hpa_host_id a = h)) (db_assignments d))).

Definition host_view (d : Db) (h : HostRow) : HostView :=
  let latest := latest_check_in (h_id h) d in
  mkHostView h (health_status_text (h_health_status h)) (latest ≫= fun c => json_field_text "container_runtime" (ci_os_info c))
    (ci_backend_type <$> latest) (ci_checked_in_at <$> latest) (head (sql_scan (assigned_names (h_id h) d))).

Definition list_hosts : DB (list HostView * Z) :=
  hosts ← fetch (fun d => map (host_view d) (sql_sort (by_text h_fqdn) (db_hosts d)));
  mret (hosts, Z.of_nat (length hosts)).

Definition get_host (id : Uuid) : DB HostDetailResponse :=
  row ← fetch (fun d => (fun h => mkHostDetail h (parse_health_status (health_status_text (h_health_status h)))
      (latest_check_in id d ≫= fun c => json_field_text "container_runtime" (ci_os_info c)))
    <$> head (sql_scan (List.filter (fun h => bool_decide (h_id h = id)) (db_hosts d))));
  or_not_found "Host not found" row.

(** [SELECT *] reads the [cidr] column into a string without a cast. *)
Definition get_protected_cidrs (id : Uuid) : DB (list ProtectedCidr) :=
  query (fun d =>
    match sql_scan (List.filter (fun p => bool_decide (pc_host_id p = id)) (db_protected d)) with
    | [] => (Ok [], d)
    | rows => if db_coerces_text d then (Ok rows, d) else (Err Database, d)
    end).

Definition get_drift_snapshots (id : Uuid) : DB (list DriftSnapshot) :=
  fetch (fun d => take 20 (sql_sort (desc dr_captured_at) (List.filter (fun x => bool_decide (dr_host_id x = id)) (db_drift d)))).

Definition check_in_view (c : CheckInRow) : CheckInView :=
  mkCheckInView (ci_id c) (ci_checked_in_at c) (ci_rules_hash c) (ci_agent_version c) (ci_backend_type c)
    (ci_apply_success c) (ci_apply_error c) (ci_applied_rule_count c) (ci_applied_at c).

Definition get_check_ins (id : Uuid) : DB (list CheckInView) :=
  fetch (fun d => map check_in_view (take 25 (sql_sort (desc ci_checked_in_at)
    (List.filter (fun c => bool_decide (ci_host_id c = id)) (db_check_ins d))))).

(** ** Groups, policy sets, rules *)

Definition list_groups : DB (list Group) := fetch (fun d => sql_sort (by_text g_name) (db_groups d)).

Definition list_policy_sets : DB (list FirewallPolicySet * Z) :=
  sets ← fetch (fun d => sql_sort (by_text ps_name) (db_policy_sets d));
  mret (sets, Z.of_nat (length sets)).

Definition list_policy_set_rules (id : Uuid) : DB (list FirewallRule) := rules_for_policy_set id.

Definition rules_in_group (g : Uuid) (d : Db) : Z := Z.of_nat (length (List.filter (fun r => bool_decide (rr_group_id r = g)) (db_rules d))).

Definition set_group_view (d : Db) (sg : FirewallPolicySetRuleGroup) : list PolicySetRuleGroup :=
  map (fun g => mkPolicySetRuleGroup (psrg_rule_group_id sg) (rg_name g) (rg_description g) (psrg_set_group_order sg) (rules_in_group (rg_id g) d))
    (List.filter (fun g => bool_decide (rg_id g = psrg_rule_group_id sg)) (db_rule_groups d)).

Definition group_order_le (x y : PolicySetRuleGroup) : Prop := (pg_set_group_order x <= pg_set_group_order y)%Z.
#[export] Instance group_order_le_dec x y : Decision (group_order_le x y).
Proof. unfold group_order_le. apply _. Defined.

Definition list_policy_set_groups (id : Uuid) : DB (list PolicySetRuleGroup) :=
  fetch (fun d => sql_sort group_order_le
    (concat (map (set_group_view d) (List.filter (fun sg => bool_decide (psrg_policy_set_id sg = id)) (db_set_groups d))))).

Definition group_counts (d : Db) (g : FirewallRuleGroup) : RuleGroupWithCounts :=
  mkGroupWithCounts g (rules_in_group (rg_id g) d)
    (Z.of_nat (length (List.filter (fun sg => bool_decide (psrg_rule_group_id sg = rg_id g)) (db_set_groups d)))).

Definition list_rule_groups : DB (list RuleGroupWithCounts * Z) :=
  groups ← fetch (fun d => map (group_counts d) (sql_sort (by_text rg_name) (db_rule_groups d)));
  mret (groups, Z.of_nat (length groups)).

(** [ORDER BY priority, name]. *)
Definition priority_name_le (x y : FirewallRule) : Prop :=
  (rule_priority x < rule_priority y)%Z \/ (rule_priority x = rule_priority y /\ text_le (rule_name x) (rule_name y)).
#[export] Instance priority_name_le_dec x y : Decision (priority_name_le x y).
Proof. unfold priority_name_le. apply _. Defined.

Definition all_rules : DB (list FirewallRule) := fetch (fun d => sql_sort priority_name_le (map rr_rule (db_rules d))).

Definition list_rules : DB (list FirewallRule * Z) := rules ← all_rules; mret (rules, Z.of_nat (length rules)).

Definition list_flagged_rules : DB (list FirewallRule) :=
  rules ← all_rules; mret (List.filter (fun r => requires_approval (check_rule r)) rules).

(** ** Enrollment *)

Definition list_enrollments : DB (list EnrollmentRequest) :=
  fetch (fun d => sql_sort (desc er_created_at) (List.filter (fun r => (db_now d <? er_expires_at r)%Z) (db_requests d))).

Definition token_view (t : EnrollmentToken) : string * string * option string * DateTime * option DateTime :=
  (et_host_fqdn t, String.substring 0 16 (et_token_hash t), et_host_ip t, et_expires_at t, et_used_at t).

Definition list_tokens : DB (list (string * string * option string * DateTime * option DateTime)) :=
  tokens ← fetch (fun d => sql_sort (desc et_expires_at)
    (List.filter (fun t => bool_decide (et_used_at t = None) && bool_decide (et_revoked_at t = None)) (db_tokens d)));
  mret (map token_view tokens).
End views.
