(* ===== verification/Worker.v ===== *)
(** * Worker: the stale-agent detector

    [crates/fw-worker/src/stale_agent_detector.rs]: the periodic pass that turns
    the time since a host's last check-in into its health status. *)

From S2P Require Import Prelude Text Models Net Policy Wire Db.

(** [MAX(ac.checked_in_at)] over the host's check-ins. *)
Definition last_check_in (host : Uuid) (d : Db) : option DateTime :=
  match map ci_checked_in_at (List.filter (fun c => bool_decide (ci_host_id c = host)) (db_check_ins d)) with
  | [] => None
  | t :: ts => Some (foldr Z.max t ts)
  end.

(** [(now - last).num_seconds()] rounds towards zero. *)
Definition num_seconds (nanos : Z) : Z := Z.quot nanos 1000000000.

Definition new_status (now : DateTime) (interval_secs : option Z) (last : option DateTime) : HostHealthStatus :=
  let interval := default 900%Z interval_secs in
  match last with
  | Some t =>
      let elapsed := num_seconds (now - t) in
      if (interval * 4 <? elapsed)%Z then Unreachable
      else if (interval * 2 <? elapsed)%Z then Degraded
      else Healthy
  | None => Pending
  end.

Definition with_health (s : HostHealthStatus) (h : HostRow) : HostRow :=
  mkHost (h_id h) (h_fqdn h) (h_ip_address h) (h_display_name h) (h_os_family h) (h_os_name h) (h_arch h)
    (h_agent_version h) s (h_last_health_at h) (h_last_sync_at h) (h_agent_port h) (h_notes h) (h_registered_at h) (h_updated_at h).

(** [UPDATE hosts SET health_status = $2 WHERE id = $1 AND health_status != $2]. *)
Definition set_health (id : Uuid) (s : HostHealthStatus) (d : Db) : Db :=
  set_db_hosts (update_where (fun h => bool_decide (h_id h = id) && negb (bool_decide (h_health_status h = s)))
    (with_health s) (db_hosts d)) d.

(** The hosts a pass looks at. *)
Definition examined (h : HostRow) : bool :=
  negb (bool_decide (h_health_status h = Unreachable)) || bool_decide (h_last_health_at h = None).

Section worker.
Context {SQL : Sql}.

Record StaleHostRow := mkStale { sh_id : Uuid; sh_last_check_in : option DateTime; sh_check_in_interval_secs : option Z }.

Definition override_interval (host : Uuid) (d : Db) : option Z :=
  co_check_in_interval_secs <$> head (sql_scan (List.filter (fun o => bool_decide (co_host_id o = host)) (db_overrides d))).

Definition stale_rows (d : Db) : list StaleHostRow :=
  sql_scan (map (fun h => mkStale (h_id h) (last_check_in (h_id h) d) (override_interval (h_id h) d))
    (List.filter examined (db_hosts d))).

Definition detect_stale_agents : DB unit :=
  hosts ← fetch stale_rows;
  now ← gets db_now;
  for_each (fun h =>
    ignore (execute (set_health (sh_id h) (new_status now (sh_check_in_interval_secs h) (sh_last_check_in h))))) hosts.

(** ** The pass *)

Definition settle (now : DateTime) (rows : list StaleHostRow) (h : HostRow) : HostRow :=
  foldl (fun h r => let s := new_status now (sh_check_in_interval_secs r) (sh_last_check_in r) in
    if bool_decide (h_id h = sh_id r) && negb (bool_decide (h_health_status h = s)) then with_health s h else h) h rows.

Lemma settle_updates now rows d : healthy d ->
  for_each (fun h => ignore (F:=AppError) (execute (set_health (sh_id h)
    (new_status now (sh_check_in_interval_secs h) (sh_last_check_in h))))) rows d =
  (Ok tt, set_db_hosts (map (settle now rows) (db_hosts d)) d).
Proof.
  revert d. induction rows as [|r rows IH]; intros d Hd; cbn [for_each].
  - unfold mret, M_ret. f_equal. rewrite map_id. by destruct d.
  - erewrite bind_ok by (unfold ignore; rewrite execute_healthy by done; reflexivity). cbn [snd].
    rewrite IH by done. f_equal. unfold set_health, update_where. cbn. rewrite map_map. by destruct d.
Qed.

Lemma with_health_same h : with_health (h_health_status h) h = h.
Proof. by destruct h. Qed.

Lemma settle_none now rows h : (forall r, r ∈ rows -> sh_id r <> h_id h) -> settle now rows h = h.
Proof.
  induction rows as [|r rows IH]; intros H; [done|]. cbn [settle foldl].
  rewrite (bool_decide_eq_false_2 (h_id h = sh_id r)) by (intros Hx; apply (H r); [left|done]).
  apply IH. intros x Hx. apply H. by right.
Qed.

(** All rows of the host agree, so their order does not matter. *)
Lemma settle_some now rows h s :
  (forall r, r ∈ rows -> sh_id r = h_id h -> new_status now (sh_check_in_interval_secs r) (sh_last_check_in r) = s) ->
  (exists r, r ∈ rows /\ sh_id r = h_id h) -> settle now rows h = with_health s h.
Proof.
  revert h. induction rows as [|r rows IH]; intros h Hall Hex; [destruct Hex as (? & H%not_elem_of_nil & _); done|].
  cbn [settle foldl]. destruct (decide (h_id h = sh_id r)) as [He|Hne].
  - rewrite (Hall r ltac:(left) (eq_sym He)). rewrite (bool_decide_eq_true_2 _ He). simpl andb.
    set (h' := if negb _ then with_health s h else h).
    assert (h' = with_health s h) as ->.
    { unfold h'. destruct (bool_decide (h_health_status h = s)) eqn:Hb; [|done].
      apply bool_decide_eq_true in Hb. rewrite <- Hb. by rewrite with_health_same. }
    change (settle now rows (with_health s h) = with_health s h).
    destruct (list_elem_of_dec (h_id h) (sh_id <$> rows)) as [Hin|Hout].
    + apply list_elem_of_fmap in Hin as (x & Hxe & Hx).
      rewrite (IH (with_health s h)); [done| |by exists x]. intros y Hy. apply Hall. by right.
    + apply settle_none. intros x Hx Hxe. apply Hout. apply list_elem_of_fmap. by exists x.
  - rewrite bool_decide_eq_false_2 by done. simpl andb. cbv iota. apply IH.
    + intros x Hx. apply Hall. by right.
    + destruct Hex as (x & [->|Hx]%elem_of_cons & Hxe); [by rewrite Hxe in Hne|by exists x].
Qed.

(** A detector pass gives every host it examines exactly the status of its
    silence: healthy up to twice its check-in interval (its override, or 900
    seconds), degraded up to four times, unreachable beyond, and pending if it
    never checked in. It changes nothing else of a host and leaves alone the
    hosts already unreachable. *)
Theorem detect_stale_agents_exact {SQLL : SqlLaws} (d : Db) :
  healthy d -> NoDup (h_id <$> db_hosts d) ->
  detect_stale_agents d = (Ok tt, set_db_hosts (map (fun h =>
    if examined h
    then with_health (new_status (db_now d) (override_interval (h_id h) d) (last_check_in (h_id h) d)) h
    else h) (db_hosts d)) d).
Proof.
  intros Hd Hnd. unfold detect_stale_agents.
  erewrite bind_ok by by apply fetch_healthy. erewrite bind_ok by (unfold gets; reflexivity).
  rewrite settle_updates by done. do 2 f_equal. apply map_ext_in. intros h Hh. apply list_elem_of_In in Hh.
  assert (forall r, r ∈ stale_rows d -> exists h', h' ∈ db_hosts d /\ examined h' = true /\
    r = mkStale (h_id h') (last_check_in (h_id h') d) (override_interval (h_id h') d)) as Hrows.
  { intros r Hr. unfold stale_rows in Hr. rewrite sql_scan_perm in Hr.
    apply list_elem_of_In, in_map_iff in Hr as (h' & <- & Hin). apply List.filter_In in Hin as [Hin He].
    exists h'. by rewrite list_elem_of_In. }
  destruct (examined h) eqn:He.
  - apply settle_some.
    + intros r Hr Hid. destruct (Hrows r Hr) as (h' & _ & _ & ->). cbn in *. by rewrite Hid.
    + exists (mkStale (h_id h) (last_check_in (h_id h) d) (override_interval (h_id h) d)). split; [|done].
      unfold stale_rows. rewrite sql_scan_perm. apply list_elem_of_In, in_map_iff. exists h. split; [done|].
      apply List.filter_In. by rewrite <- list_elem_of_In.
  - apply settle_none. intros r Hr Hid. destruct (Hrows r Hr) as (h' & Hin' & He' & ->). cbn in Hid.
    rewrite (NoDup_key_inj h_id _ h' h Hnd Hin' Hh Hid) in He'. congruence.
Qed.
End worker.

(** ** Witness *)

Definition ex_worker_db : Db :=
  set_db_now 4000000000000
  (set_db_check_ins [mkCheckIn (uuid_of 90) (uuid_of 50) "" "" "" JNull 0 0 (JArr []) 0 None None None None; mkCheckIn (uuid_of 91) (uuid_of 51) "" "" "" JNull 0 0 (JArr []) 1000000000000 None None None None]
  (set_db_hosts [mkHost (uuid_of 50) "a" "" "" None None None None Healthy (Some 0%Z) None 12443 "" 0 0;
                 mkHost (uuid_of 51) "b" "" "" None None None None Healthy (Some 0%Z) None 12443 "" 0 0;
                 mkHost (uuid_of 52) "c" "" "" None None None None Pending None None 12443 "" 0 0] empty_db)).

Lemma detect_stale_agents_exact_witness :
  exists d', @detect_stale_agents toy_sql ex_worker_db = (Ok tt, d') /\
    map h_health_status (db_hosts d') = [Unreachable; Degraded; Pending].
Proof.
  eexists. split; [apply (@detect_stale_agents_exact toy_sql toy_sql_laws ex_worker_db); [reflexivity|]|vm_compute; reflexivity].
  apply (bool_decide_unpack _). vm_compute. exact I.
Defined.
