(* ===== verification/Schema.v ===== *)
(** * Schema: the constraints of the manager's tables

    The references, the keys and the integer columns that the migrations declare
    ([migrations/]), beyond those of [AdminFacts.integrity], [TypedDb.typed] and
    [Users.users_wf], as one invariant [linked], and that every statement of the
    manager keeps it: an insertion because the server checks it, a deletion because
    of its ON DELETE clauses. *)

From S2P Require Import Prelude Text Models Net Wire WireJson Db AuditLog Auth AgentApi PolicyAdmin Deployment AdminFacts.
From S2P Require Import Ca Listener Login Users Settings Enrollment TypedDb Worker.

(** ** References, keys and columns *)

(** The column [f], where it is not NULL, refers to one of [ids]. *)
Definition refers {A} (f : A -> option Uuid) (l : list A) (ids : list Uuid) : Prop := forall x u, x ∈ l -> f x = Some u -> u ∈ ids.
(** The column [k] is a key. *)
Definition keyed {A B} (k : A -> B) (l : list A) : Prop := NoDup (map k l).
(** The column [f] is an [INTEGER], or a [BIGINT]. *)
Definition ints {A} (bits : Z) (f : A -> Z) (l : list A) : Prop := forall x, x ∈ l -> fits bits (f x).

Definition user_ids (d : Db) : list Uuid := map u_id (db_users d).
Definition hgroup_ids (d : Db) : list Uuid := map g_id (db_groups d).
Definition rule_ids (d : Db) : list Uuid := map (fun r => rule_id (rr_rule r)) (db_rules d).

(** What belongs to a host. *)
Record host_refs (d : Db) : Prop := {
  hr_check_ins : refers (fun c => Some (ci_host_id c)) (db_check_ins d) (host_ids d);
  hr_overrides : refers (fun o => Some (co_host_id o)) (db_overrides d) (host_ids d);
  hr_pending : refers (fun a => Some (pa_host_id a)) (db_pending d) (host_ids d);
  hr_drift : refers (fun s => Some (dr_host_id s)) (db_drift d) (host_ids d);
  hr_protected : refers (fun p => Some (pc_host_id p)) (db_protected d) (host_ids d);
  hr_groups : refers (fun m => Some (fst m)) (db_host_groups d) (host_ids d);
  hr_certs : refers ct_host_id (db_certs d) (host_ids d)
}.

(** What belongs to a user, and what a user made. *)
Record user_refs (d : Db) : Prop := {
  ur_refresh : refers (fun t => Some (rt_user_id t)) (db_refresh d) (user_ids d);
  ur_tokens : refers (fun t => Some (et_created_by t)) (db_tokens d) (user_ids d);
  ur_scopes : refers (fun m => Some (fst m)) (db_operator_groups d) (user_ids d);
  ur_rules : refers (fun r => rule_created_by (rr_rule r)) (db_rules d) (user_ids d);
  ur_sets : refers ps_created_by (db_policy_sets d) (user_ids d);
  ur_rule_groups : refers rg_created_by (db_rule_groups d) (user_ids d);
  ur_assignments : refers hpa_assigned_by (db_assignments d) (user_ids d);
  ur_protected : refers pc_created_by (db_protected d) (user_ids d);
  ur_reviews : refers rpd_reviewer_id (db_decisions d) (user_ids d)
}.

(** The groups of hosts, and what the decisions are about. *)
Record other_refs (d : Db) : Prop := {
  or_hosts : refers (fun m => Some (snd m)) (db_host_groups d) (hgroup_ids d);
  or_scopes : refers (fun m => Some (snd m)) (db_operator_groups d) (hgroup_ids d);
  or_rules : refers rpd_rule_id (db_decisions d) (rule_ids d);
  or_sets : refers rpd_policy_set_id (db_decisions d) (set_ids d)
}.

Record keys (d : Db) : Prop := {
  ky_host : keyed h_id (db_hosts d);
  ky_address : keyed (fun h => (h_fqdn h, h_ip_address h)) (db_hosts d);
  ky_set : keyed ps_id (db_policy_sets d);
  ky_set_name : keyed ps_name (db_policy_sets d);
  ky_rule_group : keyed rg_id (db_rule_groups d);
  ky_rule : keyed (fun r => rule_id (rr_rule r)) (db_rules d);
  ky_rule_name : keyed (fun r => rule_name (rr_rule r)) (db_rules d);
  ky_group : keyed g_id (db_groups d);
  ky_group_name : keyed g_name (db_groups d);
  ky_member : keyed id (db_host_groups d);
  ky_scope : keyed id (db_operator_groups d);
  ky_override : keyed co_host_id (db_overrides d);
  ky_protected : keyed (fun p => (pc_host_id p, pc_cidr p)) (db_protected d);
  ky_serial : keyed ct_serial_number (db_certs d);
  ky_token : keyed et_token_hash (db_tokens d);
  ky_machine : keyed er_machine_id (db_requests d);
  ky_polling : keyed er_polling_token (db_requests d);
  ky_refresh : keyed rt_token_hash (db_refresh d);
  ky_config : keyed fst (db_config d)
}.

Record columns (d : Db) : Prop := {
  cl_set_order : ints 32 psrg_set_group_order (db_set_groups d);
  cl_rule_order : ints 32 rr_group_order (db_rules d);
  cl_port : ints 32 h_agent_port (db_hosts d);
  cl_count : ints 32 dr_rule_count (db_drift d);
  cl_failed : ints 32 u_failed_login_attempts (db_users d);
  cl_version : ints 32 ci_config_version (db_check_ins d);
  cl_uptime : ints 64 ci_uptime_seconds (db_check_ins d)
}.

Definition linked (d : Db) : Prop := host_refs d /\ user_refs d /\ other_refs d /\ keys d /\ columns d.

(** ** Statements on a list of rows *)

Section rows.
Context {A : Type}.
Implicit Types (l : list A) (f : A -> option Uuid) (p : A -> bool) (ids : list Uuid).

Lemma refers_sub f l ids ids' : refers f l ids -> (forall u, u ∈ ids -> u ∈ ids') -> refers f l ids'.
Proof. intros H Hs x u Hx Hu. by eapply Hs, H. Qed.
Lemma refers_more {B} (g : B -> Uuid) f l (t : list B) y : refers f l (map g t) -> refers f l (map g (t ++ [y])).
Proof. intros H. eapply refers_sub; [exact H|]. intros u Hu. rewrite map_app. apply elem_of_app. by left. Qed.
Lemma refers_snoc f l x ids : refers f l ids -> (forall u, f x = Some u -> u ∈ ids) -> refers f (l ++ [x]) ids.
Proof. intros H Hx y u [Hy| ->%list_elem_of_singleton]%elem_of_app Hu; [by eapply H|by apply Hx]. Qed.
Lemma refers_delete f l p ids : refers f l ids -> refers f (delete_where p l) ids.
Proof. intros H x u [Hx _]%delete_where_in. by apply H. Qed.
Lemma refers_map f l g ids : (forall x, f (g x) = f x \/ f (g x) = None) -> refers f l ids -> refers f (map g l) ids.
Proof.
  intros Hg H x u (y & -> & Hy)%list_elem_of_fmap Hu. destruct (Hg y) as [He|He]; [rewrite He in Hu; by eapply H|by rewrite He in Hu].
Qed.
Lemma refers_update f l p g ids : (forall x, f (g x) = f x \/ f (g x) = None) -> refers f l ids -> refers f (update_where p g l) ids.
Proof. intros Hg. apply refers_map. intros x. destruct (p x); [apply Hg|by left]. Qed.

(** A row goes, and those that referred to it go too, or do no longer. *)
Lemma refers_cascade {B} (g : B -> Uuid) f l p (t : list B) u0 q :
  (forall x, p x = false -> f x <> Some u0) -> (forall y, q y = bool_decide (g y = u0)) ->
  refers f l (map g t) -> refers f (delete_where p l) (map g (delete_where q t)).
Proof.
  intros Hp Hq H x u [Hx Hpx]%delete_where_in Hu. specialize (H x u Hx Hu). apply list_elem_of_fmap in H as (y & -> & Hy).
  apply list_elem_of_fmap. exists y. split; [done|]. apply delete_where_in. split; [done|]. rewrite Hq. apply bool_decide_eq_false_2.
  intros He. apply (Hp x Hpx). by rewrite Hu, He.
Qed.
Lemma refers_set_null {B} (g : B -> Uuid) f l h (t : list B) u0 q :
  (forall x u, f (h x) = Some u -> f x = Some u /\ u <> u0) -> (forall y, q y = bool_decide (g y = u0)) ->
  refers f l (map g t) -> refers f (map h l) (map g (delete_where q t)).
Proof.
  intros Hh Hq H x u (z & -> & Hz)%list_elem_of_fmap Hu. apply Hh in Hu as [Hu Hne]. specialize (H z u Hz Hu).
  apply list_elem_of_fmap in H as (y & -> & Hy). apply list_elem_of_fmap. exists y. split; [done|]. apply delete_where_in.
  split; [done|]. rewrite Hq. by apply bool_decide_eq_false_2.
Qed.

Lemma keyed_snoc {B} (k : A -> B) l x : keyed k l -> k x ∉ map k l -> keyed k (l ++ [x]).
Proof. unfold keyed. rewrite map_app. intros. by apply NoDup_app_new. Qed.
Lemma keyed_delete {B} (k : A -> B) l p : keyed k l -> keyed k (delete_where p l).
Proof. intros H. eapply sublist_NoDup; [exact H|apply map_delete_where]. Qed.
Lemma keyed_map {B} (k : A -> B) l g : (forall x, k (g x) = k x) -> keyed k l -> keyed k (map g l).
Proof. intros Hg. unfold keyed. rewrite map_map. by rewrite (map_ext _ k Hg). Qed.
Lemma keyed_update {B} (k : A -> B) l p g : (forall x, k (g x) = k x) -> keyed k l -> keyed k (update_where p g l).
Proof. intros Hg. unfold keyed. by rewrite update_where_map. Qed.

(** An update of the one row with the key [k0] may change another key of it to a
    value no other row has. *)
Lemma keyed_update_one {B C} `{!EqDecision B, !EqDecision C} (k : A -> B) (n : A -> C) l p g k0 n0 :
  (forall x, p x = bool_decide (k x = k0)) -> (forall x, n (g x) = n0 x) -> keyed k l ->
  (forall x y, x ∈ l -> y ∈ l -> p x = true -> p y = false -> n0 x <> n y) -> keyed n l -> keyed n (update_where p g l).
Proof.
  intros Hp Hg Hk Hfree. unfold keyed in *. induction l as [|x l IH]; cbn; [done|]. cbn in Hk.
  rewrite !NoDup_cons in *. intros [Hx Hn]. destruct Hk as [Hkx Hk].
  assert (Hxl : x ∈ x :: l) by left. assert (Hsub : forall y, y ∈ l -> y ∈ x :: l) by (intros; by right).
  assert (NoDup (map n (update_where p g l))) as Hrest by (apply IH; auto). split; [|exact Hrest].
  intros (y & He & Hy)%list_elem_of_fmap. apply update_where_in in Hy as (z & Hz & ->).
  destruct (p x) eqn:Hpx, (p z) eqn:Hpz.
  - rewrite Hp in Hpx, Hpz. apply bool_decide_eq_true in Hpx, Hpz. apply Hkx, list_elem_of_fmap. exists z. split; [congruence|done].
  - rewrite Hg in He. by apply (Hfree x z Hxl (Hsub z Hz) Hpx Hpz).
  - rewrite Hg in He. by apply (Hfree z x (Hsub z Hz) Hxl Hpz Hpx).
  - apply Hx, list_elem_of_fmap. by exists z.
Qed.

Lemma keyed_unique {B} (k : A -> B) l x y : keyed k l -> x ∈ l -> y ∈ l -> k x = k y -> x = y.
Proof.
  unfold keyed. intros Hk Hx Hy He. induction l as [|z l IH]; [by apply not_elem_of_nil in Hx|]. cbn in Hk. apply NoDup_cons in Hk as [Hz Hk].
  apply elem_of_cons in Hx as [->|Hx], Hy as [->|Hy]; [done|..]; [exfalso|exfalso|by apply IH]; apply Hz, list_elem_of_fmap; eauto.
Qed.

Lemma key_free {B} `{!EqDecision B} (k : A -> B) l v : forallb (fun y => negb (bool_decide (k y = v))) l = true -> v ∉ map k l.
Proof.
  rewrite forallb_forall. intros H (y & -> & Hy)%list_elem_of_fmap. apply list_elem_of_In in Hy. specialize (H y Hy).
  by rewrite bool_decide_eq_true_2 in H.
Qed.
Lemma key_absent {B} `{!EqDecision B} (k : A -> B) l v : existsb (fun y => bool_decide (k y = v)) l = false -> v ∉ map k l.
Proof.
  intros H (y & -> & Hy)%list_elem_of_fmap. apply not_true_iff_false in H. apply H, existsb_exists. exists y.
  split; [by apply list_elem_of_In|by apply bool_decide_eq_true_2].
Qed.

Lemma ints_snoc bits (f : A -> Z) l x : ints bits f l -> fits bits (f x) -> ints bits f (l ++ [x]).
Proof. intros H Hx y [Hy| ->%list_elem_of_singleton]%elem_of_app; [by apply H|done]. Qed.
Lemma ints_delete bits (f : A -> Z) l p : ints bits f l -> ints bits f (delete_where p l).
Proof. intros H x [Hx _]%delete_where_in. by apply H. Qed.
Lemma ints_map bits (f : A -> Z) l g : (forall x, x ∈ l -> fits bits (f x) -> fits bits (f (g x))) -> ints bits f l -> ints bits f (map g l).
Proof. intros Hg H x (y & -> & Hy)%list_elem_of_fmap. auto. Qed.
Lemma ints_update bits (f : A -> Z) l p g : (forall x, x ∈ l -> p x = true -> fits bits (f x) -> fits bits (f (g x))) ->
  ints bits f l -> ints bits f (update_where p g l).
Proof. intros Hg. apply ints_map. intros x Hx Hf. destruct (p x) eqn:Hp; auto. Qed.
End rows.

Create HintDb schema.
#[export] Hint Resolve refers_more refers_snoc refers_delete keyed_snoc keyed_delete ints_snoc ints_delete : schema.

(** A constraint a statement keeps: nothing it mentions changed, or rows were added,
    updated in other columns, or deleted. *)
Ltac constraint :=
  cbn in *; try assumption;
  unfold host_ids, set_ids, user_ids, hgroup_ids, rule_ids in *; cbn in *; rewrite ?update_where_map, ?map_map by done; try assumption;
  try solve [apply refers_update; [intros ?; cbn; by (left + right)|assumption] | apply keyed_update; [done|assumption]
    | apply ints_update; [by intros ? ? ? ?|assumption] | auto with schema].

(** Open the invariant and close every part that is kept in this way. *)
Ltac relink :=
  match goal with H : linked _ |- linked _ => destruct H as ([] & [] & [] & [] & []) end;
  split; [|split; [|split; [|split]]]; split; constraint.

#[export] Instance linked_unaudited : Unaudited linked.
Proof. split; intros ? ? ?; relink. Qed.

(** ** The statements that delete *)

Lemma drop_host_linked id d : linked d -> linked (drop_host id d).
Proof.
  intros H. relink.
  all: eapply refers_cascade; [..|eassumption]; [|done]; intros x Hx; cbn in *; try (destruct x); cbn in *;
    apply bool_decide_eq_false in Hx; congruence.
Qed.

Lemma drop_policy_set_linked id d : linked d -> linked (drop_policy_set id d).
Proof.
  intros H. relink. unfold update_where. eapply refers_set_null; [..|eassumption]; [|done]. intros x u. cbn. case_bool_decide as Hx; [done|].
  intros Hu. split; [done|]. intros ->. done.
Qed.

(** A rule goes, and the decisions about it lose the reference. *)
Lemma drop_rules_linked p d : linked d -> linked (drop_rules p d).
Proof.
  intros H. relink.
  intros x u (y & -> & Hy)%list_elem_of_fmap. destruct (existsb _ _) eqn:He; [done|]. intros Hu. specialize (or_rules0 y u Hy Hu).
  apply list_elem_of_fmap in or_rules0 as (r & -> & Hr). apply list_elem_of_fmap. exists r. split; [done|]. apply delete_where_in. split; [done|].
  destruct (p r) eqn:Hp; [|done]. exfalso. apply not_true_iff_false in He. apply He, existsb_exists. exists r.
  split; [by apply list_elem_of_In|]. rewrite Hp, Hu. by apply bool_decide_eq_true_2.
Qed.

Lemma drop_rule_group_linked id d b d' : linked d -> drop_rule_group id d = Some (b, d') -> linked d'.
Proof.
  unfold drop_rule_group. intros H. destruct (_ && _); [done|]. intros [= <- <-].
  apply (drop_rules_linked (fun r => bool_decide (rr_group_id r = id))) in H. relink.
Qed.

Lemma clear_user_some id o u : clear_user id o = Some u -> o = Some u /\ u <> id.
Proof. unfold clear_user. case_bool_decide as Ho; [done|]. intros ->. split; [done|]. by intros ->. Qed.

Lemma drop_user_linked id d : linked d -> linked (drop_user id d).
Proof.
  intros H. unfold drop_user, forget_user, drop_user_rows. relink.
  all: first [apply refers_map; [intros x; by left|assumption] | apply keyed_map; [done|assumption] | apply ints_map; [done|assumption] | idtac].
  all: first [eapply refers_cascade; [..|eassumption]; [|done]; intros x Hx; try destruct x; cbn in *; apply bool_decide_eq_false in Hx; congruence |
    eapply refers_set_null; [..|eassumption]; [|done]; intros x u; apply clear_user_some].
Qed.

(** ** The statements that insert or change a key *)

(** The checks of the server, as memberships. *)
Lemma host_known id d : host_exists id d = true -> id ∈ map h_id (db_hosts d).
Proof. apply exists_id. Qed.
Lemma user_known id d : user_exists id d = true -> id ∈ map u_id (db_users d).
Proof. apply exists_id. Qed.
Lemma set_known id d : set_exists id d = true -> id ∈ map ps_id (db_policy_sets d).
Proof. apply exists_id. Qed.
Lemma rule_known id d : rule_exists id d = true -> id ∈ map (fun r => rule_id (rr_rule r)) (db_rules d).
Proof. intros (r & Hr & <-%bool_decide_eq_true)%existsb_exists. apply list_elem_of_fmap. exists r. split; [done|by apply list_elem_of_In]. Qed.
#[export] Hint Resolve host_known user_known set_known rule_known : schema.

(** A new reference to a row that is there. *)
Ltac referring := apply refers_snoc; [assumption|]; cbn; intros ? [= <-]; auto with schema.

Lemma wrap32_fits z : fits 32 (wrap32 z).
Proof. unfold fits, wrap32. pose proof (Z.mod_pos_bound (z + 2 ^ 31) (2 ^ 32) ltac:(lia)). cbn. lia. Qed.

Lemma next_order_fits l o : next_order l = Some o -> fits 32 o.
Proof.
  unfold next_order. destruct (Z.ltb_spec (foldr Z.max (-1)%Z l) (2 ^ 31 - 1)); [|done]. intros [= <-].
  assert (-1 <= foldr Z.max (-1) l)%Z by (induction l; cbn; lia). unfold fits. cbn in *. lia.
Qed.
Lemma coalesce_order_fits given l o : opt_fits 32 given -> coalesce_order given l = Some o -> fits 32 o.
Proof. destruct given as [g|]; cbn; [by intros ? [= <-]|intros _; apply next_order_fits]. Qed.

Lemma insert_host_linked r d h d' : linked d -> insert_host r d = Some (h, d') -> linked d'.
Proof.
  intros H. unfold insert_host. destruct (negb _ && _) eqn:Hc; [|done]. apply andb_true_iff in Hc as [Hn Ha]. intros [= <- <-].
  apply negb_true_iff in Hn. relink.
  - apply keyed_snoc; [done|]. by apply key_absent.
  - apply keyed_snoc; [done|]. rewrite forallb_forall in Ha. intros (x & He & Hx%list_elem_of_In)%list_elem_of_fmap. specialize (Ha x Hx).
    injection He as He1 He2. by rewrite <- He1, <- He2, !bool_decide_eq_true_2 in Ha.
  - apply ints_snoc; [done|]. unfold fits. cbn. lia.
Qed.

Lemma override_linked host n d : host_exists host d = true -> existsb (fun o => bool_decide (co_host_id o = host)) (db_overrides d) = false ->
  linked d -> linked (set_db_overrides (db_overrides d ++ [mkOverride host n true false None 1 None (db_now d)]) d).
Proof. intros Hh Hn%key_absent H. relink; referring. Qed.

Section statements.
Context {SQL : Sql} {SHA : Sha256} {JS : SerdeJson} {UT : UuidText} {RFC : Rfc3339} {PG : PgInet} {RC : Rcgen} {HX : Hex} {JP : SerdeParse}.

Lemma insert_cert_linked host signed i d x d' : linked d -> insert_cert host signed i d = Some (x, d') -> linked d'.
Proof.
  intros H. unfold insert_cert. destruct (_ && _) eqn:Hc; [|done]. apply andb_true_iff in Hc as [Hf%key_free Hh]. intros [= <- <-].
  relink; referring.
Qed.

Lemma insert_rule_linked u g req d r d' : opt_fits 32 (cr_group_order req) -> linked d -> insert_rule u g req d = Some (r, d') -> linked d'.
Proof.
  intros Ho H. unfold insert_rule. destruct (inet_cast (cr_src_cidr req)), (inet_cast (cr_dst_cidr req)); try done.
  destruct (coalesce_order (cr_group_order req) _) as [ord|] eqn:Hco; [|done]. apply coalesce_order_fits in Hco; [|done].
  destruct (rule_ports_ok _ && _ && _ && _ && _) eqn:Hc; [|done]. rewrite !andb_true_iff in Hc. destruct Hc as [[[[_ Hn] _] Hu] Hi].
  apply negb_true_iff in Hi. intros [= <- <-]. relink.
  - referring.
  - apply keyed_snoc; [done|]. cbn. intros (x & He & Hx%list_elem_of_In)%list_elem_of_fmap. apply not_true_iff_false in Hi.
    apply Hi, existsb_exists. exists x. split; [done|]. by apply bool_decide_eq_true_2.
  - apply keyed_snoc; [done|]. unfold rule_name_free in Hn. rewrite forallb_forall in Hn. cbn.
    intros (x & He & Hx%list_elem_of_In)%list_elem_of_fmap. specialize (Hn x Hx). by rewrite He, bool_decide_eq_true_2 in Hn.
Qed.

Lemma insert_assignment_linked u h ps d n d' : linked d -> insert_assignment u h ps d = Some (n, d') -> linked d'.
Proof.
  intros H. unfold insert_assignment. destruct (existsb _ _); [by intros [= <- <-]|]. destruct (_ && _) eqn:Hc; [|done].
  apply andb_true_iff in Hc as [_ Hu]. intros [= <- <-]. relink. referring.
Qed.

Lemma member_linked id g o d : fits 32 o -> linked d -> linked (set_db_set_groups (upsert_set_group id g o (db_set_groups d)) d).
Proof.
  intros Ho H. unfold upsert_set_group. destruct (existsb _ _); relink.
Qed.

(** A new name of the one row with an id, which no other row has. *)
Lemma rename_linked_rules id (f : FirewallRule -> FirewallRule) row d : (forall r, rule_id (f r) = rule_id r /\ rule_created_by (f r) = rule_created_by r) ->
  row ∈ db_rules d -> rule_id (rr_rule row) = id -> rule_name_free (rule_name (f (rr_rule row))) (Some id) d = true -> linked d ->
  linked (set_db_rules (update_where (fun x => bool_decide (rule_id (rr_rule x) = id))
    (fun x => mkRuleRow (f (rr_rule x)) (rr_group_id x) (rr_group_order x)) (db_rules d)) d).
Proof.
  intros Hf Hrow Hid Hfree H. relink.
  - apply refers_update; [intros x; left; apply Hf|done].
  - rewrite update_where_map; [done|]. intros x. apply Hf.
  - apply keyed_update; [intros x; apply Hf|done].
  - eapply (keyed_update_one (fun r => rule_id (rr_rule r)) _ _ _ _ id (fun x => rule_name (f (rr_rule x)))); try done.
    intros x y Hx Hy Hpx Hpy He. apply bool_decide_eq_true in Hpx. apply bool_decide_eq_false in Hpy.
    assert (x = row) as -> by (eapply (keyed_unique (fun r => rule_id (rr_rule r))); [done..|congruence]).
    unfold rule_name_free in Hfree. rewrite forallb_forall in Hfree. apply list_elem_of_In in Hy. specialize (Hfree y Hy).
    rewrite bool_decide_eq_true_2, bool_decide_eq_false_2 in Hfree by congruence. done.
Qed.

Context {SQLL : SqlLaws}.

Lemma update_rule_row_linked id req d o d' : linked d -> update_rule_row id req d = Some (o, d') -> linked d'.
Proof.
  intros H. unfold update_rule_row. destruct (inet_cast (ur_src_cidr req)) as [src|], (inet_cast (ur_dst_cidr req)) as [dst|]; try done.
  cbv zeta. destruct (find_rule id d) as [row|] eqn:Hrow; [|by intros [= <- <-]]. apply head_scan_in in Hrow as [Hrow Hid%bool_decide_eq_true].
  destruct (forallb _ _ && _) eqn:Hc; [|done]. apply andb_true_iff in Hc as [_ Hn]. intros [= <- <-].
  by apply (rename_linked_rules id (updated_rule req src dst (db_now d)) row).
Qed.

Lemma update_policy_set_linked id req s d : find_policy_set id d = Some s ->
  set_name_free (ps_name (updated_policy_set req (db_now d) s)) (Some id) d = true -> linked d ->
  linked (set_db_policy_sets (update_where (fun s => bool_decide (ps_id s = id)) (updated_policy_set req (db_now d)) (db_policy_sets d)) d).
Proof.
  intros [Hs Hid%bool_decide_eq_true]%head_scan_in Hfree H. relink.
  eapply (keyed_update_one ps_id _ _ _ _ id (fun x => ps_name (updated_policy_set req (db_now d) x))); try done.
  intros x y Hx Hy Hpx Hpy He. apply bool_decide_eq_true in Hpx. apply bool_decide_eq_false in Hpy.
  assert (x = s) as -> by (eapply (keyed_unique ps_id); [done..|congruence]).
  unfold set_name_free in Hfree. rewrite forallb_forall in Hfree. apply list_elem_of_In in Hy. specialize (Hfree y Hy).
  cbn in He, Hfree. rewrite bool_decide_eq_true_2, bool_decide_eq_false_2 in Hfree by congruence. done.
Qed.

Lemma upsert_request_linked req hash d x d' : linked d -> upsert_request req hash d = Some (x, d') -> linked d'.
Proof.
  intros H. unfold upsert_request. destruct (inet_text _) as [ip|]; [|done]. destruct (forallb _ _) eqn:Hf; [|done]. rewrite forallb_forall in Hf.
  intros [= _ <-]. destruct (existsb _ _) eqn:He; relink.
  - eapply (keyed_update_one er_machine_id _ _ _ _ (se_fqdn req +:+ "-" +:+ se_ip_address req) (fun _ => hash)); try done.
    intros y z Hy Hz%list_elem_of_In _ Hpz ->. specialize (Hf z Hz). rewrite Hpz, bool_decide_eq_true_2 in Hf; done.
  - apply keyed_snoc; [done|]. by apply (key_absent er_machine_id).
  - apply keyed_snoc; [done|]. cbn. intros (z & -> & Hz)%list_elem_of_fmap. apply not_true_iff_false in He.
    apply list_elem_of_In in Hz. specialize (Hf z Hz). apply orb_true_iff in Hf as [Hf|Hf]; [|by rewrite bool_decide_eq_true_2 in Hf].
    apply He, existsb_exists. eauto.
Qed.

(** ** The requests *)

Ltac link_step := lazymatch goal with |- keeps _ (execute_if _ _) => apply keeps_execute_if_ok; [apply un_faults|intros ? ? ?] | _ => int_step end ||
  match goal with
  | |- keeps _ (if ?x then _ else _) => destruct x
  | |- keeps _ (match ?x with _ => _ end) => destruct x
  | |- keeps _ (throw _) => apply keeps_throw
  | |- keeps _ (gets _) => apply keeps_gets
  | |- keeps _ (lift_result _) => apply keeps_lift
  end.

Lemma run_op_linked u op : op_typed op -> keeps linked (run_op u op).
Proof.
  intros Hop. destruct op; simpl in *; apply keeps_bind; try (intros; apply keeps_ret).
  - unfold create_policy_set. repeat link_step. destruct (_ && _) eqn:Hc; [|done]. rewrite !andb_true_iff in Hc. destruct Hc as [[Hi Hn] Hu].
    simplify_eq. apply negb_true_iff, key_absent in Hi. relink; [referring|]. apply keyed_snoc; [done|]. unfold set_name_free in Hn.
    rewrite forallb_forall in Hn. cbn. intros (x & He & Hx%list_elem_of_In)%list_elem_of_fmap. specialize (Hn x Hx). by rewrite He, bool_decide_eq_true_2 in Hn.
  - unfold update_policy_set. repeat link_step. case_match eqn:Hs; [|by simplify_eq]. case_match eqn:Hn; [|done]. simplify_eq.
    by eapply update_policy_set_linked.
  - unfold delete_policy_set. repeat link_step. simplify_eq. by apply drop_policy_set_linked.
  - unfold add_group_to_set. repeat link_step. case_match eqn:Ho; [|done]. case_match; [|done]. simplify_eq.
    apply member_linked; [by eapply coalesce_order_fits|done].
  - unfold remove_group_from_set. repeat link_step. relink.
  - unfold reorder_groups. repeat link_step. unfold set_group_position. relink. apply ints_update; [|done]. intros. apply wrap32_fits.
  - unfold create_rule_group. repeat link_step. destruct (_ && _) eqn:Hc; [|done]. apply andb_true_iff in Hc as [Hi Hu]. simplify_eq.
    apply negb_true_iff, key_absent in Hi. relink. referring.
  - unfold update_rule_group. repeat link_step. simplify_eq. relink.
  - unfold delete_rule_group. repeat link_step. by eapply drop_rule_group_linked.
  - unfold create_rule_in_group. repeat link_step; [by eapply insert_rule_linked; [apply Hop|..]|].
    match goal with Hc : _ && _ = true |- _ => apply andb_true_iff in Hc as [_ Hc] end. relink; [apply refers_snoc; [done|by intros]|referring|apply refers_snoc; [done|by intros]].
  - unfold reorder_group_rules. repeat link_step. unfold set_rule_position. relink. apply ints_update; [|done]. intros. apply wrap32_fits.
  - unfold update_rule. repeat link_step. by eapply update_rule_row_linked.
  - unfold delete_rule. repeat link_step. simplify_eq. by apply drop_rules_linked.
  - unfold delete_host. repeat link_step. by apply drop_host_linked.
  - unfold update_host. repeat link_step. intros d Hd. unfold final, query.
    destruct (db_faults d) as [|[] fs]; [|by apply un_faults|]; (case_match; [destruct (db_coerces_text _)|]); cbn -[update_where]; try done; relink.
  - unfold host_assign_policy_set. repeat link_step. by eapply insert_assignment_linked.
  - unfold host_unassign_policy_set. repeat link_step. unfold delete_assignment. relink.
  - unfold assign_policy_set. repeat link_step. by eapply insert_assignment_linked.
  - unfold unassign_policy_set. repeat link_step. unfold delete_assignment. relink.
Qed.
End statements.
