(* ===== verification/EventsFacts.v ===== *)
(** * EventsFacts: what becomes of a forced check-in

    Rule inductions over [Events.step]: the queue of every [Notify] is exactly its
    waiting tasks, forced check-ins are neither invented nor dropped except into a
    closed stream, and how that happens to the second one. *)

From S2P Require Import Prelude Text Models Net Policy Wire PullClient Db AuditLog AgentApi Events.

#[export] Instance Label_eq_dec : EqDecision Label.
Proof. solve_decision. Defined.

Definition occurrences (l : Label) (ls : list Label) : nat := length (filter (fun x => x = l) ls).

(** Updating one element changes a sum by the difference. *)
Lemma sum_list_with_insert {A} (f : A -> nat) (l : list A) i x y : l !! i = Some x ->
  (sum_list_with f (<[i := y]> l) + f x = sum_list_with f l + f y)%nat.
Proof.
  revert i. induction l as [|a l IH]; intros [|i] H; simplify_eq/=; [lia|]. specialize (IH i H). lia.
Qed.

Lemma sum_list_with_pos {A} (f : A -> nat) (l : list A) : (1 <= sum_list_with f l)%nat ->
  exists i x, l !! i = Some x /\ (1 <= f x)%nat.
Proof.
  induction l as [|a l IH]; cbn; [lia|]. intros H. destruct (decide (1 <= f a)%nat); [by exists 0%nat, a|].
  destruct IH as (i & x & Hi & Hx); [lia|]. by exists (S i), x.
Qed.

Section facts.
Context {SQL : Sql} {TN : TokioNotify} {TNL : TokioNotifyLaws}.

(** ** Signals under way *)

(** A task that was woken, or is about to send the event. *)
Definition task_token (h : Uuid) (k : EventTask) : nat :=
  if bool_decide (et_host k = h) then match et_phase k with TWoken | TSend CheckInEvent => 1%nat | _ => 0%nat end else 0%nat.

Definition permit_token (n : Notify) : nat := if permit n then 1%nat else 0%nat.

Definition tokens (h : Uuid) (s : Events) : nat :=
  (permit_token (notify_of h s) + sum_list_with (task_token h) (es_tasks s))%nat.

(** The queue of a host's [Notify] is its waiting tasks, once each, and a permit
    is stored only while nobody waits. *)
Definition queue_wf (h : Uuid) (s : Events) : Prop :=
  let n := notify_of h s in
  NoDup (waiters n) /\
  (forall t, t ∈ waiters n <-> exists k, es_tasks s !! t = Some k /\ et_host k = h /\ et_phase k = TWait) /\
  (permit n = true -> waiters n = []).

Definition events_wf (s : Events) : Prop := forall h, queue_wf h s.

Lemma notify_of_set h h' n s : notify_of h (set_notify h' n s) = if decide (h' = h) then n else notify_of h s.
Proof.
  unfold notify_of, set_notify. cbn. destruct (decide (h' = h)) as [->|Hne]; [by rewrite lookup_insert_eq|by rewrite lookup_insert_ne].
Qed.

Lemma notify_of_set_eq h n s : notify_of h (set_notify h n s) = n.
Proof. rewrite notify_of_set. by destruct (decide (h = h)). Qed.

Lemma notify_of_set_ne h h' n s : h' <> h -> notify_of h (set_notify h' n s) = notify_of h s.
Proof. intros Hne. rewrite notify_of_set. by destruct (decide (h' = h)). Qed.

Lemma lookup_set_task s t k t' : is_Some (es_tasks s !! t) ->
  es_tasks (set_task t k s) !! t' = if decide (t' = t) then Some k else es_tasks s !! t'.
Proof.
  intros Ht%lookup_lt_is_Some_1. cbn. destruct (decide (t' = t)) as [->|Hne]; [by apply list_lookup_insert_eq|by apply list_lookup_insert_ne].
Qed.

Lemma tokens_set_task h t k k' s : es_tasks s !! t = Some k ->
  (tokens h (set_task t k' s) + task_token h k = tokens h s + task_token h k')%nat.
Proof.
  intros Ht. unfold tokens. change (notify_of h (set_task t k' s)) with (notify_of h s). cbn [es_tasks set_task].
  pose proof (sum_list_with_insert (task_token h) _ _ _ k' Ht). lia.
Qed.

Lemma tokens_set_notify h h' n s :
  (tokens h (set_notify h' n s) + (if decide (h' = h) then permit_token (notify_of h s) else 0) =
   tokens h s + (if decide (h' = h) then permit_token n else 0))%nat.
Proof. unfold tokens. rewrite notify_of_set. cbn [es_tasks set_notify]. destruct (decide (h' = h)); lia. Qed.

(** A task that neither starts nor stops waiting leaves the queues right. *)
Lemma set_task_wf t k k' s : es_tasks s !! t = Some k -> et_host k' = et_host k -> et_phase k <> TWait -> et_phase k' <> TWait ->
  events_wf s -> events_wf (set_task t k' s).
Proof.
  intros Ht Hh Hp Hp' Hwf h. destruct (Hwf h) as (Hnd & Hq & Hpm). unfold queue_wf.
  change (notify_of h (set_task t k' s)) with (notify_of h s). split_and!; [done| |done].
  intros u. rewrite Hq. setoid_rewrite (lookup_set_task s t k' u ltac:(by eexists)). destruct (decide (u = t)) as [->|]; [|done].
  split; intros (x & Hx & _ & Hxp); simplify_eq.
Qed.

(** Steps of the client's end keep the phase. *)
Lemma set_client_wf t k k' s : es_tasks s !! t = Some k -> et_host k' = et_host k -> et_phase k' = et_phase k ->
  events_wf s -> events_wf (set_task t k' s).
Proof.
  intros Ht Hh Hp Hwf h. destruct (Hwf h) as (Hnd & Hq & Hpm). unfold queue_wf.
  change (notify_of h (set_task t k' s)) with (notify_of h s). split_and!; [done| |done].
  intros u. rewrite Hq. setoid_rewrite (lookup_set_task s t k' u ltac:(by eexists)). destruct (decide (u = t)) as [->|]; [|done].
  split; intros (x & Hx & Hxh & Hxp); simplify_eq; [exists k'|exists k]; split_and!; congruence.
Qed.

(** ** One signal *)

Lemma notify_signal h s : events_wf s -> let s' := notify_result h (notify_one (notify_of h s)) s in
  events_wf s' /\ (1 <= tokens h s')%nat /\ (tokens h s <= tokens h s' <= tokens h s + 1)%nat /\
  forall h', h' <> h -> tokens h' s' = tokens h' s.
Proof.
  intros Hwf s'. subst s'. destruct (Hwf h) as (Hnd & Hq & Hpm). unfold notify_result.
  destruct (waiters (notify_of h s)) as [|t ts] eqn:Hw.
  - destruct (notify_one_idle _ Hw) as (-> & Hp & Hws). cbn [wake]. set (n' := (notify_one _).1) in *.
    pose proof (tokens_set_notify h h n' s) as Ht. destruct (decide (h = h)); [|done]. unfold permit_token at 2 in Ht. rewrite Hp in Ht.
    assert (permit_token (notify_of h s) <= tokens h s)%nat as Hle by (unfold tokens; lia).
    assert (permit_token (notify_of h s) <= 1)%nat as Hle1 by (unfold permit_token; case_match; lia).
    split_and!; [|lia..|].
    + intros h0. unfold queue_wf. rewrite notify_of_set. destruct (decide (h = h0)) as [<-|]; [|exact (Hwf h0)].
      cbn zeta. rewrite Hws. split_and!; [apply NoDup_nil_2|exact Hq|done].
    + intros h' Hne. pose proof (tokens_set_notify h' h n' s) as Ht'. destruct (decide (h = h')); [congruence|lia].
  - destruct (notify_one_wakes _ _ _ Hw) as (-> & Hp & Hws). set (n' := (notify_one _).1) in *.
    destruct (proj1 (Hq t)) as (k & Hk & Hkh & Hkp); [by left|]. cbn [wake]. cbn [es_tasks set_notify]. rewrite Hk.
    assert (es_tasks (set_notify h n' s) !! t = Some k) as Hk' by done.
    assert (forall h', tokens h' (set_notify h n' s) = tokens h' s) as Hts.
    { intros h'. pose proof (tokens_set_notify h' h n' s) as Ht. destruct (decide (h = h')) as [<-|]; [|lia].
      unfold permit_token in Ht. rewrite Hp in Ht. lia. }
    assert (forall h', task_token h' k = 0%nat /\ task_token h' (at_phase TWoken k) = if decide (h' = h) then 1%nat else 0%nat) as Hk0.
    { intros h'. unfold task_token. cbn. rewrite Hkp, Hkh. split; [by case_bool_decide|]. case_bool_decide; destruct (decide (h' = h)); congruence. }
    assert (forall h', tokens h' (set_task t (at_phase TWoken k) (set_notify h n' s)) = (tokens h' s + if decide (h' = h) then 1 else 0)%nat) as Hall.
    { intros h'. pose proof (tokens_set_task h' t k (at_phase TWoken k) _ Hk') as Ht. destruct (Hk0 h') as [H0 H1]. rewrite H0, H1, Hts in Ht. lia. }
    split_and!; try (rewrite Hall; destruct (decide (h = h)); [lia|done]).
    + intros h0. unfold queue_wf. change (notify_of h0 (set_task t (at_phase TWoken k) (set_notify h n' s))) with (notify_of h0 (set_notify h n' s)).
      rewrite notify_of_set. destruct (decide (h = h0)) as [<-|Hne].
      * cbn zeta. rewrite Hws. apply NoDup_cons in Hnd as [Hnt Hnd]. split_and!; [done| |intros Hpt; rewrite Hp in Hpt; by specialize (Hpm Hpt)].
        intros u. setoid_rewrite (lookup_set_task _ t (at_phase TWoken k) u ltac:(by eexists)). destruct (decide (u = t)) as [->|Hut].
        -- split; [done|]. intros (x & [= <-] & _ & [=]).
        -- rewrite <- Hq. rewrite elem_of_cons. naive_solver.
      * destruct (Hwf h0) as (Hnd0 & Hq0 & Hp0). split_and!; [done| |done]. intros u. rewrite Hq0.
        setoid_rewrite (lookup_set_task _ t (at_phase TWoken k) u ltac:(by eexists)). destruct (decide (u = t)) as [->|]; [|done].
        split; intros (x & Hx & Hxh & Hxp); simplify_eq/=.
    + intros h' Hne. rewrite Hall. destruct (decide (h' = h)); [done|lia].
Qed.

(** ** The other moves of a task *)

(** A task of another host, or that does not wait, is not in the queue. *)
Lemma changed_queue_wf h n t k k' s : events_wf s -> es_tasks s !! t = Some k -> et_host k = h -> et_host k' = h ->
  NoDup (waiters n) -> (permit n = true -> waiters n = []) ->
  (forall u, u ∈ waiters n <-> (u = t /\ et_phase k' = TWait) \/ (u <> t /\ u ∈ waiters (notify_of h s))) ->
  events_wf (set_task t k' (set_notify h n s)).
Proof.
  intros Hwf Ht Hk Hk' Hnd Hpm Hq h0. unfold queue_wf. assert (is_Some (es_tasks (set_notify h n s) !! t)) as Hs by by eexists.
  change (notify_of h0 (set_task t k' (set_notify h n s))) with (notify_of h0 (set_notify h n s)). rewrite notify_of_set.
  destruct (Hwf h0) as (Hnd0 & Hq0 & Hp0). destruct (decide (h = h0)) as [<-|Hne]; (split_and!; [done| |done]); intros u;
    setoid_rewrite (lookup_set_task _ t k' u Hs).
  - rewrite Hq, Hq0. destruct (decide (u = t)) as [->|Hut]; [|naive_solver].
    split; [intros [[_ ?]|[? _]]; [by exists k'|done]|]. intros (x & [= <-] & _ & ?). by left.
  - rewrite Hq0. destruct (decide (u = t)) as [->|]; [|done]. split; intros (x & Hx & Hxh & _); simplify_eq/=.
Qed.

Lemma poll_effect t k s : events_wf s -> es_tasks s !! t = Some k -> et_phase k = TLoop ->
  events_wf (task_poll t k s) /\ forall h, tokens h (task_poll t k s) = tokens h s.
Proof.
  intros Hwf Ht Hp. unfold task_poll. set (h := et_host k). destruct (Hwf h) as (Hnd & Hq & Hpm).
  assert (t ∉ waiters (notify_of h s)) as Hnt by (rewrite Hq; intros (x & Hx & _ & Hxp); simplify_eq; congruence).
  destruct (notified_poll t (notify_of h s)) as [n ready] eqn:Hn.
  assert (permit_token (notify_of h s) = (permit_token n + if ready then 1 else 0)%nat /\
    events_wf (set_task t (at_phase (if ready then TSend CheckInEvent else TWait) k) (set_notify h n s))) as [Htok Hwf'].
  { unfold permit_token. destruct (permit (notify_of h s)) eqn:Hpt.
    - destruct (notified_poll_permit t _ Hpt) as (Hr & Hp' & Hw). rewrite Hn in Hr, Hp', Hw. cbn in Hr, Hp', Hw. subst ready. rewrite Hp'.
      split; [done|]. apply (changed_queue_wf h n t k); try done; rewrite Hw; [done|congruence|]. cbn. naive_solver.
    - destruct (notified_poll_wait t _ Hpt) as (Hr & Hp' & Hw). rewrite Hn in Hr, Hp', Hw. cbn in Hr, Hp', Hw. subst ready. rewrite Hp'.
      split; [done|]. apply (changed_queue_wf h n t k); try done; rewrite Hw; [|congruence|].
      + apply NoDup_app. split_and!; [done| |apply NoDup_singleton]. intros u Hu ->%list_elem_of_singleton. done.
      + intros u. rewrite elem_of_app, list_elem_of_singleton. cbn. naive_solver. }
  split; [exact Hwf'|]. intros h'. assert (es_tasks (set_notify h n s) !! t = Some k) as Ht' by done.
  pose proof (tokens_set_task h' t k (at_phase (if ready then TSend CheckInEvent else TWait) k) _ Ht') as H1.
  pose proof (tokens_set_notify h' h n s) as H2. unfold task_token in H1. cbn [et_host et_phase at_phase] in H1. fold h in H1. rewrite Hp in H1.
  destruct (decide (h = h')) as [<-|Hne]; [rewrite bool_decide_eq_true_2 in H1 by done; destruct ready|rewrite bool_decide_eq_false_2 in H1 by done]; lia.
Qed.

Lemma wait_timeout_effect t k s : events_wf s -> es_tasks s !! t = Some k -> et_phase k = TWait ->
  events_wf (task_wait_timeout t k s) /\ forall h, tokens h (task_wait_timeout t k s) = tokens h s.
Proof.
  intros Hwf Ht Hp. unfold task_wait_timeout. set (h := et_host k). destruct (Hwf h) as (Hnd & Hq & Hpm).
  destruct (notified_drop_spec t (notify_of h s)) as [Hpd Hwd]. set (n := notified_drop _ _) in *. split.
  - apply (changed_queue_wf h n t k); try done; rewrite ?Hpd, Hwd.
    + by apply NoDup_filter.
    + intros Hpt. by rewrite (Hpm Hpt).
    + intros u. rewrite list_elem_of_filter. cbn. naive_solver.
  - intros h'. assert (es_tasks (set_notify h n s) !! t = Some k) as Ht' by done.
    pose proof (tokens_set_task h' t k (at_phase (TSend TimeoutEvent) k) _ Ht') as H1. pose proof (tokens_set_notify h' h n s) as H2.
    unfold task_token in H1. cbn [et_host et_phase at_phase] in H1. rewrite Hp in H1. unfold permit_token in H2. rewrite Hpd in H2.
    destruct (decide (h = h')) as [<-|]; repeat case_match; lia.
Qed.

Lemma woken_timeout_effect t k s : events_wf s -> es_tasks s !! t = Some k -> et_phase k = TWoken ->
  events_wf (task_woken_timeout t k s) /\ (tokens (et_host k) (task_woken_timeout t k s) <= tokens (et_host k) s)%nat /\
  (1 <= tokens (et_host k) (task_woken_timeout t k s))%nat /\
  forall h, h <> et_host k -> tokens h (task_woken_timeout t k s) = tokens h s.
Proof.
  intros Hwf Ht Hp. unfold task_woken_timeout. rewrite notified_forward_spec. set (s1 := set_task t _ s). set (h := et_host k).
  assert (events_wf s1) as Hwf1 by (eapply set_task_wf; try done; cbn; congruence).
  destruct (notify_signal h s1 Hwf1) as (Hwf2 & Hge & Hle & Hoth). change (notify_of h s) with (notify_of h s1).
  assert (forall h', (tokens h' s1 + task_token h' k = tokens h' s)%nat) as Hs1.
  { intros h'. subst s1. rewrite (tokens_set_task h' t k _ s Ht). unfold task_token. cbn. by case_bool_decide; lia. }
  split_and!; [done| |done|].
  - pose proof (Hs1 h) as H. unfold task_token in H. subst h. rewrite bool_decide_eq_true_2, Hp in H by done. lia.
  - intros h' Hne. rewrite Hoth by done. pose proof (Hs1 h') as H. unfold task_token in H. rewrite bool_decide_eq_false_2 in H by done. lia.
Qed.

(** ** Every step *)

Definition sent (h : Uuid) (l : Label) : nat := if decide (l = LSent h) then 1%nat else 0%nat.
Definition lost (h : Uuid) (l : Label) : nat := if decide (l = LLost h) then 1%nat else 0%nat.
Definition forced (h : Uuid) (l : Label) : nat := if decide (l = LForce h) then 1%nat else 0%nat.

(** The account of one step for a host: what is under way afterwards. *)
Definition accounted (h : Uuid) (s : Events) (l : Label) (s' : Events) : Prop :=
  (tokens h s' + sent h l + lost h l <= tokens h s + forced h l)%nat /\
  (1 <= tokens h s + forced h l -> sent h l + lost h l = 0 -> 1 <= tokens h s')%nat.

Lemma same_tokens_accounted h s s' : tokens h s' = tokens h s -> accounted h s LOther s'.
Proof. intros H. unfold accounted, sent, lost, forced. rewrite !decide_False by done. lia. Qed.

Lemma force_effect h s r s' : events_wf s -> force_check_in h s = (r, s') ->
  events_wf s' /\ forall h', accounted h' s (if is_ok r then LForce h else LOther) s'.
Proof.
  intros Hwf. unfold force_check_in. destruct (fetch (host_exists h) (es_db s)) as [r0 d]. set (s0 := mkEvents d _ _).
  assert (forall h', tokens h' s0 = tokens h' s) as Hs0 by done. assert (events_wf s0) as Hwf0 by exact Hwf.
  destruct r0 as [[]|]; intros [= <- <-]; cbn [is_ok].
  - destruct (notify_signal h s0 Hwf0) as (Hwf1 & Hge & Hle & Hoth). split; [done|]. intros h'.
    unfold accounted, sent, lost, forced. destruct (decide (h' = h)) as [->|Hne].
    + rewrite (decide_False (P := _ = LSent h)), (decide_False (P := _ = LLost h)), decide_True by done. rewrite Hs0 in Hle. lia.
    + rewrite (Hoth h' Hne), Hs0. rewrite !decide_False by congruence. lia.
  - split; [done|]. intros h'. by apply same_tokens_accounted.
  - split; [done|]. intros h'. by apply same_tokens_accounted.
Qed.

Lemma events_effect h s r s' : events_wf s -> events h s = (r, s') -> events_wf s' /\ forall h', tokens h' s' = tokens h' s.
Proof.
  intros Hwf. unfold events. destruct (events_hold_secs h (es_db s)) as [r0 d]. destruct r0 as [hold|e]; intros [= <- <-]; [|done].
  set (s' := mkEvents d _ _). assert (forall h', notify_of h' s' = notify_of h' s) as Hn.
  { intros h'. subst s'. unfold notify_of at 1. cbn. destruct (decide (h = h')) as [<-|]; [by rewrite lookup_insert_eq|by rewrite lookup_insert_ne]. }
  split.
  - intros h'. destruct (Hwf h') as (Hnd & Hq & Hpm). unfold queue_wf. rewrite Hn. split_and!; [done| |done]. intros u. rewrite Hq. subst s'. cbn.
    split; intros (k & Hk & Hkh & Hkp); exists k; (split; [|done]); [by apply lookup_app_l_Some|].
    apply lookup_app_Some in Hk as [Hk|[_ [Hi Hk]%list_lookup_singleton_Some]]; [done|]. by subst k.
  - intros h'. unfold tokens. rewrite Hn. subst s'. cbn. rewrite sum_list_with_app. unfold task_token at 2. cbn. case_bool_decide; cbn; lia.
Qed.

(** A task that moves without touching its queue. *)
Lemma task_step_accounted h t k k' s l : es_tasks s !! t = Some k ->
  (task_token h k' + sent h l + lost h l = task_token h k)%nat -> forced h l = 0%nat -> accounted h s l (set_task t k' s).
Proof.
  intros Ht Hk Hf. pose proof (tokens_set_task h t k k' s Ht) as H. unfold accounted. rewrite Hf.
  assert (task_token h k <= 1)%nat by (unfold task_token; repeat case_match; lia). lia.
Qed.

Ltac token_cases := unfold task_token, sent, lost, forced; cbn [et_host et_phase at_phase task_start task_send deliver disconnect];
  repeat (case_bool_decide || case_decide || (progress simplify_eq/=)); try congruence; try lia.

Lemma step_effect s l s' : step s l s' -> events_wf s -> events_wf s' /\ forall h, accounted h s l s'.
Proof.
  intros Hst Hwf. destruct Hst as [h s s' H|h s e s' H|h s s' H|d s|t k hold s Ht Hp|t k s Ht Hp|t k s Ht Hp Hd|t k s Ht Hp Hd|t k s Ht Hp
    |t k s Ht Hp Hd|t k e s Ht Hp Ho Hc|t k e s Ht Hp Ho|t k e rest s Ht Hc Ho|t k s Ht].
  - by destruct (force_effect h s _ s' Hwf H).
  - by destruct (force_effect h s _ s' Hwf H).
  - destruct (events_effect h s _ s' Hwf H) as [H1 H2]. split; [done|]. intros h'. by apply same_tokens_accounted.
  - split; [exact Hwf|]. intros h. by apply same_tokens_accounted.
  - split; [eapply set_task_wf; try done; cbn; congruence|]. intros h. apply (task_step_accounted _ _ k); [done|token_cases; by rewrite Hp|done].
  - destruct (poll_effect t k s Hwf Ht Hp) as [H1 H2]. split; [done|]. intros h. by apply same_tokens_accounted.
  - split; [eapply set_task_wf; try done; cbn; congruence|]. intros h. apply (task_step_accounted _ _ k); [done|token_cases; by rewrite Hp|done].
  - destruct (wait_timeout_effect t k s Hwf Ht Hp) as [H1 H2]. split; [done|]. intros h. by apply same_tokens_accounted.
  - split; [eapply set_task_wf; try done; cbn; congruence|]. intros h. apply (task_step_accounted _ _ k); [done|token_cases; by rewrite Hp|done].
  - destruct (woken_timeout_effect t k s Hwf Ht Hp) as (H1 & H2 & H3 & H4). split; [done|]. intros h.
    destruct (decide (h = et_host k)) as [->|Hne]; [|by apply same_tokens_accounted, H4].
    unfold accounted, sent, lost, forced. rewrite !decide_False by done. lia.
  - split; [eapply set_task_wf; try done; destruct e; cbn; congruence|]. intros h.
    apply (task_step_accounted _ _ k); [done|destruct e; token_cases; by rewrite Hp|destruct e; token_cases].
  - split; [eapply set_task_wf; try done; cbn; congruence|]. intros h.
    apply (task_step_accounted _ _ k); [done|destruct e; token_cases; by rewrite Hp|destruct e; token_cases].
  - split; [by eapply set_client_wf|]. intros h. apply (task_step_accounted _ _ k); [done|token_cases|done].
  - split; [by eapply set_client_wf|]. intros h. apply (task_step_accounted _ _ k); [done|token_cases|done].
Qed.

Lemma init_wf d : events_wf (events_init d).
Proof.
  intros h. destruct notify_new_spec as [Hp Hw]. unfold queue_wf, events_init, notify_of. cbn. rewrite lookup_empty. cbn. rewrite Hp, Hw.
  split_and!; [apply NoDup_nil_2| |done]. intros t. split; [by intros ?%not_elem_of_nil|]. intros (k & Hk & _). done.
Qed.

Lemma init_tokens h d : tokens h (events_init d) = 0%nat.
Proof. destruct notify_new_spec as [Hp _]. unfold tokens, events_init, notify_of, permit_token. cbn. rewrite lookup_empty. cbn. by rewrite Hp. Qed.

Lemma occurrences_cons l x ls : occurrences l (x :: ls) = ((if decide (x = l) then 1 else 0) + occurrences l ls)%nat.
Proof. unfold occurrences. rewrite filter_cons. by destruct (decide (x = l)). Qed.

Lemma run_effect s ls s' : run s ls s' -> events_wf s ->
  events_wf s' /\ forall h,
    (tokens h s' + occurrences (LSent h) ls + occurrences (LLost h) ls <= tokens h s + occurrences (LForce h) ls)%nat /\
    (1 <= tokens h s + occurrences (LForce h) ls -> occurrences (LSent h) ls = 0 -> occurrences (LLost h) ls = 0 -> 1 <= tokens h s')%nat.
Proof.
  induction 1 as [s|s l s1 ls s2 Hst _ IH]; intros Hwf; [split; [done|]; intros h; unfold occurrences; cbn; lia|].
  destruct (step_effect _ _ _ Hst Hwf) as [Hwf1 Hacc]. destruct (IH Hwf1) as [Hwf2 Hrest]. split; [done|]. intros h.
  destruct (Hacc h) as [Ha Hb]. destruct (Hrest h) as [Hc Hd]. unfold sent, lost, forced in *. rewrite !occurrences_cons. lia.
Qed.

(** ** The theorems *)

(** In every state the manager reaches, whatever the handlers, the agents and
    the scheduler do and in whichever order, the waiters of a host's [Notify] are
    exactly the waiting tasks of its streams, once each, and a permit is stored
    only while none waits. *)
Theorem reachable_queues_exact d ls s : run (events_init d) ls s -> events_wf s.
Proof. intros H. apply (run_effect _ _ _ H), init_wf. Qed.

Lemma run_app_inv s ls ls' s'' : run s (ls ++ ls') s'' -> exists s', run s ls s' /\ run s' ls' s''.
Proof.
  revert s. induction ls as [|l ls IH]; intros s H; cbn in H; [by exists s; split; [constructor|]|].
  inversion H as [|? ? s1 ? ? Hst Hr]; subst. destruct (IH _ Hr) as (s' & H1 & H2). exists s'. by split; [econstructor|].
Qed.

Lemma occurrences_none l ls : l ∉ ls -> occurrences l ls = 0%nat.
Proof.
  intros Hl. unfold occurrences. apply length_zero_iff_nil. destruct (filter _ ls) as [|x r] eqn:Hf; [done|].
  assert (x ∈ filter (fun x => x = l) ls) as [-> Hx]%list_elem_of_filter by (rewrite Hf; left). done.
Qed.

(** C14. Forced check-ins are accounted for. In every run from the start, the events
    put into a host's streams, those that found their stream closed and those still
    under way are together at most the accepted requests (two requests may merge
    into one event, none is invented); and after any accepted request of the run,
    whatever was sent or lost before it, one is under way for as long as, after that
    request, no event was sent to the host and none was lost to a closed stream. *)
Theorem forced_check_ins_accounted d ls s h : run (events_init d) ls s ->
  (occurrences (LSent h) ls + occurrences (LLost h) ls + tokens h s <= occurrences (LForce h) ls)%nat /\
  forall before after, ls = before ++ LForce h :: after -> LSent h ∉ after -> LLost h ∉ after -> (1 <= tokens h s)%nat.
Proof.
  intros H. split.
  - destruct (run_effect _ _ _ H (init_wf d)) as [_ Hall]. destruct (Hall h) as [Ha _]. rewrite init_tokens in Ha. lia.
  - intros before after -> Hns Hnl. destruct (run_app_inv _ _ _ _ H) as (s1 & H1 & H2).
    destruct (run_effect _ _ _ H1 (init_wf d)) as [Hwf _]. destruct (run_effect _ _ _ H2 Hwf) as [_ Hall]. destruct (Hall h) as [_ Hb].
    rewrite !occurrences_cons, decide_True, !decide_False, (occurrences_none (LSent h)), (occurrences_none (LLost h)) in Hb by done. lia.
Qed.

(** ** The second forced check-in *)

Lemma set_task_twice t k k' s : set_task t k' (set_task t k s) = set_task t k' s.
Proof. unfold set_task. cbn. by rewrite list_insert_insert_eq. Qed.

(** A request wakes the task in front of the queue. *)
Lemma force_wakes t ts k s h : healthy (es_db s) -> host_exists h (es_db s) = true -> waiters (notify_of h s) = t :: ts ->
  es_tasks s !! t = Some k ->
  force_check_in h s = (Ok 202%Z, set_task t (at_phase TWoken k) (set_notify h (notify_one (notify_of h s)).1 s)).
Proof.
  intros Hd Hh Hw Ht. destruct (notify_one_wakes _ _ _ Hw) as (H1 & _ & _).
  unfold force_check_in. rewrite fetch_healthy by done. rewrite Hh. f_equal. unfold notify_result, notify_of at 1. cbn [es_notify].
  fold (notify_of h s). rewrite H1. cbn [wake es_tasks set_notify]. rewrite Ht. unfold notify_of at 1. cbn [es_notify]. fold (notify_of h s). by destruct s.
Qed.

(** A request whose [Notify] has a closed stream in front goes there and is gone. *)
Lemma force_closed_lost t ts k s h : healthy (es_db s) -> host_exists h (es_db s) = true ->
  waiters (notify_of h s) = t :: ts -> es_tasks s !! t = Some k -> et_host k = h -> et_open k = false ->
  exists s', run s [LForce h; LOther; LLost h] s' /\ es_tasks s' = <[t := at_phase TEnd k]> (es_tasks s) /\
    waiters (notify_of h s') = ts /\ permit (notify_of h s') = permit (notify_of h s).
Proof.
  intros Hd Hh Hw Ht Hk Ho. destruct (notify_one_wakes _ _ _ Hw) as (H1 & H2 & H3).
  set (s0 := set_notify h (notify_one (notify_of h s)).1 s). set (k1 := at_phase TWoken k). set (k2 := at_phase (TSend CheckInEvent) k1).
  pose proof (force_wakes t ts k s h Hd Hh Hw Ht) as Hf. fold s0 k1 in Hf.
  exists (set_task t (at_phase TEnd k2) (set_task t k2 (set_task t k1 s0))). split_and!.
  - eapply run_cons; [by apply step_force|]. eapply run_cons.
    { apply (step_woken t k1); [|done]. rewrite lookup_set_task by by eexists. by rewrite decide_True. }
    eapply run_cons; [|constructor]. fold k2. rewrite <- Hk. apply (step_send_fails t k2 CheckInEvent); try done.
    rewrite set_task_twice, lookup_set_task by by eexists. by rewrite decide_True.
  - rewrite !set_task_twice. done.
  - change (waiters (notify_of h s0) = ts). subst s0. by rewrite notify_of_set_eq.
  - change (permit (notify_of h s0) = permit (notify_of h s)). subst s0. by rewrite notify_of_set_eq.
Qed.

(** A state of the scenario: no permit, the queue and the tasks. *)
Definition queued (h : Uuid) (d : Db) (ws : list nat) (ks : list EventTask) (s : Events) : Prop :=
  es_db s = d /\ permit (notify_of h s) = false /\ waiters (notify_of h s) = ws /\ es_tasks s = ks.

Lemma run_app s ls s' ls' s'' : run s ls s' -> run s' ls' s'' -> run s (ls ++ ls') s''.
Proof. induction 1; [done|]. intros. econstructor; eauto. Qed.

(** Polling with no permit stored puts the task at the end of the queue. *)
Lemma poll_queued h d ws ks s t k : queued h d ws ks s -> ks !! t = Some k -> et_host k = h -> et_phase k = TLoop ->
  exists s', run s [LOther] s' /\ queued h d (ws ++ [t]) (<[t := at_phase TWait k]> ks) s'.
Proof.
  intros (Hd & Hp & Hw & Hk) Ht Hh Hph. subst ks. exists (task_poll t k s). split; [eapply run_cons; [by apply (step_poll t k)|constructor]|].
  unfold task_poll. rewrite Hh. destruct (notified_poll_wait t _ Hp) as (Hr & Hp' & Hw'). destruct (notified_poll t (notify_of h s)) as [n ready].
  cbn in Hr, Hp', Hw'. subst ready. unfold queued. change (notify_of h (set_task t ?k' ?s')) with (notify_of h s'). rewrite notify_of_set_eq.
  split_and!; try done. by rewrite Hw', Hw.
Qed.

(** An agent opens a stream and its task waits. *)
Lemma subscribe_queued h d ws ks s : healthy d -> queued h d ws ks s ->
  exists s' dl, run s [LOther; LOther; LOther] s' /\ queued h d (ws ++ [length ks]) (ks ++ [mkTask h dl TWait true [] []]) s'.
Proof.
  intros Hd (Hdb & Hp & Hw & Hk). subst d ks. assert (exists hold, events_hold_secs h (es_db s) = (Ok hold, es_db s)) as [hold Hh].
  { unfold events_hold_secs. erewrite bind_ok by (unfold attempt; rewrite fetch_healthy by done; reflexivity). by eexists. }
  set (k0 := mkTask h 0 (TStart hold) true [] []). set (s1 := mkEvents (es_db s) (<[h := notify_of h s]> (es_notify s)) (es_tasks s ++ [k0])).
  set (k1 := task_start hold k0 s1). set (s2 := set_task (length (es_tasks s)) k1 s1).
  assert (es_tasks s1 !! length (es_tasks s) = Some k0) as Hl by (cbn; by rewrite list_lookup_middle).
  assert (es_tasks s2 = es_tasks s ++ [k1]) as Ht2 by (cbn; by rewrite insert_app_r_alt, Nat.sub_diag by lia).
  destruct (poll_queued h (es_db s) ws (es_tasks s ++ [k1]) s2 (length (es_tasks s)) k1) as (s3 & Hr & Hq); [|by rewrite list_lookup_middle|done..|].
  { split; [done|]. unfold notify_of at 1 2. cbn. rewrite lookup_insert_eq. cbn. done. }
  exists s3, (et_deadline k1). split.
  - eapply run_cons; [apply (step_events h); unfold events; by rewrite Hh|]. eapply run_cons; [by apply (step_start (length (es_tasks s)) k0 hold)|exact Hr].
  - rewrite insert_app_r_alt, Nat.sub_diag in Hq by lia. exact Hq.
Qed.

(** A forced check-in reaches the stream at the head of the queue; its agent is
    woken and hangs up, and the task, which does not notice, waits again. *)
Lemma force_then_hang_up h d t ts ks s k : healthy d -> host_exists h d = true -> queued h d (t :: ts) ks s -> ks !! t = Some k ->
  et_host k = h -> et_phase k = TWait -> et_open k = true -> et_channel k = [] ->
  exists s', run s [LForce h; LOther; LSent h; LOther; LOther; LOther] s' /\
    queued h d (ts ++ [t]) (<[t := mkTask h (et_deadline k) TWait false [] (et_delivered k ++ [CheckInEvent])]> ks) s'.
Proof.
  intros Hd Hh (Hdb & Hp & Hw & Hks) Ht Hk Hph Ho Hc. subst d ks. destruct (notify_one_wakes _ _ _ Hw) as (H1 & H2 & H3).
  set (s0 := set_notify h (notify_one (notify_of h s)).1 s).
  set (k1 := at_phase TWoken k). set (k2 := at_phase (TSend CheckInEvent) k1). set (k3 := task_send CheckInEvent k2).
  set (k4 := deliver CheckInEvent [] k3). set (k5 := disconnect k4).
  assert (forall x, es_tasks (set_task t x s0) !! t = Some x) as Hl by (intros x; rewrite lookup_set_task by (by eexists); by rewrite decide_True).
  pose proof (force_wakes t ts k s h Hd Hh Hw Ht) as Hf. fold s0 k1 in Hf.
  destruct (poll_queued h (es_db s) ts (<[t := k5]> (es_tasks s)) (set_task t k5 s0) t k5) as (s' & Hr & Hq); try done.
  { split; [done|]. change (notify_of h (set_task t k5 s0)) with (notify_of h s0). subst s0. rewrite notify_of_set_eq. by rewrite H2. }
  { by apply (Hl k5). }
  exists s'. split.
  - eapply run_cons; [by apply step_force|]. eapply run_cons; [by apply (step_woken t k1)|]. fold k2. rewrite set_task_twice.
    eapply run_cons; [rewrite <- Hk; apply (step_send t k2 CheckInEvent); try done; cbn; rewrite Hc; unfold CHANNEL_CAPACITY; cbn; lia|].
    fold k3. rewrite set_task_twice. eapply run_cons; [apply (step_deliver t k3 CheckInEvent []); try done; cbn; by rewrite Hc|].
    fold k4. rewrite set_task_twice. eapply run_cons; [by apply (step_disconnect t k4)|]. fold k5. rewrite set_task_twice. exact Hr.
  - rewrite list_insert_insert_eq in Hq. subst k5 k4 k3 k2 k1. unfold at_phase, disconnect in Hq. cbn in Hq. by rewrite Hk in Hq.
Qed.

(** The second forced check-in is lost. On any database with the host, without
    a fault: the agent opens a stream, a forced check-in reaches it, it hangs up to
    run its cycle and opens the next stream; the task of the first one still waits
    in front of it, takes the second request, finds its stream closed and ends. The
    agent's stream is left waiting, with nothing sent and nothing under way. *)
Theorem second_forced_check_in_lost d h : healthy d -> host_exists h d = true ->
  exists ls s k0 k1, run (events_init d) ls s /\ occurrences (LForce h) ls = 2%nat /\ occurrences (LSent h) ls = 1%nat /\
    es_tasks s = [k0; k1] /\ et_delivered k0 = [CheckInEvent] /\
    et_host k1 = h /\ et_open k1 = true /\ et_phase k1 = TWait /\ et_channel k1 = [] /\ et_delivered k1 = [] /\ tokens h s = 0%nat.
Proof.
  intros Hd Hh. assert (queued h d [] [] (events_init d)) as H0.
  { destruct notify_new_spec as [Hp Hw]. unfold queued, events_init, notify_of. cbn. by rewrite lookup_empty. }
  destruct (subscribe_queued h d _ _ _ Hd H0) as (s1 & dl & Hr1 & H1).
  destruct (force_then_hang_up h d 0 [] _ s1 _ Hd Hh H1 eq_refl) as (s2 & Hr2 & H2); try done.
  destruct (subscribe_queued h d _ _ _ Hd H2) as (s3 & dl' & Hr3 & H3). destruct H3 as (Hd3 & Hp3 & Hw3 & Hk3). cbn in Hk3, Hw3.
  destruct (force_closed_lost 0 [1] _ s3 h ltac:(by rewrite Hd3) ltac:(by rewrite Hd3) Hw3 ltac:(by rewrite Hk3)) as (s4 & Hr4 & Hk4 & Hw4 & Hp4); try done.
  rewrite Hk3 in Hk4. cbn in Hk4. eexists _, s4, _, _. split; [exact (run_app _ _ _ _ _ Hr1 (run_app _ _ _ _ _ Hr2 (run_app _ _ _ _ _ Hr3 Hr4)))|].
  cbn [app]. split_and!; [..|exact Hk4|done|done|done|done|done|done|].
  - rewrite !occurrences_cons. repeat first [rewrite decide_True by done|rewrite decide_False by done]. done.
  - rewrite !occurrences_cons. repeat first [rewrite decide_True by done|rewrite decide_False by done]. done.
  - unfold tokens, permit_token. rewrite Hp4, Hp3, Hk4. cbn. unfold task_token. cbn. by rewrite !bool_decide_eq_true_2 by done.
Qed.
End facts.

(** ** The stream as the agent reads it *)

(** The text of a server-sent event, and of the comment that keeps the connection
    alive, as [axum::response::sse] writes them. *)
Class SseText := { sse_text : string -> string -> string; sse_keepalive : string }.

(** What the event stream format prescribes: one line per field, with or without a
    space after the colon, and a blank line after each event or comment. *)
Class SseTextLaws `{!SseText} := {
  sse_text_spec : exists sp, sp ∈ [""; " "] /\ forall e d, str_forallb is_line_char (e +:+ d) = true ->
    sse_text e d = "event:" +:+ sp +:+ e +:+ newline +:+ "data:" +:+ sp +:+ d +:+ newline +:+ newline;
  sse_keepalive_spec : exists c, str_forallb is_line_char c = true /\ sse_keepalive = ":" +:+ c +:+ newline +:+ newline
}.

Section stream.
Context {ST : SseText} {STL : SseTextLaws}.

(** [Event::default().event(..).data(..)]. *)
Definition event_text (e : SseEvent) : string :=
  match e with CheckInEvent => sse_text "check-in" "now" | TimeoutEvent => sse_text "timeout" "hold-expired" end.

(** The body of the response: events, and [None] for a keep-alive. *)
Definition stream_text (items : list (option SseEvent)) : string := str_concat (map (from_option event_text sse_keepalive) items).

Lemma next_frame_line l rest : str_forallb is_line_char l = true -> l <> "" ->
  next_frame (l +:+ newline +:+ newline +:+ rest) = Some (l, rest).
Proof.
  assert (forall c, is_line_char c = true -> bool_decide (c = LF) = false) as Hc.
  { intros c H. apply bool_decide_eq_false_2. intros ->. done. }
  induction l as [|c l IH]; intros Hl Hne; [done|]. cbn in Hl. apply andb_true_iff in Hl as [H1 H2]. rewrite str_app_cons. cbn [next_frame].
  rewrite (Hc c H1). destruct l as [|c' l]; [|by rewrite IH]. cbn. done.
Qed.

Lemma event_frame e rest : exists f, next_frame (event_text e +:+ rest) = Some (f, rest) /\
  parse_sse_event f = Some (match e with CheckInEvent => "check-in" | TimeoutEvent => "timeout" end).
Proof.
  destruct sse_text_spec as (sp & Hsp & H). unfold event_text.
  apply list_elem_of_In in Hsp as [<-|[<-|[]]]; destruct e; rewrite H by done; eexists; split; reflexivity.
Qed.

Lemma keepalive_frame rest : exists f, next_frame (sse_keepalive +:+ rest) = Some (f, rest) /\ parse_sse_event f = None.
Proof.
  destruct sse_keepalive_spec as (c & Hc & ->). exists (":" +:+ c). rewrite <- !str_app_assoc, (str_app_assoc ":" c).
  rewrite next_frame_line by done. split; [done|]. unfold parse_sse_event. by rewrite lines_single.
Qed.

Definition is_check_in (i : option SseEvent) : Prop := i = Some CheckInEvent.

Lemma stream_frames items : check_in_signals (frames_of (stream_text items)).1 = length (filter is_check_in items).
Proof.
  unfold stream_text. induction items as [|i items IH]; [done|]. cbn [map str_concat]. rewrite frames_of_step.
  assert (exists f, next_frame (from_option event_text sse_keepalive i +:+ str_concat (map (from_option event_text sse_keepalive) items)) =
    Some (f, str_concat (map (from_option event_text sse_keepalive) items)) /\ (parse_sse_event f = Some "check-in" <-> is_check_in i)) as (f & -> & Hf).
  { unfold is_check_in. destruct i as [e|]; cbn [from_option].
    - destruct (event_frame e (str_concat (map (from_option event_text sse_keepalive) items))) as (f & ? & Hp). exists f. rewrite Hp. by destruct e.
    - destruct (keepalive_frame (str_concat (map (from_option event_text sse_keepalive) items))) as (f & ? & Hp). exists f. by rewrite Hp. }
  destruct (frames_of _) as [fs b]. cbn [fst] in IH |- *. unfold check_in_signals in *. rewrite !filter_cons.
  destruct (decide (parse_sse_event f = Some "check-in")), (decide (is_check_in i)); cbn; naive_solver.
Qed.

(** C37. The agent hears every check-in event: however the bytes of an accepted stream
    arrive, with whatever keep-alives between the events, the agent's reader wakes
    its loop exactly once per check-in event, and once more when the stream ends; a
    stream that breaks off on a read error gives the wakes of the events written
    before it, and an error in place of the last wake. *)
Theorem stream_wakes_agent status items chunks broken : status_error status = false ->
  str_concat chunks = stream_text items ->
  run_events_stream (Answered status chunks broken) =
    (if broken then (length (filter is_check_in items), Err read_error) else ((length (filter is_check_in items) + 1)%nat, Ok tt)).
Proof.
  intros Hs H. rewrite events_stream_chunking, H, stream_frames by done.
  destruct broken; cbn [stream_end fst snd]; [by rewrite Nat.add_0_r|done].
Qed.
End stream.

(** ** Examples *)

Record ToyNotify := mkToyNotify { tn_permit : bool; tn_waiters : list nat }.

Definition toy_notify_one (n : ToyNotify) : ToyNotify * option nat :=
  match tn_waiters n with
  | [] => (mkToyNotify true [], None)
  | t :: ts => (mkToyNotify (tn_permit n) ts, Some t)
  end.

Definition toy_notify : TokioNotify := {|
  Notify := ToyNotify; permit := tn_permit; waiters := tn_waiters; notify_new := mkToyNotify false []; notify_one := toy_notify_one;
  notified_poll t n := if tn_permit n then (mkToyNotify false (tn_waiters n), true) else (mkToyNotify false (tn_waiters n ++ [t]), false);
  notified_drop t n := mkToyNotify (tn_permit n) (filter (fun u => u <> t) (tn_waiters n));
  notified_forward := toy_notify_one
|}.

Definition toy_notify_laws : @TokioNotifyLaws toy_notify.
Proof.
  split; try done; cbn; unfold toy_notify_one.
  - by intros n ->.
  - by intros n t ts ->.
  - by intros t n ->.
  - by intros t n ->.
Qed.

Definition toy_sse : SseText := {|
  sse_text e d := "event: " +:+ e +:+ newline +:+ "data: " +:+ d +:+ newline +:+ newline; sse_keepalive := ":" +:+ newline +:+ newline
|}.

Definition toy_sse_laws : @SseTextLaws toy_sse.
Proof. split; [exists " "; split; [right; left|done]|by exists ""]. Qed.

(** One host, with one stream open and one request made. *)
Definition events_db : Db := set_db_hosts
  [mkHost (uuid_of 5) "h.example" "192.0.2.1" "" None None None None Healthy None None 12443 "" 0 0] empty_db.
Definition subscribed : @Events toy_notify := snd (@events toy_sql toy_notify (uuid_of 5) (events_init events_db)).
Definition signalled : @Events toy_notify := snd (@force_check_in toy_notify (uuid_of 5) subscribed).

Lemma signalled_run : @run toy_sql toy_notify (events_init events_db) [LOther; LForce (uuid_of 5)] signalled.
Proof.
  eapply run_cons; [apply (step_events (uuid_of 5)); reflexivity|]. eapply run_cons; [apply step_force; reflexivity|constructor].
Defined.

Lemma reachable_queues_exact_witness : @events_wf toy_notify signalled.
Proof. exact (@reachable_queues_exact toy_sql toy_notify toy_notify_laws events_db _ _ signalled_run). Defined.

(** The stream's task takes the signal and its event is sent; then another request. *)
Definition first_task (s : @Events toy_notify) : EventTask := default (mkTask (uuid_of 5) 0 TEnd false [] []) (es_tasks s !! 0%nat).
Definition started : @Events toy_notify := set_task 0 (task_start 870 (first_task signalled) signalled) signalled.
Definition polled : @Events toy_notify := task_poll 0 (first_task started) started.
Definition answered : @Events toy_notify := set_task 0 (task_send CheckInEvent (first_task polled)) polled.
Definition signalled_again : @Events toy_notify := snd (@force_check_in toy_notify (uuid_of 5) answered).

Lemma signalled_again_run : @run toy_sql toy_notify (events_init events_db)
  ([LOther; LForce (uuid_of 5); LOther; LOther; LSent (uuid_of 5)] ++ [LForce (uuid_of 5)]) signalled_again.
Proof.
  apply run_cons with subscribed; [apply (step_events (uuid_of 5)); reflexivity|]. apply run_cons with signalled; [apply step_force; reflexivity|].
  apply run_cons with started; [apply step_start; vm_compute; reflexivity|]. apply run_cons with polled; [apply step_poll; vm_compute; reflexivity|].
  apply run_cons with answered.
  { refine (step_send 0%nat (first_task polled) CheckInEvent polled _ _ _ _); [vm_compute; reflexivity..|apply Nat.ltb_lt; vm_compute; reflexivity]. }
  apply run_cons with signalled_again; [apply step_force; vm_compute; reflexivity|constructor].
Qed.

Lemma forced_check_ins_accounted_witness : (1 <= @tokens toy_notify (uuid_of 5) signalled_again)%nat.
Proof.
  apply (@forced_check_ins_accounted toy_sql toy_notify toy_notify_laws events_db _ signalled_again (uuid_of 5) signalled_again_run)
    with (before := [LOther; LForce (uuid_of 5); LOther; LOther; LSent (uuid_of 5)]) (after := []).
  - reflexivity.
  - by intros ?%not_elem_of_nil.
  - by intros ?%not_elem_of_nil.
Defined.

Lemma second_forced_check_in_lost_witness :
  exists ls s, @run toy_sql toy_notify (events_init events_db) ls s /\ occurrences (LForce (uuid_of 5)) ls = 2%nat /\
    occurrences (LSent (uuid_of 5)) ls = 1%nat /\ @tokens toy_notify (uuid_of 5) s = 0%nat.
Proof.
  destruct (@second_forced_check_in_lost toy_sql toy_notify toy_notify_laws events_db (uuid_of 5) eq_refl eq_refl)
    as (ls & s & k0 & k1 & H1 & H2 & H3 & _ & _ & _ & _ & _ & _ & _ & H4). by exists ls, s.
Defined.

Lemma stream_wakes_agent_witness :
  run_events_stream (Answered 200 ["event: check-in" +:+ newline +:+ "da"; "ta: now" +:+ newline; newline +:+ ":" +:+ newline +:+ newline] false) =
    (2%nat, Ok tt).
Proof. exact (@stream_wakes_agent toy_sse toy_sse_laws 200 [Some CheckInEvent; None] _ false eq_refl eq_refl). Defined.
