(* ===== verification/EventsLiveness.v ===== *)
(** * EventsLiveness: a forced check-in reaches a stream

    Infinite executions of [Events.step] under a fair scheduler: after an accepted
    request the event goes into a stream of the host. The order of a [Notify]'s
    queue is what makes it: a task that runs out of time while it holds the signal
    hands it to the task that waits longest, so a stream that stays comes to its
    turn. *)

From S2P Require Import Prelude Text Models Net Policy Wire PullClient Db AuditLog AgentApi Events EventsFacts.

#[export] Instance Phase_eq_dec : EqDecision Phase.
Proof. solve_decision. Defined.
#[export] Instance EventTask_eq_dec : EqDecision EventTask.
Proof. solve_decision. Defined.

(** A stream that will still take a check-in event. *)
Definition usable (k : EventTask) : bool := match et_phase k with TSend TimeoutEvent | TEnd => false | _ => true end.

(** A task that is done, or waits for another to wake it. *)
Definition rests (k : EventTask) : bool := match et_phase k with TWait | TEnd => true | _ => false end.

Definition has_deadline (k : EventTask) : bool := match et_phase k with TStart _ => false | _ => true end.

Lemma filter_lookup_le {A} (P : A -> Prop) `{!forall x, Decision (P x)} (l : list A) q x : l !! q = Some x -> P x ->
  exists q', (q' <= q)%nat /\ filter P l !! q' = Some x.
Proof.
  revert q. induction l as [|a l IH]; intros [|q] Hl Hx; simplify_eq/=; rewrite filter_cons.
  - rewrite decide_True by done. by exists 0%nat.
  - destruct (IH q Hl Hx) as (q' & Hle & Hq'). destruct (decide (P a)); [exists (S q')|exists q']; split; try done; lia.
Qed.

Section liveness.
Context {SQL : Sql} {TN : TokioNotify} {TNL : TokioNotifyLaws}.

(** ** Executions *)

(** What the manager goes through from its start, for ever: a state per moment and
    what the step from it does. *)
Record execution (d : Db) (e : nat -> Events) (l : nat -> Label) : Prop := {
  ex_init : e 0%nat = events_init d;
  ex_step n : step (e n) (l n) (e (S n))
}.

(** The scheduler and the clients are fair: a stream whose task can run does not
    stay as it is for ever. *)
Definition fair (e : nat -> Events) : Prop :=
  forall n t k, es_tasks (e n) !! t = Some k -> rests k = false -> exists m, (n <= m)%nat /\ es_tasks (e m) !! t <> Some k.

(** The client of a stream of the host that still takes events has hung up. *)
Definition closed_stream (h : Uuid) (s : Events) : Prop :=
  exists t k, es_tasks s !! t = Some k /\ et_host k = h /\ usable k = true /\ et_open k = false.

(** The hold of a stream is over. *)
Definition expired (t : nat) (s : Events) : Prop :=
  exists k, es_tasks s !! t = Some k /\ has_deadline k = true /\ deadline_passed k s.

(** ** What a step does to one stream *)

Inductive moved (t : nat) (s : Events) (l : Label) (s' : Events) (k : EventTask) : EventTask -> Prop :=
  | mv_same : moved t s l s' k k
  | mv_deliver e rest : et_channel k = e :: rest -> moved t s l s' k (deliver e rest k)
  | mv_disconnect : moved t s l s' k (disconnect k)
  | mv_start hold : et_phase k = TStart hold -> moved t s l s' k (task_start hold k s)
  | mv_poll (ready : bool) : et_phase k = TLoop -> moved t s l s' k (at_phase (if ready then TSend CheckInEvent else TWait) k)
  | mv_wake : et_phase k = TWait -> moved t s l s' k (at_phase TWoken k)
  | mv_timeout : et_phase k = TLoop \/ et_phase k = TWait -> deadline_passed k s -> moved t s l s' k (at_phase (TSend TimeoutEvent) k)
  | mv_woken : et_phase k = TWoken -> moved t s l s' k (at_phase (TSend CheckInEvent) k)
  | mv_forward : et_phase k = TWoken -> deadline_passed k s -> s' = task_woken_timeout t k s -> moved t s l s' k (at_phase (TSend TimeoutEvent) k)
  | mv_send e : et_phase k = TSend e -> (e = CheckInEvent -> l = LSent (et_host k)) -> moved t s l s' k (task_send e k)
  | mv_send_fails e : et_phase k = TSend e -> et_open k = false -> moved t s l s' k (at_phase TEnd k).

(** Signalling a host moves the task at the head of its queue. *)
Lemma notify_one_head n t : (notify_one n).2 = Some t -> exists ts, waiters n = t :: ts.
Proof.
  destruct (waiters n) as [|u ts] eqn:Hw; [by destruct (notify_one_idle _ Hw) as (-> & _)|].
  destruct (notify_one_wakes _ _ _ Hw) as (-> & _). intros [= ->]. by exists ts.
Qed.

Lemma signal_task h s t k : es_tasks s !! t = Some k ->
  es_tasks (notify_result h (notify_one (notify_of h s)) s) !! t =
    Some (if decide ((notify_one (notify_of h s)).2 = Some t) then at_phase TWoken k else k).
Proof.
  intros Ht. unfold notify_result. destruct (notify_one (notify_of h s)) as [n [u|]]; cbn [fst snd wake es_tasks set_notify].
  - destruct (es_tasks s !! u) as [k0|] eqn:Hu; [|by rewrite decide_False by congruence].
    cbn. destruct (decide (u = t)) as [->|Hne]; [simplify_eq; rewrite list_lookup_insert_eq, decide_True by eauto using lookup_lt_Some; done|].
    by rewrite list_lookup_insert_ne, decide_False by congruence.
  - by rewrite decide_False by done.
Qed.

Lemma signal_moved h s t k : events_wf s -> es_tasks s !! t = Some k ->
  exists k', es_tasks (notify_result h (notify_one (notify_of h s)) s) !! t = Some k' /\
    (k' = k \/ (et_phase k = TWait /\ k' = at_phase TWoken k)).
Proof.
  intros Hwf Ht. rewrite (signal_task h s t k Ht). eexists. split; [done|]. destruct (decide _) as [Hd|]; [right|by left].
  apply notify_one_head in Hd as [ts Hw]. destruct (Hwf h) as (_ & Hq & _). destruct (proj1 (Hq t)) as (x & Hx & _ & Hp); [rewrite Hw; left|].
  by simplify_eq.
Qed.

(** A step that moves one task moves the other streams not at all. *)
Lemma set_task_moved t0 t k0 k x s l s' : es_tasks s !! t = Some k -> es_tasks s !! t0 = Some k0 ->
  (t0 = t -> k0 = k -> moved t s l s' k x) -> exists k', es_tasks (set_task t0 x s) !! t = Some k' /\ moved t s l s' k k'.
Proof.
  intros Ht Ht0 Hm. rewrite lookup_set_task by by eexists. destruct (decide (t = t0)) as [->|]; [|by exists k; split; [|apply mv_same]].
  simplify_eq. exists x. split; [done|]. by apply Hm.
Qed.

Lemma step_moved s l s' t k : events_wf s -> step s l s' -> es_tasks s !! t = Some k ->
  exists k', es_tasks s' !! t = Some k' /\ moved t s l s' k k'.
Proof.
  intros Hwf Hst Ht. destruct Hst as [h s s' H|h s e s' H|h s s' H|d s|t0 k0 hold s Ht0 Hp|t0 k0 s Ht0 Hp|t0 k0 s Ht0 Hp Hd|t0 k0 s Ht0 Hp Hd|t0 k0 s Ht0 Hp
    |t0 k0 s Ht0 Hp Hd|t0 k0 e s Ht0 Hp Ho Hc|t0 k0 e s Ht0 Hp Ho|t0 k0 e rest s Ht0 Hc Ho|t0 k0 s Ht0].
  - unfold force_check_in in H. destruct (fetch (host_exists h) (es_db s)) as [[[]|] d]; simplify_eq.
    destruct (signal_moved h (mkEvents d (es_notify s) (es_tasks s)) t k Hwf Ht) as (k' & Hk' & [->|[Hp ->]]); eauto using moved.
  - unfold force_check_in in H. destruct (fetch (host_exists h) (es_db s)) as [[[]|] d]; simplify_eq; eauto using moved.
  - unfold events in H. destruct (events_hold_secs h (es_db s)) as [[]]; simplify_eq. exists k. split; [|constructor]. cbn. by apply lookup_app_l_Some.
  - eauto using moved.
  - eapply set_task_moved; [done..|]. intros -> ->. by apply mv_start.
  - unfold task_poll. destruct (notified_poll _ _) as [n ready].
    change (exists k', es_tasks (set_task t0 (at_phase (if ready then TSend CheckInEvent else TWait) k0) s) !! t = Some k' /\
      moved t s LOther (set_task t0 (at_phase (if ready then TSend CheckInEvent else TWait) k0) (set_notify (et_host k0) n s)) k k').
    eapply set_task_moved; [done..|]. intros -> ->. by apply mv_poll.
  - eapply set_task_moved; [done..|]. intros -> ->. apply mv_timeout; auto.
  - unfold task_wait_timeout. change (exists k', es_tasks (set_task t0 (at_phase (TSend TimeoutEvent) k0) s) !! t = Some k' /\
      moved t s LOther (task_wait_timeout t0 k0 s) k k').
    eapply set_task_moved; [done..|]. intros -> ->. apply mv_timeout; auto.
  - eapply set_task_moved; [done..|]. intros -> ->. by apply mv_woken.
  - assert (events_wf (set_task t0 (at_phase (TSend TimeoutEvent) k0) s)) as Hwf1 by (eapply set_task_wf; try done; cbn; congruence).
    destruct (set_task_moved t0 t k0 k (at_phase (TSend TimeoutEvent) k0) s LOther (task_woken_timeout t0 k0 s) Ht Ht0) as (k1 & Hk1 & Hm1).
    { intros -> ->. by apply mv_forward. }
    unfold task_woken_timeout at 1. rewrite notified_forward_spec.
    change (notify_of (et_host k0) s) with (notify_of (et_host k0) (set_task t0 (at_phase (TSend TimeoutEvent) k0) s)).
    destruct (signal_moved (et_host k0) _ t k1 Hwf1 Hk1) as (k' & Hk' & [->|[Hpw ->]]); [by exists k1|].
    exists (at_phase TWoken k1). split; [done|]. rewrite lookup_set_task in Hk1 by by eexists.
    destruct (decide (t = t0)) as [->|]; simplify_eq; by apply mv_wake.
  - eapply set_task_moved; [done..|]. intros -> ->. apply mv_send; [done|]. by intros ->.
  - eapply set_task_moved; [done..|]. intros -> ->. by eapply mv_send_fails.
  - eapply set_task_moved; [done..|]. intros -> ->. by apply mv_deliver.
  - eapply set_task_moved; [done..|]. intros -> ->. by apply mv_disconnect.
Qed.
(** ** The order of the queue *)

Definition place (h : Uuid) (t q : nat) (s : Events) : Prop := waiters (notify_of h s) !! q = Some t.

Lemma notify_result_of h r s : notify_of h (notify_result h r s) = r.1.
Proof.
  unfold notify_result. destruct r.2 as [u|]; cbn [wake]; [|apply notify_of_set_eq].
  case_match; [|apply notify_of_set_eq]. exact (notify_of_set_eq h r.1 s).
Qed.

Lemma notify_result_ne h h' r s : h' <> h -> notify_of h (notify_result h' r s) = notify_of h s.
Proof.
  intros Hne. unfold notify_result. destruct r.2 as [u|]; cbn [wake]; [|by apply notify_of_set_ne].
  case_match; [|by apply notify_of_set_ne]. exact (notify_of_set_ne h h' r.1 s Hne).
Qed.

(** A signal moves the queue of its host up by one. *)
Lemma signal_place h t q s : place h t q s -> (notify_one (notify_of h s)).2 = Some t \/
  exists q', (q' < q)%nat /\ place h t q' (notify_result h (notify_one (notify_of h s)) s).
Proof.
  unfold place. rewrite notify_result_of. intros H. destruct (waiters (notify_of h s)) as [|u ts] eqn:Hw; [done|].
  destruct (notify_one_wakes _ _ _ Hw) as (-> & _ & ->). destruct q as [|q]; [left; by simplify_eq/=|]. right. exists q. split; [lia|done].
Qed.

Lemma signal_place_le h h' t q s k : place h t q s -> es_tasks (notify_result h' (notify_one (notify_of h' s)) s) !! t = Some k ->
  es_tasks s !! t <> None -> et_phase k = TWait -> exists q', (q' <= q)%nat /\ place h t q' (notify_result h' (notify_one (notify_of h' s)) s).
Proof.
  intros Hpl Hk Hs Hw. destruct (decide (h' = h)) as [->|Hne]; [|exists q; split; [done|]; unfold place; by rewrite notify_result_ne].
  destruct (signal_place _ _ _ _ Hpl) as [Hwk|(q' & Hlt & Hq')]; [|exists q'; split; [lia|done]].
  destruct (es_tasks s !! t) as [k0|] eqn:Ht; [|done]. rewrite (signal_task h s t k0 Ht), decide_True in Hk by done. by injection Hk as <-.
Qed.

Lemma events_notify h h0 s r s' : events h0 s = (r, s') -> notify_of h s' = notify_of h s.
Proof.
  unfold events. destruct (events_hold_secs h0 (es_db s)) as [[] d]; intros [= _ <-]; [|done]. unfold notify_of at 1. cbn.
  destruct (decide (h0 = h)) as [<-|]; [by rewrite lookup_insert_eq|by rewrite lookup_insert_ne].
Qed.

(** Nobody is put in front of a task that waits. *)
Lemma step_place h t q s l s' k : events_wf s -> step s l s' -> place h t q s -> es_tasks s' !! t = Some k -> et_phase k = TWait ->
  exists q', (q' <= q)%nat /\ place h t q' s'.
Proof.
  intros Hwf Hst Hpl Hk Hw. assert (exists x, es_tasks s !! t = Some x /\ et_phase x = TWait) as (x & Hx & Hxp).
  { destruct (proj1 (proj1 (proj2 (Hwf h)) t)) as (x & Hx & _ & Hxp); [by eapply list_elem_of_lookup_2|by exists x]. }
  destruct Hst as [h0 s s' H|h0 s e s' H|h0 s s' H|d s|t0 k0 hold s Ht0 Hp|t0 k0 s Ht0 Hp|t0 k0 s Ht0 Hp Hd|t0 k0 s Ht0 Hp Hd|t0 k0 s Ht0 Hp
    |t0 k0 s Ht0 Hp Hd|t0 k0 e s Ht0 Hp Ho Hc|t0 k0 e s Ht0 Hp Ho|t0 k0 e rest s Ht0 Hc Ho|t0 k0 s Ht0]; try (by exists q).
  - unfold force_check_in in H. destruct (fetch (host_exists h0) (es_db s)) as [[[]|] d]; simplify_eq.
    apply (signal_place_le h h0 t q (mkEvents d (es_notify s) (es_tasks s)) k); try done. cbn. congruence.
  - unfold force_check_in in H. destruct (fetch (host_exists h0) (es_db s)) as [[[]|] d]; simplify_eq; by exists q.
  - exists q. split; [done|]. unfold place. by rewrite (events_notify h _ _ _ _ H).
  - exists q. split; [done|]. unfold place, task_poll in *. destruct (notified_poll _ _) as [n ready] eqn:Hn.
    change (waiters (notify_of h (set_notify (et_host k0) n s)) !! q = Some t). rewrite notify_of_set.
    destruct (decide (et_host k0 = h)) as [Hh|]; [|done]. rewrite Hh in Hn. destruct (permit (notify_of h s)) eqn:Hpm.
    + destruct (notified_poll_permit t0 _ Hpm) as (_ & _ & H). rewrite Hn in H. cbn in H. by rewrite H.
    + destruct (notified_poll_wait t0 _ Hpm) as (_ & _ & H). rewrite Hn in H. cbn in H. rewrite H. by apply lookup_app_l_Some.
  - unfold place, task_wait_timeout in *. destruct (notified_drop_spec t0 (notify_of (et_host k0) s)) as [_ Hdr]. set (n := notified_drop _ _) in *.
    change (exists q', (q' <= q)%nat /\ waiters (notify_of h (set_notify (et_host k0) n s)) !! q' = Some t). rewrite notify_of_set.
    destruct (decide (et_host k0 = h)) as [Hh|]; [|by exists q]. rewrite Hdr, Hh. apply filter_lookup_le; [done|]. intros ->.
    cbn in Hk. rewrite list_lookup_insert_eq in Hk by eauto using lookup_lt_Some. by injection Hk as <-.
  - unfold task_woken_timeout in *. rewrite notified_forward_spec in *. set (s1 := set_task t0 (at_phase (TSend TimeoutEvent) k0) s) in *.
    change (notify_of (et_host k0) s) with (notify_of (et_host k0) s1) in *. apply (signal_place_le h (et_host k0) t q s1 k); try done.
    subst s1. rewrite lookup_set_task by by eexists. case_match; congruence.
Qed.

(** ** Fair executions *)

(** What the client still has to take from a stream. *)
Definition backlog (k : EventTask) : nat := (length (et_channel k) + if et_open k then 1 else 0)%nat.

(** A stream that changes while its task stays where it is loses backlog. *)
Lemma moved_backlog t s l s' k k' : moved t s l s' k k' -> k' <> k ->
  et_phase k' <> et_phase k \/ (et_phase k' = et_phase k /\ et_host k' = et_host k /\ (backlog k' < backlog k)%nat).
Proof.
  intros Hm Hne. destruct Hm as [|e rest Hc| |hold Hp|ready Hp|Hp|[Hp|Hp] _|Hp|Hp _ _|e Hp _|e Hp _];
    try (left; cbn; rewrite Hp; by repeat case_match); [done| |].
  - right. unfold backlog. cbn. rewrite Hc. cbn. split_and!; [done..|lia].
  - right. unfold backlog, disconnect in *. cbn. split_and!; [done..|]. destruct k as [? ? ? [] c ?]; cbn in *; [lia|]. destruct c; [done|cbn; lia].
Qed.

Lemma first_change {A} `{!EqDecision A} (f : nat -> A) n m : (n <= m)%nat -> f m <> f n -> exists j, (n <= j)%nat /\ f j = f n /\ f (S j) <> f n.
Proof.
  induction 1 as [|m Hle IH]; [done|]. intros Hne. destruct (decide (f m = f n)) as [Heq|Hn]; [by exists m|by apply IH].
Qed.

Section run.
Context (d : Db) (e : nat -> Events) (l : nat -> Label) (Hex : execution d e l) (Hfair : fair e) (h : Uuid) (stays : nat).

Definition served_from (n : nat) : Prop :=
  exists m, (n <= m)%nat /\ (l m = LSent h \/ closed_stream h (e m) \/ expired stays (e m)).

Lemma served_later n m : (n <= m)%nat -> served_from m -> served_from n.
Proof. intros Hle (j & Hj & H). exists j. split; [lia|done]. Qed.

Lemma exec_wf n : events_wf (e n).
Proof. induction n as [|n IH]; [rewrite (ex_init _ _ _ Hex); apply init_wf|]. by apply (step_effect _ _ _ (ex_step _ _ _ Hex n)). Qed.

Lemma lost_closed s s' : step s (LLost h) s' -> closed_stream h s.
Proof.
  intros H. inversion H as [| | | | | | | | | |? ? [] ? ? ? ? ?|t k [] ? Ht Hp Ho| |]; simplify_eq.
  exists t, k. unfold usable. by rewrite Hp.
Qed.

(** What is under way stays so until it is sent. *)
Lemma alive_later n m : (n <= m)%nat -> (1 <= tokens h (e n))%nat -> (1 <= tokens h (e m))%nat \/ served_from n.
Proof.
  induction 1 as [|m Hle IH]; intros Hn; [by left|]. destruct (IH Hn) as [Hm|]; [|by right].
  destruct (step_effect _ _ _ (ex_step _ _ _ Hex m) (exec_wf m)) as [_ Hacc]. destruct (Hacc h) as [_ Hb].
  destruct (decide (l m = LSent h)) as [Hs|Hs]; [right; exists m; auto|].
  destruct (decide (l m = LLost h)) as [Hl|Hl].
  - right. exists m. split; [done|]. right. left. pose proof (ex_step _ _ _ Hex m) as Hst. rewrite Hl in Hst. by eapply lost_closed.
  - left. unfold sent, lost in Hb. rewrite !decide_False in Hb by done. lia.
Qed.

(** A task that does not wait moves on. *)
Lemma leaves n t k : es_tasks (e n) !! t = Some k -> rests k = false ->
  exists m k1 k2, (n <= m)%nat /\ es_tasks (e m) !! t = Some k1 /\ et_phase k1 = et_phase k /\ et_host k1 = et_host k /\
    moved t (e m) (l m) (e (S m)) k1 k2 /\ es_tasks (e (S m)) !! t = Some k2 /\ et_phase k2 <> et_phase k.
Proof.
  remember (backlog k) as b eqn:Hb. revert n k Hb. induction b as [b IH] using lt_wf_ind. intros n k -> Ht Hr.
  destruct (Hfair n t k Ht Hr) as (m0 & Hle & Hch).
  destruct (first_change (fun j => es_tasks (e j) !! t) n m0 Hle) as (j & Hj & Hsame & Hdiff); [by rewrite Ht|]. rewrite Ht in Hsame, Hdiff.
  destruct (step_moved _ _ _ t k (exec_wf j) (ex_step _ _ _ Hex j) Hsame) as (k' & Hk' & Hm).
  destruct (moved_backlog _ _ _ _ _ _ Hm ltac:(congruence)) as [Hp|(Hp & Hh & Hlt)]; [by exists j, k, k'|].
  destruct (IH _ Hlt (S j) k' eq_refl Hk') as (m & k1 & k2 & ? & ? & ? & ? & ? & ? & ?); [unfold rests in *; by rewrite Hp|].
  exists m, k1, k2. split_and!; try congruence; lia.
Qed.

(** A task that is about to send does. *)
Lemma sends n t k : es_tasks (e n) !! t = Some k -> et_host k = h -> et_phase k = TSend CheckInEvent -> served_from n.
Proof.
  intros Ht Hh Hp. destruct (leaves n t k Ht) as (m & k1 & k2 & Hle & Hk1 & Hp1 & Hh1 & Hm & _ & Hne); [unfold rests; by rewrite Hp|].
  rewrite Hp in Hp1, Hne. apply (served_later n m Hle). exists m. split; [done|].
  destruct Hm as [| | |? H|? H|H|[H|H] _|H|H _ _|x H Hx|x H Ho]; try (cbn in *; congruence).
  - left. rewrite Hx by congruence. congruence.
  - right. left. exists t, k1. unfold usable. rewrite Hp1. split_and!; congruence.
Qed.

(** A task that was woken sends, or hands the signal on at its deadline. *)
Lemma woken_sends n t k : es_tasks (e n) !! t = Some k -> et_host k = h -> et_phase k = TWoken -> served_from n \/
  exists m k1, (n <= m)%nat /\ t <> stays /\ es_tasks (e m) !! t = Some k1 /\ et_host k1 = h /\ et_phase k1 = TWoken /\
    e (S m) = task_woken_timeout t k1 (e m).
Proof.
  intros Ht Hh Hp. destruct (leaves n t k Ht) as (m & k1 & k2 & Hle & Hk1 & Hp1 & Hh1 & Hm & Hk2 & Hne); [unfold rests; by rewrite Hp|].
  rewrite Hp in Hp1, Hne. destruct Hm as [| | |? H|? H|H|[H|H] _|H|H Hd Hs|x H Hx|x H Ho]; try (cbn in *; congruence).
  - left. apply (served_later n (S m)); [lia|]. eapply sends; [exact Hk2|cbn; congruence|done].
  - destruct (decide (t = stays)) as [->|Hts]; [left|right; exists m, k1; split_and!; congruence].
    exists m. split; [done|]. right. right. exists k1. unfold has_deadline. by rewrite Hp1.
Qed.

Lemma stays_woken n k : es_tasks (e n) !! stays = Some k -> et_host k = h -> et_phase k = TWoken -> served_from n.
Proof. intros Ht Hh Hp. by destruct (woken_sends n stays k Ht Hh Hp) as [|(? & ? & ? & ? & _)]. Qed.

(** While the stream waits it only moves forward in the queue. *)
Lemma waits_later n m q k : (n <= m)%nat -> es_tasks (e n) !! stays = Some k -> et_host k = h -> et_phase k = TWait -> place h stays q (e n) ->
  served_from n \/ exists q' k', (q' <= q)%nat /\ es_tasks (e m) !! stays = Some k' /\ et_host k' = h /\ et_phase k' = TWait /\ place h stays q' (e m).
Proof.
  induction 1 as [|m Hle IH]; intros Hk Hh Hp Hq; [right; by exists q, k|].
  destruct (IH Hk Hh Hp Hq) as [|(q1 & k1 & Hq1 & Hk1 & Hh1 & Hp1 & Hpl)]; [by left|].
  destruct (step_moved _ _ _ stays k1 (exec_wf m) (ex_step _ _ _ Hex m) Hk1) as (k' & Hk' & Hm).
  assert (et_phase k' = TWait -> et_host k' = h -> exists q' k', (q' <= q)%nat /\ es_tasks (e (S m)) !! stays = Some k' /\ et_host k' = h /\ et_phase k' = TWait /\
    place h stays q' (e (S m))) as Hstill.
  { intros Hw Hkh. destruct (step_place _ _ _ _ _ _ k' (exec_wf m) (ex_step _ _ _ Hex m) Hpl Hk' Hw) as (q2 & Hq2 & Hpl2).
    exists q2, k'. split_and!; try done. lia. }
  destruct Hm as [| | |? H|? H|H|_ Hd|H|H Hd Hs|x H Hx|x H Ho]; try (cbn in *; congruence); try (right; by apply Hstill); left.
  - apply (served_later n (S m)); [lia|]. by eapply stays_woken.
  - exists m. split; [done|]. right. right. exists k1. unfold has_deadline. by rewrite Hp1.
Qed.

(** In its place of the queue the stream comes to its turn. *)
Lemma queue_serves q n k : (1 <= tokens h (e n))%nat -> es_tasks (e n) !! stays = Some k -> et_host k = h -> et_phase k = TWait ->
  place h stays q (e n) -> served_from n.
Proof.
  revert n k. induction q as [q IH] using lt_wf_ind. intros n k Htok Hk Hh Hp Hq.
  assert (permit (notify_of h (e n)) = false) as Hpm.
  { destruct (permit _) eqn:Hpt; [|done]. destruct (exec_wf n h) as (_ & _ & H). unfold place in Hq. by rewrite (H Hpt) in Hq. }
  unfold tokens, permit_token in Htok. rewrite Hpm in Htok. destruct (sum_list_with_pos (task_token h) (es_tasks (e n))) as (t & k0 & Ht & Hx); [lia|].
  unfold task_token in Hx. case_bool_decide as Hh0; [|lia]. destruct (et_phase k0) as [| | | |[]|] eqn:Hp0; try lia; [|by eapply sends].
  destruct (woken_sends n t k0 Ht Hh0 Hp0) as [|(m & k1 & Hle & Hts & Hk1 & Hh1 & Hp1 & Hs)]; [done|].
  destruct (waits_later n m q k Hle Hk Hh Hp Hq) as [|(q' & k' & Hq' & Hk' & Hh' & Hp' & Hpl)]; [done|].
  destruct (alive_later n (S m) ltac:(lia) ltac:(unfold tokens, permit_token; rewrite Hpm; lia)) as [Hal|]; [|done].
  apply (served_later n (S m)); [lia|]. revert Hal. rewrite Hs. intros Hal.
  unfold task_woken_timeout in Hs, Hal. rewrite notified_forward_spec, Hh1 in Hs, Hal. set (s1 := set_task t (at_phase (TSend TimeoutEvent) k1) (e m)) in *.
  change (notify_of h (e m)) with (notify_of h s1) in *.
  assert (es_tasks s1 !! stays = Some k') as Hk1' by (subst s1; rewrite lookup_set_task by (by eexists); by rewrite decide_False).
  assert (es_tasks (e (S m)) !! stays = Some (if decide ((notify_one (notify_of h s1)).2 = Some stays) then at_phase TWoken k' else k')) as Hk2
    by (rewrite Hs; by apply signal_task).
  destruct (signal_place h stays q' s1 Hpl) as [Hwk|(q2 & Hlt & Hpl2)].
  - rewrite decide_True in Hk2 by done. by eapply stays_woken.
  - rewrite <- Hs in Hpl2, Hal. destruct (decide _); [by eapply stays_woken|]. apply (IH q2 ltac:(lia) (S m) k'); done.
Qed.

(** A stream of the host that still takes events brings the signal out. *)
Lemma usable_serves n k : (1 <= tokens h (e n))%nat -> es_tasks (e n) !! stays = Some k -> et_host k = h -> usable k = true -> served_from n.
Proof.
  assert (forall n k, (1 <= tokens h (e n))%nat -> es_tasks (e n) !! stays = Some k -> et_host k = h -> et_phase k = TWait -> served_from n) as Hwait.
  { intros n0 k0 Htok Hk Hh Hp. assert (stays ∈ waiters (notify_of h (e n0))) as [q Hq]%list_elem_of_lookup_1 by (apply (exec_wf n0 h); eauto).
    by eapply queue_serves. }
  assert (forall n k, (1 <= tokens h (e n))%nat -> es_tasks (e n) !! stays = Some k -> et_host k = h -> et_phase k = TLoop -> served_from n) as Hloop.
  { intros n0 k0 Htok Hk Hh Hp. destruct (leaves n0 stays k0 Hk) as (m & k1 & k2 & Hle & Hk1 & Hp1 & Hh1 & Hm & Hk2 & Hne); [unfold rests; by rewrite Hp|].
    rewrite Hp in Hp1, Hne. destruct (alive_later n0 (S m) ltac:(lia) Htok) as [Hal|]; [|done]. apply (served_later n0 m Hle).
    destruct Hm as [| | |? H|[] H|H|_ Hd|H|H Hd Hs|x H Hx|x H Ho]; try (cbn in *; congruence).
    - apply (served_later m (S m)); [lia|]. eapply sends; [exact Hk2|cbn; congruence|done].
    - apply (served_later m (S m)); [lia|]. eapply Hwait; [exact Hal|exact Hk2|cbn; congruence|done].
    - exists m. split; [done|]. right. right. exists k1. unfold has_deadline. by rewrite Hp1. }
  intros Htok Hk Hh Hu. unfold usable in Hu. destruct (et_phase k) as [hold| | | |[]|] eqn:Hp; try done; [|by eapply Hloop|by eapply Hwait|by eapply stays_woken|by eapply sends].
  destruct (leaves n stays k Hk) as (m & k1 & k2 & Hle & Hk1 & Hp1 & Hh1 & Hm & Hk2 & Hne); [unfold rests; by rewrite Hp|].
  rewrite Hp in Hp1, Hne. destruct (alive_later n (S m) ltac:(lia) Htok) as [Hal|]; [|done]. apply (served_later n (S m)); [lia|].
  destruct Hm as [| | |? H|[] H|H|[H|H] Hd|H|H Hd Hs|x H Hx|x H Ho]; try (cbn in *; congruence). eapply Hloop; [exact Hal|exact Hk2|cbn; congruence|done].
Qed.
End run.

(** C26. A forced check-in is delivered. In every execution of the manager from its
    start in which no stream whose task can run stays as it is for ever, whatever
    else the handlers, the other streams and the database do: after a request was
    accepted at a moment when the host has a stream that still takes events, a
    check-in event is put into a stream of the host, unless before that a client
    of one of the host's streams hangs up or the hold of that stream is over. The
    deadlines of the host's other streams do not matter. *)
Theorem forced_check_in_delivered d e l h n t k : execution d e l -> fair e -> l n = LForce h ->
  es_tasks (e (S n)) !! t = Some k -> et_host k = h -> usable k = true ->
  exists m, (S n <= m)%nat /\ (l m = LSent h \/ closed_stream h (e m) \/ expired t (e m)).
Proof.
  intros Hex Hf Hl Hk Hh Hu. eapply (usable_serves d e l Hex Hf h t (S n) k); try done.
  destruct (step_effect _ _ _ (ex_step _ _ _ Hex n) (exec_wf d e l Hex n)) as [_ Hacc]. destruct (Hacc h) as [_ Hb].
  unfold sent, lost, forced in Hb. rewrite Hl, decide_True, !decide_False in Hb by done. lia.
Qed.
End liveness.

(** ** Example *)

(** The agent of host 5 opens its stream, a check-in is forced, the event is sent and
    read, and nothing happens any more. *)
Definition waiting : @Events toy_notify := task_poll 0 (first_task answered) answered.
Definition heard : @Events toy_notify := set_task 0 (deliver CheckInEvent [] (first_task waiting)) waiting.
Definition quiet_states : list (@Events toy_notify) := [events_init events_db; subscribed; signalled; started; polled; answered; waiting].
Definition quiet (n : nat) : @Events toy_notify := default heard (quiet_states !! n).
Definition quiet_labels (n : nat) : Label :=
  match n with 1%nat => LForce (uuid_of 5) | 4%nat => LSent (uuid_of 5) | _ => LOther end.

Lemma quiet_execution : @execution toy_sql toy_notify events_db quiet quiet_labels.
Proof.
  split; [done|]. intros [|[|[|[|[|[|[|n]]]]]]].
  - apply (step_events (uuid_of 5)). reflexivity.
  - apply step_force. reflexivity.
  - apply step_start; vm_compute; reflexivity.
  - apply step_poll; vm_compute; reflexivity.
  - refine (step_send 0%nat (first_task polled) CheckInEvent polled _ _ _ _); [vm_compute; reflexivity..|apply Nat.ltb_lt; vm_compute; reflexivity].
  - apply step_poll; vm_compute; reflexivity.
  - apply step_deliver; vm_compute; reflexivity.
  - apply (step_database (es_db heard) heard).
Qed.

Lemma quiet_fair : @fair toy_notify quiet.
Proof.
  intros n t k _ Hr. exists (7 + n)%nat. split; [lia|]. change (es_tasks (quiet (7 + n))) with (es_tasks heard).
  assert (exists k0, es_tasks heard = [k0] /\ rests k0 = true) as (k0 & -> & H0) by (eexists; split; vm_compute; reflexivity).
  destruct t; [|done]. intros [= ->]. congruence.
Qed.

Lemma forced_check_in_delivered_witness :
  exists m, (2 <= m)%nat /\ (quiet_labels m = LSent (uuid_of 5) \/ @closed_stream toy_notify (uuid_of 5) (quiet m) \/ @expired toy_notify 0 (quiet m)).
Proof.
  apply (@forced_check_in_delivered toy_sql toy_notify toy_notify_laws events_db quiet quiet_labels (uuid_of 5) 1 0 (first_task signalled)
    quiet_execution quiet_fair); vm_compute; reflexivity.
Defined.
