(* ===== verification/AgentApiFacts.v ===== *)
(** * AgentApiFacts: what a check-in serves and changes

    Properties of [AgentApi]: the policy and the hash verdict a host receives,
    the delivery of pending actions, and what a result report may touch. *)

From S2P Require Import Prelude Text Models Net Policy Wire Db AuditLog AgentApi.

Section facts.
Context {SQL : Sql} {SHA : Sha256} {JS : SerdeJson} {UT : UuidText} {RFC : Rfc3339}.

(** ** What a check-in leaves alone *)

(** The tables the answer of a check-in depends on: the policy, and with it the
    queued actions, the clock and the state of the connection. *)
Definition policy_core (d : Db) :=
  (db_assignments d, db_policy_sets d, db_set_groups d, db_rules d, db_overrides d, map h_id (db_hosts d)).
Definition core (d : Db) := (policy_core d, db_pending d, db_now d, db_faults d).

Lemma core_healthy d d' : core d' = core d -> healthy d -> healthy d'.
Proof. unfold core, healthy. intros H Hd. rewrite <- Hd. exact (f_equal snd H). Qed.

Lemma core_policy d d' : core d' = core d -> policy_core d' = policy_core d.
Proof. intros H. exact (f_equal (fun x => x.1.1.1) H). Qed.

Lemma host_exists_core host d d' : policy_core d' = policy_core d -> host_exists host d' = host_exists host d.
Proof.
  unfold policy_core. intros H. injection H as _ _ _ _ _ H.
  assert (forall l, existsb (fun r => bool_decide (h_id r = host)) l = existsb (fun i => bool_decide (i = host)) (map h_id l)) as Hm.
  { intros l. induction l as [|x l IH]; simpl; [done|]. by rewrite IH. }
  unfold host_exists. by rewrite !Hm, H.
Qed.

(** A step that succeeds on a healthy database and keeps the core. *)
Definition quiet {E} (m : M Db E unit) : Prop :=
  forall d, healthy d -> exists d', m d = (Ok tt, d') /\ core d' = core d.

Lemma quiet_ret {E} : quiet (mret tt : M Db E unit).
Proof. intros d _. by exists d. Qed.

Lemma quiet_bind {E} (m n : M Db E unit) : quiet m -> quiet n -> quiet (_ ← m; n).
Proof.
  intros Hm Hn d Hd. destruct (Hm d Hd) as (d1 & H1 & Hc1).
  destruct (Hn d1 (core_healthy _ _ Hc1 Hd)) as (d2 & H2 & Hc2).
  exists d2. erewrite bind_ok by exact H1. split; [done|]. by rewrite Hc2.
Qed.

Lemma quiet_log {E} e : quiet (log_event (E:=E) e).
Proof.
  intros d Hd. destruct (loggable e d) eqn:Ha.
  - destruct (log_event_healthy (E:=E) e d Hd Ha) as (r & Hr & _). eexists. split; [exact Hr|done].
  - exists d. split; [by apply log_event_refused|done].
Qed.

Lemma quiet_ignore_drift {E} h hash n s : quiet (ignore (F:=E) (record_drift h hash n s)).
Proof.
  intros d Hd. unfold ignore, record_drift, execute_if, query. rewrite Hd.
  destruct (host_exists h d); by eexists.
Qed.

Lemma quiet_healthy h v : quiet (mark_healthy h v).
Proof.
  intros d Hd. unfold mark_healthy. rewrite execute_healthy by done. eexists. split; [done|].
  unfold core, policy_core. cbn [db_hosts set_db_hosts]. by rewrite update_where_map.
Qed.

(** ** The answer *)

(** The policy a host is served. *)
Definition served_rules (host : Uuid) (d : Db) : list RuleDto :=
  match assigned_set host d with Some ps => map rule_to_dto (policy_rules ps d) | None => [] end.
Definition served_hash (host : Uuid) (d : Db) : string :=
  match assigned_set host d with
  | Some ps => compute_rules_hash (map dto_hash_parts (map rule_to_dto (policy_rules ps d)))
  | None => "empty"
  end.
Definition served_defaults (host : Uuid) (d : Db) : option string * option string :=
  match assigned_set host d with Some ps => set_defaults ps d | None => (None, None) end.
Definition served_config (host : Uuid) (v : Z) (d : Db) : option ConfigUpdate :=
  match head (sql_scan (List.filter (fun o => bool_decide (co_host_id o = host)) (db_overrides d))) with
  | Some r => if (v <? co_config_version r)%Z
              then Some (mkConfigUpdate (co_check_in_interval_secs r) (co_push_enabled r)
                           (co_safe_mode_enabled r) (co_backend_override r) (co_config_version r))
              else None
  | None => None
  end.

Lemma served_core host d d' : policy_core d' = policy_core d ->
  served_rules host d' = served_rules host d /\ served_hash host d' = served_hash host d /\
  served_defaults host d' = served_defaults host d /\
  (forall v, served_config host v d' = served_config host v d).
Proof.
  unfold policy_core. intros H. injection H as H1 H2 H3 H4 H5 _.
  unfold served_rules, served_hash, served_defaults, served_config, assigned_set, set_defaults,
    policy_rules, policy_join. by rewrite H1, H2, H3, H4, H5.
Qed.

Lemma record_check_in_healthy host req d : healthy d -> host_exists host d = true ->
  exists d', record_check_in host req d = (Ok tt, d') /\ core d' = core d.
Proof. intros Hd Hh. unfold record_check_in, execute_if, query. rewrite Hd, Hh. by eexists. Qed.

(** A check-in on a healthy database: the answer is the policy of the database it
    started from, and the pending actions are taken from the same. *)
Lemma check_in_healthy host req d : healthy d -> host_exists host d = true ->
  exists d1, core d1 = core d /\
    check_in host req d =
      (actions ← take_pending host;
       mret (mkCheckInResponse (negb (bool_decide (req_rules_hash req = served_hash host d)))
         (served_rules host d) (served_config host (req_config_version req) d) actions
         (served_defaults host d).1 (served_defaults host d).2)) d1.
Proof.
  intros Hd Hh. unfold check_in.
  destruct (record_check_in_healthy host req d Hd Hh) as (d1 & H1 & Hc1).
  assert (healthy d1) as Hd1 by by eapply core_healthy.
  erewrite bind_ok by exact H1.
  destruct (quiet_healthy host (req_agent_version req) d1 Hd1) as (d2 & H2 & Hc2). rewrite Hc1 in Hc2.
  assert (healthy d2) as Hd2 by by eapply core_healthy.
  erewrite bind_ok by exact H2. erewrite bind_ok by by apply fetch_healthy.
  assert (expected_policy (assigned_set host d2) d2 = (Ok (served_rules host d2, served_hash host d2), d2)) as He.
  { unfold expected_policy, served_rules, served_hash. destruct (assigned_set host d2); [|done].
    by erewrite bind_ok by by apply fetch_healthy. }
  erewrite bind_ok by exact He. cbv beta iota.
  match goal with |- context [(mbind ?k ?m) d2] => rewrite (bind_ok m k d2 (served_defaults host d2) d2) end.
  2: { unfold served_defaults. destruct (assigned_set host d2); [by apply fetch_healthy|done]. }
  destruct (served_core host d d2 (core_policy _ _ Hc2)) as (Hr & Hs & Hdf & Hcf). rewrite Hr, Hs, Hdf.
  destruct (served_defaults host d) as [di do_]. cbv beta iota zeta.
  match goal with |- context [(mbind _ ?m) d2] =>
    assert (quiet m) as Hq1 by (destruct (negb _); [apply quiet_bind; [apply quiet_ignore_drift|apply quiet_log]|apply quiet_ret])
  end.
  destruct (Hq1 d2 Hd2) as (d3 & H3 & Hc3). rewrite Hc2 in Hc3.
  assert (healthy d3) as Hd3 by by eapply core_healthy.
  erewrite bind_ok by exact H3.
  match goal with |- context [(mbind _ ?m) d3] =>
    assert (quiet m) as Hq2 by (destruct (req_local_drift req); [apply quiet_bind; [apply quiet_ignore_drift|apply quiet_log]|apply quiet_ret])
  end.
  destruct (Hq2 d3 Hd3) as (d4 & H4 & Hc4). rewrite Hc3 in Hc4.
  assert (healthy d4) as Hd4 by by eapply core_healthy.
  erewrite bind_ok by exact H4.
  erewrite (bind_ok _ _ d4 (served_config host (req_config_version req) d) d4).
  2: { unfold config_for. erewrite bind_ok by by apply fetch_healthy.
       destruct (served_core host d d4 (core_policy _ _ Hc4)) as (_ & _ & _ & Hcf4). by rewrite <- Hcf4. }
  by exists d4.
Qed.

(** C12. On check-in a host is told the truth about its policy: the rules in the
    answer are the rows of the policy set assigned to it, all of them, in apply
    order (by group position, then position in the group, then priority), and
    [rules_changed] is set exactly when the hash the agent reported is not the
    hash of those rules. *)
Theorem check_in_serves_policy {SQLL : SqlLaws} (host : Uuid) (req : CheckInRequest) (d : Db) (ps : Uuid) :
  healthy d -> host_exists host d = true -> assigned_set host d = Some ps ->
  exists resp rows, outcome (check_in host req) d = Ok resp /\
    resp_rules resp = map (fun x => rule_to_dto (rr_rule x.2)) rows /\
    rows ≡ₚ policy_join ps d /\ StronglySorted policy_le rows /\
    (resp_rules_changed resp = false <->
     req_rules_hash req = compute_rules_hash (map dto_hash_parts (resp_rules resp))).
Proof.
  intros Hd Hh Hps. destruct (check_in_healthy host req d Hd Hh) as (d1 & Hc & Hrun).
  assert (exists acts d2, take_pending host d1 = (Ok acts, d2)) as (acts & d2 & Ht).
  { unfold take_pending. pose proof (core_healthy _ _ Hc Hd) as Hd1.
    erewrite bind_ok by by apply fetch_healthy.
    destruct (map pending_dto _) as [|x l]; [by eexists _, _|].
    erewrite bind_ok by by apply execute_healthy. by eexists _, _. }
  erewrite bind_ok in Hrun by exact Ht.
  unfold outcome. rewrite Hrun. eexists _, (sql_sort policy_le (policy_join ps d)).
  split; [reflexivity|]. cbn [resp_rules resp_rules_changed].
  unfold served_rules, served_hash. rewrite Hps. unfold policy_rules. split_and!.
  - by rewrite map_map.
  - apply sql_sort_perm.
  - apply sql_sort_sorted; apply _.
  - rewrite negb_false_iff, bool_decide_eq_true. done.
Qed.

(** ** Pending actions *)

Lemma take_pending_healthy host d : healthy d ->
  exists acts, acts = map pending_dto (sql_sort pending_le (List.filter (deliverable host (db_now d)) (db_pending d))) /\
    take_pending host d = (Ok acts, set_db_pending
      (update_where (fun a => bool_decide (pa_id a ∈ map pa_dto_id acts))
         (fun a => set_pending_status Delivered (Some (db_now d)) (pa_executed_at a) a) (db_pending d)) d).
Proof.
  intros Hd. eexists. split; [reflexivity|]. unfold take_pending.
  erewrite bind_ok by by apply fetch_healthy.
  destruct (map pending_dto _) as [|x l] eqn:Hl; [|by erewrite bind_ok by by apply execute_healthy].
  erewrite bind_ok by (unfold mret, M_ret; reflexivity). unfold mret, M_ret. f_equal.
  assert (update_where (fun a => bool_decide (pa_id a ∈ map pa_dto_id []))
    (fun a => set_pending_status Delivered (Some (db_now d)) (pa_executed_at a) a) (db_pending d) = db_pending d) as ->.
  { unfold update_where. rewrite <- (map_id (db_pending d)) at 2. apply map_ext. intros a.
    rewrite bool_decide_eq_false_2; [done|]. apply not_elem_of_nil. }
  by destruct d.
Qed.

(** A check-in on a healthy database succeeds, answers with the policy of the
    database it started from and leaves the policy alone. *)
Lemma check_in_total host req d : healthy d -> host_exists host d = true ->
  exists resp d', check_in host req d = (Ok resp, d') /\ resp_rules resp = served_rules host d /\
    resp_rules_changed resp = negb (bool_decide (req_rules_hash req = served_hash host d)) /\
    (resp_default_input_policy resp, resp_default_output_policy resp) = served_defaults host d /\
    policy_core d' = policy_core d /\ healthy d'.
Proof.
  intros Hd Hh. destruct (check_in_healthy host req d Hd Hh) as (d1 & Hc & Hrun).
  pose proof (core_healthy _ _ Hc Hd) as Hd1.
  destruct (take_pending_healthy host d1 Hd1) as (dtos & _ & Ht).
  erewrite bind_ok in Hrun by exact Ht. eexists _, _. split; [exact Hrun|].
  split_and!; [done|done|by destruct (served_defaults host d)| |done].
  by apply core_policy in Hc.
Qed.

(** C13. A pending action is handed out once: the check-in returns exactly the
    host's queued, unexpired actions, most urgent first; afterwards none of them
    is deliverable any more, and the actions of other hosts are untouched. *)
Theorem pending_delivered_once {SQLL : SqlLaws} (host : Uuid) (req : CheckInRequest) (d : Db) :
  healthy d -> host_exists host d = true -> NoDup (pa_id <$> db_pending d) ->
  exists resp d' acts, check_in host req d = (Ok resp, d') /\
    resp_pending_actions resp = map pending_dto acts /\
    acts ≡ₚ List.filter (deliverable host (db_now d)) (db_pending d) /\ StronglySorted pending_le acts /\
    List.filter (deliverable host (db_now d')) (db_pending d') = [] /\
    (forall a, pa_host_id a <> host -> (a ∈ db_pending d' <-> a ∈ db_pending d)).
Proof.
  intros Hd Hh Hnd. destruct (check_in_healthy host req d Hd Hh) as (d1 & Hc & Hrun).
  pose proof (core_healthy _ _ Hc Hd) as Hd1.
  destruct (take_pending_healthy host d1 Hd1) as (dtos & Hdtos & Ht).
  erewrite bind_ok in Hrun by exact Ht. pose proof (f_equal (fun x => x.1.1.2) Hc) as Hp. pose proof (f_equal (fun x => x.1.2) Hc) as Hn.
  cbn in Hp, Hn.
  rewrite Hp, Hn in *.
  set (acts := sql_sort pending_le (List.filter (deliverable host (db_now d)) (db_pending d))) in *.
  eexists _, _, acts. split; [exact Hrun|]. cbn [resp_pending_actions db_pending db_now set_db_pending].
  assert (forall a, a ∈ db_pending d -> pa_id a ∈ map pa_dto_id dtos <-> deliverable host (db_now d) a = true) as Hin.
  { intros a Ha. rewrite Hdtos, map_map. split.
    - intros Hid. apply list_elem_of_In, in_map_iff in Hid as (b & Hb & Hbin).
      apply list_elem_of_In in Hbin. subst acts. rewrite sql_sort_perm in Hbin.
      apply list_elem_of_In, List.filter_In in Hbin as [Hbin Hdel]. apply list_elem_of_In in Hbin.
      assert (a = b) as ->; [|done]. eapply (NoDup_key_inj pa_id); [done..|]. by simpl in Hb.
    - intros Hdel. apply list_elem_of_In, in_map_iff. exists a. split; [done|].
      apply list_elem_of_In. subst acts. rewrite sql_sort_perm.
      apply list_elem_of_In, List.filter_In. split; [by apply list_elem_of_In|done]. }
  split_and!.
  - done.
  - apply sql_sort_perm.
  - apply sql_sort_sorted; intros ?; unfold pending_le; intros; lia.
  - apply filter_none. intros x Hx. apply update_where_in in Hx as (y & Hy & ->). rewrite Hn.
    destruct (bool_decide (pa_id y ∈ _)) eqn:Hq.
    + unfold deliverable. rewrite (bool_decide_eq_false_2 (pa_status _ = Queued)) by (intros Hx; discriminate Hx). by rewrite andb_false_r.
    + apply bool_decide_eq_false in Hq. rewrite Hin in Hq by done. by apply not_true_is_false.
  - intros a Ha.
    assert (forall y, y ∈ db_pending d -> bool_decide (pa_id y ∈ map pa_dto_id dtos) = true -> pa_host_id y = host) as Hhost.
    { intros y Hy Hq. apply bool_decide_eq_true in Hq. rewrite Hin in Hq by done. unfold deliverable in Hq.
      rewrite !andb_true_iff in Hq. destruct Hq as [[Hq _] _]. by apply bool_decide_eq_true in Hq. }
    split.
    + intros Hx. apply update_where_in in Hx as (y & Hy & ->).
      destruct (bool_decide (pa_id y ∈ _)) eqn:Hq; [|done]. destruct Ha. by apply (Hhost y).
    + intros Hx. apply update_where_keep; [done|]. apply not_true_is_false. intros Hq. by destruct Ha; apply Hhost.
Qed.
(** ** Result reports *)

(** A result report settles the pending action it names and no other: the
    action becomes executed or failed as reported and its execution time is set.
    The report is not tied to the reporting host: an action queued for a
    different host is settled just the same. *)
Theorem result_settles_named_action (host : Uuid) (req : CheckInResultRequest) (d : Db) (id : Uuid) :
  healthy d -> res_action_id req = Some id ->
  exists d', check_in_result host req d = (Ok 200%Z, d') /\
    (forall a, a ∈ db_pending d -> pa_id a = id ->
       set_pending_status (if res_success req then Executed else Failed) (pa_delivered_at a)
         (Some (db_now d)) a ∈ db_pending d') /\
    (forall a, pa_id a <> id -> (a ∈ db_pending d' <-> a ∈ db_pending d)).
Proof.
  intros Hd Hid. unfold check_in_result. rewrite Hid.
  set (d1 := set_db_pending (update_where (fun a => bool_decide (pa_id a = id)) (fun a =>
    set_pending_status (if res_success req then Executed else Failed) (pa_delivered_at a)
      (Some (db_now d)) a) (db_pending d)) d).
  set (ev := system_event _ _ _ _).
  destruct (quiet_log (E:=AppError) ev d1 Hd) as (d2 & H2 & Hc2).
  assert (healthy d2) as Hd2 by by eapply core_healthy.
  destruct (quiet_ignore_drift (E:=AppError) host (res_new_rules_hash req) 0 "agent_report" d2 Hd2) as (d3 & H3 & Hc3).
  rewrite Hc2 in Hc3. apply (f_equal (fun x => x.1.1.2)) in Hc3 as Hp. cbn [core fst snd] in Hp.
  exists d3. split; [|rewrite Hp; split].
  - erewrite bind_ok by (erewrite bind_ok by (by apply execute_healthy); exact H2).
    by erewrite bind_ok by exact H3.
  - intros a Ha Hai. unfold d1. cbn [db_pending set_db_pending]. unfold update_where.
    apply list_elem_of_In, in_map_iff. exists a. rewrite bool_decide_eq_true_2 by done.
    split; [done|by apply list_elem_of_In].
  - intros a Hai. unfold d1. cbn [db_pending set_db_pending]. split.
    + intros Hx. apply update_where_in in Hx as (y & Hy & ->). case_bool_decide as Hx; [|done]. by destruct Hai.
    + intros Hx. apply update_where_keep; [done|]. by apply bool_decide_eq_false_2.
Qed.
End facts.

(** ** Witnesses *)

(** One host with a policy set of two groups, and two queued actions (one of them
    of another host). *)
Definition ex_rule_row (n : N) (group : N) (order prio : Z) : RuleRow :=
  mkRuleRow {| rule_id := uuid_of n; rule_name := "r"; rule_description := ""; rule_action := Allow;
    rule_direction := In; rule_protocol := Tcp; src_cidr := Some "10.0.0.0/8"; src_port_start := None;
    src_port_end := None; dst_cidr := None; dst_port_start := Some (Z.of_N n); dst_port_end := None;
    interface_in := None; interface_out := None; rule_comment := ""; rule_log := false;
    rule_priority := prio; rule_created_by := None; rule_created_at := 0; rule_updated_at := 0 |}
    (uuid_of group) order.
Definition ex_pending (n host : N) : PendingActionRow :=
  mkPending (uuid_of n) (uuid_of host) Rollback JNull "" 0 Queued 0 3 0 None None None 3600.
Definition ex_host (n : N) : HostRow :=
  mkHost (uuid_of n) "h.example" "192.0.2.1" "" None None None None Healthy None None 12443 "" 0 0.
Definition ex_check_db : Db :=
  set_db_hosts [ex_host 50; ex_host 51]
  (set_db_assignments [mkAssignment (uuid_of 50) (uuid_of 70) None 0]
  (set_db_policy_sets [mkPolicySet (uuid_of 70) "base" "" None 0 0 (Some DefDeny) None]
  (set_db_set_groups [mkSetGroup (uuid_of 70) (uuid_of 80) 1; mkSetGroup (uuid_of 70) (uuid_of 81) 0]
  (set_db_rules [ex_rule_row 22 80 0 5; ex_rule_row 443 81 1 5; ex_rule_row 80 81 0 9]
  (set_db_pending [ex_pending 90 50; ex_pending 91 51] empty_db))))).
Definition ex_check_in (hash : string) : CheckInRequest :=
  mkCheckInRequest (uuid_of 50) hash "0.3.6" "ufw" JNull 10 0 false None.

Notation toy_check_in := (@check_in toy_sql toy_sha256 toy_serde toy_uuid_text toy_rfc3339).

Lemma check_in_serves_policy_witness :
  exists resp rows, outcome (toy_check_in (uuid_of 50) (ex_check_in "x")) ex_check_db = Ok resp /\
    resp_rules resp = map (fun x => rule_to_dto (rr_rule x.2)) rows /\
    rows ≡ₚ policy_join (uuid_of 70) ex_check_db /\ StronglySorted policy_le rows /\
    (resp_rules_changed resp = false <->
     "x" = @compute_rules_hash toy_sha256 (map dto_hash_parts (resp_rules resp))).
Proof.
  apply (@check_in_serves_policy toy_sql toy_sha256 toy_serde toy_uuid_text toy_rfc3339 toy_sql_laws
    (uuid_of 50) (ex_check_in "x") ex_check_db (uuid_of 70)); reflexivity.
Defined.

Lemma pending_delivered_once_witness :
  exists resp d', toy_check_in (uuid_of 50) (ex_check_in "x") ex_check_db = (Ok resp, d') /\
    (length (resp_pending_actions resp) = 1)%nat /\
    List.filter (deliverable (uuid_of 50) (db_now d')) (db_pending d') = [] /\
    ex_pending 91 51 ∈ db_pending d'.
Proof.
  destruct (@pending_delivered_once toy_sql toy_sha256 toy_serde toy_uuid_text toy_rfc3339 toy_sql_laws
    (uuid_of 50) (ex_check_in "x") ex_check_db) as (resp & d' & acts & H1 & H2 & H3 & _ & H4 & H5).
  - reflexivity.
  - reflexivity.
  - apply (bool_decide_unpack _). vm_compute. exact I.
  - exists resp, d'. split_and!; [done| |done|].
    + rewrite H2, length_map, H3. vm_compute. reflexivity.
    + apply H5; [apply (bool_decide_unpack _); vm_compute; exact I|right; left].
Defined.

(** The report comes from host 50, the action is host 51's. *)
Lemma result_settles_named_action_witness :
  exists d', @check_in_result toy_sha256 toy_serde toy_uuid_text toy_rfc3339 (uuid_of 50)
      (mkCheckInResultRequest (uuid_of 50) (Some (uuid_of 91)) true None "") ex_check_db = (Ok 200%Z, d') /\
    set_pending_status Executed None (Some 0%Z) (ex_pending 91 51) ∈ db_pending d'.
Proof.
  destruct (@result_settles_named_action toy_sha256 toy_serde toy_uuid_text toy_rfc3339 (uuid_of 50)
      (mkCheckInResultRequest (uuid_of 50) (Some (uuid_of 91)) true None "") ex_check_db (uuid_of 91))
    as (d' & H1 & H2 & _).
  - reflexivity.
  - reflexivity.
  - exists d'. split; [exact H1|]. apply (H2 (ex_pending 91 51)); [right; left|reflexivity].
Defined.
