(* ===== verification/ViewsFacts.v ===== *)
(** * ViewsFacts: the views are true to the tables

    The fleet status, the drift history and how the handlers of the agent API move
    a host in and out of the drift count. *)

From S2P Require Import Prelude Text Models Net Policy Wire Db AuditLog Auth AgentApi AgentApiFacts PolicyAdmin Deployment Users Settings Views.

(** ** The orders *)

#[export] Instance uuid_le_trans : Transitive uuid_le.
Proof. intros x y z. unfold uuid_le. apply transitivity. Qed.
#[export] Instance uuid_le_total : Total uuid_le.
Proof. intros x y. unfold uuid_le. apply total. apply _. Qed.
Lemma uuid_le_antisym x y : uuid_le x y -> uuid_le y x -> x = y.
Proof. intros H1 H2. apply uuid_bytes_inj. by apply (anti_symm String.le). Qed.

#[export] Instance newer_trans : Transitive newer.
Proof.
  intros x y z [H1|[H1 H1']] [H2|[H2 H2']]; unfold newer; [left; lia..|]. right. split; [congruence|]. by etransitivity.
Qed.
#[export] Instance newer_total : Total newer.
Proof.
  intros x y. unfold newer. destruct (Z.lt_total (dr_captured_at x) (dr_captured_at y)) as [|[|]]; [naive_solver| |naive_solver].
  destruct (total uuid_le (dr_id x) (dr_id y)); naive_solver.
Qed.

#[export] Instance by_host_newer_trans : Transitive by_host_newer.
Proof.
  intros x y z [[H1 H1']|[H1 H1']] [[H2 H2']|[H2 H2']]; unfold by_host_newer.
  - left. split; [|by etransitivity]. intros He. apply H1. rewrite He in H1' |- *. by apply uuid_le_antisym.
  - left. by rewrite <- H2.
  - left. by rewrite H1.
  - right. split; [congruence|]. by etransitivity.
Qed.
#[export] Instance by_host_newer_total : Total by_host_newer.
Proof.
  intros x y. unfold by_host_newer. destruct (decide (dr_host_id x = dr_host_id y)) as [He|Hne].
  - destruct (total newer x y); naive_solver.
  - destruct (total uuid_le (dr_host_id x) (dr_host_id y)); naive_solver.
Qed.

(** ** The latest snapshot of each host *)

(** A row that no other of its host is newer than. *)
Definition is_latest (x : DriftSnapshot) (l : list DriftSnapshot) : Prop :=
  x ∈ l /\ forall y, y ∈ l -> dr_host_id y = dr_host_id x -> newer x y.

Lemma newer_antisym x y : newer x y -> newer y x -> dr_id x = dr_id y.
Proof. intros [H1|[H1 H1']] [H2|[H2 H2']]; try lia. by apply uuid_le_antisym. Qed.

(** Of a list in order, [distinct_on] keeps the first row of every host not seen. *)
Lemma distinct_on_spec l seen : StronglySorted by_host_newer l ->
  (forall x, x ∈ distinct_on seen l -> dr_host_id x ∉ seen /\ is_latest x l) /\
  NoDup (map dr_host_id (distinct_on seen l)) /\
  (forall h, h ∈ map dr_host_id l -> h ∉ seen -> h ∈ map dr_host_id (distinct_on seen l)).
Proof.
  revert seen. induction l as [|x l IH]; intros seen Hs; cbn [distinct_on].
  - split_and!; [by intros ? ?%not_elem_of_nil|apply NoDup_nil_2|by intros ? ?%not_elem_of_nil].
  - apply StronglySorted_inv in Hs as [Hs Hx]. rewrite Forall_forall in Hx. case_bool_decide as Hin.
    + destruct (IH seen Hs) as (H1 & H2 & H3). split_and!; [|done|].
      * intros y Hy. destruct (H1 y Hy) as [Hns [Hl Hmax]]. split; [done|]. split; [by right|]. intros z [->|Hz]%elem_of_cons Hh; [|by apply Hmax].
        congruence.
      * intros h Hh Hns. apply H3; [|done]. cbn in Hh. apply elem_of_cons in Hh as [->|]; done.
    + destruct (IH (dr_host_id x :: seen) Hs) as (H1 & H2 & H3). split_and!.
      * intros y [->|Hy]%elem_of_cons.
        -- split; [done|]. split; [by left|]. intros z [->|Hz]%elem_of_cons Hh; [destruct (total newer x x); done|].
           destruct (Hx z Hz) as [[Hne _]|[_ Hn]]; congruence.
        -- destruct (H1 y Hy) as [Hns [Hl Hmax]]. apply not_elem_of_cons in Hns as [Hne Hns]. split; [done|]. split; [by right|].
           intros z [->|Hz]%elem_of_cons Hh; [congruence|by apply Hmax].
      * cbn. apply NoDup_cons. split; [|done]. intros (y & Hy & Hyin)%list_elem_of_In%in_map_iff. apply list_elem_of_In in Hyin.
        destruct (H1 y Hyin) as [Hns _]. apply Hns. rewrite Hy. by left.
      * intros h Hh Hns. cbn in Hh |- *. apply elem_of_cons in Hh as [->|Hh]; [by left|]. destruct (decide (h = dr_host_id x)) as [->|Hne]; [by left|].
        right. apply H3; [done|]. by apply not_elem_of_cons.
Qed.

Section facts.
Context {SQL : Sql} {SQLL : SqlLaws}.

(** Whether a host's latest snapshot is a mismatch. *)
Definition in_drift (h : Uuid) (d : Db) : Prop :=
  exists x, is_latest x (db_drift d) /\ dr_host_id x = h /\ dr_source x = "check_in_mismatch".

Lemma latest_per_host_in d x : x ∈ latest_per_host d -> is_latest x (db_drift d).
Proof.
  intros Hx. destruct (distinct_on_spec (sql_sort by_host_newer (db_drift d)) []) as (H1 & _); [by apply sql_sort_sorted; apply _|].
  destruct (H1 x Hx) as (_ & Hin & Hmax). rewrite sql_sort_perm in Hin. split; [done|]. intros y Hy. apply Hmax. by rewrite sql_sort_perm.
Qed.

(** The drift count: the number the fleet status shows is the number of hosts
    whose latest snapshot (by time, then id) is a check-in mismatch. *)
Theorem drift_count_exact d : NoDup (map dr_id (db_drift d)) ->
  exists hs, NoDup hs /\ (forall h, h ∈ hs <-> in_drift h d) /\ hosts_in_drift d = length hs.
Proof.
  intros Hnd. destruct (distinct_on_spec (sql_sort by_host_newer (db_drift d)) []) as (_ & Hh & Hall); [by apply sql_sort_sorted; apply _|].
  fold (latest_per_host d) in Hh, Hall. exists (map dr_host_id (List.filter (fun x => bool_decide (dr_source x = "check_in_mismatch")) (latest_per_host d))).
  split_and!; [|intros h|by rewrite length_map].
  - clear Hall. induction (latest_per_host d) as [|x l IH]; [apply NoDup_nil_2|]. cbn in Hh |- *. apply NoDup_cons in Hh as [Hn Hh].
    case_bool_decide; [|by apply IH]. cbn. apply NoDup_cons. split; [|by apply IH]. intros (y & Hy & [Hin _]%List.filter_In)%list_elem_of_In%in_map_iff.
    apply Hn. apply list_elem_of_In, in_map_iff. eauto.
  - rewrite list_elem_of_In, in_map_iff. split.
    + intros (x & <- & [Hx Hs]%List.filter_In). exists x. apply list_elem_of_In in Hx. split_and!; [by apply latest_per_host_in|done|].
      by apply bool_decide_eq_true in Hs.
    + intros (x & [Hin Hmax] & <- & Hs). assert (dr_host_id x ∈ map dr_host_id (latest_per_host d)) as Hx.
      { apply Hall; [|by apply not_elem_of_nil]. apply list_elem_of_In, in_map, list_elem_of_In. by rewrite sql_sort_perm. }
      apply list_elem_of_In, in_map_iff in Hx as (y & Hyx & Hy). assert (y = x) as ->.
      { apply list_elem_of_In, latest_per_host_in in Hy as [Hyin Hymax]. apply (NoDup_key_inj dr_id (db_drift d)); try done.
        apply newer_antisym; [by apply Hymax|by apply Hmax]. }
      exists x. split; [done|]. apply List.filter_In. split; [done|]. by apply bool_decide_eq_true_2.
Qed.

(** Every host has one health status: the four counts make up the total. *)
Theorem fleet_counts_add_up {COLL : Collation} {PJ : PgJson} d : healthy d ->
  exists fs, fleet_status_handler (E:=AppError) d = (Ok fs, d) /\ fs_total_hosts fs = Z.of_nat (length (db_hosts d)) /\
    (fs_healthy fs + fs_degraded fs + fs_unreachable fs + fs_pending fs = fs_total_hosts fs)%Z.
Proof.
  intros Hd. assert (forall f, count_or_zero (E:=AppError) f d = (Ok (Z.of_nat (f d)), d)) as Hc.
  { intros f. unfold count_or_zero. by erewrite bind_ok by (unfold attempt; rewrite fetch_healthy by done; reflexivity). }
  unfold fleet_status_handler. do 9 erewrite bind_ok by apply Hc. eexists. split; [reflexivity|]. cbn [fs_total_hosts fs_healthy fs_degraded fs_unreachable fs_pending].
  split; [done|]. unfold with_health_status. induction (db_hosts d) as [|h l IH]; [done|]. cbn [length List.filter].
  repeat case_bool_decide; try congruence; cbn [length]; try lia. by destruct (h_health_status h).
Qed.

(** ** The history *)

#[export] Instance drift_row_newer_trans : Transitive drift_row_newer.
Proof. intros x y z. unfold drift_row_newer. apply transitivity. Qed.
#[export] Instance drift_row_newer_total : Total drift_row_newer.
Proof. intros x y. unfold drift_row_newer. apply total. apply _. Qed.

Lemma sorted_app_le {A} (R : A -> A -> Prop) (l1 l2 : list A) x y : StronglySorted R (l1 ++ l2) -> x ∈ l1 -> y ∈ l2 -> R x y.
Proof.
  induction l1 as [|a l1 IH]; [by intros _ ?%not_elem_of_nil|]. cbn. intros [Hs Hf]%StronglySorted_inv [->|Hx]%elem_of_cons Hy; [|by apply IH].
  rewrite Forall_forall in Hf. apply Hf, elem_of_app. by right.
Qed.

Lemma sorted_take {A} (R : A -> A -> Prop) n (l : list A) : StronglySorted R l -> StronglySorted R (take n l).
Proof.
  revert n. induction l as [|a l IH]; intros [|n] Hs; cbn; [constructor..|]. apply StronglySorted_inv in Hs as [Hs Hf].
  constructor; [by apply IH|]. rewrite Forall_forall in Hf |- *. intros x Hx. apply Hf. apply elem_of_take in Hx as (i & Hx & _). by eapply list_elem_of_lookup_2.
Qed.

(** The drift history shows the newest: it lists matching snapshots of existing
    hosts newest first, at least one and at most a thousand if there are that many,
    and whatever matching snapshot it leaves out is not newer than any it shows. *)
Theorem drift_history_newest {COLL : Collation} {PJ : PgJson} host limit d : healthy d ->
  let matching := List.filter (drift_matches host) (drift_join d) in
  exists rows rest, list_drift_snapshots host limit d = (Ok rows, d) /\ rows ++ rest ≡ₚ matching /\
    StronglySorted drift_row_newer rows /\ (forall x y, x ∈ rows -> y ∈ rest -> drift_row_newer x y) /\
    length rows = Nat.min (Z.to_nat (drift_limit limit)) (length matching) /\ (1 <= drift_limit limit <= 1000)%Z.
Proof.
  intros Hd matching. set (n := Z.to_nat (drift_limit limit)). set (l := sql_sort drift_row_newer matching).
  assert (StronglySorted drift_row_newer l) as Hs by (apply sql_sort_sorted; apply _).
  exists (take n l), (drop n l). split_and!.
  - unfold list_drift_snapshots. by rewrite fetch_healthy.
  - rewrite take_drop. apply sql_sort_perm.
  - by apply sorted_take.
  - intros x y. apply sorted_app_le. by rewrite take_drop.
  - rewrite length_take. f_equal. apply Permutation_length, sql_sort_perm.
  - unfold drift_limit. lia.
  - unfold drift_limit. lia.
Qed.
End facts.

(** ** Into drift and out of it *)

Section transitions.
Context {SQL : Sql} {SHA : Sha256} {JS : SerdeJson} {UT : UuidText} {RFC : Rfc3339} {SQLL : SqlLaws}.
Variable host : Uuid.

(** The database after snapshots of the host were added to the ones of [d0]. *)
Definition drift_after (d0 : Db) (sources : list string) (d : Db) : Prop :=
  healthy d /\ host_exists host d = true /\ db_now d = db_now d0 /\
  exists l, db_drift d = db_drift d0 ++ l /\ map dr_source l = sources /\
    Forall (fun x => dr_host_id x = host /\ dr_captured_at x = db_now d0) l.

(** What a part of a handler adds to the snapshots, with its value. *)
Definition adds {E A} (m : M Db E A) (Q : A -> list string -> Prop) : Prop := forall d0 ss d, drift_after d0 ss d ->
  exists a d' ss', m d = (Ok a, d') /\ Q a ss' /\ drift_after d0 (ss ++ ss') d'.

Definition nothing {A} (_ : A) (ss : list string) : Prop := ss = [].

Lemma adds_bind {E A B} (m : M Db E A) (k : A -> M Db E B) Q1 Q : adds m Q1 ->
  (forall a s1, Q1 a s1 -> adds (k a) (fun b s2 => Q b (s1 ++ s2))) -> adds (m ≫= k) Q.
Proof.
  intros Hm Hk d0 ss d Hd. destruct (Hm d0 ss d Hd) as (a & d1 & s1 & H1 & HQ1 & Hd1).
  destruct (Hk a s1 HQ1 d0 _ d1 Hd1) as (b & d2 & s2 & H2 & HQ & Hd2). exists b, d2, (s1 ++ s2).
  erewrite bind_ok by exact H1. split_and!; [done|done|]. by rewrite app_assoc.
Qed.

Lemma adds_ret {E A} (a : A) (Q : A -> list string -> Prop) : Q a [] -> adds (mret a : M Db E A) Q.
Proof. intros HQ d0 ss d Hd. exists a, d, []. by rewrite app_nil_r. Qed.

(** A step that leaves the snapshots, the hosts, the clock and the connection. *)
Lemma adds_frame {E A} (m : M Db E A) : (forall d, healthy d -> host_exists host d = true -> exists a d', m d = (Ok a, d') /\
    db_drift d' = db_drift d /\ map h_id (db_hosts d') = map h_id (db_hosts d) /\ db_now d' = db_now d /\ db_faults d' = db_faults d) ->
  adds m nothing.
Proof.
  intros Hm d0 ss d (Hd & Hh & Hn & l & Hl & Hs & Hf). destruct (Hm d Hd Hh) as (a & d' & H & Hdr & Hho & Hnow & Hfa).
  exists a, d', []. split; [done|]. split; [done|]. rewrite app_nil_r. split; [unfold healthy; by rewrite Hfa|].
  split; [|split; [congruence|exists l; split; [congruence|done]]]. rewrite <- Hh. unfold host_exists.
  assert (forall hs, existsb (fun r => bool_decide (h_id r = host)) hs = existsb (fun i => bool_decide (i = host)) (map h_id hs)) as Hm'.
  { intros hs. induction hs as [|x hs IH]; cbn; [done|]. by rewrite IH. }
  by rewrite !Hm', Hho.
Qed.

Lemma adds_fetch {A} (f : Db -> A) : adds (fetch f) nothing.
Proof. apply adds_frame. intros d Hd _. rewrite fetch_healthy by done. eexists _, d. done. Qed.

Lemma adds_log {E} e : adds (log_event (E:=E) e) nothing.
Proof.
  apply adds_frame. intros d Hd _. destruct (loggable e d) eqn:Ha.
  - destruct (log_event_healthy (E:=E) e d Hd Ha) as (r & Hr & _). eexists tt, _. split; [exact Hr|done].
  - exists tt, d. split; [by apply log_event_refused|done].
Qed.

Lemma adds_drift {E} hash n source : adds (ignore (F:=E) (record_drift host hash n source)) (fun _ ss => ss = [source]).
Proof.
  intros d0 ss d (Hd & Hh & Hn & l & Hl & Hs & Hf). unfold ignore, record_drift, execute_if, query. rewrite Hd, Hh. cbn.
  eexists tt, _, [source]. split; [done|]. split; [done|]. split; [exact Hd|]. split; [exact Hh|]. split; [exact Hn|]. cbn.
  exists (l ++ [mkDrift (uuid_of (db_next_uuid d)) host hash n source (db_now d)]). rewrite Hl, <- app_assoc, map_app, Hs. split_and!; [done..|].
  apply Forall_app. split; [done|]. by constructor.
Qed.

(** What a check-in adds, by its answer. *)
Lemma check_in_adds req : adds (check_in host req) (fun resp ss =>
  ss = (if resp_rules_changed resp then ["check_in_mismatch"] else []) ++ (if req_local_drift req then ["out_of_band"] else [])).
Proof.
  assert (adds (record_check_in host req) nothing) as H1.
  { apply adds_frame. intros d Hd Hh. unfold record_check_in, execute_if, query. rewrite Hd, Hh. by eexists tt, _. }
  assert (adds (mark_healthy host (req_agent_version req)) nothing) as H2.
  { apply adds_frame. intros d Hd Hh. unfold mark_healthy. rewrite execute_healthy by done. eexists tt, _. split; [done|]. cbn.
    by rewrite update_where_map. }
  assert (forall ps, adds (expected_policy ps) nothing) as H3.
  { intros [ps|]; [|by apply adds_ret]. eapply adds_bind; [apply adds_fetch|]. intros a s1 ->. by apply adds_ret. }
  assert (adds (take_pending host) nothing) as H4.
  { eapply adds_bind; [apply adds_fetch|]. intros a s1 ->. eapply (adds_bind _ _ nothing); [|intros _ s2 ->; by apply adds_ret].
    destruct a; [by apply adds_ret|]. apply adds_frame. intros d Hd _. rewrite execute_healthy by done. by eexists tt, _. }
  unfold check_in. eapply adds_bind; [exact H1|]. intros _ s1 ->. eapply adds_bind; [exact H2|]. intros _ s2 ->.
  eapply adds_bind; [apply adds_fetch|]. intros ps s3 ->. eapply adds_bind; [apply H3|]. intros [rules expected] s4 ->.
  eapply (adds_bind _ _ nothing); [destruct ps; [apply adds_fetch|by apply adds_ret]|]. intros [di do_] s5 ->. cbv zeta. set (rc := negb _).
  eapply (adds_bind _ _ (fun _ ss => ss = if rc then ["check_in_mismatch"] else [])).
  { destruct rc; [|by apply adds_ret]. eapply adds_bind; [apply adds_drift|]. intros _ s ->. intros d0 ss d Hd.
    destruct (adds_log (E:=AppError) (system_event "drift_detected" "host" (uuid_to_string host)
      (JObj [("agent_hash", JStr (req_rules_hash req)); ("expected_hash", JStr expected)])) d0 ss d Hd) as (a & d' & s' & Hr & -> & Hd').
    by exists a, d', []. }
  intros _ s6 ->. eapply (adds_bind _ _ (fun _ ss => ss = if req_local_drift req then ["out_of_band"] else [])).
  { destruct (req_local_drift req); [|by apply adds_ret]. eapply adds_bind; [apply adds_drift|]. intros _ s ->. intros d0 ss d Hd.
    destruct (adds_log (E:=AppError) (system_event "out_of_band_drift" "host" (uuid_to_string host)
      (JObj [("agent_hash", JStr (req_rules_hash req))])) d0 ss d Hd) as (a & d' & s' & Hr & -> & Hd'). by exists a, d', []. }
  intros _ s7 ->. eapply (adds_bind _ _ nothing).
  { eapply adds_bind; [apply adds_fetch|]. intros a s ->. by apply adds_ret. }
  intros cfg s8 ->. eapply adds_bind; [exact H4|]. intros acts s9 ->. apply adds_ret. cbn. by rewrite !app_nil_r.
Qed.

(** What a result report adds: a report, whatever it says. *)
Lemma check_in_result_adds req : adds (check_in_result host req) (fun r ss => r = 200%Z /\ ss = ["agent_report"]).
Proof.
  unfold check_in_result. eapply (adds_bind _ _ nothing).
  - destruct (res_action_id req); [|by apply adds_ret]. eapply (adds_bind _ _ nothing).
    + apply adds_frame. intros d Hd _. rewrite execute_healthy by done. by eexists tt, _.
    + intros _ s ->. apply adds_log.
  - intros _ s ->. eapply adds_bind; [apply adds_drift|]. intros _ s2 ->. by apply adds_ret.
Qed.

(** Every snapshot was taken before now. *)
Definition drift_past (d : Db) : Prop := forall x, x ∈ db_drift d -> (dr_captured_at x < db_now d)%Z.

Lemma drift_after_self d : healthy d -> host_exists host d = true -> drift_after d [] d.
Proof. intros Hd Hh. split_and!; [done..|]. exists []. by rewrite app_nil_r. Qed.

Lemma in_drift_other d ss d' h : drift_after d ss d' -> h <> host -> in_drift h d' <-> in_drift h d.
Proof.
  intros (_ & _ & _ & l & Hl & _ & Hf) Hne. rewrite Forall_forall in Hf. unfold in_drift, is_latest. rewrite Hl. setoid_rewrite elem_of_app.
  split; intros (x & [Hin Hmax] & Hh & Hs); exists x; (split; [|done]); split.
  - destruct Hin as [Hin|Hin]; [done|]. by destruct (Hf x Hin); congruence.
  - naive_solver.
  - by left.
  - intros y [Hy|Hy] Hyh; [by apply Hmax|]. destruct (Hf y Hy). congruence.
Qed.

Lemma in_drift_same d d' : drift_after d [] d' -> in_drift host d' <-> in_drift host d.
Proof. intros (_ & _ & _ & l & Hl & Hs & _). destruct l; [|done]. rewrite app_nil_r in Hl. unfold in_drift. by rewrite Hl. Qed.

Lemma in_drift_new d s d' : drift_past d -> drift_after d [s] d' -> in_drift host d' <-> s = "check_in_mismatch".
Proof.
  intros Hp (_ & _ & _ & l & Hl & Hs & Hf). destruct l as [|x [|]]; simplify_eq/=. apply Forall_cons in Hf as [[Hh Hc] _].
  assert (forall y, y ∈ db_drift d' -> newer x y) as Hmax.
  { intros y. rewrite Hl. intros [Hy| ->%list_elem_of_singleton]%elem_of_app; [|destruct (total newer x x); done]. left. rewrite Hc. by apply Hp. }
  assert (x ∈ db_drift d') as Hx by (rewrite Hl; apply elem_of_app; right; by apply list_elem_of_singleton). split.
  - intros (y & [Hy Hymax] & Hyh & <-). rewrite Hl in Hy. apply elem_of_app in Hy as [Hy|Hy%list_elem_of_singleton]; [|by subst y].
    specialize (Hymax x Hx ltac:(congruence)). specialize (Hp y Hy). destruct Hymax as [|[]]; lia.
  - intros Hsrc. exists x. split; [|done]. split; [done|]. intros y Hy _. by apply Hmax.
Qed.

(** How a host moves in and out of the drift count. A check-in without local
    drift puts its host in when the policy differs from what it runs, and leaves
    it where it was when not; a result report takes it out, also when it reports
    that the apply failed; no other host moves. *)
Theorem drift_follows_agent d : healthy d -> host_exists host d = true -> drift_past d ->
  (forall req, req_local_drift req = false -> exists resp d', check_in host req d = (Ok resp, d') /\
    (in_drift host d' <-> resp_rules_changed resp = true \/ in_drift host d) /\ forall h, h <> host -> in_drift h d' <-> in_drift h d) /\
  (forall req, exists d', check_in_result host req d = (Ok 200%Z, d') /\
    ~ in_drift host d' /\ forall h, h <> host -> in_drift h d' <-> in_drift h d).
Proof.
  intros Hd Hh Hp. pose proof (drift_after_self d Hd Hh) as H0. split; intros req.
  - intros Hl. destruct (check_in_adds req d [] d H0) as (resp & d' & ss & Hr & -> & Ha). rewrite Hl, app_nil_r in Ha.
    exists resp, d'. split; [done|]. split; [|intros h Hne; by eapply in_drift_other].
    destruct (resp_rules_changed resp); [rewrite (in_drift_new d _ d' Hp Ha)|rewrite (in_drift_same d d' Ha)]; naive_solver.
  - destruct (check_in_result_adds req d [] d H0) as (r & d' & ss & Hr & [-> ->] & Ha). exists d'. split; [done|].
    split; [by rewrite (in_drift_new d _ d' Hp Ha)|]. intros h Hne. by eapply in_drift_other.
Qed.
End transitions.

(** ** Examples *)

Definition toy_collation : Collation := {| text_le := String.le; text_le_dec := _ |}.
Definition toy_pg_json : PgJson := {| jsonb_text _ := "" |}.

(** Two hosts, one of them last seen with another ruleset. *)
Definition views_db : Db :=
  set_db_now 1000 (set_db_drift [mkDrift (uuid_of 1) (uuid_of 50) "x" 0 "agent_report" 10; mkDrift (uuid_of 2) (uuid_of 50) "y" 0 "check_in_mismatch" 20]
    ex_check_db).

Lemma drift_count_exact_witness : exists hs, NoDup hs /\ (forall h, h ∈ hs <-> in_drift h views_db) /\ 1%nat = length hs.
Proof.
  destruct (@drift_count_exact toy_sql toy_sql_laws views_db) as (hs & H1 & H2 & H3); [by apply (bool_decide_unpack _)|].
  exists hs. by rewrite <- H3.
Defined.

Lemma fleet_counts_add_up_witness : exists fs, @fleet_status_handler toy_sql AppError views_db = (Ok fs, views_db) /\
  (fs_healthy fs + fs_degraded fs + fs_unreachable fs + fs_pending fs = fs_total_hosts fs)%Z.
Proof.
  destruct (@fleet_counts_add_up toy_sql toy_collation toy_pg_json views_db eq_refl) as (fs & H1 & _ & H2). by exists fs.
Defined.

Lemma drift_history_newest_witness : exists rows, @list_drift_snapshots toy_sql None (Some 1%Z) views_db = (Ok rows, views_db) /\ length rows = 1%nat.
Proof.
  destruct (@drift_history_newest toy_sql toy_sql_laws toy_collation toy_pg_json None (Some 1%Z) views_db eq_refl)
    as (rows & rest & H1 & _ & _ & _ & H2 & _). by exists rows.
Defined.

Lemma drift_follows_agent_witness : in_drift (uuid_of 50) views_db /\
  exists d', @check_in_result toy_sha256 toy_serde toy_uuid_text toy_rfc3339 (uuid_of 50) (mkCheckInResultRequest (uuid_of 50) None false (Some "failed") "y") views_db =
    (Ok 200%Z, d') /\ ~ in_drift (uuid_of 50) d'.
Proof.
  split.
  - exists (mkDrift (uuid_of 2) (uuid_of 50) "y" 0 "check_in_mismatch" 20). split; [|done]. split; [right; left|].
    intros y Hy _. apply list_elem_of_In in Hy as [<-|[<-|[]]]; [left; done|right; split; [done|reflexivity]].
  - destruct (@drift_follows_agent toy_sql toy_sha256 toy_serde toy_uuid_text toy_rfc3339 (uuid_of 50) views_db) as [_ H]; [reflexivity|reflexivity| |].
    + intros x Hx. apply list_elem_of_In in Hx as [<-|[<-|[]]]; reflexivity.
    + destruct (H (mkCheckInResultRequest (uuid_of 50) None false (Some "failed") "y")) as (d' & Hr & Hn & _). by exists d'.
Defined.
