(* ===== verification/AgentHttp.v ===== *)
(** * AgentHttp: the agent API as it is served

    The handlers of [crates/fw-web/src/routes/agent_api.rs] behind the agent router:
    the host identity of the connection ([mtls/host_authz.rs]), the JSON body, the
    status and body of the reply, and the error body of [crates/fw-core/src/error.rs].
    What [axum] does around a handler (the default body limit, the refusal of a
    body that cannot be read, of an unknown path or method) is part of the model. *)

From S2P Require Import Prelude Text Models Net Wire WireJson Db AuditLog Auth Router AgentApi Ca Listener.

(** ** Errors *)

(** The text of a [sqlx::Error]. *)
Class SqlxText := { sqlx_error_text : string }.

Definition error_text `{!SqlxText} (e : AppError) : string :=
  match e with
  | NotFound m => "not found: " +:+ m
  | Unauthorized m => "unauthorized: " +:+ m
  | Forbidden m => "forbidden: " +:+ m
  | BadRequest m => "bad request: " +:+ m
  | Conflict m => "conflict: " +:+ m
  | UnprocessableEntity m => "unprocessable entity: " +:+ m
  | Database => "database error: " +:+ sqlx_error_text
  | Internal m => "internal error: " +:+ m
  | Config m => "config error: " +:+ m
  end.

Definition error_body `{!SqlxText} (e : AppError) : Json :=
  JObj [("error", JObj [("code", JStr (into_response e).2); ("message", JStr (error_text e)); ("request_id", JNull)])].

(** ** Bodies *)

(** The reply [axum]'s [Json] extractor gives for a body it cannot read: too large,
    not JSON, or not of the expected shape. *)
Class AxumJson := { json_rejection : string -> HttpReply }.
Class AxumJsonLaws `{!AxumJson} := { json_rejection_fails : forall body, is_success (hr_status (json_rejection body)) = false }.

(** [DefaultBodyLimit]: two megabytes. *)
Definition BODY_LIMIT : Z := 2097152.
Definition body_fits (body : string) : bool := (Z.of_nat (String.length body) <=? BODY_LIMIT)%Z.

Section agent_http.
Context {SQL : Sql} {SHA : Sha256} {JS : SerdeJson} {SB : SerdeBody} {UT : UuidText} {RFC : Rfc3339} {ST : SqlxText} {AX : AxumJson}.

Definition error_reply (e : AppError) : HttpReply := mkReply (into_response e).1 (json_to_string (error_body e)).
Definition json_reply (j : Json) : HttpReply := mkReply 200 (json_to_string j).

Definition json_body {A} (de : Json -> option A) (body : string) : result A HttpReply :=
  if body_fits body then ok_or (body_parse body ≫= de) (json_rejection body) else Err (json_rejection body).

(** A handler's result as a reply; a handler always replies. *)
Definition reply {A} (f : A -> HttpReply) (m : DB A) (d : Db) : HttpReply * Db :=
  match m d with
  | (Ok a, d') => (f a, d')
  | (Err e, d') => (error_reply e, d')
  end.

(** The extractors run in the order of the handler's arguments. *)
Definition with_host (info : option ClientCertInfo) (k : Uuid -> Db -> HttpReply * Db) (d : Db) : HttpReply * Db :=
  match host_identity info with
  | Ok host => k host d
  | Err (status, text) => (mkReply status text, d)
  end.
Definition with_json {A} (de : Json -> option A) (body : string) (k : A -> Db -> HttpReply * Db) (d : Db) : HttpReply * Db :=
  match json_body de body with
  | Ok a => k a d
  | Err r => (r, d)
  end.

Definition http_whoami (info : option ClientCertInfo) : Db -> HttpReply * Db :=
  with_host info (fun host d => (json_reply (JObj [("host_id", ser_uuid host)]), d)).
Definition http_check_in (info : option ClientCertInfo) (body : string) : Db -> HttpReply * Db :=
  with_host info (fun host => with_json de_check_in_request body (fun req =>
    reply (fun resp => json_reply (ser_check_in_response resp)) (check_in host req))).
Definition http_check_in_result (info : option ClientCertInfo) (body : string) : Db -> HttpReply * Db :=
  with_host info (fun host => with_json de_check_in_result body (fun req =>
    reply (fun status => mkReply status "") (check_in_result host req))).
Definition http_get_policy (info : option ClientCertInfo) : Db -> HttpReply * Db :=
  with_host info (fun host => reply (fun rules => json_reply (ser_list ser_rule_dto rules)) (get_policy host)).

(** The handler of a name; the events stream is not a single reply (see [Events]). *)
Definition agent_handler (name : string) (info : option ClientCertInfo) (body : string) : option (Db -> HttpReply * Db) :=
  if bool_decide (name = "agent_api::check_in") then Some (http_check_in info body)
  else if bool_decide (name = "agent_api::check_in_result") then Some (http_check_in_result info body)
  else if bool_decide (name = "agent_api::get_policy") then Some (http_get_policy info)
  else if bool_decide (name = "agent_api::whoami") then Some (http_whoami info)
  else None.

(** The path of a request target, without its query. *)
Definition target_path (target : string) : string := default "" (head (split_char "?" target)).

Definition serve_agent (info : option ClientCertInfo) (m : Method) (target body : string) (d : Db) : option (HttpReply * Db) :=
  match find_endpoint agent_router (segments (target_path target)) with
  | None => Some (mkReply 404 "", d)
  | Some (e, _) =>
      match find_method m e with
      | None => Some (mkReply 405 "", d)
      | Some name => h ← agent_handler name info body; Some (h d)
      end
  end.

(** ** Facts *)

Lemma error_not_success e : is_success (hr_status (error_reply e)) = false.
Proof. by destruct e. Qed.

(** No identity, no access: without a verified client certificate every request to
    the agent API is refused, and nothing changes. *)
Lemma no_certificate_refused m target body d r d' : serve_agent None m target body d = Some (r, d') ->
  is_success (hr_status r) = false /\ d' = d.
Proof.
  unfold serve_agent. destruct (find_endpoint _ _) as [[e c]|]; [|by intros [= <- <-]].
  destruct (find_method m e) as [name|]; [|by intros [= <- <-]]. unfold agent_handler.
  repeat case_bool_decide; cbn; intros Hr; simplify_eq/=; done.
Qed.
End agent_http.
