(* ===== verification/Fleet.v ===== *)
(** * Fleet: an agent and its manager together

    The agent's cycle ([PullLoop]) run against the manager's own handlers
    ([AgentApi]): the manager's database is the network component of the agent's
    world. The theorem is the convergence of the pull model, which neither side
    has on its own: the hash the agent computes over the rules it applied is the
    hash the manager computes over the rows it served. *)

From S2P Require Import Prelude Text Models Net Policy ProtectedCidrs Backend Files AgentState Wire WireJson PullLoop.
From S2P Require Import ShellWords UfwCompile UfwApply AgentToy ManagerUrl PullLoopFacts Db AuditLog.
From S2P Require Import Auth AgentApi PolicyAdmin AgentApiFacts.

(** ** Wire and domain *)

Lemma action_str_roundtrip a : action_of_str (action_as_str a) = a.
Proof. by destruct a. Qed.
Lemma direction_str_roundtrip x : direction_of_str (direction_as_str x) = x.
Proof. by destruct x. Qed.
Lemma protocol_str_roundtrip p : protocol_of_str (protocol_as_str p) = p.
Proof. by destruct p. Qed.

(** What the agent hashes for a rule it received is what the manager hashes. *)
Lemma dto_parts_agree now r : rule_hash_parts (dto_to_rule now (rule_to_dto r)) = dto_hash_parts (rule_to_dto r).
Proof.
  unfold rule_hash_parts, dto_hash_parts. simpl.
  by rewrite action_str_roundtrip, direction_str_roundtrip, protocol_str_roundtrip.
Qed.

Lemma dtos_parts_agree now rs :
  map rule_hash_parts (map (dto_to_rule now) (map rule_to_dto rs)) = map dto_hash_parts (map rule_to_dto rs).
Proof. rewrite !map_map. apply map_ext. intros r. apply dto_parts_agree. Qed.

(** ** The preview *)

(** For a rule with explicit source and destination networks, no source port,
    logging or interface, whose comment is its name and has no quote, the
    command line the manager previews is exactly the one the host's agent
    compiles for the rule it receives. The conditions are needed: the preview
    leaves out what they exclude. *)
Theorem preview_is_what_the_agent_runs (now : DateTime) (r : FirewallRule) (src dst : string) :
  src_cidr r = Some src -> dst_cidr r = Some dst -> src_port_start r = None -> rule_log r = false ->
  interface_in r = None -> interface_out r = None -> rule_comment r = rule_name r ->
  str_existsb (fun c => bool_decide ("'"%char = c)) (rule_name r) = false ->
  compile_ufw_command r = compile_ufw_rule (dto_to_rule now (rule_to_dto r)).
Proof.
  intros Hs Hd Hp Hl Hi Ho Hc Hq. unfold compile_ufw_command, compile_ufw_rule. cbn.
  rewrite action_str_roundtrip, direction_str_roundtrip, protocol_str_roundtrip, Hs, Hd, Hp, Hl, Hi, Ho, Hc.
  rewrite remove_char_id by done. cbn.
  destruct (dst_port_start r) as [a|], (dst_port_end r) as [b|]; cbn;
    try destruct (bool_decide (a = b)); destruct (bool_decide (rule_direction r = Out)), (is_empty (rule_name r)); done.
Qed.

Lemma preview_is_what_the_agent_runs_witness :
  let r := {| rule_id := uuid_of 1; rule_name := "ssh"; rule_description := ""; rule_action := Allow;
    rule_direction := Out; rule_protocol := Tcp; src_cidr := Some "10.0.0.0/8"; src_port_start := None;
    src_port_end := None; dst_cidr := Some "192.0.2.0/24"; dst_port_start := Some 22%Z; dst_port_end := Some 25%Z;
    interface_in := None; interface_out := None; rule_comment := "ssh"; rule_log := false;
    rule_priority := 5; rule_created_by := None; rule_created_at := 0; rule_updated_at := 0 |} in
  compile_ufw_command r = compile_ufw_rule (dto_to_rule 0 (rule_to_dto r)) /\
  compile_ufw_command r = "ufw allow out proto tcp from 10.0.0.0/8 to 192.0.2.0/24 port 22:25 comment 'ssh'".
Proof.
  intros r. split; [|reflexivity].
  apply (preview_is_what_the_agent_runs 0 r "10.0.0.0/8" "192.0.2.0/24"); reflexivity.
Defined.

Section fleet.
Context {OS : HostOs} {COD : AgentCodec} {SHA : Sha256} {IPN : IpNetLib} {U : UrlLib} {UT : UuidText}
  {SQL : Sql} {JS : SerdeJson} {RFC : Rfc3339}.

(** The manager as the agent of [host] reaches it: the host id is the certificate's,
    the messages arrive as the other side reads them, an error response is an error
    of the call. *)
Definition fleet_call {A B} (f : A -> B) (m : DB A) (d : Db) : result B string * Db :=
  match m d with
  | (Ok a, d') => (Ok (f a), d')
  | (Err e, d') => (Err (into_response e).2, d')
  end.
#[local] Instance fleet_link (host : Uuid) : ManagerLink Db := {|
  net_check_in req := fleet_call received_response (check_in host (received_request req));
  net_report_result req := fleet_call (fun _ => tt) (check_in_result host (received_result req))
|}.
Notation W := (AgentWorld Db).

(** ** The agent's side of a cycle *)

(** A successful apply leaves the ruleset in [last_good], on any backend. *)
Lemma apply_rules_saved {CODL : AgentCodecLaws} backend rules prot ctx (w w' : W) hash :
  apply_rules backend rules prot ctx w = (Ok hash, w') -> LAST_GOOD_PATH ∉ aw_unwritable w ->
  load_last_good w' = Some rules /\ aw_unwritable w' = aw_unwritable w /\ aw_net w' = aw_net w.
Proof.
  unfold apply_rules. intros Hrun Hw. destruct (check_rules_against_protected rules prot); [|done].
  destruct (umbilical_ok ctx); [|done]. simpl in Hrun.
  apply bind_inv_ok in Hrun as ([] & w1 & Hl & Hrun).
  unfold acquire_apply_lock, gets, mbind, M_bind in Hl. destruct (aw_lock_free w); inv_ret Hl.
  destruct (backend_compile backend rules ctx) as [c|]; [|done].
  apply bind_inv_ok in Hrun as (r & w2 & Ht & Hrun).
  unfold backend_try, on_host, mbind, M_bind in Ht.
  destruct (backend_apply backend c (aw_os w1)) as [[r'|e] h]; inv_ret Ht.
  destruct (0 <? failed r)%nat; [done|].
  destruct (save_last_good_ok rules (set_os h w1)) as [w3 Hs]; [done|].
  unfold ignore in Hrun. erewrite bind_ok in Hrun by reflexivity. rewrite Hs in Hrun. inv_ret Hrun.
  split; [by eapply last_good_roundtrip|].
  unfold save_last_good, fs_write in Hs. case_bool_decide; by simplify_eq/=.
Qed.

(** Writing one state file leaves the rest of the agent's world alone. *)
Lemma fs_write_frame path s (w : W) :
  aw_unwritable (final (fs_write path s) w) = aw_unwritable w /\ aw_net (final (fs_write path s) w) = aw_net w.
Proof. unfold final, fs_write. by case_bool_decide. Qed.

Lemma fs_write_last_good path s (w : W) : path <> LAST_GOOD_PATH ->
  load_last_good (final (fs_write path s) w) = load_last_good w.
Proof. intros Hp. unfold load_last_good. by rewrite read_other_write. Qed.

Lemma fs_write_defaults {CODL : AgentCodecLaws} ds (w : W) : LAST_DEFAULTS_PATH ∉ aw_unwritable w ->
  load_last_defaults (final (save_last_defaults ds) w) = Some ds.
Proof.
  intros Hw. destruct (save_last_defaults ds w) as [[[]|e] w'] eqn:Hs; unfold final; rewrite Hs.
  - by eapply last_defaults_roundtrip.
  - unfold save_last_defaults, fs_write in Hs. by rewrite bool_decide_eq_false_2 in Hs.
Qed.

(** After a successful report the agent's record is the ruleset and the defaults
    it applied, and the manager's policy is unchanged. *)
Lemma report_apply_saved {CODL : AgentCodecLaws} host host' live hash ds (w : W) :
  healthy (aw_net w) -> LAST_DEFAULTS_PATH ∉ aw_unwritable w ->
  exists w', @report_apply _ _ _ (fleet_link host) host' live (Some (Ok hash), ds) w = (Ok tt, w') /\
    load_last_good w' = load_last_good w /\ load_last_defaults w' = Some ds /\
    policy_core (aw_net w') = policy_core (aw_net w) /\ healthy (aw_net w').
Proof.
  intros Hd Hw. unfold report_apply, ignore.
  erewrite bind_ok by reflexivity. change (snd (save_expected_hash hash w)) with (final (save_expected_hash hash) w).
  set (w1 := final (save_expected_hash hash) w).
  destruct (fs_write_frame EXPECTED_HASH_PATH hash w) as [Hu1 Hn1].
  erewrite bind_ok by reflexivity. change (snd (save_last_defaults ds w1)) with (final (save_last_defaults ds) w1).
  set (w2 := final (save_last_defaults ds) w1).
  destruct (fs_write_frame LAST_DEFAULTS_PATH (defaults_to_json ds) w1) as [_ Hn2].
  assert (aw_net w2 = aw_net w) as Hn by (etrans; [exact Hn2|exact Hn1]).
  unfold report, net_call. cbn [net_report_result fleet_link]. unfold fleet_call, check_in_result.
  cbn [res_action_id res_new_rules_hash received_result].
  destruct (quiet_ignore_drift (E:=AppError) host hash 0 "agent_report" (aw_net w2)) as (d3 & H3 & Hc3);
    [by rewrite Hn|].
  eexists. split; [|split_and!].
  - unfold mbind, M_bind. cbn [mret M_ret]. rewrite H3. reflexivity.
  - transitivity (load_last_good w2); [done|]. etrans; [by apply fs_write_last_good|]. by apply fs_write_last_good.
  - transitivity (load_last_defaults w2); [done|]. apply fs_write_defaults.
    intros Hx. apply Hw. by rewrite <- Hu1.
  - cbn. apply core_policy in Hc3. by rewrite Hc3, Hn.
  - cbn. eapply core_healthy; [exact Hc3|]. by rewrite Hn.
Qed.
(** ** Convergence *)

Lemma fleet_check_in host req (w : W) : healthy (aw_net w) -> host_exists host (aw_net w) = true ->
  exists resp d', net_call (net_check_in (ManagerLink:=fleet_link host) req) w = (Ok (Ok resp), set_net d' w) /\
    resp_rules resp = served_rules host (aw_net w) /\
    resp_rules_changed resp = negb (bool_decide (req_rules_hash req = served_hash host (aw_net w))) /\
    (resp_default_input_policy resp, resp_default_output_policy resp) = served_defaults host (aw_net w) /\
    policy_core d' = policy_core (aw_net w) /\ healthy d'.
Proof.
  intros Hd Hh. destruct (check_in_total host (received_request req) (aw_net w) Hd Hh) as (resp & d' & Hrun & Hrest).
  exists (received_response resp), d'. split; [|exact Hrest]. unfold net_call. cbn [net_check_in fleet_link].
  unfold fleet_call. by rewrite Hrun.
Qed.

(** The hash of a nonempty served policy, from the agent's copy of it. *)
Lemma served_hash_agent host now d : served_rules host d <> [] ->
  compute_rules_hash (map rule_hash_parts (map (dto_to_rule now) (served_rules host d))) = served_hash host d.
Proof.
  unfold served_rules, served_hash. destruct (assigned_set host d); [|done]. intros _.
  by rewrite dtos_parts_agree.
Qed.

(** C1. The pull model converges: once a host has applied the ruleset the manager
    answered with, and its state files could be written, its next check-in is
    answered with [rules_changed = false] and, while the live rules have not
    drifted, leads to no further apply: the agent's world stays as it is. This
    needs that the agent's hash of the rules it received is the manager's hash of
    the rows it served, whatever the rules are. *)
Theorem fleet_converges {CODL : AgentCodecLaws} (backend : FirewallBackend) (host : Uuid) (w w1 w2 w3 : W)
    (req req2 : CheckInRequest) (resp : CheckInResponse) (drift : bool) live hash ds :
  healthy (aw_net w) -> host_exists host (aw_net w) = true ->
  LAST_GOOD_PATH ∉ aw_unwritable w -> LAST_DEFAULTS_PATH ∉ aw_unwritable w ->
  net_call (net_check_in (ManagerLink:=fleet_link host) req) w = (Ok (Ok resp), w1) ->
  resp_rules_changed resp = true -> resp_rules resp <> [] ->
  decide_apply backend resp drift w1 = (Ok (Some (Ok hash), ds), w2) ->
  report_apply (MGR:=fleet_link host) host live (Some (Ok hash), ds) w2 = (Ok tt, w3) ->
  req_rules_hash req2 = reported_rules_hash w3 ->
  exists resp2 w4, net_call (net_check_in (ManagerLink:=fleet_link host) req2) w3 = (Ok (Ok resp2), w4) /\
    resp_rules_changed resp2 = false /\ decide_apply backend resp2 false w4 = (Ok (None, ds), w4).
Proof.
  intros Hd Hh Hwg Hwd Hci Hch Hne Hda Hra Hreq.
  destruct (fleet_check_in host req w Hd Hh) as (r & d' & Hci' & Hrules & _ & Hdefs & Hpc & Hd').
  rewrite Hci in Hci'. injection Hci' as <- ->.
  destruct (served_core host (aw_net w) d' Hpc) as (Hsr & Hsh & Hsd & _).
  rewrite decide_apply_spec in Hda. unfold planned_apply in Hda.
  destruct (resp_rules resp) as [|x xs] eqn:Hxs; [done|]. rewrite Hch in Hda. simpl orb in Hda. cbv iota in Hda.
  destruct (apply_rules _ _ _ _ _) as [ar wa] eqn:Har in Hda. injection Hda as -> <- ->.
  apply apply_rules_saved in Har as (Hlg & Hun & Hnet); [|done].
  destruct (report_apply_saved host host live hash
    (mkLastDefaults (resp_default_input_policy resp) (resp_default_output_policy resp)) w2) as (w3' & Hr' & Hlg3 & Hld3 & Hpc3 & Hd3).
  { by rewrite Hnet. } { by rewrite Hun. }
  rewrite Hra in Hr'. injection Hr' as <-.
  assert (policy_core (aw_net w3) = policy_core (aw_net w)) as Hpcw by (rewrite Hpc3, Hnet; exact Hpc).
  destruct (served_core host _ _ Hpcw) as (Hsr3 & Hsh3 & Hsd3 & _).
  destruct (fleet_check_in host req2 w3 Hd3) as (r2 & d2 & Hci2 & Hrules2 & Hch2 & Hdefs2 & _);
    [by rewrite (host_exists_core _ _ _ Hpcw)|].
  exists r2, (set_net d2 w3). split; [exact Hci2|].
  assert (resp_rules_changed r2 = false) as Hfin.
  { rewrite Hch2, Hreq, Hsh3. apply negb_false_iff, bool_decide_eq_true_2.
    unfold reported_rules_hash. rewrite Hlg3, Hlg, Hrules. apply served_hash_agent. by rewrite <- Hrules. }
  split; [done|].
  rewrite decide_apply_spec. unfold planned_apply.
  change (load_last_defaults (set_net d2 w3)) with (load_last_defaults w3). rewrite Hld3, Hfin. simpl default.
  rewrite Hsd3 in Hdefs2. rewrite <- Hdefs in Hdefs2. injection Hdefs2 as -> ->.
  rewrite bool_decide_eq_true_2 by done. by destruct (resp_rules r2).
Qed.
End fleet.

(** ** Witness *)

Notation toy_fleet_link := (@fleet_link toy_sha256 toy_uuid_text toy_sql toy_serde toy_rfc3339).
Definition fleet_world : @AgentWorld toy_os Db := toy_world ex_check_db ex_config (mkToyHost [["deny"]] []).

Lemma fleet_converges_witness :
  let call req := @net_call toy_os Db CheckInResponse (@net_check_in Db (toy_fleet_link (uuid_of 50)) req) in
  exists resp w1 hash ds w2 w3, call (ex_check_in "") fleet_world = (Ok (Ok resp), w1) /\
    @decide_apply toy_os Db toy_codec toy_ipnet toy_url toy_backend resp false w1 = (Ok (Some (Ok hash), ds), w2) /\
    @report_apply toy_os Db toy_codec (toy_fleet_link (uuid_of 50)) (uuid_of 50) "" (Some (Ok hash), ds) w2 = (Ok tt, w3) /\
    exists resp2 w4, call (ex_check_in (@reported_rules_hash toy_os Db toy_codec toy_sha256 w3)) w3 = (Ok (Ok resp2), w4) /\
      resp_rules_changed resp2 = false.
Proof.
  intros call.
  assert (match call (ex_check_in "") fleet_world with
    | (Ok (Ok resp), w1) =>
        match (@decide_apply toy_os Db toy_codec toy_ipnet toy_url toy_backend resp false w1).1 with
        | Ok (Some (Ok _), _) => resp_rules_changed resp && negb (bool_decide (map dto_id (resp_rules resp) = []))
        | _ => false
        end
    | _ => false
    end = true) as Hok by (vm_compute; reflexivity).
  destruct (call (ex_check_in "") fleet_world) as [[[resp|e]|e] w1] eqn:Hci; try discriminate Hok.
  destruct (@decide_apply toy_os Db toy_codec toy_ipnet toy_url toy_backend resp false w1)
    as [[[[[hash|e]|] ds]|e] w2] eqn:Hda; try discriminate Hok.
  apply andb_true_iff in Hok as [Hch Hne]. apply negb_true_iff, bool_decide_eq_false in Hne.
  assert (resp_rules resp <> []) by by intros Hx; rewrite Hx in Hne.
  destruct (@report_apply toy_os Db toy_codec (toy_fleet_link (uuid_of 50)) (uuid_of 50) "" (Some (Ok hash), ds) w2)
    as [[[]|e] w3] eqn:Hra.
  2: { exfalso. unfold report_apply, ignore, report, net_call, mbind, M_bind in Hra.
       by destruct (net_report_result _ _) in Hra. }
  exists resp, w1, hash, ds, w2, w3. split_and!; [done..|].
  destruct (@fleet_converges toy_os toy_codec toy_sha256 toy_ipnet toy_url toy_uuid_text toy_sql toy_serde
    toy_rfc3339 toy_codec_laws toy_backend (uuid_of 50) fleet_world w1 w2 w3 (ex_check_in "")
    (ex_check_in (@reported_rules_hash toy_os Db toy_codec toy_sha256 w3)) resp false "" hash ds)
    as (resp2 & w4 & H1 & H2 & _); try done; try (by apply not_elem_of_empty); try reflexivity.
  by exists resp2, w4.
Defined.
