(* ===== verification/FleetHttp.v ===== *)
(** * FleetHttp: the pull loop over HTTP

    The agent's client ([PullHttp]) talking JSON over HTTP to the manager's router
    and handlers ([AgentHttp]). The theorem is a refinement: an agent's loop run
    over the network is, turn for turn, the loop run against the handlers
    directly ([Fleet]), so what is proved of the latter holds of the former. *)

From S2P Require Import Prelude Text Codec Models Net Policy ProtectedCidrs Backend Files AgentState Wire WireJson PullLoop PullHttp.
From S2P Require Import ShellWords UfwCompile UfwApply AgentToy ManagerUrl PullLoopFacts Db AuditLog.
From S2P Require Import Auth Router AgentApi PolicyAdmin AgentApiFacts Ca CaToy Listener Settings SettingsFacts TypedDb AgentHttp Fleet.

(** ** One loop, two links *)

(** The same outcome: the same value, or an error on both sides. *)
Definition same_outcome {A} (x y : result A string) : Prop :=
  match x, y with
  | Ok a, Ok b => a = b
  | Err _, Err _ => True
  | _, _ => False
  end.

(** The first turns of [run_pull_loop]: the waits between them. *)
Fixpoint pull_loop_turns `{!HostOs, !AgentCodec, !Sha256, !IpNetLib, !UrlLib, !UuidText} {Net} (L : ManagerLink Net) (backend : FirewallBackend) (n : nat)
  : M (AgentWorld Net) string (list Z) :=
  match n with
  | O => mret []
  | S n' => wait ← pull_loop_turn (MGR:=L) backend; rest ← pull_loop_turns L backend n'; mret (wait :: rest)
  end.

(** Two links to a manager that answer alike in the states of [I]. *)
Record link_agrees {Net} (I : Net -> Prop) (L1 L2 : ManagerLink Net) : Prop := {
  la_check_in : forall req n, request_fits req -> I n ->
    same_outcome (net_check_in (ManagerLink:=L1) req n).1 (net_check_in (ManagerLink:=L2) req n).1 /\
    (net_check_in (ManagerLink:=L1) req n).2 = (net_check_in (ManagerLink:=L2) req n).2 /\ I (net_check_in (ManagerLink:=L1) req n).2 /\
    (forall resp c, (net_check_in (ManagerLink:=L1) req n).1 = Ok resp -> resp_config resp = Some c -> fits 32 (cu_config_version c));
  la_report : forall req n, I n ->
    (net_report_result (ManagerLink:=L1) req n).2 = (net_report_result (ManagerLink:=L2) req n).2 /\
    I (net_report_result (ManagerLink:=L1) req n).2
}.

Section links.
Context {OS : HostOs} {Net : Type} {COD : AgentCodec} {SHA : Sha256} {IPN : IpNetLib} {U : UrlLib} {UT : UuidText}.
Context (I : Net -> Prop) (L1 L2 : ManagerLink Net) (HL : link_agrees I L1 L2).
Notation W := (AgentWorld Net).
Notation MW := (M W string).

(** What the agent's counters and the manager's state must be. *)
Definition sane (w : W) : Prop := I (aw_net w) /\ fits 32 (aw_config_version w) /\ fits 64 (aw_uptime w).

Definition same {A} (m1 m2 : MW A) : Prop := forall w, sane w -> m1 w = m2 w /\ sane (final m1 w).

Lemma same_bind_value {A B} (Q : A -> Prop) (m1 m2 : MW A) (f1 f2 : A -> MW B) : same m1 m2 ->
  (forall w a, sane w -> (m2 w).1 = Ok a -> Q a) -> (forall a, Q a -> same (f1 a) (f2 a)) -> same (m1 ≫= f1) (m2 ≫= f2).
Proof.
  intros Hm HQ Hf w Hw. destruct (Hm w Hw) as [He Hs]. specialize (HQ w). unfold final, mbind, M_bind in *. rewrite He in *.
  destruct (m2 w) as [[a|e] w']; [exact (Hf a (HQ a Hw eq_refl) w' Hs)|done].
Qed.
Lemma same_bind {A B} (m1 m2 : MW A) (f1 f2 : A -> MW B) : same m1 m2 -> (forall a, same (f1 a) (f2 a)) -> same (m1 ≫= f1) (m2 ≫= f2).
Proof. intros Hm Hf. by apply (same_bind_value (fun _ => True)). Qed.
Lemma same_keeps {A} (m : MW A) : keeps sane m -> same m m.
Proof. intros Hk w Hw. split; [done|by apply Hk]. Qed.
Lemma same_for_each {A} (f1 f2 : A -> MW unit) l : (forall a, same (f1 a) (f2 a)) -> same (for_each f1 l) (for_each f2 l).
Proof. intros Hf. induction l as [|x l IH]; cbn; [apply same_keeps, keeps_ret|]. apply same_bind; [done|intros _; exact IH]. Qed.

(** ** What only touches the host and its files *)

Lemma sane_frame (w w' : W) : aw_net w' = aw_net w -> aw_config_version w' = aw_config_version w -> aw_uptime w' = aw_uptime w -> sane w -> sane w'.
Proof. intros H1 H2 H3. unfold sane. by rewrite H1, H2, H3. Qed.

Lemma keeps_on_host {E A} (m : M Host E A) : keeps sane (on_host m : MW (result A E)).
Proof. intros w Hw. unfold final, on_host. destruct (m (aw_os w)). exact Hw. Qed.
Lemma keeps_fs_write path s : keeps sane (fs_write path s : MW unit).
Proof. intros w Hw. unfold final, fs_write. by case_bool_decide. Qed.
Lemma keeps_backend_try {A} p (m : M Host BackendError A) : keeps sane (backend_try p m : MW A).
Proof. unfold backend_try. apply keeps_bind; [apply keeps_on_host|]. intros [a|e]; [apply keeps_ret|apply keeps_throw]. Qed.

Lemma keeps_apply_rules backend rules prot ctx : keeps sane (apply_rules backend rules prot ctx : MW string).
Proof.
  unfold apply_rules, acquire_apply_lock. destruct (check_rules_against_protected _ _); [|apply keeps_throw].
  destruct (negb _); [apply keeps_throw|]. apply keeps_bind. { apply keeps_bind; [apply keeps_gets|]. intros []; [apply keeps_ret|apply keeps_throw]. }
  intros _. destruct (backend_compile _ _ _); [|apply keeps_throw]. apply keeps_bind; [apply keeps_backend_try|]. intros r.
  destruct (0 <? failed r)%nat; [apply keeps_throw|]. apply keeps_bind; [apply keeps_ignore, keeps_fs_write|]. intros. apply keeps_ret.
Qed.

Lemma keeps_fs_append path s : keeps sane (fs_append path s : MW unit).
Proof. intros w Hw. unfold final, fs_append. by case_bool_decide. Qed.
Lemma keeps_fs_chmod path mode : keeps sane (fs_chmod path mode : MW unit).
Proof. intros w Hw. unfold final, fs_chmod. by destruct (_ !! _). Qed.
Lemma keeps_safe_mode_check : keeps sane (safe_mode_check : MW bool).
Proof. intros w Hw. unfold final, safe_mode_check. by destruct (_ <? _)%Z. Qed.
#[local] Hint Resolve keeps_on_host keeps_fs_write keeps_fs_append keeps_fs_chmod keeps_safe_mode_check keeps_backend_try keeps_apply_rules : keeps.

Lemma keeps_apply_from_dto backend dtos prot ctx : keeps sane (apply_rules_from_dto backend dtos prot ctx : MW string).
Proof. intros w Hw. unfold final, apply_rules_from_dto. by apply keeps_apply_rules. Qed.
#[local] Hint Resolve keeps_apply_from_dto : keeps.

Lemma keeps_on_check_in_error backend enabled : keeps sane (on_check_in_error backend enabled : MW bool).
Proof.
  unfold on_check_in_error, safe_mode_revert. keeps_tac.
Qed.

Lemma keeps_decide_apply backend resp drift : keeps sane (decide_apply backend resp drift : MW _).
Proof. unfold decide_apply. keeps_tac. Qed.

Lemma keeps_execute_action backend a : keeps sane (execute_pending_action backend a : MW _).
Proof. unfold execute_pending_action. keeps_tac. Qed.

Lemma keeps_config_update u : fits 32 (cu_config_version u) -> keeps sane (apply_config_update u : MW unit).
Proof.
  intros Hu. unfold apply_config_update, config_save. keeps_step.
  - apply keeps_modify. intros w (H1 & H2 & H3). by split_and!.
  - keeps_step; [keeps_tac|]. apply keeps_ignore. keeps_tac.
Qed.

(** ** The cycle *)

Lemma report_same req : same (report (MGR:=L1) req) (report (MGR:=L2) req).
Proof.
  intros w (Hi & Hv & Hu). destruct (la_report _ _ _ HL req (aw_net w) Hi) as [He Hn]. unfold final, report, net_call, mbind, M_bind.
  destruct (net_report_result (ManagerLink:=L1) req (aw_net w)) as [r n], (net_report_result (ManagerLink:=L2) req (aw_net w)) as [r' n'].
  cbn in *. subst n'. split; [done|]. by split_and!.
Qed.

Lemma run_pending_same backend host live a : same (run_pending_action (MGR:=L1) backend host live a) (run_pending_action (MGR:=L2) backend host live a).
Proof.
  unfold run_pending_action. apply same_bind; [apply same_keeps, keeps_gets|]. intros []; [apply report_same|].
  apply same_bind; [apply same_keeps, keeps_execute_action|]. intros [ok e]. apply same_bind; [|intros _; apply report_same].
  apply same_keeps. unfold record. destruct ok; keeps_tac.
Qed.

Lemma report_apply_same host live o : same (report_apply (MGR:=L1) host live o) (report_apply (MGR:=L2) host live o).
Proof.
  destruct o as [[[h|e]|] ds]; cbn; [|apply report_same|apply same_keeps, keeps_ret].
  unfold save_expected_hash, save_last_defaults. do 2 (apply same_bind; [apply same_keeps; keeps_tac|intros _]). apply report_same.
Qed.

Lemma on_response_same backend host live drift resp : (forall c, resp_config resp = Some c -> fits 32 (cu_config_version c)) ->
  same (on_response (MGR:=L1) backend host live drift resp) (on_response (MGR:=L2) backend host live drift resp).
Proof.
  intros Hc. unfold on_response. apply same_bind; [apply same_keeps, keeps_modify; by intros w ?|intros _].
  apply same_bind. { apply same_keeps. destruct (resp_config resp) as [c|]; [apply keeps_config_update; by apply Hc|apply keeps_ret]. } intros _.
  apply same_bind; [apply same_keeps, keeps_decide_apply|intros o]. apply same_bind; [apply report_apply_same|intros _].
  apply same_bind; [apply same_for_each; intros; apply run_pending_same|intros _; apply same_keeps, keeps_ret].
Qed.

(** What the host says of itself can be written. *)
Lemma os_info_writable h j h' : gather_os_info h = (Ok j, h') -> json_writable j = true.
Proof.
  unfold gather_os_info. intros H. apply bind_inv_ok in H as (c & h1 & _ & H). apply bind_inv_ok in H as (n & h2 & _ & H). inv_ret H. by destruct c.
Qed.

Lemma check_in_same req : request_fits req ->
  forall w, sane w -> exists r1 r2 n, net_call (net_check_in (ManagerLink:=L1) req) w = (Ok r1, set_net n w) /\
    net_call (net_check_in (ManagerLink:=L2) req) w = (Ok r2, set_net n w) /\ same_outcome r1 r2 /\ sane (set_net n w) /\
    (forall resp c, r1 = Ok resp -> resp_config resp = Some c -> fits 32 (cu_config_version c)).
Proof.
  intros Hr w (Hi & Hv & Hu). destruct (la_check_in _ _ _ HL req (aw_net w) Hr Hi) as (Ho & Hn & Hi' & Hc). unfold net_call.
  destruct (net_check_in (ManagerLink:=L1) req (aw_net w)) as [r1 n1], (net_check_in (ManagerLink:=L2) req (aw_net w)) as [r2 n2].
  cbn in *. subst n2. exists r1, r2, n1. by split_and!.
Qed.

Lemma run_pull_cycle_same backend host : same (run_pull_cycle (MGR:=L1) backend host) (run_pull_cycle (MGR:=L2) backend host).
Proof.
  unfold run_pull_cycle. do 4 (apply same_bind; [apply same_keeps; keeps_tac|intros ?]).
  apply (same_bind_value (fun r => json_writable (unwrap_or JNull r) = true)). { apply same_keeps, keeps_on_host. }
  { intros w r _. unfold on_host. destruct (gather_os_info (aw_os w)) as [[j|e] h] eqn:Hj; cbn; intros [= <-]; [by eapply os_info_writable|done]. }
  intros os Hos. apply (same_bind_value (fits 64)). { apply same_keeps, keeps_gets. } { intros w z (_ & _ & Hu). cbn. by intros [= <-]. }
  intros uptime Hu. apply (same_bind_value (fits 32)). { apply same_keeps, keeps_gets. } { intros w z (_ & Hv & _). cbn. by intros [= <-]. }
  intros version Hv. do 2 (apply same_bind; [apply same_keeps, keeps_gets|intros ?]). intros w Hw.
  match goal with |- context [net_check_in (ManagerLink:=L1) ?q] =>
    destruct (check_in_same q) with (w := w) as (r1 & r2 & n & H1 & H2 & Ho & Hs & Hc); [by split_and!|done|] end.
  unfold final, mbind, M_bind. rewrite H1, H2. destruct r1 as [resp|e1], r2 as [resp'|e2]; cbn in Ho; try done.
  - subst resp'. apply on_response_same; [|done]. intros c. by apply Hc.
  - apply same_keeps; [|done]. apply keeps_on_check_in_error.
Qed.

Lemma pull_loop_turn_same backend : same (pull_loop_turn (MGR:=L1) backend) (pull_loop_turn (MGR:=L2) backend).
Proof.
  unfold pull_loop_turn. apply same_bind; [apply same_keeps, keeps_gets|intros host]. apply same_bind.
  - intros w Hw. destruct (run_pull_cycle_same backend host w Hw) as [He Hs]. unfold final, attempt in *. rewrite He in *.
    by destruct (run_pull_cycle (MGR:=L2) backend host w).
  - intros r. apply same_bind; [apply same_keeps, keeps_gets|intros ?]. apply same_keeps, keeps_ret.
Qed.

Lemma pull_loop_turns_same backend n : same (pull_loop_turns L1 backend n) (pull_loop_turns L2 backend n).
Proof.
  induction n as [|n IH]; cbn; [apply same_keeps, keeps_ret|]. apply same_bind; [apply pull_loop_turn_same|intros wait].
  apply same_bind; [exact IH|intros rest; apply same_keeps, keeps_ret].
Qed.
End links.

(** ** The manager behind the network *)

Section http.
Context {OS : HostOs} {COD : AgentCodec} {SHA : Sha256} {IPN : IpNetLib} {U : UrlLib} {UT : UuidText}
  {SQL : Sql} {JS : SerdeJson} {SB : SerdeBody} {RFC : Rfc3339} {SX : SqlxText} {AX : AxumJson} {ST : StatusText}.

(** A request to [base] reaches the manager on the connection of [info]. *)
Definition deliver (base : string) (info : ClientCertInfo) (m : Method) (url body : string) (d : Db) : result HttpReply string * Db :=
  match strip_prefix base url with
  | Some target =>
      match serve_agent (Some info) m target body d with
      | Some (r, d') => (Ok r, d')
      | None => (Err "not a single reply", d)
      end
  | None => (Err "no route to host", d)
  end.
#[local] Instance manager_http (base : string) (info : ClientCertInfo) : Http Db := {|
  http_post url body := deliver base info POST url body; http_get url := deliver base info GET url ""
|}.

(** The link over HTTP, and the same messages handed to the handlers directly,
    when [axum] takes their bodies. *)
Definition network_link (base : string) (info : ClientCertInfo) (host : Uuid) : ManagerLink Db :=
  http_link (HTTP:=manager_http base info) (mkPullClient base host).
Definition direct_link (host : Uuid) : ManagerLink Db := {|
  net_check_in req d := if body_fits (json_to_string (ser_check_in_request req))
    then net_check_in (ManagerLink:=fleet_link host) req d else (Err "Check-in failed", d);
  net_report_result req d := if body_fits (json_to_string (ser_check_in_result req))
    then net_report_result (ManagerLink:=fleet_link host) req d else (Err "Result report failed", d)
|}.

Context {UTL : UuidTextLaws} {SBL : SerdeBodyLaws} {AXL : AxumJsonLaws} {SQLL : SqlLaws}.

Lemma deliver_to base info m target body d :
  deliver base info m (base +:+ target) body d =
  match serve_agent (Some info) m target body d with Some (r, d') => (Ok r, d') | None => (Err "not a single reply", d) end.
Proof. unfold deliver. by rewrite (proj2 (strip_prefix_Some base (base +:+ target) target) eq_refl). Qed.

Lemma serve_check_in info body d : serve_agent (Some info) POST "/api/v1/agent/check-in" body d = Some (http_check_in (Some info) body d).
Proof. reflexivity. Qed.
Lemma serve_check_in_result info body d :
  serve_agent (Some info) POST "/api/v1/agent/check-in/result" body d = Some (http_check_in_result (Some info) body d).
Proof. reflexivity. Qed.

(** A check-in over the network. *)
Lemma network_check_in base info host req d : request_fits req -> typed d ->
  let direct := net_check_in (ManagerLink:=direct_link (cc_host_id info)) req d in
  exists r, net_check_in (ManagerLink:=network_link base info host) req d = (r, direct.2) /\ same_outcome r direct.1.
Proof.
  intros Hr Ht. cbn [net_check_in network_link http_link direct_link]. unfold client_check_in, accepted, mbind, M_bind.
  cbn [http_post manager_http]. rewrite deliver_to, serve_check_in. unfold http_check_in, with_host, with_json, json_body. cbn [host_identity pc_manager_url].
  destruct (body_fits _).
  - rewrite request_text_read by done. cbn [ok_or]. unfold reply. cbn [net_check_in fleet_link]. unfold fleet_call.
    destruct (check_in (cc_host_id info) (received_request req) d) as [[resp|e] d'] eqn:Hci.
    + cbn [hr_status hr_body json_reply]. change (is_success 200) with true. cbv iota. unfold parsed, lift_result.
      rewrite response_text_read by (by eapply check_in_fits). eexists. by split.
    + rewrite error_not_success. eexists. by split.
  - rewrite json_rejection_fails. eexists. by split.
Qed.

Lemma network_report base info host req d :
  (net_report_result (ManagerLink:=network_link base info host) req d).2 = (net_report_result (ManagerLink:=direct_link (cc_host_id info)) req d).2.
Proof.
  cbn [net_report_result network_link http_link direct_link]. unfold client_report_result, accepted, mbind, M_bind.
  cbn [http_post manager_http]. rewrite deliver_to, serve_check_in_result. unfold http_check_in_result, with_host, with_json, json_body.
  cbn [host_identity pc_manager_url]. destruct (body_fits _).
  - rewrite result_text_read. cbn [ok_or]. unfold reply. cbn [net_report_result fleet_link]. unfold fleet_call.
    destruct (check_in_result (cc_host_id info) (received_result req) d) as [[st|e] d'].
    + cbn [hr_status]. by destruct (is_success st).
    + by rewrite error_not_success.
  - by rewrite json_rejection_fails.
Qed.

Lemma network_agrees base info host : link_agrees typed (network_link base info host) (direct_link (cc_host_id info)).
Proof.
  split.
  - intros req d Hr Ht. destruct (network_check_in base info host req d Hr Ht) as (r & Hn & Ho). rewrite Hn. cbn [fst snd].
    split; [done|]. split; [done|]. clear Hn. revert Ho. cbn [net_check_in direct_link fleet_link]. destruct (body_fits _); cbn [fst snd].
    + unfold fleet_call. pose proof (check_in_typed (cc_host_id info) (received_request req) d Ht) as Hk. unfold final in Hk.
      destruct (check_in (cc_host_id info) (received_request req) d) as [[resp|e] d'] eqn:Hci; cbn in *; intros Ho; (split; [done|]); intros resp' c ->; [|done].
      cbn in Ho. subst resp'. cbn. intros Hc. destruct (resp_config resp) as [c0|] eqn:Hc0; [|done]. injection Hc as <-.
      destruct (check_in_fits _ _ _ _ _ Ht Hci) as [(_ & Hcf & _) _]. by apply (Hcf c0).
    + intros Ho. split; [done|]. intros resp' c ->. done.
  - intros req d Ht. rewrite network_report. split; [done|]. cbn [net_report_result direct_link fleet_link]. destruct (body_fits _); [|done].
    unfold fleet_call. pose proof (check_in_result_typed (cc_host_id info) (received_result req) d Ht) as Hk. unfold final in Hk.
    by destruct (check_in_result (cc_host_id info) (received_result req) d) as [[]].
Qed.

(** C3. The pull loop over the network is the pull loop against the handlers: for any
    backend and any number of turns of the agent's loop, running them over HTTP
    (the request written as JSON, routed, read, handled, answered, and the answer
    read back) takes the agent and the manager through the same states and the same
    waits as handing each message directly to the handlers of the certificate's
    host, as long as the manager's integers are in range (which its operations
    keep) and the agent's counters are. *)
Theorem network_loop_refines (backend : FirewallBackend) base info host turns (w : AgentWorld Db) :
  typed (aw_net w) -> fits 32 (aw_config_version w) -> fits 64 (aw_uptime w) ->
  pull_loop_turns (network_link base info host) backend turns w = pull_loop_turns (direct_link (cc_host_id info)) backend turns w.
Proof.
  intros Ht Hv Hu. refine (proj1 (pull_loop_turns_same typed _ _ (network_agrees base info host) backend turns w _)). by split_and!.
Qed.
End http.

(** ** Witnesses *)

Definition text_body : @SerdeBody text_serde := {| body_parse s := tree_json <$> of_text s |}.
Lemma text_body_laws : @SerdeBodyLaws text_serde text_body.
Proof. split. intros j _. cbn [body_parse json_to_string text_body text_serde]. rewrite of_to_text. exact (f_equal Some (tree_json_tree j)). Qed.
Definition toy_axum : AxumJson := {| json_rejection _ := mkReply 422 "rejected" |}.
Lemma toy_axum_laws : @AxumJsonLaws toy_axum.
Proof. by split. Qed.
Definition toy_sqlx : SqlxText := {| sqlx_error_text := "pool timed out" |}.
Definition toy_status : StatusText := {| status_text := pretty |}.

Definition ex_result : CheckInResultRequest := mkCheckInResultRequest (uuid_of 50) (Some (uuid_of 90)) false (Some "2 rules failed") "abc".
Definition ex_response : CheckInResponse :=
  mkCheckInResponse true [rule_to_dto (rr_rule (ex_rule_row 22 80 0 5))] (Some (mkConfigUpdate 60 true false (Some "ufw") 2))
    [mkPendingActionDto (uuid_of 90) "rollback" (JObj [("b", JNum 1); ("a", JNull)]) "test"] (Some "deny") None.

Lemma ex_response_fits : response_fits ex_response.
Proof.
  unfold ex_response. split_and!; cbn.
  - repeat constructor; unfold fits; cbn; lia.
  - intros c [= <-]. unfold config_fits, fits. cbn. lia.
  - repeat constructor.
Qed.

Lemma messages_understood_witness :
  @body_parse text_serde text_body (@json_to_string text_serde (@ser_check_in_request toy_uuid_text (ex_check_in "h"))) ≫= de_check_in_request =
    Some (received_request (ex_check_in "h")) /\
  @body_parse text_serde text_body (@json_to_string text_serde (@ser_check_in_result toy_uuid_text ex_result)) ≫= @de_check_in_result toy_uuid_text =
    Some (received_result ex_result) /\
  @body_parse text_serde text_body (@json_to_string text_serde (@ser_check_in_response toy_uuid_text ex_response)) ≫= @de_check_in_response toy_uuid_text =
    Some (received_response ex_response).
Proof.
  destruct (@messages_understood toy_uuid_text toy_uuid_text_laws text_serde text_body text_body_laws) as (H1 & H2 & H3 & _).
  split_and!; [apply H1|apply H2|apply H3, ex_response_fits]. unfold request_fits, fits. cbn. split_and!; (lia || reflexivity).
Defined.

(** A host with one rule and a rollback to run, and its agent. *)
Definition net_rule : RuleRow :=
  mkRuleRow {| rule_id := uuid_of 22; rule_name := "ssh"; rule_description := ""; rule_action := Allow;
    rule_direction := In; rule_protocol := Models.Tcp; src_cidr := Some "10.0.0.0/8"; src_port_start := None;
    src_port_end := None; dst_cidr := None; dst_port_start := Some 22%Z; dst_port_end := Some 22%Z;
    interface_in := None; interface_out := None; rule_comment := ""; rule_log := false;
    rule_priority := 5; rule_created_by := None; rule_created_at := 0; rule_updated_at := 0 |} (uuid_of 80) 0.
Definition net_db : Db := set_db_rules [net_rule] (set_db_overrides [mkOverride (uuid_of 50) 120 true false None 9 None 0] ex_check_db).
Lemma net_db_typed : typed net_db.
Proof.
  split.
  - intros r ->%list_elem_of_singleton. split; [reflexivity|]. unfold fits. cbn. lia.
  - intros o ->%list_elem_of_singleton. unfold override_typed. cbn. lia.
  - apply Forall_forall. repeat constructor.
Qed.
Definition net_world : @AgentWorld toy_os Db := toy_world net_db ex_config (mkToyHost [["deny"]] []).
Definition ex_client : ClientCertInfo := mkClient (uuid_of 50) "192.0.2.1:4711".

Lemma network_loop_refines_witness :
  let run L := @pull_loop_turns toy_os toy_codec toy_sha256 toy_ipnet toy_url toy_uuid_text Db L toy_backend 2 net_world in
  let over_network := run (@network_link toy_sha256 toy_uuid_text toy_sql text_serde text_body toy_rfc3339 toy_sqlx toy_axum toy_status
    "https://192.0.2.9:8443" ex_client (uuid_of 50)) in
  over_network = run (@direct_link toy_sha256 toy_uuid_text toy_sql text_serde toy_rfc3339 (uuid_of 50)) /\
  over_network.1 = Ok [120; 60]%Z /\ length (db_check_ins (aw_net over_network.2)) = 2%nat.
Proof.
  intros run over_network. split.
  - apply (@network_loop_refines toy_os toy_codec toy_sha256 toy_ipnet toy_url toy_uuid_text toy_sql text_serde text_body toy_rfc3339 toy_sqlx
      toy_axum toy_status toy_uuid_text_laws text_body_laws toy_axum_laws toy_sql_laws toy_backend "https://192.0.2.9:8443" ex_client (uuid_of 50) 2 net_world
      net_db_typed); unfold fits; cbn; lia.
  - vm_compute. split; reflexivity.
Defined.
