(* ===== verification/Onboarding.v ===== *)
(** * Onboarding: the agent's enrollment against the manager

    The agent's [enroll] (AgentEnroll.v) run against the manager's enrollment
    endpoints (Enrollment.v), over the routes of the users' server and the JSON texts
    each side writes and the other reads, with administrators at work while the agent waits: a token, a submission
    and an approval make an agent that is enrolled as the host the manager
    registered. *)

From S2P Require Import Prelude Text Codec Models Net Files Backend AgentState PullLoop ManagerUrl AgentEnroll AgentEnrollFacts.
From S2P Require Import ShellWords UfwApply AgentToy Wire WireJson Db AuditLog Auth Router AgentApi PolicyAdmin AdminFacts.
From S2P Require Import Ca CaToy Settings SettingsFacts Enrollment EnrollmentFacts WebBodies AgentHttp FleetHttp.

(** ** The messages *)

(** [json!({ .. })] of the submission: a map, ordered by key. *)
Definition ser_submit_body (b : SubmitBody) : Json := JObj [
  ("csr", JStr (sb_csr b)); ("fqdn", JStr (sb_fqdn b)); ("hostname", JStr (sb_hostname b)); ("ip_address", JStr (sb_ip_address b));
  ("os_details", sb_os_details b); ("token", JStr (sb_token b))].

(** [SubmitResponse] of the agent, and what the manager answers. *)
Definition ser_polling_token (token : string) : Json := JObj [("polling_token", JStr token)].
Definition de_submit_response (j : Json) : option string :=
  match j with JObj fs => de_field de_str "polling_token" fs | _ => None end.

(** [EnrollmentStatusResponse] and [PkiBundle] as the manager writes them. *)
Definition ser_pull_config (p : PullConfigBundle) : Json := JObj [
  ("check_in_interval_secs", JNum (pcb_check_in_interval_secs p)); ("push_enabled", JBool (pcb_push_enabled p));
  ("config_version", JNum (pcb_config_version p)); ("manager_agent_url", JStr (pcb_manager_agent_url p))].
Definition ser_pki_bundle (b : PkiBundle) : Json := JObj [
  ("ca_chain", ser_list JStr (pki_ca_chain b)); ("server_cert", JStr (pki_server_cert b)); ("crl_pem", ser_opt JStr (pki_crl_pem b));
  ("pull_config", ser_opt ser_pull_config (pki_pull_config b))].
Definition ser_status (s : EnrollmentStatus) : Json :=
  match s with
  | StPending => JObj [("status", JStr "pending"); ("pki_bundle", JNull); ("host_id", JNull)]
  | StApproved b h => JObj [("status", JStr "approved"); ("pki_bundle", ser_pki_bundle b); ("host_id", JStr h)]
  end.

(** The agent's structs of the same names. *)
Definition de_u32 (j : Json) : option Z :=
  match j with JNum z => if (0 <=? z)%Z && (z <? 2 ^ 32)%Z then Some z else None | _ => None end.
Definition de_bundle_pull (j : Json) : option BundlePullConfig :=
  match j with
  | JObj fs =>
      interval ← de_field de_u32 "check_in_interval_secs" fs; push ← de_default_field de_bool false "push_enabled" fs;
      version ← de_field de_i32 "config_version" fs; url ← de_default_field de_str "" "manager_agent_url" fs;
      Some (mkBundlePull interval push version url)
  | _ => None
  end.
Definition de_agent_bundle (j : Json) : option AgentPkiBundle :=
  match j with
  | JObj fs =>
      chain ← de_field (de_list de_str) "ca_chain" fs; cert ← de_field de_str "server_cert" fs;
      crl ← de_opt_field de_str "crl_pem" fs; p ← de_opt_field de_bundle_pull "pull_config" fs;
      Some (mkAgentBundle chain cert crl p)
  | _ => None
  end.
Definition de_status_response (j : Json) : option EnrollmentStatusResponse :=
  match j with
  | JObj fs =>
      status ← de_field de_str "status" fs; bundle ← de_opt_field de_agent_bundle "pki_bundle" fs; host ← de_opt_field de_str "host_id" fs;
      Some (mkStatusResponse status bundle host)
  | _ => None
  end.

(** The bundle the agent has after reading the manager's. *)
Definition agent_bundle (b : PkiBundle) : AgentPkiBundle :=
  mkAgentBundle (pki_ca_chain b) (pki_server_cert b) (pki_crl_pem b)
    ((fun p => mkBundlePull (pcb_check_in_interval_secs p) (pcb_push_enabled p) (pcb_config_version p) (pcb_manager_agent_url p))
       <$> pki_pull_config b).

(** The manager's [i32]s are in the range of the agent's types. *)
Definition bundle_fits (b : PkiBundle) : Prop :=
  match pki_pull_config b with
  | Some p => (0 <= pcb_check_in_interval_secs p < 2 ^ 31 /\ - 2 ^ 31 <= pcb_config_version p < 2 ^ 31)%Z
  | None => True
  end.

Lemma de_ser_texts l : de_list de_str (ser_list JStr l) = Some l.
Proof. cbn. induction l as [|x l IH]; [done|]. cbn. by rewrite IH. Qed.

(** Reading the fields in the order they are written. *)
Lemma de_agent_bundle_fields chain cert crl p :
  de_agent_bundle (JObj [("ca_chain", chain); ("server_cert", JStr cert); ("crl_pem", crl); ("pull_config", p)]) =
    (chain' ← de_list de_str chain; crl' ← de_opt de_str crl; p' ← de_opt de_bundle_pull p; Some (mkAgentBundle chain' cert crl' p')).
Proof. reflexivity. Qed.

Lemma de_bundle_pull_fields i push v u :
  de_bundle_pull (JObj [("check_in_interval_secs", JNum i); ("push_enabled", JBool push); ("config_version", JNum v); ("manager_agent_url", JStr u)]) =
    (i' ← de_u32 (JNum i); v' ← de_i32 (JNum v); Some (mkBundlePull i' push v' u)).
Proof. reflexivity. Qed.

Lemma de_ser_bundle b : bundle_fits b -> de_agent_bundle (ser_pki_bundle b) = Some (agent_bundle b).
Proof.
  unfold bundle_fits, ser_pki_bundle, agent_bundle. intros Hf. rewrite de_agent_bundle_fields, de_ser_texts. cbn [mbind option_bind].
  assert (de_opt de_str (ser_opt JStr (pki_crl_pem b)) = Some (pki_crl_pem b)) as -> by by destruct (pki_crl_pem b). cbn [mbind option_bind].
  destruct (pki_pull_config b) as [[i v n u]|]; [|done]. cbn in Hf. unfold ser_opt, ser_pull_config, de_opt.
  cbn [pcb_check_in_interval_secs pcb_push_enabled pcb_config_version pcb_manager_agent_url]. rewrite de_bundle_pull_fields.
  unfold de_u32, de_i32. rewrite (proj2 (Z.leb_le 0 i)), (proj2 (Z.ltb_lt i _)), de_int_fits by (try split; cbn; lia). done.
Qed.

Lemma de_status_fields status b h :
  de_status_response (JObj [("status", JStr status); ("pki_bundle", b); ("host_id", h)]) =
    (b' ← de_opt de_agent_bundle b; h' ← de_opt de_str h; Some (mkStatusResponse status b' h')).
Proof. reflexivity. Qed.

Section link.
Context {SQL : Sql} {SHA : Sha256} {JS : SerdeJson} {SB : SerdeBody} {UT : UuidText} {RFC : Rfc3339} {ST : SqlxText} {PG : PgInet} {AX : AxumJson}.

(** A reply as the agent's client shows it: [resp.json()] reads the body. *)
Definition response_of {A} (de : Json -> option A) (r : HttpReply) : HttpResponse A :=
  mkResponse (WireJson.hr_status r) (hr_body r) (ok_or (body_parse (hr_body r) ≫= de) "error decoding response body").

(** The handler a path of the users' server leads to, with the captures. *)
Definition routed (m : Method) (path : string) : option (string * list string) :=
  '(e, caps) ← find_endpoint build_router (segments path); name ← find_method m e; Some (name, caps).

(** The manager at [base]; [office] is what happens to it while the agent sleeps. The
    agent asks for two of its routes. *)
Definition manager_enroll_link (base : string) (office : Z -> Manager -> Manager) : EnrollLink Manager := {|
  post_enroll url body m :=
    if bool_decide (strip_prefix base url ≫= routed POST = Some ("enrollment::submit_enrollment", [])) then
      match json_body de_submit_enrollment (json_to_string (ser_submit_body body)) with
      | Err r => (Ok (response_of de_submit_response r), m)
      | Ok req =>
          match on_db (submit_enrollment req) m with
          | (Ok token, m') => (Ok (response_of de_submit_response (mkReply 202 (json_to_string (ser_polling_token token)))), m')
          | (Err e, m') => (Ok (response_of de_submit_response (error_reply e)), m')
          end
      end
    else (Err "unreachable", m);
  get_status url m :=
    match strip_prefix base url ≫= routed GET with
    | Some (name, [token]) =>
        if bool_decide (name = "enrollment::poll_enrollment_status") then
          match poll_enrollment_status token m with
          | (Ok s, m') => (Ok (response_of de_status_response (json_reply (ser_status s))), m')
          | (Err e, m') => (Ok (response_of de_status_response (error_reply e)), m')
          end
        else (Err "unreachable", m)
    | _ => (Err "unreachable", m)
    end;
  net_sleep := office
|}.

(** A token that is one segment of a path, and none of the words of the routes: the
    text of a UUID is. *)
Definition token_segment (pt : string) : Prop := is_empty pt = false /\ no_slash pt = true /\ pt ∉ literals build_router.

Lemma submit_routed base : strip_prefix base (base +:+ "/api/v1/enroll") ≫= routed POST = Some ("enrollment::submit_enrollment", []).
Proof. rewrite (proj2 (strip_prefix_Some _ _ "/api/v1/enroll")) by done. vm_compute. reflexivity. Qed.

Lemma poll_routed base pt : token_segment pt ->
  strip_prefix base (base +:+ "/api/v1/enroll/status/" +:+ pt) ≫= routed GET = Some ("enrollment::poll_enrollment_status", [pt]).
Proof.
  intros Hpt. rewrite (proj2 (strip_prefix_Some _ _ ("/api/v1/enroll/status/" +:+ pt))) by done. cbn [mbind option_bind]. unfold routed.
  assert (exists e, e ∈ build_router /\ ep_path e = [Lit "api"; Lit "v1"; Lit "enroll"; Lit "status"; Cap "token"] /\
    find_method GET e = Some "enrollment::poll_enrollment_status") as (e & He & Hp & Hm).
  { destruct (List.find (fun e => bool_decide (find_method GET e = Some "enrollment::poll_enrollment_status")) build_router) as [e|] eqn:Hf;
      [|exfalso; revert Hf; vm_compute; discriminate].
    exists e. pose proof (find_some _ _ Hf) as [Hin Hm%bool_decide_eq_true]. split; [by apply list_elem_of_In|]. split; [|done].
    revert Hf. vm_compute. intros [= <-]. reflexivity. }
  pose proof (routes_reachable build_router e [pt] (or_introl eq_refl) He) as H. rewrite Hp in H.
  assert (path_of (fill [Lit "api"; Lit "v1"; Lit "enroll"; Lit "status"; Cap "token"] [pt]) = "/api/v1/enroll/status/" +:+ pt) as Hpath.
  { change (path_of (fill _ _)) with ("/api/v1/enroll/status/" +:+ (pt +:+ "")). by rewrite str_app_nil_r. }
  rewrite Hpath in H. rewrite H; [|done|by apply Forall_singleton]. cbn [mbind option_bind]. by rewrite Hm.
Qed.

Context {SBL : SerdeBodyLaws}.

Lemma submit_read b : json_writable (sb_os_details b) = true -> body_fits (json_to_string (ser_submit_body b)) = true ->
  json_body de_submit_enrollment (json_to_string (ser_submit_body b)) =
    Ok (mkSubmit (sb_token b) (sb_csr b) (sb_fqdn b) (sb_ip_address b) (Some (sb_hostname b)) (json_normal (sb_os_details b))).
Proof.
  intros Hw Hf. unfold json_body. rewrite Hf, body_parse_to_string by (cbn; by rewrite Hw). cbn [mbind option_bind].
  assert (de_submit_enrollment (ser_submit_body b) =
    Some (mkSubmit (sb_token b) (sb_csr b) (sb_fqdn b) (sb_ip_address b) (Some (sb_hostname b)) (json_normal (sb_os_details b)))) as -> by reflexivity.
  done.
Qed.

Lemma token_read t : response_of de_submit_response (mkReply 202 (json_to_string (ser_polling_token t))) =
  mkResponse 202 (json_to_string (ser_polling_token t)) (Ok t).
Proof. unfold response_of. cbn [WireJson.hr_status hr_body]. by rewrite body_parse_to_string. Qed.

Lemma texts_writable l : forallb json_writable (map JStr l) = true.
Proof. by induction l. Qed.

Lemma bundle_writable b : bundle_fits b -> json_writable (ser_pki_bundle b) = true.
Proof.
  unfold bundle_fits. intros Hf. cbn. rewrite texts_writable. destruct (pki_crl_pem b), (pki_pull_config b) as [[i v n u]|]; try done; cbn in Hf |- *;
    (rewrite (proj2 (Z.leb_le _ i)), (proj2 (Z.ltb_lt i _)), (proj2 (Z.leb_le _ n)), (proj2 (Z.ltb_lt n _)) by lia); done.
Qed.

(** What the agent reads of a status. *)
Definition agent_status (s : EnrollmentStatus) : EnrollmentStatusResponse :=
  match s with
  | StPending => mkStatusResponse "pending" None None
  | StApproved b h => mkStatusResponse "approved" (Some (agent_bundle b)) (Some h)
  end.
Definition status_fits (s : EnrollmentStatus) : Prop := match s with StApproved b _ => bundle_fits b | StPending => True end.

Lemma status_read s : status_fits s ->
  response_of de_status_response (json_reply (ser_status s)) = mkResponse 200 (json_to_string (ser_status s)) (Ok (agent_status s)).
Proof.
  intros Hf. unfold response_of, json_reply. cbn [WireJson.hr_status hr_body]. rewrite body_parse_to_string.
  - cbn [mbind option_bind]. destruct s as [|b h]; [done|]. cbn in Hf. pose proof (de_ser_bundle b Hf) as Hd.
    unfold ser_status. rewrite de_status_fields. unfold de_opt, ser_pki_bundle in *. rewrite Hd. done.
  - destruct s as [|b h]; [done|]. cbn -[ser_pki_bundle]. by rewrite bundle_writable.
Qed.
End link.

Section onboarding.
Context {SQL : Sql} {SHA : Sha256} {JS : SerdeJson} {SB : SerdeBody} {UT : UuidText} {RFC : Rfc3339} {ST : SqlxText} {PG : PgInet} {AX : AxumJson}
  {RC : Rcgen} {HX : Hex} {JP : SerdeParse} {OS : HostOs} {COD : AgentCodec} {U : UrlLib} {DNS : Dns} {CSR : CsrLib}
  {SQLL : SqlLaws} {CODL : AgentCodecLaws} {UTL : UuidTextLaws} {SBL : SerdeBodyLaws}.
Notation W := (AgentWorld Manager).

(** What the agent says about its host. *)
Definition host_report (w : W) : (string * Json) * W :=
  match detect_local_ip (E:=string) w with
  | (r, w1) => match detect_os_details (E:=string) w1 with
               | (r', w2) => ((unwrap_or "" r, unwrap_or JNull r'), w2)
               end
  end.

Lemma host_report_run (w : W) : exists w1, detect_local_ip (E:=string) w = (Ok (host_report w).1.1, w1) /\
  detect_os_details (E:=string) w1 = (Ok (host_report w).1.2, (host_report w).2) /\ json_writable (host_report w).1.2 = true /\
  aw_net (host_report w).2 = aw_net w /\ aw_fs (host_report w).2 = aw_fs w /\ aw_unwritable (host_report w).2 = aw_unwritable w.
Proof.
  assert (forall (v : W) prog args, exists o v', stdout_of (E:=string) prog args v = (Ok o, v') /\ aw_net v' = aw_net v /\ aw_fs v' = aw_fs v /\
    aw_unwritable v' = aw_unwritable v) as Hs.
  { intros v prog args. unfold stdout_of, mbind, M_bind, on_host. destruct (spawn prog args (aw_os v)) as [r h]. by eexists _, _. }
  unfold host_report, detect_local_ip, detect_os_details.
  destruct (Hs w "ip" ["-4"; "addr"; "show"; "scope"; "global"]) as (o1 & w1 & H1 & Hn1 & Hf1 & Hu1).
  destruct (Hs w1 "cat" ["/etc/os-release"]) as (o2 & w2 & H2 & Hn2 & Hf2 & Hu2).
  destruct (Hs w2 "uname" ["-m"]) as (o3 & w3 & H3 & Hn3 & Hf3 & Hu3). destruct (Hs w3 "uname" ["-r"]) as (o4 & w4 & H4 & Hn4 & Hf4 & Hu4).
  exists w1. erewrite !(bind_ok (stdout_of "ip" _)) by exact H1. cbn [mret M_ret].
  erewrite !(bind_ok (stdout_of "cat" _)) by exact H2. erewrite !(bind_ok (stdout_of "uname" ["-m"])) by exact H3.
  erewrite !(bind_ok (stdout_of "uname" ["-r"])) by exact H4. cbn -[json_writable]. split_and!; try done; try congruence.
  by destruct o2, o3, o4.
Qed.

(** The submission as the agent sends it and as the manager reads it. *)
Definition sent_submission (hn token fq csr : string) (w : W) : SubmitBody :=
  mkSubmitBody token csr fq (host_report w).1.1 hn (host_report w).1.2.
Definition submission (hn token fq csr : string) (w : W) : SubmitEnrollmentRequest :=
  mkSubmit token csr fq (host_report w).1.1 (Some hn) (json_normal (host_report w).1.2).

(** A minute passes at the manager, and it answers that the request is pending. *)
Definition pending_minute (office : Z -> Manager -> Manager) (pt : string) (m m' : Manager) : Prop :=
  poll_enrollment_status pt (office 60%Z m) = (Ok StPending, m').

Section link.
Variables (base : string) (office : Z -> Manager -> Manager).
#[local] Instance LINK : EnrollLink Manager := manager_enroll_link base office.

Lemma poll_answer pt m s m' : token_segment pt -> poll_enrollment_status pt (office 60%Z m) = (Ok s, m') -> status_fits s ->
  get_status (base +:+ "/api/v1/enroll/status/" +:+ pt) (net_sleep 60 m) = (Ok (mkResponse 200 (json_to_string (ser_status s)) (Ok (agent_status s))), m').
Proof.
  intros Hpt H Hf. cbn -[strip_prefix]. rewrite (poll_routed base pt Hpt). cbv beta iota. rewrite bool_decide_eq_true_2 by done. rewrite H. by rewrite status_read.
Qed.

Lemma pending_waits pt m m' : token_segment pt -> pending_minute office pt m m' -> waits (base +:+ "/api/v1/enroll/status/" +:+ pt) m m'.
Proof.
  intros Hpt H. eexists. split; [by apply (poll_answer pt m StPending)|]. right. right. cbn. split; [lia|]. eexists. split; [done|]. by left.
Qed.

Lemma pending_steps_wait pt k m m' : token_segment pt -> nsteps (pending_minute office pt) k m m' -> nsteps (waits (base +:+ "/api/v1/enroll/status/" +:+ pt)) k m m'.
Proof. intros Hpt. induction 1; [constructor|]. eapply nsteps_l; [by apply pending_waits|done]. Qed.

(** The agent's way to its first poll. *)
Lemma enroll_submitted draw hn token fq key csr pt m1 (w : W) : key_pem_new draw = Ok key -> csr_pem_new fq key = Ok csr ->
  body_fits (json_to_string (ser_submit_body (sent_submission hn token fq csr w))) = true ->
  on_db (submit_enrollment (submission hn token fq csr w)) (aw_net w) = (Ok pt, m1) ->
  enroll draw hn base token fq w =
    poll_loop MAX_ATTEMPTS base fq key (base +:+ "/api/v1/enroll/status/" +:+ pt) (set_net m1 (host_report w).2).
Proof.
  intros Hkey Hcsr Hfit Hsub. destruct (host_report_run w) as (w1 & Hip & Hdet & Hjw & Hn & Hf & Hun). set (w2 := (host_report w).2) in *.
  assert (post_enroll (base +:+ "/api/v1/enroll") (sent_submission hn token fq csr w) (aw_net w2) =
    (Ok (mkResponse 202 (json_to_string (ser_polling_token pt)) (Ok pt)), m1)) as Hpost.
  { cbn -[strip_prefix]. rewrite (submit_routed base), bool_decide_eq_true_2, submit_read by done. cbn [sent_submission sb_token sb_csr sb_fqdn sb_ip_address sb_hostname sb_os_details].
    fold (submission hn token fq csr w). rewrite Hn, Hsub. by rewrite token_read. }
  unfold enroll. erewrite bind_ok by (unfold lift_result; rewrite Hkey; reflexivity).
  erewrite bind_ok by (unfold lift_result; rewrite Hcsr; reflexivity). erewrite bind_ok by exact Hip. erewrite bind_ok by exact Hdet.
  erewrite bind_ok by (unfold link_call; fold w2; fold (sent_submission hn token fq csr w); rewrite Hpost; reflexivity).
  erewrite bind_ok by reflexivity. erewrite bind_ok by reflexivity. erewrite bind_ok by reflexivity. done.
Qed.
End link.

End onboarding.

(** ** Examples *)

#[local] Existing Instances toy_sql toy_sha256 text_serde text_body toy_uuid_text toy_rfc3339 toy_sqlx toy_pg toy_axum toy_rcgen toy_hex
  toy_json_parse toy_os toy_codec toy_url toy_dns toy_sql_laws toy_codec_laws toy_uuid_text_laws text_body_laws.

Definition toy_csr_lib : CsrLib := {| key_pem_new _ := Ok "key"; csr_pem_new _ _ := Ok "csr" |}.
#[local] Existing Instance toy_csr_lib.
Definition token_manager : Manager := mkManager enroll_db ∅.
Definition new_agent : AgentWorld Manager := toy_world token_manager AgentConfig_default (mkToyHost [] []).
(** While the agent sleeps, a minute passes and, from the second time on, an
    administrator approves its request. *)
Definition toy_office (secs : Z) (m : Manager) : Manager :=
  if (60 <=? db_now (mg_db m))%Z then final (approve_enrollment ex_cfg ex_ca (ex_admin Admin) (uuid_of 101)) m
  else mkManager (set_db_now (db_now (mg_db m) + secs)%Z (mg_db m)) (mg_approved m).
Notation toy_submission := (submission "h" "secret" "h.example" "csr" new_agent).
Definition submitted : Manager := snd (on_db (E:=AppError) (submit_enrollment toy_submission) token_manager).
Definition waited : Manager := toy_office 60 submitted.
Definition poll_token : string := uuid_to_string (uuid_of 100).
Notation toy_enroll := (enroll (LINK:=manager_enroll_link "https://m" toy_office) 0 "h" "https://m" "secret" "h.example").
Definition submitted_row : EnrollmentRequest :=
  mkEnrollmentRequest (uuid_of 101) "h.example-127.0.0.1" "h.example" "127.0.0.1" (Some "h") (JObj [])
    (sha256_hex poll_token) (Some "csr") 0 DAY.

Lemma pair_fst_eta {A B} (p : A * B) a : fst p = a -> p = (a, snd p).
Proof. destruct p. by intros <-. Qed.

Lemma submitted_run : on_db (E:=AppError) (submit_enrollment toy_submission) token_manager = (Ok poll_token, submitted).
Proof. unfold submitted. apply pair_fst_eta. vm_compute. reflexivity. Qed.

Lemma waited_approvable : approvable (ex_admin Admin) (uuid_of 101) waited submitted_row ex_ca "csr" "csr".
Proof.
  assert (db_certs (mg_db waited) = []) as Hc by (vm_compute; reflexivity).
  split; [vm_compute; reflexivity..| |]; [intros p; reflexivity|]. rewrite Hc. apply not_elem_of_nil.
Qed.

Lemma poll_token_segment : token_segment poll_token.
Proof. split; [reflexivity|]. split; [reflexivity|]. apply (bool_decide_unpack _). vm_compute. exact I. Qed.

Lemma pending_once : nsteps (pending_minute toy_office poll_token) 1 submitted waited.
Proof. apply nsteps_once. unfold pending_minute, waited. vm_compute. reflexivity. Qed.


Definition toy_identity : HttpIdentity := {| identity_check _ _ := Ok tt; ca_check _ := Ok tt; client_build _ _ _ _ := Ok tt |}.
#[local] Existing Instances toy_identity toy_shlex.

Lemma enroll_then_daemon_starts_witness :
  exists w' key, toy_enroll new_agent = (Ok tt, w') /\ aw_fs w' !! (CERT_DIR +:+ "/server.key.pem") = Some (mkFile key 384).
Proof.
  assert (is_ok (fst (toy_enroll new_agent)) = true) as Ho by (vm_compute; reflexivity).
  destruct (toy_enroll new_agent) as [[[]|e] w'] eqn:He; [|discriminate Ho].
  destruct (enroll_then_daemon_starts (LINK:=manager_enroll_link "https://m" toy_office)
    0 "h" "https://m" "secret" "h.example" new_agent w' He eq_refl) as (key & s & bundle & cfg & _ & _ & Hk & _).
  exists w', key. split; [reflexivity|exact Hk].
Defined.

(** A request that is pending at the first poll and denied at the second. *)
Definition denying_office (secs : Z) (m : Manager) : Manager :=
  if (60 <=? db_now (mg_db m))%Z then final (on_db (E:=AppError) (deny_enrollment (ex_admin Admin) (uuid_of 101))) m
  else mkManager (set_db_now (db_now (mg_db m) + secs)%Z (mg_db m)) (mg_approved m).

Definition denied_manager : Manager := denying_office 60 waited.
Notation denied_url := ("https://m/api/v1/enroll/status/" +:+ poll_token).
Definition waiting_agent : AgentWorld Manager := toy_world submitted AgentConfig_default (mkToyHost [] []).

Lemma polling_follows_answers_witness :
  poll_loop (LINK:=manager_enroll_link "https://m" denying_office) MAX_ATTEMPTS "https://m" "h.example" "key" denied_url waiting_agent =
    (Err "Enrollment expired or not found", set_net denied_manager waiting_agent).
Proof.
  destruct (polling_follows_answers (LINK:=manager_enroll_link "https://m" denying_office) "https://m" "h.example" "key" denied_url waiting_agent)
    as (_ & _ & H).
  destruct (H 1%nat waited (response_of de_status_response (error_reply (NotFound "Enrollment not found or expired"))) denied_manager)
    as (_ & H404 & _); [lia| |vm_compute; reflexivity|apply H404; vm_compute; reflexivity].
  apply nsteps_once. exists (Ok (mkResponse 200 (json_to_string (ser_status StPending)) (Ok (agent_status StPending)))).
  split; [vm_compute; reflexivity|]. right. right. cbn. split; [lia|]. eexists. split; [reflexivity|]. left. done.
Defined.
