(* ===== verification/WebApi.v ===== *)
(** * WebApi: the users' server as a whole

    Every handler of [crates/fw-web/src/routes/] that [build_router] serves, behind
    the router and its layers, with its extractors: the identity [require_auth]
    left, the captures of the path, the query, the JSON body. The state is all of
    [AppState] and what it shares with the listener: the database, the approved
    bundles, the address lists in force, the CA's files, the TLS configuration, the
    notifiers and streams. A reply is its status; the bodies of replies are left out. *)

From S2P Require Import Prelude Text Models Net Files Wire WireJson Db AuditLog Auth Router AgentApi Events PolicyAdmin Deployment.
From S2P Require Import Ca Listener Login Users Settings Enrollment Views AgentHttp WebBodies.

(** ** State *)

(** What the handlers are configured with. *)
Record SiteConfig {RC : Rcgen} := mkSiteConfig {
  sc_server : ServerConfig; sc_ca : CertAuthority; sc_tls : TlsPaths; sc_signing_key : string
}.

(** [thread_rng().sample_iter(&Alphanumeric).take(64)]. *)
Class RandomToken := { random_token : N -> string }.
(** [Query<DriftSnapshotQuery>] (the [serde_urlencoded] crate's reading). *)
Class QueryLib := { drift_query : string -> option (option Uuid * option Z) }.

Record ApiRequest := mkApiRequest {
  aq_http : HttpRequest; aq_query : string; aq_json : bool; aq_body : string
}.

Section web.
Context {SQL : Sql} {SHA : Sha256} {JS : SerdeJson} {SB : SerdeBody} {JP : SerdeParse} {UT : UuidText} {RFC : Rfc3339}
  {PG : PgInet} {IPN : IpNetLib} {HOST : IpNetHost} {JWT : Jwt} {A2 : Argon2} {UNI : Unicode} {COL : Collation} {PJ : PgJson}
  {RC : Rcgen} {HX : Hex} {B64 : Base64} {X : X509} {RL : Rustls} {TN : TokioNotify} {AX : AxumJson}
  {RT : RandomToken} {QL : QueryLib}.

Record Site := mkSite {
  st_db : Db; st_approved : gmap string ApprovedEntry; st_auth : AuthConfig; st_disk : Disk;
  st_acceptor : option TlsConfig; st_notify : gmap Uuid Notify; st_tasks : list EventTask
}.

Notation SITE := (M Site AppError).

Definition set_st_db (d : Db) (s : Site) : Site :=
  mkSite d (st_approved s) (st_auth s) (st_disk s) (st_acceptor s) (st_notify s) (st_tasks s).

(** The parts of the state the handlers of each file work on. *)
Definition on_site_db {A} (m : DB A) : SITE A := fun s => let '(r, d) := m (st_db s) in (r, set_st_db d s).
Definition on_manager {A} (m : MG A) : SITE A := fun s =>
  let '(r, g) := m (mkManager (st_db s) (st_approved s)) in
  (r, mkSite (mg_db g) (mg_approved g) (st_auth s) (st_disk s) (st_acceptor s) (st_notify s) (st_tasks s)).
Definition on_lists {A} (m : M Web AppError A) : SITE A := fun s =>
  let '(r, w) := m (mkWeb (st_db s) (st_auth s)) in
  (r, mkSite (web_db w) (st_approved s) (web_auth w) (st_disk s) (st_acceptor s) (st_notify s) (st_tasks s)).
Definition on_server {A} (m : M Server AppError A) : SITE A := fun s =>
  let '(r, v) := m (mkServer (mkCaWorld (st_disk s) (st_db s)) (st_acceptor s)) in
  (r, mkSite (cw_db (sv_world v)) (st_approved s) (st_auth s) (cw_disk (sv_world v)) (sv_acceptor v) (st_notify s) (st_tasks s)).
Definition on_events {A} (m : M Events AppError A) : SITE A := fun s =>
  let '(r, e) := m (mkEvents (st_db s) (st_notify s) (st_tasks s)) in
  (r, mkSite (es_db e) (st_approved s) (st_auth s) (st_disk s) (st_acceptor s) (es_notify e) (es_tasks e)).

(** ** Extractors and replies *)

(** A handler on a request: the status of its reply. *)
Definition Handler : Type := Site -> Z * Site.

(** A reply made without the handler's body. *)
Definition finish (status : Z) : Handler := fun s => (status, s).

(** An error is answered with its status. *)
Definition respond {A} (code : A -> Z) (m : SITE A) : Handler := fun s =>
  match m s with
  | (Ok a, s') => (code a, s')
  | (Err e, s') => ((into_response e).1, s')
  end.
Definition answer {A} (m : DB A) : Handler := respond (fun _ => 200%Z) (on_site_db m).
Definition answer_code (m : DB Z) : Handler := respond id (on_site_db m).

Definition with_user (user : option AuthUser) (k : AuthUser -> Handler) : Handler :=
  match auth_user_from_parts user with Ok u => k u | Err (status, _) => finish status end.

(** [Path]: a capture that is not a UUID is a bad request, a wrong number of them
    a mistake of the server. *)
Definition with_id (caps : list string) (k : Uuid -> Handler) : Handler :=
  match caps with
  | [s] => match uuid_parse s with Some id => k id | None => finish 400 end
  | _ => finish 500
  end.
Definition with_ids (caps : list string) (k : Uuid -> Uuid -> Handler) : Handler :=
  match caps with
  | [s; t] => match uuid_parse s, uuid_parse t with Some a, Some b => k a b | _, _ => finish 400 end
  | _ => finish 500
  end.
Definition with_text (caps : list string) (k : string -> Handler) : Handler :=
  match caps with [s] => k s | _ => finish 500 end.

(** [Json]: a content type of JSON, a body within the limit and of the right shape. *)
Definition with_json_body {A} (q : ApiRequest) (de : Json -> option A) (k : A -> Handler) : Handler :=
  if aq_json q then match json_body de (aq_body q) with Ok a => k a | Err r => finish (hr_status r) end else finish 415.
Definition with_query (q : ApiRequest) (k : option Uuid * option Z -> Handler) : Handler :=
  match drift_query (aq_query q) with Some x => k x | None => finish 400 end.

(** ** The handlers, by name *)

Section table.
Variable cfg : SiteConfig.
Variable q : ApiRequest.
Variable caps : list string.
Variable user : option AuthUser.

(** Those that need no identity, or (logout) are given none. *)
Definition open_table : list (string * Handler) := [
  ("health::health_handler", answer health_handler);
  ("health::fleet_status_handler", answer fleet_status_handler);
  ("auth::login", with_json_body q de_login_request (fun req => answer (login (sc_signing_key cfg) req)));
  ("auth::refresh_token", with_json_body q de_refresh_request (fun token => answer (refresh_token (sc_signing_key cfg) token)));
  ("auth::logout", with_user user (fun u => with_json_body q de_refresh_request (fun token => answer_code (logout u token))));
  ("enrollment::submit_enrollment", with_json_body q de_submit_enrollment (fun req =>
     respond (fun _ => 202%Z) (on_site_db (submit_enrollment req))));
  ("enrollment::poll_enrollment_status", with_text caps (fun token =>
     respond (fun _ => 200%Z) (on_manager (poll_enrollment_status token))));
  ("pki::get_crl_pem", respond fst (on_site_db (get_crl_pem (sc_ca cfg))))].

(** Those that answer any user. *)
Definition reading_table (u : AuthUser) : list (string * Handler) := [
  ("auth::get_me", finish 200);
  ("auth::mfa_setup", with_json_body q de_mfa_setup_request (fun r => answer_code (mfa_setup u r.1 r.2)));
  ("auth::mfa_verify", with_json_body q de_mfa_verify_request (fun code => answer_code (mfa_verify u code)));
  ("auth::change_password", with_json_body q de_change_password_request (fun r => answer_code (change_password u r.1 r.2)));
  ("hosts::list_hosts", answer list_hosts);
  ("hosts::get_host", with_id caps (fun id => answer (get_host id)));
  ("hosts::get_host_policy_sets", with_id caps (fun id => answer (get_host_policy_sets id)));
  ("hosts::get_protected_cidrs", with_id caps (fun id => answer (get_protected_cidrs id)));
  ("hosts::get_drift_snapshots", with_id caps (fun id => answer (get_drift_snapshots id)));
  ("hosts::get_check_ins", with_id caps (fun id => answer (get_check_ins id)));
  ("hosts::force_check_in", with_id caps (fun id => respond (fun c => c) (on_events (force_check_in id))));
  ("groups::list_groups", answer list_groups);
  ("groups::get_group", with_id caps (fun id => answer (get_group id)));
  ("users::list_users", answer list_users);
  ("users::get_user", with_id caps (fun id => answer (get_user id)));
  ("rules::list_rules", answer list_rules);
  ("rules::list_flagged_rules", answer list_flagged_rules);
  ("rules::get_rule", with_id caps (fun id => answer (get_rule id)));
  ("rules::validate_rule", with_id caps (fun id => answer (validate_rule id)));
  ("rule_groups::list_rule_groups", answer list_rule_groups);
  ("rule_groups::get_rule_group", with_id caps (fun id => answer (get_rule_group id)));
  ("rule_groups::list_group_rules", with_id caps (fun id => answer (list_group_rules id)));
  ("policy_sets::list_policy_sets", answer list_policy_sets);
  ("policy_sets::get_policy_set", with_id caps (fun id => answer (get_policy_set id)));
  ("policy_sets::list_policy_set_rules", with_id caps (fun id => answer (list_policy_set_rules id)));
  ("policy_sets::list_policy_set_groups", with_id caps (fun id => answer (list_policy_set_groups id)));
  ("policy_sets::preview_compilation", with_id caps (fun id => answer (preview_compilation id)));
  ("deployment::preview_assignment", with_json_body q de_policy_set_id (fun ps => answer (preview_assignment ps)));
  ("ca::get_ca_info", answer (get_ca_info (sc_ca cfg)));
  ("ca::get_crl", answer (get_crl (sc_ca cfg)));
  ("certificates::list_certs", answer list_certs);
  ("certificates::get_cert", with_id caps (fun id => answer (get_cert id)));
  ("drift::list_drift_snapshots", with_query q (fun x => answer (list_drift_snapshots x.1 x.2)));
  ("settings::get_settings", answer get_settings);
  ("settings::get_ip_whitelist", answer get_ip_whitelist);
  ("settings::get_trusted_proxies", answer get_trusted_proxies);
  ("settings::get_oidc_config", answer get_oidc_config);
  ("settings::get_smtp_config", answer get_smtp_config);
  ("enrollment::list_enrollments", answer list_enrollments);
  ("enrollment::list_tokens", answer list_tokens)].

(** Those that check [can_write]. *)
Definition writing_table (u : AuthUser) : list (string * Handler) := [
  ("hosts::update_host", with_id caps (fun id => with_json_body q de_update_host (fun r => answer (update_host u id r.1 r.2))));
  ("hosts::assign_policy_set", with_id caps (fun id => with_json_body q de_policy_set_id (fun ps =>
     answer_code (host_assign_policy_set u id ps))));
  ("hosts::unassign_policy_set", with_ids caps (fun id ps => answer_code (host_unassign_policy_set u id ps)));
  ("groups::create_group", with_json_body q de_create_group_request (fun r =>
     respond fst (on_site_db (create_group u r.1 r.2))));
  ("groups::add_host_to_group", with_ids caps (fun id host => answer_code (add_host_to_group u id host)));
  ("groups::remove_host_from_group", with_ids caps (fun id host => answer_code (remove_host_from_group u id host)));
  ("rules::update_rule", with_id caps (fun id => with_json_body q de_update_rule (fun req => answer (update_rule u id req))));
  ("rules::delete_rule", with_id caps (fun id => answer_code (delete_rule u id)));
  ("rule_groups::create_rule_group", with_json_body q de_create_group_request (fun r =>
     respond fst (on_site_db (create_rule_group u r.1 r.2))));
  ("rule_groups::update_rule_group", with_id caps (fun id => with_json_body q de_update_rule_group (fun r =>
     answer (update_rule_group u id r.1 r.2))));
  ("rule_groups::delete_rule_group", with_id caps (fun id => answer_code (delete_rule_group u id)));
  ("rule_groups::create_rule_in_group", with_id caps (fun id => with_json_body q de_create_rule (fun req =>
     respond fst (on_site_db (create_rule_in_group u id req)))));
  ("rule_groups::reorder_group_rules", with_id caps (fun id => with_json_body q de_reorder_rules_request (fun ids =>
     answer_code (reorder_group_rules u id ids))));
  ("policy_sets::create_policy_set", with_json_body q de_create_policy_set (fun req =>
     respond fst (on_site_db (create_policy_set u req))));
  ("policy_sets::update_policy_set", with_id caps (fun id => with_json_body q de_update_policy_set (fun req =>
     answer (update_policy_set u id req))));
  ("policy_sets::delete_policy_set", with_id caps (fun id => answer_code (delete_policy_set u id)));
  ("policy_sets::add_group_to_set", with_id caps (fun id => with_json_body q de_add_group_request (fun r =>
     answer_code (add_group_to_set u id r.1 r.2))));
  ("policy_sets::remove_group_from_set", with_ids caps (fun id group => answer_code (remove_group_from_set u id group)));
  ("policy_sets::reorder_groups", with_id caps (fun id => with_json_body q de_reorder_groups_request (fun ids =>
     answer_code (reorder_groups u id ids))));
  ("deployment::assign_policy_set", with_json_body q de_assign_request (fun r =>
     respond fst (on_site_db (assign_policy_set u r.1.1 r.1.2 r.2))));
  ("deployment::unassign_policy_set", with_json_body q de_assign_request (fun r =>
     answer (unassign_policy_set u r.1.1 r.1.2 r.2)))].

(** Those that check [is_admin]. *)
Definition admin_table (u : AuthUser) : list (string * Handler) := [
  ("hosts::delete_host", with_id caps (fun id => answer_code (delete_host u id)));
  ("hosts::add_protected_cidr", with_id caps (fun id => with_json_body q de_add_protected_cidr (fun r =>
     answer_code (add_protected_cidr u id r.1 r.2))));
  ("groups::delete_group", with_id caps (fun id => answer_code (delete_group u id)));
  ("users::create_user", with_json_body q de_create_user (fun req => respond fst (on_site_db (create_user u req))));
  ("users::update_user", with_id caps (fun id => with_json_body q de_update_user (fun req => answer (update_user u id req))));
  ("users::delete_user", with_id caps (fun id => answer_code (delete_user u id)));
  ("certificates::revoke_cert", with_id caps (fun id =>
     respond (fun c => c) (on_server (revoke_cert (sc_ca cfg) (sc_tls cfg) u id))));
  ("settings::update_settings", with_json_body q de_update_settings (fun req => answer (update_settings u req)));
  ("settings::update_ip_whitelist", with_json_body q de_update_list (fun l =>
     respond (fun c => c) (on_lists (put_ip_whitelist u l))));
  ("settings::update_trusted_proxies", with_json_body q de_update_list (fun l =>
     respond (fun c => c) (on_lists (put_trusted_proxies u l))));
  ("settings::update_oidc_config", with_json_body q de_value (fun j => answer_code (update_oidc_config u j)));
  ("settings::update_smtp_config", with_json_body q de_value (fun j => answer_code (update_smtp_config u j)));
  ("enrollment::approve_enrollment", with_id caps (fun id =>
     respond (fun c => c) (on_manager (approve_enrollment (sc_server cfg) (sc_ca cfg) u id))));
  ("enrollment::deny_enrollment", with_id caps (fun id => answer_code (deny_enrollment u id)));
  ("enrollment::create_token", with_json_body q de_create_token (fun r =>
     answer (_ ← require_admin_role u; n ← draw; create_token u (random_token n) r.1.1 r.1.2 r.2)));
  ("enrollment::revoke_token", with_text caps (fun hash => answer_code (revoke_token u hash)))].

Definition user_table (u : AuthUser) : list (string * Handler) := reading_table u ++ writing_table u ++ admin_table u.

Definition entry (name : string) (table : list (string * Handler)) : option Handler :=
  snd <$> List.find (fun x => bool_decide (x.1 = name)) table.

(** A name outside the table does not occur in the router ([handlers_complete]). *)
Definition api_handler (name : string) : Handler :=
  match entry name open_table with
  | Some h => h
  | None => with_user user (fun u => default (finish 500) (entry name (user_table u)))
  end.
End table.

(** ** The server *)

Definition serve_site (cfg : SiteConfig) (limited : string -> bool) (q : ApiRequest) (s : Site) : Served Z * Site :=
  let '(r, d) := serve (fun name caps user => mret (api_handler cfg q caps user name)) (st_auth s) limited build_router
                   (aq_http q) (st_db s) in
  let s' := set_st_db d s in
  match r with
  | Ok (Handled h) => let '(status, s'') := h s' in (Handled status, s'')
  | Ok Fallback => (Fallback, s')
  | Ok MethodNotAllowed => (MethodNotAllowed, s')
  | Ok (Refused refusal) => (Refused refusal, s')
  | Err e => (Handled (into_response e).1, s')
  end.

(** Every handler the router names is in the tables, and every entry is routed. *)
Lemma handlers_complete cfg q caps u : let tables := open_table cfg q caps (Some u) ++ user_table cfg q caps u in
  let routed := mjoin (map (fun e => (ep_methods e).*2) build_router) in
  (forall name, name ∈ routed -> name ∈ map fst tables) /\ (forall name, name ∈ map fst tables -> name ∈ routed).
Proof.
  cbv zeta. split; apply Forall_forall, (bool_decide_unpack _); vm_compute; exact I.
Qed.
End web.
