(* ===== verification/WebApiKeeps.v ===== *)
(** * WebApiKeeps: what a request to the users' server keeps

    Properties of the state that the handlers of [WebApi] keep, table by table: a
    property that the audit log has no part in is kept by every handler that only
    reads, and by the others if the operations behind them keep it. *)

From S2P Require Import Prelude Text Models Net Files Wire WireJson Db AuditLog Auth Router AgentApi Events PolicyAdmin Deployment.
From S2P Require Import AdminFacts Ca Listener Login LoginFacts Users Settings SettingsFacts Enrollment TypedDb Views AgentHttp WebBodies WebApi.

(** One step of a [keeps] proof of a handler. *)
Ltac view_step := int_step || match goal with
  | |- keeps _ (if ?x then _ else _) => destruct x
  | |- keeps _ (match ?x with _ => _ end) => destruct x
  | |- keeps _ (throw _) => apply keeps_throw
  | |- keeps _ (gets _) => apply keeps_gets
  | |- keeps _ (lift_result _) => apply keeps_lift
  end.

Section extractors.
Context {SQL : Sql} {SHA : Sha256} {JS : SerdeJson} {SB : SerdeBody} {JP : SerdeParse} {UT : UuidText} {RFC : Rfc3339}
  {PG : PgInet} {IPN : IpNetLib} {HOST : IpNetHost} {JWT : Jwt} {A2 : Argon2} {UNI : Unicode} {COL : Collation} {PJ : PgJson}
  {RC : Rcgen} {HX : Hex} {B64 : Base64} {X : X509} {RL : Rustls} {TN : TokioNotify} {AX : AxumJson}
  {RT : RandomToken} {QL : QueryLib}.

(** A handler keeps [P]. *)
Definition hkeeps (P : Site -> Prop) (h : Handler) : Prop := forall s, P s -> P (h s).2.

(** [P] of a state whose database is [d]. *)
Definition at_db (P : Site -> Prop) (s : Site) (d : Db) : Prop := P (set_st_db d s).

(** An entry of a table. *)
Lemma entry_in name (t : list (string * Handler)) h : entry name t = Some h -> (name, h) ∈ t.
Proof.
  unfold entry. destruct (List.find _ t) as [[n k]|] eqn:Hf; [|done]. intros [= <-]. apply find_some in Hf as [Hin Hn].
  apply bool_decide_eq_true in Hn as <-. by apply list_elem_of_In.
Qed.

Lemma set_st_db_id s : set_st_db (st_db s) s = s.
Proof. by destruct s. Qed.

Lemma hkeeps_finish P status : hkeeps P (finish status).
Proof. by intros s. Qed.

Lemma hkeeps_respond P {A} (code : A -> Z) (m : M Site AppError A) : keeps P m -> hkeeps P (respond code m).
Proof. intros Hm s Hs. specialize (Hm s Hs). unfold respond, final in *. by destruct (m s) as [[a|e] s']. Qed.

Lemma keeps_on_site_db P {A} (m : DB A) : (forall s, keeps (at_db P s) m) -> keeps P (on_site_db m).
Proof.
  intros Hm s Hs. specialize (Hm s (st_db s)). unfold final, at_db, on_site_db in *. rewrite set_st_db_id in Hm.
  destruct (m (st_db s)). by apply Hm.
Qed.

(** The extractors. *)
Lemma hkeeps_json P {A} q (de : Json -> option A) k : (forall j a, de j = Some a -> hkeeps P (k a)) -> hkeeps P (with_json_body q de k).
Proof.
  intros Hk. unfold with_json_body. destruct (aq_json q); [|apply hkeeps_finish]. unfold json_body.
  destruct (body_fits _); [|apply hkeeps_finish]. destruct (body_parse _ ≫= de) as [a|] eqn:Ha; [|apply hkeeps_finish].
  apply bind_Some in Ha as (j & _ & Hj). by eapply Hk.
Qed.
Lemma hkeeps_id P caps k : (forall a, hkeeps P (k a)) -> hkeeps P (with_id caps k).
Proof. intros Hk. unfold with_id. repeat case_match; first [apply Hk|apply hkeeps_finish]. Qed.
Lemma hkeeps_ids P caps k : (forall a b, hkeeps P (k a b)) -> hkeeps P (with_ids caps k).
Proof. intros Hk. unfold with_ids. repeat case_match; first [apply Hk|apply hkeeps_finish]. Qed.
Lemma hkeeps_text P caps k : (forall a, hkeeps P (k a)) -> hkeeps P (with_text caps k).
Proof. intros Hk. unfold with_text. repeat case_match; first [apply Hk|apply hkeeps_finish]. Qed.
Lemma hkeeps_query P q k : (forall a, hkeeps P (k a)) -> hkeeps P (with_query q k).
Proof. intros Hk. unfold with_query. case_match; [apply Hk|apply hkeeps_finish]. Qed.
Lemma hkeeps_user P user k : (forall u, user = Some u -> hkeeps P (k u)) -> hkeeps P (with_user user k).
Proof. intros Hk. unfold with_user. destruct user as [u|]; cbn; [by apply Hk|apply hkeeps_finish]. Qed.

End extractors.

(** Walk from a handler's extractors down to the database operation. *)
Ltac handler_step :=
  match goal with
  | |- hkeeps _ (finish _) => apply hkeeps_finish
  | |- hkeeps _ (with_json_body _ _ _) => apply hkeeps_json; intros ? ? ?
  | |- hkeeps _ (with_id _ _) => apply hkeeps_id; intros ?
  | |- hkeeps _ (with_ids _ _) => apply hkeeps_ids; intros ? ?
  | |- hkeeps _ (with_text _ _) => apply hkeeps_text; intros ?
  | |- hkeeps _ (with_query _ _) => apply hkeeps_query; intros ?
  | |- hkeeps _ (with_user _ _) => apply hkeeps_user; intros ? ?
  | |- hkeeps _ (answer _) => apply hkeeps_respond, keeps_on_site_db; intros ?
  | |- hkeeps _ (answer_code _) => apply hkeeps_respond, keeps_on_site_db; intros ?
  | |- hkeeps _ (respond _ (on_site_db _)) => apply hkeeps_respond, keeps_on_site_db; intros ?
  end.

Section tables.
Context {SQL : Sql} {SHA : Sha256} {JS : SerdeJson} {SB : SerdeBody} {JP : SerdeParse} {UT : UuidText} {RFC : Rfc3339}
  {PG : PgInet} {IPN : IpNetLib} {HOST : IpNetHost} {JWT : Jwt} {A2 : Argon2} {UNI : Unicode} {COL : Collation} {PJ : PgJson}
  {RC : Rcgen} {HX : Hex} {B64 : Base64} {X : X509} {RL : Rustls} {TN : TokioNotify} {AX : AxumJson}
  {RT : RandomToken} {QL : QueryLib}.

(** ** Reading *)

(** A property of the state that neither the audit log nor a failed statement has
    a part in. *)
Class Unlogged (P : Site -> Prop) := unlogged s :: Unaudited (at_db P s).

Section any.
Context (P : Site -> Prop) `{!Unlogged P}.

Lemma keeps_protected_cidrs (Q : Db -> Prop) `{!Unaudited Q} id : keeps Q (get_protected_cidrs id).
Proof.
  intros d Hd. unfold final, get_protected_cidrs, query.
  destruct (db_faults d) as [|[] fs]; [|by apply un_faults|]; repeat case_match; try done; by apply un_faults.
Qed.

Lemma keeps_generate_crls (Q : Db -> Prop) `{!Unaudited Q} ca :
  (forall x d, Q d -> Q (set_db_crl_counter x d)) -> keeps Q (generate_crls ca).
Proof.
  intros Hc. assert (forall {A} (m : DB A), keeps Q m -> keeps Q (cert_db m)) as Hcert.
  { intros A m Hm d Hd. specialize (Hm d Hd). unfold final, cert_db in *. by destruct (m d). }
  unfold generate_crls, sign_group.
  repeat (view_step || apply Hcert). all: unfold bump_crl_number in *; case_match; simplify_eq; by apply Hc.
Qed.

Lemma keeps_get_crl (Q : Db -> Prop) `{!Unaudited Q} ca :
  (forall x d, Q d -> Q (set_db_crl_counter x d)) -> keeps Q (get_crl ca).
Proof.
  intros Hc d Hd. pose proof (keeps_generate_crls Q ca Hc d Hd) as H. unfold final, get_crl in *. by destruct (generate_crls ca d).
Qed.

(** A forced check-in reads the database and moves the notifiers and streams. *)
Lemma notify_result_db h r (e : Events) : es_db (notify_result h r e) = es_db e.
Proof. unfold notify_result, wake, set_task, set_notify. by repeat case_match. Qed.

Lemma keeps_force id :
  (forall s n t, P s -> P (mkSite (st_db s) (st_approved s) (st_auth s) (st_disk s) (st_acceptor s) n t)) ->
  keeps P (on_events (force_check_in id)).
Proof.
  intros Hn s Hs. pose proof (keeps_fetch (at_db P s) (host_exists id) un_faults (st_db s)) as Hf.
  unfold at_db in Hf at 1. rewrite set_st_db_id in Hf. specialize (Hf Hs). unfold final, on_events, force_check_in in *. cbn [es_db].
  destruct (fetch (host_exists id) (st_db s)) as [r d]. cbn [snd] in Hf.
  destruct r as [[]|e]; cbn [snd]; rewrite ?notify_result_db; cbn [es_db]; apply (Hn (set_st_db d s)), Hf.
Qed.

(** The handlers any user may call keep what the three of them keep that write. *)
Lemma reading_keeps cfg q caps u name h : (name, h) ∈ reading_table cfg q caps u ->
  (forall cur new s, keeps (at_db P s) (change_password u cur new)) ->
  (forall id, keeps P (on_events (force_check_in id))) ->
  (forall x s d, at_db P s d -> at_db P s (set_db_crl_counter x d)) ->
  hkeeps P h.
Proof.
  intros Hin Hpw Hforce Hcrl. unfold reading_table in Hin. rewrite !elem_of_cons, elem_of_nil in Hin.
  repeat match type of Hin with _ \/ _ => destruct Hin as [Hin|Hin] end; try done; injection Hin as _ ->; repeat handler_step.
  all: try solve [apply Hpw | apply hkeeps_respond, Hforce | apply keeps_protected_cidrs, _ | apply keeps_get_crl; [apply _|intros ? ?; apply Hcrl]].
  all: unfold mfa_setup, mfa_verify, list_hosts, get_host, get_host_policy_sets, get_drift_snapshots, get_check_ins, list_groups, get_group,
    list_users, get_user, list_rules, list_flagged_rules, all_rules, get_rule, validate_rule, list_rule_groups, get_rule_group, list_group_rules,
    list_policy_sets, get_policy_set, list_policy_set_rules, rules_for_policy_set, list_policy_set_groups, preview_compilation,
    preview_assignment, get_ca_info, list_certs, get_cert, list_drift_snapshots, get_settings, get_config_json, get_ip_whitelist,
    get_trusted_proxies, get_oidc_config, get_smtp_config, list_enrollments, list_tokens; repeat view_step.
  all: unfold get_rule, rules_for_policy_set; repeat view_step.
Qed.

(** Those that need no identity: what the six of them keep that write. *)
Lemma open_keeps cfg q caps user name h : (name, h) ∈ open_table cfg q caps user ->
  (forall req s, keeps (at_db P s) (login (sc_signing_key cfg) req)) ->
  (forall token s, keeps (at_db P s) (refresh_token (sc_signing_key cfg) token)) ->
  (forall u token s, keeps (at_db P s) (logout u token)) ->
  (forall req s, keeps (at_db P s) (submit_enrollment req)) ->
  (forall token, keeps P (on_manager (poll_enrollment_status token))) ->
  (forall x s d, at_db P s d -> at_db P s (set_db_crl_counter x d)) ->
  hkeeps P h.
Proof.
  intros Hin Hlogin Hrefresh Hlogout Hsubmit Hpoll Hcrl. unfold open_table in Hin. rewrite !elem_of_cons, elem_of_nil in Hin.
  repeat match type of Hin with _ \/ _ => destruct Hin as [Hin|Hin] end; try done; injection Hin as _ ->; repeat handler_step.
  - unfold health_handler. repeat view_step.
  - unfold fleet_status_handler, count_or_zero. repeat view_step.
  - apply Hlogin.
  - apply Hrefresh.
  - apply Hlogout.
  - apply Hsubmit.
  - apply hkeeps_respond, Hpoll.
  - unfold get_crl_pem. repeat view_step. apply keeps_generate_crls; [apply _|intros ? ?; apply Hcrl].
Qed.

(** A request that runs [m] has the effects of [m]. *)
Lemma keeps_run {W E A} (Q : W -> Prop) (m : M W E A) : keeps Q (_ ← m; mret tt) -> keeps Q m.
Proof. intros H w Hw. specialize (H w Hw). rewrite bind_final in H. by destruct (outcome m w). Qed.

Definition deletes_host (op : AdminOp) : bool := match op with OpDeleteHost _ => true | _ => false end.

(** What [serde] checks of the integers of a rule. *)
Lemma create_rule_typed j req : de_create_rule j = Some req -> create_typed req.
Proof.
  unfold de_create_rule. intros H. repeat (apply bind_Some in H as (? & ? & H)). simplify_eq.
  split; unfold opt_fits; cbn.
  - match goal with Hp : de_opt_field _ "priority" _ = _ |- _ => by apply de_opt_field_int in Hp end.
  - match goal with Hp : de_opt_field _ "group_order" _ = _ |- _ => by apply de_opt_field_int in Hp end.
Qed.
Lemma update_rule_typed j req : de_update_rule j = Some req -> update_typed req.
Proof.
  unfold de_update_rule. intros H. repeat (apply bind_Some in H as (? & ? & H)). simplify_eq.
  unfold update_typed, opt_fits. cbn. match goal with Hp : de_opt_field _ "priority" _ = _ |- _ => by apply de_opt_field_int in Hp end.
Qed.

Lemma add_group_typed j r : de_add_group_request j = Some r -> opt_fits 32 r.2.
Proof.
  unfold de_add_group_request. intros H. repeat (apply bind_Some in H as (? & ? & H)). simplify_eq. unfold opt_fits. cbn.
  match goal with Hp : de_opt_field _ "set_group_order" _ = _ |- _ => by apply de_opt_field_int in Hp end.
Qed.

(** Those that check [can_write]: the operations of [AdminFacts] and the groups of hosts. *)
Lemma writing_keeps q caps u name h : (name, h) ∈ writing_table q caps u ->
  (forall op s, op_typed op -> deletes_host op = false -> keeps (at_db P s) (run_op u op)) ->
  (forall n d s, keeps (at_db P s) (create_group u n d)) ->
  (forall id host s, keeps (at_db P s) (add_host_to_group u id host)) ->
  (forall id host s, keeps (at_db P s) (remove_host_from_group u id host)) ->
  hkeeps P h.
Proof.
  intros Hin Hop Hcreate Hadd Hremove. unfold writing_table in Hin. rewrite !elem_of_cons, elem_of_nil in Hin.
  repeat match type of Hin with _ \/ _ => destruct Hin as [Hin|Hin] end; try done; injection Hin as _ ->; repeat handler_step.
  1: refine (keeps_run _ _ (Hop (OpUpdateHost _ _ _) _ _ _)); done.
  1: refine (keeps_run _ _ (Hop (OpHostAssign _ _) _ _ _)); done.
  1: refine (keeps_run _ _ (Hop (OpHostUnassign _ _) _ _ _)); done.
  1: apply Hcreate.
  1: apply Hadd.
  1: apply Hremove.
  1: refine (keeps_run _ _ (Hop (OpUpdateRule _ _) _ _ _)); [by eapply update_rule_typed|done].
  1: refine (keeps_run _ _ (Hop (OpDeleteRule _) _ _ _)); done.
  1: refine (keeps_run _ _ (Hop (OpCreateGroup _ _) _ _ _)); done.
  1: refine (keeps_run _ _ (Hop (OpUpdateGroup _ _ _) _ _ _)); done.
  1: refine (keeps_run _ _ (Hop (OpDeleteGroup _) _ _ _)); done.
  1: refine (keeps_run _ _ (Hop (OpCreateRule _ _) _ _ _)); [by eapply create_rule_typed|done].
  1: refine (keeps_run _ _ (Hop (OpReorderRules _ _) _ _ _)); done.
  1: refine (keeps_run _ _ (Hop (OpCreateSet _) _ _ _)); done.
  1: refine (keeps_run _ _ (Hop (OpUpdateSet _ _) _ _ _)); done.
  1: refine (keeps_run _ _ (Hop (OpDeleteSet _) _ _ _)); done.
  1: refine (keeps_run _ _ (Hop (OpAddGroup _ _ _) _ _ _)); [by eapply add_group_typed|done].
  1: refine (keeps_run _ _ (Hop (OpRemoveGroup _ _) _ _ _)); done.
  1: refine (keeps_run _ _ (Hop (OpReorderGroups _ _) _ _ _)); done.
  1: refine (keeps_run _ _ (Hop (OpAssign _ _ _) _ _ _)); done.
  1: refine (keeps_run _ _ (Hop (OpUnassign _ _ _) _ _ _)); done.
Qed.

(** Nothing happens on a request of an administrator's handler by anyone else. *)
Lemma admin_keeps_denied cfg q caps u name h : (name, h) ∈ admin_table cfg q caps u -> is_admin (au_role u) = false -> hkeeps P h.
Proof.
  intros Hin Hno. assert (forall {A} (f : unit -> DB A) Q, keeps Q (require_admin_role u ≫= f)) as Hden.
  { intros A f Q d Hd. unfold require_admin_role, guard_or. by rewrite Hno. }
  unfold admin_table in Hin. rewrite !elem_of_cons, elem_of_nil in Hin.
  repeat match type of Hin with _ \/ _ => destruct Hin as [Hin|Hin] end; try done; injection Hin as _ ->; repeat handler_step.
  all: try apply Hden.
  all: intros s Hs; unfold respond, on_server, on_lists, on_manager, revoke_cert, put_ip_whitelist, put_trusted_proxies,
    approve_enrollment, on_server_db, on_web, on_db, require_admin_role, guard_or, mbind, M_bind; rewrite Hno; by destruct s.
Qed.

Lemma writing_keeps_denied q caps u name h : (name, h) ∈ writing_table q caps u -> can_write (au_role u) = false -> hkeeps P h.
Proof.
  intros Hin Hno. eapply writing_keeps; [exact Hin|..]; intros; cbn.
  - destruct op; try done; intros d Hd; cbn; unfold create_policy_set, update_policy_set, delete_policy_set, add_group_to_set,
      remove_group_from_set, reorder_groups, create_rule_group, update_rule_group, delete_rule_group, create_rule_in_group,
      reorder_group_rules, update_rule, delete_rule, update_host, host_assign_policy_set, host_unassign_policy_set, assign_policy_set,
      unassign_policy_set, require_write, guard_or, final, mbind, M_bind; by rewrite Hno.
  - intros x Hx. unfold create_group, require_write, guard_or. by rewrite Hno.
  - intros x Hx. unfold add_host_to_group, require_write, guard_or. by rewrite Hno.
  - intros x Hx. unfold remove_host_from_group, require_write, guard_or. by rewrite Hno.
Qed.
End any.

End tables.
