(* ===== verification/WebApiFacts.v ===== *)
(** * WebApiFacts: who can change what, through the users' server

    Theorems on [WebApi.serve_site], the server as one function of a request: which
    parts of the state a request can change by the authority of its sender, and the
    invariants that hold after any requests. *)

From S2P Require Import Prelude Text Models Net Files Wire WireJson Db AuditLog Auth Router AgentApi Events PolicyAdmin Deployment.
From S2P Require Import AdminFacts Ca Listener Login LoginFacts Users Settings SettingsFacts Enrollment TypedDb Views AgentHttp WebBodies WebApi WebApiKeeps.

(** ** What is protected *)

(** The tables operators work on. *)
Definition writer_view (d : Db) :=
  (db_policy_sets d, db_rule_groups d, db_set_groups d, db_rules d, db_decisions d, db_assignments d, db_hosts d, db_groups d, db_host_groups d).

(** Of an account: who it is, its role, its second factor and whether it is active. *)
Definition account_facts (u : UserRow) :=
  (u_id u, u_username u, u_display_name u, u_email u, u_role u, u_auth_provider u, u_mfa_enabled u, u_is_active u, u_created_at u).
(** Of an enrollment token: everything but its use. *)
Definition token_facts (t : EnrollmentToken) :=
  (et_token_hash t, et_host_fqdn t, et_host_ip t, et_created_by t, et_expires_at t, et_revoked_at t).

(** What only administrators work on. *)
Definition admin_view (d : Db) :=
  (map account_facts (db_users d), map token_facts (db_tokens d), db_operator_groups d, db_config d, db_oidc d, db_overrides d,
   db_pending d, db_protected d, db_certs d, db_check_ins d, db_drift d, db_anchors d).

(** The passwords of all accounts but the caller's own. *)
Definition passwords (me : option Uuid) (d : Db) : list (option (Uuid * option string)) :=
  map (fun u => if bool_decide (Some (u_id u) = me) then None else Some (u_id u, u_password_hash u)) (db_users d).

Section facts.
Context {SQL : Sql} {SHA : Sha256} {JS : SerdeJson} {SB : SerdeBody} {JP : SerdeParse} {UT : UuidText} {RFC : Rfc3339}
  {PG : PgInet} {IPN : IpNetLib} {HOST : IpNetHost} {JWT : Jwt} {A2 : Argon2} {UNI : Unicode} {COL : Collation} {PJ : PgJson}
  {RC : Rcgen} {HX : Hex} {B64 : Base64} {X : X509} {RL : Rustls} {TN : TokioNotify} {AX : AxumJson}
  {RT : RandomToken} {QL : QueryLib}.

Definition high_view (me : option Uuid) (s : Site) :=
  (admin_view (st_db s), passwords me (st_db s), st_auth s, st_disk s, st_acceptor s).
Definition all_view (me : option Uuid) (s : Site) := (writer_view (st_db s), high_view me s).

(** ** The views *)

(** The view of the state is the one it had at [s0]. *)
Definition sees {Y} (v : Site -> Y) (s0 s : Site) : Prop := v s = v s0.

#[local] Instance all_unlogged me s0 : Unlogged (sees (all_view me) s0).
Proof. intros s. split; intros ? ? H; exact H. Qed.
#[local] Instance high_unlogged me s0 : Unlogged (sees (high_view me) s0).
Proof. intros s. split; intros ? ? H; exact H. Qed.

(** An update of columns the views leave out. *)
Lemma view_users me s0 s p (f : UserRow -> UserRow) d :
  (forall x, account_facts (f x) = account_facts x) ->
  (forall x, p x = true -> u_password_hash (f x) = u_password_hash x \/ Some (u_id x) = me) ->
  at_db (sees (all_view me) s0) s d -> at_db (sees (all_view me) s0) s (set_db_users (update_where p f (db_users d)) d).
Proof.
  intros Hf Hp H. set (d' := set_db_users _ d).
  assert (admin_view d' = admin_view d) as Ha by (unfold admin_view; cbn; by rewrite update_where_map).
  assert (passwords me d' = passwords me d) as Hw.
  { unfold passwords, d'. cbn. unfold update_where. rewrite map_map. apply map_ext. intros x. destruct (p x) eqn:Hx; [|done].
    assert (u_id (f x) = u_id x) as -> by (specialize (Hf x); unfold account_facts in Hf; congruence).
    case_bool_decide; [done|]. destruct (Hp x Hx) as [->|]; done. }
  unfold at_db, sees, all_view, high_view in *. cbn [st_db set_st_db] in *. by rewrite Ha, Hw.
Qed.

Lemma view_tokens me s0 s p (f : EnrollmentToken -> EnrollmentToken) d : (forall x, token_facts (f x) = token_facts x) ->
  at_db (sees (all_view me) s0) s d -> at_db (sees (all_view me) s0) s (set_db_tokens (update_where p f (db_tokens d)) d).
Proof.
  intros Hf H. set (d' := set_db_tokens _ d).
  assert (admin_view d' = admin_view d) as Ha by (unfold admin_view; cbn; by rewrite update_where_map).
  unfold at_db, sees, all_view, high_view in *. cbn [st_db set_st_db] in *. by rewrite Ha.
Qed.

Section low.
Context (me : option Uuid) (s0 : Site).
Notation P := (sees (all_view me) s0).

Lemma issue_view s sk u r n : keeps (at_db P s) (internal_jwt (issue_access_token sk u r n)).
Proof. intros d Hd. destruct (issue_run sk u r n d) as (x & Hr & _). unfold final. by rewrite Hr. Qed.
Lemma hash_view s pw : keeps (at_db P s) (internal_password (hash_password pw)).
Proof. intros d Hd. destruct (hash_run pw d) as (x & Hr & _). unfold final. by rewrite Hr. Qed.
Lemma fresh_view s : keeps (at_db P s) fresh_uuid.
Proof. by intros d Hd. Qed.

Ltac low_step :=
  lazymatch goal with
  | |- keeps _ (internal_jwt _) => apply issue_view
  | |- keeps _ (internal_password _) => apply hash_view
  | |- keeps _ fresh_uuid => apply fresh_view
  | |- _ => view_step
  end.

Lemma login_view s sk req : keeps (at_db P s) (login sk req).
Proof.
  unfold login, login_accepted, login_rejected, count_failure, lock_account, reset_attempts, insert_refresh.
  repeat low_step; try (apply view_users; [done|by left|done]); done.
Qed.

Lemma refresh_view s sk token : keeps (at_db P s) (refresh_token sk token).
Proof. unfold refresh_token. repeat low_step. done. Qed.

Lemma logout_view s u token : keeps (at_db P s) (logout u token).
Proof. unfold logout. repeat low_step. done. Qed.

Lemma submit_view s req : keeps (at_db P s) (submit_enrollment req).
Proof.
  unfold submit_enrollment, validate_token. repeat low_step.
  - by apply view_tokens.
  - unfold upsert_request in *. repeat case_match; simplify_eq; done.
Qed.

Lemma poll_view token : keeps P (on_manager (poll_enrollment_status token)).
Proof.
  intros s Hs. unfold final, on_manager, poll_enrollment_status, on_db, fetch, query, gets, modify, mbind, M_bind, mret, M_ret, throw. cbn.
  repeat case_match; simplify_eq/=; done.
Qed.

Lemma change_password_view s u cur new : me = Some (au_user_id u) -> keeps (at_db P s) (change_password u cur new).
Proof.
  intros Hme. unfold change_password, stored_hash. repeat low_step.
  { intros d Hd. unfold final, query. destruct (db_faults d) as [|[] fs]; repeat case_match; done. }
  apply view_users; [done| |done]. intros x Hx. right. unfold is_user in Hx. apply bool_decide_eq_true in Hx. by rewrite Hme, Hx.
Qed.
End low.

(** The handlers that need no role leave all views alone. *)
Lemma crl_view me s0 x s d : at_db (sees (all_view me) s0) s d -> at_db (sees (all_view me) s0) s (set_db_crl_counter x d).
Proof. by intros. Qed.

Lemma open_view cfg q caps user me name h s0 : (name, h) ∈ open_table cfg q caps user -> hkeeps (sees (all_view me) s0) h.
Proof.
  intros He. eapply open_keeps; [tc_solve|exact He|..]; intros;
    [apply login_view|apply refresh_view|apply logout_view|apply submit_view|apply poll_view|by apply crl_view].
Qed.

Lemma reading_view cfg q caps u name h s0 : (name, h) ∈ reading_table cfg q caps u -> hkeeps (sees (all_view (Some (au_user_id u))) s0) h.
Proof.
  intros He. eapply reading_keeps; [tc_solve|exact He|..]; intros.
  - by apply change_password_view.
  - apply keeps_force; [tc_solve|]. by intros x n t Hx.
  - by apply crl_view.
Qed.

(** What keeps all of the views keeps a part of them. *)
Lemma hkeeps_part me h : (forall s0, hkeeps (sees (all_view me) s0) h) -> forall s0, hkeeps (sees (high_view me) s0) h.
Proof. intros Hh s0 s Hs. specialize (Hh s s eq_refl). unfold sees, all_view in *. congruence. Qed.

(** Where the handler of a name comes from. *)
Lemma api_handler_cases (H : Handler -> Prop) cfg q caps user name : (forall status, H (finish status)) ->
  (forall h, (name, h) ∈ open_table cfg q caps user -> H h) ->
  (forall u h, user = Some u -> (name, h) ∈ reading_table cfg q caps u -> H h) ->
  (forall u h, user = Some u -> (name, h) ∈ writing_table q caps u -> H h) ->
  (forall u h, user = Some u -> (name, h) ∈ admin_table cfg q caps u -> H h) -> H (api_handler cfg q caps user name).
Proof.
  intros Hf Ho Hr Hw Ha. unfold api_handler. destruct (entry name (open_table _ _ _ _)) as [h|] eqn:He; [by apply Ho, entry_in|].
  unfold with_user, auth_user_from_parts. destruct user as [u|]; cbn [ok_or]; [|apply Hf].
  destruct (entry name (user_table _ _ _ u)) as [h|] eqn:Hu; [|apply Hf].
  apply entry_in in Hu. unfold user_table in Hu. rewrite !elem_of_app in Hu. cbn. naive_solver.
Qed.

(** Without [can_write], a handler leaves all views alone. *)
Lemma api_keeps_all cfg q caps user me name s0 : (forall u, user = Some u -> me = Some (au_user_id u) /\ can_write (au_role u) = false) ->
  hkeeps (sees (all_view me) s0) (api_handler cfg q caps user name).
Proof.
  intros Hno. apply api_handler_cases.
  - apply hkeeps_finish.
  - intros h Hh. by eapply open_view.
  - intros u h Hu Hh. destruct (Hno u Hu) as [-> _]. by eapply reading_view.
  - intros u h -> Hh. eapply writing_keeps_denied; [exact Hh|by apply Hno].
  - intros u h -> Hh. eapply admin_keeps_denied; [exact Hh|]. destruct (Hno u eq_refl) as [_ Hw]. by destruct (au_role u).
Qed.

(** The operations behind [can_write] leave the administrators' part alone. *)
Lemma run_op_high u op s0 s me : deletes_host op = false -> keeps (at_db (sees (high_view me) s0) s) (run_op u op).
Proof.
  intros Hop. destruct op; try done; apply keeps_bind; try (intros; apply keeps_ret).
  all: unfold create_policy_set, update_policy_set, delete_policy_set, add_group_to_set,
      remove_group_from_set, reorder_groups, create_rule_group, update_rule_group, delete_rule_group, create_rule_in_group,
      reorder_group_rules, update_rule, delete_rule, update_host, host_assign_policy_set, host_unassign_policy_set, assign_policy_set,
      unassign_policy_set; repeat view_step; repeat case_match; simplify_eq; try done.
  4: { intros d Hd. unfold final, query. destruct (db_faults d) as [|[] fs]; repeat case_match; done. }
  all: unfold drop_rule_group, insert_rule, update_rule_row, insert_assignment in *; repeat case_match; simplify_eq; done.
Qed.

Lemma host_groups_high u s0 s me :
  (forall n x, keeps (at_db (sees (high_view me) s0) s) (create_group u n x)) /\
  (forall id host, keeps (at_db (sees (high_view me) s0) s) (add_host_to_group u id host)) /\
  (forall id host, keeps (at_db (sees (high_view me) s0) s) (remove_host_from_group u id host)).
Proof.
  unfold create_group, add_host_to_group, remove_host_from_group. split_and!; intros; repeat view_step; repeat case_match; by simplify_eq.
Qed.

(** Without [is_admin], a handler leaves the administrators' part alone. *)
Lemma api_keeps_high cfg q caps user me name s0 : (forall u, user = Some u -> me = Some (au_user_id u) /\ is_admin (au_role u) = false) ->
  hkeeps (sees (high_view me) s0) (api_handler cfg q caps user name).
Proof.
  intros Hno. apply api_handler_cases.
  - apply hkeeps_finish.
  - intros h Hh. apply hkeeps_part. intros s1. by eapply open_view.
  - intros u h Hu Hh. destruct (Hno u Hu) as [-> _]. apply hkeeps_part. intros s1. by eapply reading_view.
  - intros u h -> Hh. eapply writing_keeps; [exact Hh|..]; intros; [by apply run_op_high|apply host_groups_high..].
  - intros u h -> Hh. eapply admin_keeps_denied; [exact Hh|by apply Hno].
Qed.

(** ** A request *)

(** Who sent a request: the user [require_auth] finds. *)
Definition caller (q : ApiRequest) (s : Site) : option AuthUser :=
  match (require_auth (E:=AppError) (st_auth s) (hq_auth (aq_http q)) (st_db s)).1 with Ok (Ok u) => Some u | _ => None end.

(** A request keeps what every handler keeps, run without an identity or as the
    caller. *)
Lemma serve_site_keeps (P : Site -> Prop) `{!Unlogged P} cfg limited q s :
  (forall name caps user, user = None \/ user = caller q s -> hkeeps P (api_handler cfg q caps user name)) ->
  P s -> P (serve_site cfg limited q s).2.
Proof.
  intros Hh Hs. unfold serve_site. destruct (serve _ _ _ _ _ _) as [res d] eqn:Hserve.
  assert (P (set_st_db d s)) as Hd.
  { pose proof (serve_keeps (st_auth s) limited (at_db P s) (fun name caps user => mret (api_handler cfg q caps user name)) build_router
      (aq_http q) un_faults (fun _ _ _ => keeps_ret _ _) (st_db s)) as Hk.
    unfold final, at_db in Hk. rewrite Hserve, set_st_db_id in Hk. by apply Hk. }
  destruct res as [[| |re|h]|e]; try exact Hd. destruct (serve_handled _ _ _ _ _ _ _ Hserve) as (name & caps & user & d1 & Hret & Hu).
  inv_ret Hret. specialize (Hh name caps user). destruct (api_handler cfg q caps user name (set_st_db d s)) as [status s''] eqn:Ha.
  cbn. change s'' with (status, s'').2. rewrite <- Ha. apply Hh; [|exact Hd].
  destruct Hu as [(_ & -> & _)|(u & -> & Hu)]; [by left|right]. unfold caller. by rewrite Hu.
Qed.

#[local] Instance bundles_unlogged s0 : Unlogged (fun s => st_approved s ⊆ st_approved s0).
Proof. intros s. split; intros ? ? H; exact H. Qed.

(** Without the role, no bundle is made ready. *)
Lemma api_keeps_bundles cfg q caps user name s0 : (forall u, user = Some u -> is_admin (au_role u) = false) ->
  hkeeps (fun s => st_approved s ⊆ st_approved s0) (api_handler cfg q caps user name).
Proof.
  intros Hno. assert (forall s A (m : DB A), keeps (at_db (fun s => st_approved s ⊆ st_approved s0) s) m) as Hany by by intros s A m d Hd.
  apply api_handler_cases.
  - apply hkeeps_finish.
  - intros h Hh. eapply open_keeps; [apply bundles_unlogged|exact Hh|..]; try (by intros; first [apply Hany|assumption]).
    intros token s Hs. unfold final, on_manager, poll_enrollment_status, on_db, fetch, query, gets, modify, mbind, M_bind, mret, M_ret, throw. cbn.
    repeat case_match; simplify_eq/=; try done; (etrans; [apply delete_subseteq|done]).
  - intros u h -> Hh. eapply reading_keeps; [apply bundles_unlogged|exact Hh|..]; try (by intros; first [apply Hany|assumption]).
    intros id. apply keeps_force; [apply bundles_unlogged|done].
  - intros u h -> Hh. eapply writing_keeps; [exact Hh|..]; intros; apply Hany.
  - intros u h -> Hh. eapply admin_keeps_denied; [exact Hh|by apply Hno].
Qed.

(** The passwords of an account. *)
Definition passwords_of (id : Uuid) (d : Db) : list (option string) :=
  omap (fun u => if bool_decide (u_id u = id) then Some (u_password_hash u) else None) (db_users d).

Lemma passwords_of_view me id d : me <> Some id -> passwords_of id d =
  omap (fun x => x ≫= fun '(i, h) => if bool_decide (i = id) then Some h else None) (passwords me d).
Proof.
  intros Hme. unfold passwords_of, passwords. induction (db_users d) as [|u l IH]; [done|]. cbn. rewrite IH.
  repeat case_bool_decide; cbn; repeat case_bool_decide; congruence.
Qed.

(** Either the caller has the role, or no handler runs with it. *)
Lemma holds_or_not (p : UserRole -> bool) q s : (exists u, caller q s = Some u /\ p (au_role u) = true) \/
  (forall u, Some u = None \/ Some u = caller q s -> au_user_id <$> caller q s = Some (au_user_id u) /\ p (au_role u) = false).
Proof.
  destruct (caller q s) as [v|]; [|right; by intros u []]. destruct (p (au_role v)) eqn:Hp; [left; by exists v|right].
  by intros u [|[= ->]].
Qed.

(** Without the administrators' role, nothing of theirs changes. *)
Lemma request_keeps_high cfg limited q s :
  (forall u, Some u = None \/ Some u = caller q s -> au_user_id <$> caller q s = Some (au_user_id u) /\ is_admin (au_role u) = false) ->
  sees (high_view (au_user_id <$> caller q s)) s (serve_site cfg limited q s).2.
Proof. intros Hno. apply serve_site_keeps; [tc_solve| |done]. intros name caps user Hu. apply api_keeps_high. intros u ->. by apply Hno. Qed.

(** C6. Authority is required: whatever request comes in, the tables of policies,
    rules, hosts and assignments change only if its sender is an authenticated user
    who may write; accounts, roles, settings, tokens, certificates, the address
    lists in force, the CA's files, the TLS configuration change, and bundles are
    made ready, only if the sender is an administrator; and the password of an
    account only by an administrator or the account's own user. *)
Theorem authority_required cfg limited q s : let s' := (serve_site cfg limited q s).2 in
  (writer_view (st_db s') = writer_view (st_db s) \/ exists u, caller q s = Some u /\ can_write (au_role u) = true) /\
  ((admin_view (st_db s') = admin_view (st_db s) /\ st_auth s' = st_auth s /\ st_disk s' = st_disk s /\ st_acceptor s' = st_acceptor s /\
    st_approved s' ⊆ st_approved s) \/ exists u, caller q s = Some u /\ is_admin (au_role u) = true) /\
  (forall id, passwords_of id (st_db s') = passwords_of id (st_db s) \/
     exists u, caller q s = Some u /\ (is_admin (au_role u) = true \/ au_user_id u = id)).
Proof.
  intros s'. split_and!.
  - destruct (holds_or_not can_write q s) as [Hm|Hno]; [by right|left].
    assert (sees (all_view (au_user_id <$> caller q s)) s s') as H; [|unfold sees, all_view in H; congruence].
    apply serve_site_keeps; [tc_solve| |done]. intros name caps user Hu. apply api_keeps_all. intros u ->. by apply Hno.
  - destruct (holds_or_not is_admin q s) as [Hm|Hno]; [by right|left].
    assert (st_approved s' ⊆ st_approved s) as Hb.
    { apply (serve_site_keeps (fun s1 => st_approved s1 ⊆ st_approved s)); [|done].
      intros name caps user Hu. apply api_keeps_bundles. intros u ->. by apply Hno. }
    pose proof (request_keeps_high cfg limited q s Hno) as H. unfold sees, high_view in H. split_and!; [unfold s'; congruence..|exact Hb].
  - intros id. destruct (holds_or_not is_admin q s) as [(u & Hm & Hr)|Hno]; [right; exists u; by auto|].
    destruct (decide (au_user_id <$> caller q s = Some id)) as [Hid|Hid].
    { right. destruct (caller q s) as [u|]; [|done]. injection Hid as Hid. exists u. by auto. }
    left. rewrite !(passwords_of_view _ id _ Hid). f_equal.
    pose proof (request_keeps_high cfg limited q s Hno) as H. unfold sees, high_view in H. unfold s'. congruence.
Qed.
End facts.
