(* ===== verification/WebApiInvariant.v ===== *)
(** * WebApiInvariant: what holds after any requests to the users' server

    The tables stay sound: references valid, keys unique, integers in their types,
    account names and addresses unique, whatever requests [WebApi.serve_site] is
    given and whichever statements fail on the way. *)

From S2P Require Import Prelude Text Models Net Files Wire WireJson Db AuditLog Auth Router AgentApi Events PolicyAdmin Deployment.
From S2P Require Import AdminFacts Ca Listener Login LoginFacts Users UserFacts Settings SettingsFacts Enrollment TypedDb Views AgentHttp.
From S2P Require Import WebBodies WebApi WebApiKeeps WebApiFacts.

(** ** The invariant *)

Definition sound (d : Db) : Prop := integrity d /\ typed d /\ users_wf d.

(** The columns it is about. *)
Definition account_keys (u : UserRow) := (u_id u, u_username u, u_email u).
Definition sound_columns (d : Db) :=
  (db_policy_sets d, db_rule_groups d, db_set_groups d, db_rules d, db_assignments d, db_hosts d, db_overrides d, db_pending d,
   map account_keys (db_users d)).

Lemma users_wf_keys d d' : map account_keys (db_users d') = map account_keys (db_users d) -> users_wf d -> users_wf d'.
Proof.
  intros Hk [H1 H2 H3]. assert (forall {A} (f : Uuid * string * string -> A),
    map (fun u => f (account_keys u)) (db_users d') = map (fun u => f (account_keys u)) (db_users d)) as Hm.
  { intros A f. rewrite <- !(map_map account_keys f). by rewrite Hk. }
  split; [rewrite (Hm _ (fun k => k.1.1) : map u_id _ = map u_id _)|rewrite (Hm _ (fun k => k.1.2) : map u_username _ = map u_username _)|
    rewrite (Hm _ snd : map u_email _ = map u_email _)]; done.
Qed.

Lemma sound_frame d d' : sound_columns d' = sound_columns d -> sound d -> sound d'.
Proof.
  unfold sound_columns. intros H (Hi & Ht & Hu). injection H as H1 H2 H3 H4 H5 H6 H7 H8 H9. split_and!.
  - by eapply integrity_other.
  - by eapply typed_frame.
  - by eapply users_wf_keys.
Qed.

#[export] Instance sound_unaudited : Unaudited sound.
Proof. split; intros ? ?; by apply sound_frame. Qed.

(** The statement changes no such column. *)
Ltac aside := simplify_eq; eapply sound_frame; [|eassumption]; unfold sound_columns; cbn; rewrite ?update_where_map by done; reflexivity.

Section facts.
Context {SQL : Sql} {SHA : Sha256} {JS : SerdeJson} {SB : SerdeBody} {JP : SerdeParse} {UT : UuidText} {RFC : Rfc3339}
  {PG : PgInet} {IPN : IpNetLib} {HOST : IpNetHost} {JWT : Jwt} {A2 : Argon2} {UNI : Unicode} {COL : Collation} {PJ : PgJson}
  {RC : Rcgen} {HX : Hex} {B64 : Base64} {X : X509} {RL : Rustls} {TN : TokioNotify} {AX : AxumJson}
  {RT : RandomToken} {QL : QueryLib} {SQLL : SqlLaws}.

Definition site_sound (s : Site) : Prop := sound (st_db s).

#[local] Instance site_unlogged : Unlogged site_sound.
Proof. intros s. exact sound_unaudited. Qed.

Lemma keeps_sound {A} (m : DB A) : keeps integrity m -> keeps typed m -> keeps users_wf m -> keeps sound m.
Proof. intros H1 H2 H3 d (Hi & Ht & Hu). split_and!; [by apply H1|by apply H2|by apply H3]. Qed.

(** ** Without a role *)

Lemma issue_sound sk u r n : keeps sound (internal_jwt (issue_access_token sk u r n)).
Proof. intros d Hd. destruct (issue_run sk u r n d) as (x & Hr & _). unfold final. rewrite Hr. aside. Qed.
Lemma hash_sound pw : keeps sound (internal_password (hash_password pw)).
Proof. intros d Hd. destruct (hash_run pw d) as (x & Hr & _). unfold final. rewrite Hr. aside. Qed.
Lemma fresh_sound : keeps sound fresh_uuid.
Proof. intros d Hd. unfold final. cbn. aside. Qed.

Ltac sound_step :=
  lazymatch goal with
  | |- keeps _ (internal_jwt _) => apply issue_sound
  | |- keeps _ (internal_password _) => apply hash_sound
  | |- keeps _ fresh_uuid => apply fresh_sound
  | |- _ => view_step
  end.

Lemma login_sound sk req : keeps sound (login sk req).
Proof. unfold login, login_accepted, login_rejected, count_failure, lock_account, reset_attempts, insert_refresh. repeat sound_step; aside. Qed.
Lemma refresh_sound sk token : keeps sound (refresh_token sk token).
Proof. unfold refresh_token. repeat sound_step. aside. Qed.
Lemma logout_sound u token : keeps sound (logout u token).
Proof. unfold logout. repeat sound_step. aside. Qed.
Lemma submit_sound req : keeps sound (submit_enrollment req).
Proof. unfold submit_enrollment, validate_token. repeat sound_step; unfold upsert_request in *; repeat case_match; simplify_eq; aside. Qed.
Lemma change_password_sound u cur new : keeps sound (change_password u cur new).
Proof.
  unfold change_password, stored_hash. repeat sound_step; [|aside].
  intros d Hd. unfold final, query. destruct (db_faults d) as [|[] fs]; repeat case_match; try done; aside.
Qed.

(** ** The lenses *)

Lemma on_manager_sound {A} (m : MG A) : keeps (fun g => sound (mg_db g)) m -> keeps site_sound (on_manager m).
Proof.
  intros Hm s Hs. specialize (Hm (mkManager (st_db s) (st_approved s)) Hs). unfold final, on_manager in *. by destruct (m _).
Qed.
Lemma on_lists_sound {A} (m : M Web AppError A) : keeps (fun w => sound (web_db w)) m -> keeps site_sound (on_lists m).
Proof. intros Hm s Hs. specialize (Hm (mkWeb (st_db s) (st_auth s)) Hs). unfold final, on_lists in *. by destruct (m _). Qed.
Lemma on_server_sound {A} (m : M Server AppError A) : keeps (fun v => sound (cw_db (sv_world v))) m -> keeps site_sound (on_server m).
Proof.
  intros Hm s Hs. specialize (Hm (mkServer (mkCaWorld (st_disk s) (st_db s)) (st_acceptor s)) Hs). unfold final, on_server in *. by destruct (m _).
Qed.

(** ** Writing *)

#[local] Instance users_unaudited : Unaudited users_wf.
Proof. split; intros ? ?; by apply users_wf_frame. Qed.

Ltac users_aside := eapply users_wf_frame; [|eassumption]; reflexivity.

Lemma run_op_users u op : keeps users_wf (run_op u op).
Proof.
  destruct op; apply keeps_bind; try (intros; apply keeps_ret).
  all: unfold create_policy_set, update_policy_set, delete_policy_set, add_group_to_set,
      remove_group_from_set, reorder_groups, create_rule_group, update_rule_group, delete_rule_group, create_rule_in_group,
      reorder_group_rules, update_rule, delete_rule, delete_host, update_host, host_assign_policy_set, host_unassign_policy_set, assign_policy_set,
      unassign_policy_set; repeat view_step; repeat case_match; simplify_eq; try done.
  all: try (intros d Hd; unfold final, query; destruct (db_faults d) as [|[] fs]; repeat case_match; users_aside).
  all: unfold drop_rule_group, insert_rule, update_rule_row, insert_assignment in *; repeat case_match; simplify_eq; users_aside.
Qed.

Lemma run_op_sound u op : op_typed op -> keeps sound (run_op u op).
Proof. intros Hop. apply keeps_sound; [apply run_op_integrity|by apply run_op_typed|apply run_op_users]. Qed.

Lemma writing_sound q caps u name h : (name, h) ∈ writing_table q caps u -> hkeeps site_sound h.
Proof.
  intros Hh. eapply writing_keeps; [exact Hh|..]; intros.
  - by apply run_op_sound.
  - unfold create_group. repeat sound_step. case_match; [|done]. aside.
  - unfold add_host_to_group. repeat sound_step. case_match; [done|]. aside.
  - unfold remove_host_from_group. repeat sound_step. aside.
Qed.

(** ** Administration *)

(** Only the accounts change. *)
Lemma sound_accounts d d' : (sound_columns d').1 = (sound_columns d).1 -> sound d -> users_wf d' -> sound d'.
Proof.
  unfold sound_columns. cbn. intros H (Hi & Ht & _) Hu. injection H as H1 H2 H3 H4 H5 H6 H7 H8.
  split_and!; [by eapply integrity_other|by eapply typed_frame|done].
Qed.

Lemma create_user_sound u req : keeps sound (create_user u req).
Proof.
  unfold create_user. repeat sound_step. eapply sound_accounts; [|eassumption|eapply insert_user_wf; [|eassumption]; by destruct H as (_ & _ & ?)].
  unfold insert_user in *. case_match; [|done]. by simplify_eq.
Qed.

Lemma update_user_sound u id req : keeps sound (update_user u id req).
Proof.
  unfold update_user. repeat sound_step. eapply sound_accounts; [|eassumption|eapply update_user_wf; [|eassumption]; by destruct H as (_ & _ & ?)].
  unfold apply_user_update in *. repeat case_match; by simplify_eq.
Qed.

(** The rows a deleted user made stay, without their author. *)
Lemma drop_user_integrity id d : integrity d -> integrity (drop_user id d).
Proof.
  intros [Hm Hr Ha Hmk Hak]. split; unfold set_ids, group_ids, host_ids in *; cbn; rewrite ?map_map; cbn; try done.
  - intros r (x & -> & Hx)%list_elem_of_fmap. exact (Hr x Hx).
  - intros a (x & -> & Hx)%list_elem_of_fmap. exact (Ha x Hx).
Qed.

Lemma delete_user_sound u id : keeps sound (delete_user u id).
Proof.
  apply keeps_sound; [|apply delete_user_typed|apply delete_user_users].
  unfold delete_user. repeat int_step. by apply drop_user_integrity.
Qed.

Lemma update_settings_sound u req : keeps sound (update_settings u req).
Proof.
  apply keeps_sound; [|apply update_settings_typed|].
  - unfold update_settings, get_settings, get_config_json, set_section, set_config, push_interval. repeat view_step; by eapply integrity_other.
  - unfold update_settings, get_settings, get_config_json, set_section, set_config, push_interval. repeat view_step; users_aside.
Qed.

Lemma insert_host_integrity r d h d' : integrity d -> insert_host r d = Some (h, d') -> integrity d'.
Proof.
  unfold insert_host. case_match; [|done]. intros [Hm Hr Ha Hmk Hak] [= <- <-].
  split; unfold set_ids, group_ids, host_ids in *; cbn; try done. intros a Hin. destruct (Ha a Hin). split; [|done].
  rewrite map_app. apply elem_of_app. by left.
Qed.

Lemma approve_sound cfg ca u id : keeps (fun g => sound (mg_db g)) (approve_enrollment cfg ca u id).
Proof.
  apply approve_keeps; [apply _|..]; intros.
  - destruct H as (Hi & Ht & Hu). split_and!; [by eapply insert_host_integrity|..]; unfold insert_host in *; case_match; simplify_eq.
    + eapply typed_frame; [..|eassumption]; reflexivity.
    + users_aside.
  - match goal with Hs : sound _ |- _ => destruct Hs as (Hi & [Hr Ho Hp] & Hu) end.
    split_and!; [by eapply integrity_other| |users_aside]. split; [done| |done].
    intros o [Hin| ->%list_elem_of_singleton]%elem_of_app; [by apply Ho|]. split; cbn; lia.
  - unfold insert_cert in *. case_match; [|done]. aside.
  - aside.
  - aside.
Qed.

Lemma on_server_db_keeps {A} (m : DB A) : keeps sound m -> keeps (fun v => sound (cw_db (sv_world v))) (on_server_db m).
Proof. intros Hm v Hv. specialize (Hm _ Hv). unfold final, on_server_db in *. by destruct (m _). Qed.
Lemma on_web_keeps {A} (m : DB A) : keeps sound m -> keeps (fun w => sound (web_db w)) (on_web m).
Proof. intros Hm v Hv. specialize (Hm _ Hv). unfold final, on_web in *. by destruct (m _). Qed.

Lemma swap_sound ca tls : keeps (fun v => sound (cw_db (sv_world v))) (swap_acceptor ca tls).
Proof.
  intros v Hv. unfold final, swap_acceptor. destruct (sv_acceptor v); [|done].
  assert (sound (cw_db (final (build_agent_tls_config ca tls) (sv_world v)))) as H.
  { revert Hv. generalize (sv_world v). change (keeps (fun w => sound (cw_db w)) (build_agent_tls_config ca tls)).
    unfold build_agent_tls_config. apply keeps_bind.
    { intros w Hw. pose proof (keeps_generate_crls sound ca ltac:(intros; aside) _ Hw) as Hc. unfold final, on_db_as in *. by destruct (generate_crls _ _). }
    intros crls. do 2 (apply keeps_bind; [intros w Hw; unfold final, on_disk_as; by destruct (disk_read _ _)|intros ?]). apply keeps_lift. }
  unfold final in H. destruct (build_agent_tls_config ca tls (sv_world v)) as [[c|e] w]; exact H.
Qed.

Lemma revoke_cert_sound ca tls u id : keeps (fun v => sound (cw_db (sv_world v))) (revoke_cert ca tls u id).
Proof.
  unfold revoke_cert. repeat (apply on_server_db_keeps || apply swap_sound || sound_step).
  unfold revoke_rows in *. aside.
Qed.

Lemma lists_sound u l : keeps (fun w => sound (web_db w)) (put_ip_whitelist u l) /\ keeps (fun w => sound (web_db w)) (put_trusted_proxies u l).
Proof.
  unfold put_ip_whitelist, put_trusted_proxies, set_config, set_auth. cbv zeta.
  split; repeat (apply on_web_keeps || (apply keeps_modify; by intros) || sound_step); unfold upsert_config; aside.
Qed.

Lemma admin_sound cfg q caps u name h : (name, h) ∈ admin_table cfg q caps u -> hkeeps site_sound h.
Proof.
  intros Hin. unfold admin_table in Hin. rewrite !elem_of_cons, elem_of_nil in Hin.
  repeat match type of Hin with _ \/ _ => destruct Hin as [Hin|Hin] end; try done; injection Hin as _ ->; repeat handler_step.
  1: refine (keeps_run _ _ (run_op_sound u (OpDeleteHost _) I)).
  all: lazymatch goal with
    | |- keeps _ (create_user _ _) => apply create_user_sound
    | |- keeps _ (update_user _ _ _) => apply update_user_sound
    | |- keeps _ (delete_user _ _) => apply delete_user_sound
    | |- keeps _ (update_settings _ _) => apply update_settings_sound
    | |- hkeeps _ (respond _ (on_server _)) => apply hkeeps_respond, on_server_sound, revoke_cert_sound
    | |- hkeeps _ (respond _ (on_lists _)) => apply hkeeps_respond, on_lists_sound, lists_sound
    | |- hkeeps _ (respond _ (on_manager _)) => apply hkeeps_respond, on_manager_sound, approve_sound
    | |- _ => idtac
    end.
  all: unfold add_protected_cidr, delete_group, update_oidc_config, update_smtp_config, deny_enrollment, create_token, revoke_token;
    repeat sound_step.
  all: try (intros d Hd; unfold final; cbn); repeat case_match; simplify_eq; try done; aside.
Qed.

(** ** Any requests *)

Lemma api_sound cfg q caps user name : hkeeps site_sound (api_handler cfg q caps user name).
Proof.
  apply api_handler_cases.
  - apply hkeeps_finish.
  - intros h Hh. eapply open_keeps; [tc_solve|exact Hh|..]; intros.
    + apply login_sound.
    + apply refresh_sound.
    + apply logout_sound.
    + apply submit_sound.
    + intros s Hs. unfold final, on_manager, poll_enrollment_status, on_db, fetch, query, gets, modify, mbind, M_bind, mret, M_ret, throw. cbn.
      repeat case_match; simplify_eq/=; try done; unfold site_sound in *; cbn; aside.
    + unfold at_db, site_sound in *. cbn in *. aside.
  - intros u h _ Hh. eapply reading_keeps; [tc_solve|exact Hh|..]; intros.
    + apply change_password_sound.
    + apply keeps_force; [tc_solve|done].
    + unfold at_db, site_sound in *. cbn in *. aside.
  - intros u h _ Hh. by eapply writing_sound.
  - intros u h _ Hh. by eapply admin_sound.
Qed.

Lemma serve_site_sound cfg limited q s : sound (st_db s) -> sound (st_db (serve_site cfg limited q s).2).
Proof. intros Hs. apply (serve_site_keeps site_sound); [by intros; apply api_sound|done]. Qed.
End facts.
