(* ===== verification/ManagerSite.v ===== *)
(** * ManagerSite: the two servers and the worker over one database

    The manager as a whole: requests of users ([WebApi.serve_site]), requests of
    agents on connections with a verified certificate ([AgentHttp.serve_agent] and
    the opening of an events stream), passes of the worker, and time. What agents
    can change is confined to their own hosts, and the tables stay sound. *)

From S2P Require Import Prelude Text Models Net Files Wire WireJson Db AuditLog Auth Router AgentApi Events PolicyAdmin Deployment.
From S2P Require Import AdminFacts Ca Listener Login Users Settings SettingsFacts Enrollment TypedDb Views Worker AgentHttp.
From S2P Require Import WebBodies WebApi WebApiKeeps WebApiFacts WebApiInvariant.

(** ** What agents leave alone *)

(** The row of a host without the columns its agent reports. *)
Definition unreported (me : option Uuid) (h : HostRow) : HostRow :=
  if bool_decide (Some (h_id h) = me)
  then mkHost (h_id h) (h_fqdn h) (h_ip_address h) (h_display_name h) (h_os_family h) (h_os_name h) (h_arch h) None Pending None
         (h_last_sync_at h) (h_agent_port h) (h_notes h) (h_registered_at h) (h_updated_at h)
  else h.
(** What an action is: all but how far it has come. *)
Definition action_order (a : PendingActionRow) :=
  (pa_id a, pa_host_id a, pa_action_type a, pa_payload a, pa_reason a, pa_priority a, pa_expires_at a).
Definition by_others {A} (host : A -> Uuid) (me : option Uuid) (l : list A) : list A :=
  List.filter (fun x => negb (bool_decide (Some (host x) = me))) l.

Definition confined_view (me : option Uuid) (d : Db) :=
  (map (unreported me) (db_hosts d), map action_order (db_pending d), by_others ci_host_id me (db_check_ins d), by_others dr_host_id me (db_drift d),
   (db_policy_sets d, db_rule_groups d, db_set_groups d, db_rules d, db_decisions d, db_assignments d, db_groups d, db_host_groups d),
   (db_users d, db_refresh d, db_tokens d, db_requests d, db_operator_groups d, db_config d, db_oidc d, db_overrides d),
   (db_protected d, db_certs d, db_crl_counter d, db_anchors d)).

Definition sees_confined (me : option Uuid) (d0 d : Db) : Prop := confined_view me d = confined_view me d0.

#[local] Instance confined_unaudited me d0 : Unaudited (sees_confined me d0).
Proof. split; intros ? ? H; exact H. Qed.

Section confined.
Context {SQL : Sql} {SHA : Sha256} {JS : SerdeJson} {SB : SerdeBody} {UT : UuidText} {RFC : Rfc3339} {ST : SqlxText} {AX : AxumJson}.
Variable me : Uuid.
Variable d0 : Db.
Notation P := (sees_confined (Some me) d0).

Lemma by_others_own {A} (host : A -> Uuid) l x : host x = me -> by_others host (Some me) (l ++ [x]) = by_others host (Some me) l.
Proof. intros Hx. unfold by_others. rewrite List.filter_app. cbn. rewrite Hx, bool_decide_eq_true_2 by done. apply app_nil_r. Qed.

Lemma pending_confined p f d : (forall a, action_order (f a) = action_order a) -> P d -> P (set_db_pending (update_where p f (db_pending d)) d).
Proof. intros Hf H. unfold sees_confined, confined_view in *. cbn. rewrite update_where_map by done. exact H. Qed.

Lemma drift_confined hash n src : keeps P (record_drift me hash n src).
Proof.
  unfold record_drift. repeat view_step. unfold sees_confined, confined_view in *. cbn -[by_others]. rewrite by_others_own by done. assumption.
Qed.

Lemma record_confined req : keeps P (record_check_in me req).
Proof.
  unfold record_check_in. repeat view_step. unfold sees_confined, confined_view in *. cbn -[by_others]. rewrite by_others_own by done. assumption.
Qed.

Lemma healthy_confined v : keeps P (mark_healthy me v).
Proof.
  unfold mark_healthy. repeat view_step. unfold sees_confined, confined_view in *. cbn.
  replace (map (unreported (Some me)) (update_where _ _ _)) with (map (unreported (Some me)) (db_hosts d)); [assumption|].
  unfold update_where. rewrite map_map. apply map_ext. intros h. case_bool_decide as Hh; [|done]. unfold unreported. cbn.
  by rewrite Hh, !bool_decide_eq_true_2.
Qed.

Lemma take_confined : keeps P (take_pending me).
Proof. unfold take_pending. repeat view_step. by apply pending_confined. Qed.

Ltac confined_step := apply drift_confined || apply record_confined || apply healthy_confined || apply take_confined || view_step.

Lemma check_in_confined req : keeps P (check_in me req).
Proof. unfold check_in, expected_policy, fetch_rules_for_policy_set, config_for. repeat confined_step. Qed.
Lemma check_in_result_confined req : keeps P (check_in_result me req).
Proof. unfold check_in_result. repeat confined_step. by apply pending_confined. Qed.
Lemma get_policy_confined : keeps P (get_policy me).
Proof. unfold get_policy, fetch_rules_for_policy_set. repeat confined_step. Qed.
End confined.

(** ** The manager *)

Section manager.
Context {SQL : Sql} {SHA : Sha256} {JS : SerdeJson} {SB : SerdeBody} {JP : SerdeParse} {UT : UuidText} {RFC : Rfc3339}
  {PG : PgInet} {IPN : IpNetLib} {HOST : IpNetHost} {JWT : Jwt} {A2 : Argon2} {UNI : Unicode} {COL : Collation} {PJ : PgJson}
  {RC : Rcgen} {HX : Hex} {B64 : Base64} {X : X509} {RL : Rustls} {TN : TokioNotify} {AX : AxumJson}
  {RT : RandomToken} {QL : QueryLib} {ST : SqlxText}.

(** What comes in: a user's request, with the limiters' answers; an agent's, on a
    connection the listener identified or not; a pass of the worker; time. *)
Inductive ManagerEvent :=
  | FromUser (limited : string -> bool) (q : ApiRequest)
  | FromAgent (info : option ClientCertInfo) (m : Method) (target body : string)
  | StalePass
  | Clock (now : DateTime).

(** [GET /api/v1/agent/events]. *)
Definition open_stream (info : option ClientCertInfo) (s : Site) : Site :=
  match host_identity info with Ok host => final (on_events (events host)) s | Err _ => s end.

Definition manager_step (cfg : SiteConfig) (s : Site) (e : ManagerEvent) : Site :=
  match e with
  | FromUser limited q => (serve_site cfg limited q s).2
  | FromAgent info m target body =>
      match serve_agent info m target body (st_db s) with
      | Some (_, d) => set_st_db d s
      | None => open_stream info s
      end
  | StalePass => set_st_db (final detect_stale_agents (st_db s)) s
  | Clock now => set_st_db (set_db_now now (st_db s)) s
  end.

(** An agent's request keeps what the three handlers and the opening of a stream
    keep. *)
Lemma reply_keeps (P : Db -> Prop) {A} (f : A -> HttpReply) (m : DB A) d : keeps P m -> P d -> P (reply f m d).2.
Proof. intros Hm Hd. specialize (Hm d Hd). unfold final, reply in *. by destruct (m d) as [[]]. Qed.

Lemma json_body_read {A} (de : Json -> option A) body a : json_body de body = Ok a -> exists j, de j = Some a.
Proof.
  unfold json_body. destruct (body_fits _); [|done]. destruct (body_parse body ≫= de) as [x|] eqn:Hx; [|done]. intros [= <-].
  apply bind_Some in Hx as (j & _ & Hj). by exists j.
Qed.

Lemma serve_agent_keeps (P : Db -> Prop) info m target body d r d' :
  (forall i, info = Some i -> (forall j req, de_check_in_request j = Some req -> keeps P (check_in (cc_host_id i) req)) /\ (forall req, keeps P (check_in_result (cc_host_id i) req)) /\
    keeps P (get_policy (cc_host_id i))) ->
  serve_agent info m target body d = Some (r, d') -> P d -> P d'.
Proof.
  intros Hk Hs Hd. unfold serve_agent in Hs. destruct (find_endpoint _ _) as [[e c]|]; [|by simplify_eq].
  destruct (find_method m e) as [name|]; [|by simplify_eq]. apply bind_Some in Hs as (h & Hh & [= Hr]). change d' with (r, d').2. rewrite <- Hr.
  unfold agent_handler in Hh. repeat case_bool_decide; simplify_eq;
    unfold http_check_in, http_check_in_result, http_get_policy, http_whoami, with_host, with_json; destruct info as [i|]; cbn [host_identity snd]; try done;
    destruct (Hk i eq_refl) as (H1 & H2 & H3); try (destruct (json_body _ _) as [req|] eqn:Hreq; [apply json_body_read in Hreq as [j Hj]|done]);
    apply reply_keeps; eauto.
Qed.

(** Opening a stream reads the database and makes an entry for the host. *)
Lemma open_stream_keeps (P : Db -> Prop) `{!Unaudited P} info s : P (st_db s) -> P (st_db (open_stream info s)).
Proof.
  intros Hs. destruct info as [i|]; [|exact Hs]. unfold open_stream, final, on_events, events. cbn [host_identity es_db].
  assert (keeps P (events_hold_secs (cc_host_id i))) as Hk by (unfold events_hold_secs; repeat view_step). specialize (Hk _ Hs).
  unfold final in Hk. by destruct (events_hold_secs _ _) as [[]].
Qed.

Lemma open_stream_rest info s : let s' := open_stream info s in
  st_approved s' = st_approved s /\ st_auth s' = st_auth s /\ st_disk s' = st_disk s /\ st_acceptor s' = st_acceptor s /\
  forall h, Some h <> cc_host_id <$> info -> st_notify s' !! h = st_notify s !! h.
Proof.
  destruct info as [i|]; [|done]. unfold open_stream, final, on_events, events. cbn [host_identity es_db].
  destruct (events_hold_secs _ _) as [[] d]; cbn; split_and!; try done. intros h Hh. rewrite lookup_insert_ne; [done|congruence].
Qed.


(** ** The tables stay sound *)

Context {SQLL : SqlLaws}.

Ltac agent_step := unfold check_in, check_in_result, get_policy, expected_policy, fetch_rules_for_policy_set, config_for, record_check_in,
  mark_healthy, record_drift, take_pending; repeat view_step.

Lemma agent_integrity h : (forall req, keeps integrity (check_in h req)) /\ (forall req, keeps integrity (check_in_result h req)).
Proof.
  split; intros req; agent_step; try (by apply update_host_integrity); by eapply integrity_other.
Qed.

#[local] Instance users_unlogged : Unaudited users_wf.
Proof. split; intros ? ?; by apply users_wf_frame. Qed.

Lemma agent_users h : (forall req, keeps users_wf (check_in h req)) /\ (forall req, keeps users_wf (check_in_result h req)).
Proof. split; intros req; agent_step; (eapply users_wf_frame; [|eassumption]; reflexivity). Qed.

Lemma stale_pass_sound : keeps sound detect_stale_agents.
Proof.
  unfold detect_stale_agents, set_health. repeat view_step. destruct H as (Hi & Ht & Hu).
  split_and!; [by apply update_host_integrity|eapply typed_frame; [..|eassumption]; reflexivity|eapply users_wf_frame; [|eassumption]; reflexivity].
Qed.

Lemma manager_step_sound cfg s e : sound (st_db s) -> sound (st_db (manager_step cfg s e)).
Proof.
  intros Hs. destruct e as [limited q|info m target body| |now]; cbn [manager_step].
  - by apply serve_site_sound.
  - destruct (serve_agent _ _ _ _ _) as [[r d]|] eqn:Ha; [|by apply open_stream_keeps; [apply _|]].
    eapply serve_agent_keeps; [|exact Ha|exact Hs]. intros i _. split_and!; intros.
    + apply keeps_sound; [apply agent_integrity|apply check_in_typed|apply agent_users].
    + apply keeps_sound; [apply agent_integrity|apply check_in_result_typed|apply agent_users].
    + unfold get_policy, fetch_rules_for_policy_set. repeat view_step.
  - by apply stale_pass_sound.
  - eapply sound_frame; [|exact Hs]. reflexivity.
Qed.

Definition manager_run (cfg : SiteConfig) (es : list ManagerEvent) (s : Site) : Site := foldl (manager_step cfg) s es.

Lemma manager_run_sound cfg es s : sound (st_db s) -> sound (st_db (manager_run cfg es s)).
Proof. unfold manager_run. revert s. induction es as [|e es IH]; intros s Hs; [done|]. by apply IH, manager_step_sound. Qed.
End manager.
