(* ===== verification/SchemaKeeps.v ===== *)
(** * SchemaKeeps: the constraints hold, whatever comes in

    Every request of users and agents, every pass of the worker and every moment of
    the manager keeps [Schema.linked]. *)

From S2P Require Import Prelude Text Models Net Files Wire WireJson Db AuditLog Auth Router AgentApi Events PolicyAdmin Deployment.
From S2P Require Import AdminFacts Ca Listener Login LoginFacts Users UserFacts Settings SettingsFacts Enrollment TypedDb Views Worker Schema AgentHttp.
From S2P Require Import WebBodies WebApi WebApiKeeps WebApiFacts WebApiInvariant ManagerSite.

Section facts.
Context {SQL : Sql} {SHA : Sha256} {JS : SerdeJson} {SB : SerdeBody} {JP : SerdeParse} {UT : UuidText} {RFC : Rfc3339}
  {PG : PgInet} {IPN : IpNetLib} {HOST : IpNetHost} {JWT : Jwt} {A2 : Argon2} {UNI : Unicode} {COL : Collation} {PJ : PgJson}
  {RC : Rcgen} {HX : Hex} {B64 : Base64} {X : X509} {RL : Rustls} {TN : TokioNotify} {AX : AxumJson}
  {RT : RandomToken} {QL : QueryLib} {ST : SqlxText} {SQLL : SqlLaws}.

Definition site_linked (s : Site) : Prop := linked (st_db s).
#[local] Instance linked_unlogged : Unlogged site_linked.
Proof. intros s. exact linked_unaudited. Qed.

Lemma next_uuid_linked n d : linked d -> linked (set_db_next_uuid n d).
Proof. intros H. relink. Qed.
Lemma crl_counter_linked x d : linked d -> linked (set_db_crl_counter x d).
Proof. intros H. relink. Qed.

(** ** Without a role *)

Lemma issue_linked sk u r n : keeps linked (internal_jwt (issue_access_token sk u r n)).
Proof. intros d Hd. destruct (issue_run sk u r n d) as (x & Hr & _). unfold final. rewrite Hr. by apply next_uuid_linked. Qed.
Lemma hash_linked pw : keeps linked (internal_password (hash_password pw)).
Proof. intros d Hd. destruct (hash_run pw d) as (x & Hr & _). unfold final. rewrite Hr. by apply next_uuid_linked. Qed.
Lemma fresh_linked : keeps linked fresh_uuid.
Proof. intros d Hd. by apply next_uuid_linked. Qed.

Lemma draw_linked {E} : keeps linked (draw (E:=E)).
Proof. intros d Hd. by apply next_uuid_linked. Qed.

Ltac link_step :=
  lazymatch goal with
  | |- keeps _ (internal_jwt _) => apply issue_linked
  | |- keeps _ (internal_password _) => apply hash_linked
  | |- keeps _ fresh_uuid => apply fresh_linked
  | |- keeps _ (execute_if _ _) => apply keeps_execute_if_ok; [apply un_faults|intros ? ? ?]
  | |- _ => view_step
  end.

Lemma login_linked sk req : keeps linked (login sk req).
Proof.
  unfold login, login_accepted, login_rejected, count_failure, lock_account, reset_attempts, insert_refresh. repeat link_step.
  - relink.
  - match goal with Hc : _ && _ = true |- _ => apply andb_true_iff in Hc as [Hu Hf%key_free] end. relink. referring.
  - rewrite forallb_forall in H0. relink. apply ints_update; [|done]. intros x Hx Hp [Hl Hh]. apply list_elem_of_In in Hx. specialize (H0 x Hx).
    rewrite Hp in H0. cbn in H0. apply Z.ltb_lt in H0. unfold fits in *. cbn in *. lia.
  - relink.
Qed.
Lemma refresh_linked sk token : keeps linked (refresh_token sk token).
Proof. unfold refresh_token. repeat link_step. relink. Qed.
Lemma logout_linked u token : keeps linked (logout u token).
Proof. unfold logout. repeat link_step. relink. Qed.
Lemma submit_linked req : keeps linked (submit_enrollment req).
Proof. unfold submit_enrollment, validate_token. repeat link_step; [relink|by eapply upsert_request_linked]. Qed.
Lemma change_password_linked u cur new : keeps linked (change_password u cur new).
Proof.
  unfold change_password, stored_hash. repeat link_step; [|relink].
  intros d Hd. unfold final, query. destruct (db_faults d) as [|[] fs]; repeat case_match; try done; by apply un_faults.
Qed.

(** ** The lenses *)

Lemma on_manager_linked {A} (m : MG A) : keeps (fun g => linked (mg_db g)) m -> keeps site_linked (on_manager m).
Proof.
  intros Hm s Hs. specialize (Hm (mkManager (st_db s) (st_approved s)) Hs). unfold final, on_manager in *. by destruct (m _).
Qed.
Lemma on_lists_linked {A} (m : M Web AppError A) : keeps (fun w => linked (web_db w)) m -> keeps site_linked (on_lists m).
Proof. intros Hm s Hs. specialize (Hm (mkWeb (st_db s) (st_auth s)) Hs). unfold final, on_lists in *. by destruct (m _). Qed.
Lemma on_server_linked {A} (m : M Server AppError A) : keeps (fun v => linked (cw_db (sv_world v))) m -> keeps site_linked (on_server m).
Proof.
  intros Hm s Hs. specialize (Hm (mkServer (mkCaWorld (st_disk s) (st_db s)) (st_acceptor s)) Hs). unfold final, on_server in *. by destruct (m _).
Qed.
Lemma on_server_db_linked {A} (m : DB A) : keeps linked m -> keeps (fun v => linked (cw_db (sv_world v))) (on_server_db m).
Proof. intros Hm v Hv. specialize (Hm _ Hv). unfold final, on_server_db in *. by destruct (m _). Qed.
Lemma on_web_linked {A} (m : DB A) : keeps linked m -> keeps (fun w => linked (web_db w)) (on_web m).
Proof. intros Hm v Hv. specialize (Hm _ Hv). unfold final, on_web in *. by destruct (m _). Qed.

(** ** Writing *)

Lemma create_group_linked u n ds : keeps linked (create_group u n ds).
Proof.
  unfold create_group. repeat link_step. destruct (forallb _ _) eqn:Hf; [|done]. simplify_eq. rewrite forallb_forall in Hf. relink.
  all: apply keyed_snoc; [done|]; cbn; intros (x & He & Hx%list_elem_of_In)%list_elem_of_fmap; specialize (Hf x Hx);
    apply andb_true_iff in Hf as [Hf1 Hf2]; first [rewrite bool_decide_eq_true_2 in Hf1 by done|rewrite bool_decide_eq_true_2 in Hf2 by done]; done.
Qed.
Lemma add_host_linked u id host : keeps linked (add_host_to_group u id host).
Proof.
  unfold add_host_to_group. repeat link_step. destruct (bool_decide (_ ∈ _)) eqn:Hn; [done|]. apply bool_decide_eq_false in Hn.
  match goal with Hc : _ && _ = true |- _ => apply andb_true_iff in Hc as [Hh [g Hg]%bool_decide_eq_true] end.
  apply head_scan_in in Hg as [Hg He%bool_decide_eq_true]. relink.
  - referring.
  - apply refers_snoc; [done|]. cbn. intros ? [= <-]. apply list_elem_of_fmap. by exists g.
  - apply keyed_snoc; [done|]. by rewrite map_id.
Qed.
Lemma remove_host_linked u id host : keeps linked (remove_host_from_group u id host).
Proof. unfold remove_host_from_group. repeat link_step. relink. Qed.

Lemma writing_linked q caps u name h : (name, h) ∈ writing_table q caps u -> hkeeps site_linked h.
Proof.
  intros Hh. eapply writing_keeps; [exact Hh|..]; intros.
  - by apply run_op_linked.
  - apply create_group_linked.
  - apply add_host_linked.
  - apply remove_host_linked.
Qed.

(** ** Administration *)

Lemma create_user_linked u req : keeps linked (create_user u req).
Proof.
  unfold create_user. repeat link_step. unfold insert_user in *. case_match; [|done]. simplify_eq. relink. apply ints_snoc; [done|].
  unfold fits. cbn. lia.
Qed.
Lemma update_user_linked u id req : keeps linked (update_user u id req).
Proof. unfold update_user. repeat link_step. unfold apply_user_update in *. repeat case_match; simplify_eq; try done. relink. Qed.
Lemma delete_user_linked u id : keeps linked (delete_user u id).
Proof. unfold delete_user. repeat link_step. by apply drop_user_linked. Qed.

Lemma upsert_config_linked k v d : linked d -> linked (upsert_config k v d).
Proof.
  intros H. unfold upsert_config. destruct (existsb _ _) eqn:He; relink.
  - apply keyed_update; [by intros []|done].
  - apply keyed_snoc; [done|]. intros ([k' v'] & Hk & Hx%list_elem_of_In)%list_elem_of_fmap. apply not_true_iff_false in He.
    apply He, existsb_exists. exists (k', v'). split; [done|]. by apply bool_decide_eq_true_2; symmetry.
Qed.
Lemma update_settings_linked u req : keeps linked (update_settings u req).
Proof.
  unfold update_settings, get_settings, get_config_json, set_section, set_config, push_interval.
  repeat (apply upsert_config_linked || link_step); try assumption; relink.
Qed.

Lemma approve_linked cfg ca u id : keeps (fun g => linked (mg_db g)) (approve_enrollment cfg ca u id).
Proof.
  apply approve_keeps; [apply _|..]; intros.
  - by eapply insert_host_linked.
  - by apply override_linked.
  - by eapply insert_cert_linked.
  - by apply next_uuid_linked.
  - relink.
Qed.

Lemma swap_linked ca tls : keeps (fun v => linked (cw_db (sv_world v))) (swap_acceptor ca tls).
Proof.
  intros v Hv. unfold final, swap_acceptor. destruct (sv_acceptor v); [|done].
  assert (linked (cw_db (final (build_agent_tls_config ca tls) (sv_world v)))) as H.
  { revert Hv. generalize (sv_world v). change (keeps (fun w => linked (cw_db w)) (build_agent_tls_config ca tls)).
    unfold build_agent_tls_config. apply keeps_bind.
    { intros w Hw. pose proof (keeps_generate_crls linked ca crl_counter_linked _ Hw) as Hc. unfold final, on_db_as in *. by destruct (generate_crls _ _). }
    intros crls. do 2 (apply keeps_bind; [intros w Hw; unfold final, on_disk_as; by destruct (disk_read _ _)|intros ?]). apply keeps_lift. }
  unfold final in H. destruct (build_agent_tls_config ca tls (sv_world v)) as [[c|e] w]; exact H.
Qed.

Lemma revoke_cert_linked ca tls u id : keeps (fun v => linked (cw_db (sv_world v))) (revoke_cert ca tls u id).
Proof.
  unfold revoke_cert. repeat (apply on_server_db_linked || apply swap_linked || link_step). unfold revoke_rows in *. simplify_eq. relink.
Qed.

Lemma lists_linked u l : keeps (fun w => linked (web_db w)) (put_ip_whitelist u l) /\ keeps (fun w => linked (web_db w)) (put_trusted_proxies u l).
Proof.
  unfold put_ip_whitelist, put_trusted_proxies, set_config, set_auth. cbv zeta.
  split; repeat (apply on_web_linked || (apply keeps_modify; by intros) || link_step); by apply upsert_config_linked.
Qed.

Lemma delete_group_linked u id : keeps linked (delete_group u id).
Proof.
  unfold delete_group. repeat link_step. relink.
  all: eapply refers_cascade; [..|eassumption]; [|done]; intros [] Hx; cbn in *; apply bool_decide_eq_false in Hx; congruence.
Qed.
Lemma add_protected_linked u id c l : keeps linked (add_protected_cidr u id c l).
Proof.
  unfold add_protected_cidr. repeat link_step. case_match; [|done]. destruct (_ && _) eqn:Hc; [|done].
  rewrite !andb_true_iff in Hc. destruct Hc as [[_ Hh] Hu]. destruct (existsb _ _) eqn:He; simplify_eq; [done|]. relink; [referring|referring|].
  apply keyed_snoc; [done|]. intros (x & Hk & Hx%list_elem_of_In)%list_elem_of_fmap. apply not_true_iff_false in He. apply He, existsb_exists.
  exists x. split; [done|]. injection Hk as <- <-. by apply bool_decide_eq_true_2.
Qed.
Lemma create_token_linked u t f ip ttl : keeps linked (create_token u t f ip ttl).
Proof.
  unfold create_token. repeat link_step. case_match; [|done]. destruct (_ && _) eqn:Hc; [|done].
  rewrite !andb_true_iff in Hc. destruct Hc as [[Hf%key_free Hu] _]. simplify_eq. relink. referring.
Qed.

Lemma admin_linked cfg q caps u name h : (name, h) ∈ admin_table cfg q caps u -> hkeeps site_linked h.
Proof.
  intros Hin. unfold admin_table in Hin. rewrite !elem_of_cons, elem_of_nil in Hin.
  repeat match type of Hin with _ \/ _ => destruct Hin as [Hin|Hin] end; try done; injection Hin as _ ->; repeat handler_step.
  1: refine (keeps_run _ _ (run_op_linked u (OpDeleteHost _) I)).
  all: lazymatch goal with
    | |- keeps _ (create_user _ _) => apply create_user_linked
    | |- keeps _ (update_user _ _ _) => apply update_user_linked
    | |- keeps _ (delete_user _ _) => apply delete_user_linked
    | |- keeps _ (update_settings _ _) => apply update_settings_linked
    | |- keeps _ (delete_group _ _) => apply delete_group_linked
    | |- keeps _ (add_protected_cidr _ _ _ _) => apply add_protected_linked
    | |- hkeeps _ (respond _ (on_server _)) => apply hkeeps_respond, on_server_linked, revoke_cert_linked
    | |- hkeeps _ (respond _ (on_lists _)) => apply hkeeps_respond, on_lists_linked, lists_linked
    | |- hkeeps _ (respond _ (on_manager _)) => apply hkeeps_respond, on_manager_linked, approve_linked
    | |- keeps _ _ => change (at_db site_linked s) with linked
    end.
  all: unfold update_oidc_config, update_smtp_config, deny_enrollment, revoke_token;
    repeat (apply create_token_linked || apply draw_linked || link_step); relink.
Qed.

(** ** Any requests *)

Lemma api_linked cfg q caps user name : hkeeps site_linked (api_handler cfg q caps user name).
Proof.
  apply api_handler_cases.
  - apply hkeeps_finish.
  - intros h Hh. eapply open_keeps; [tc_solve|exact Hh|..]; intros.
    + apply login_linked.
    + apply refresh_linked.
    + apply logout_linked.
    + apply submit_linked.
    + apply on_manager_linked. unfold poll_enrollment_status. repeat (apply keeps_on_db || (apply keeps_modify; by intros) || link_step).
    + by apply crl_counter_linked.
  - intros u h _ Hh. eapply reading_keeps; [tc_solve|exact Hh|..]; intros.
    + apply change_password_linked.
    + apply keeps_force; [tc_solve|done].
    + by apply crl_counter_linked.
  - intros u h _ Hh. by eapply writing_linked.
  - intros u h _ Hh. by eapply admin_linked.
Qed.

Lemma serve_site_linked cfg limited q s : linked (st_db s) -> linked (st_db (serve_site cfg limited q s).2).
Proof. intros Hs. apply (serve_site_keeps site_linked); [by intros; apply api_linked|done]. Qed.

(** ** Agents, the worker and time *)

Lemma record_drift_linked h hash n src : fits 32 n -> keeps linked (record_drift h hash n src).
Proof. intros Hn. unfold record_drift. repeat link_step. relink. referring. Qed.

Lemma check_in_linked h req : fits 64 (req_uptime_seconds req) -> fits 32 (req_config_version req) -> keeps linked (check_in h req).
Proof.
  intros Hu Hv. unfold check_in, expected_policy, fetch_rules_for_policy_set, config_for, record_check_in, mark_healthy, take_pending.
  repeat ((apply record_drift_linked; apply wrap32_fits) || link_step); relink. referring.
Qed.

Lemma check_in_result_linked h req : keeps linked (check_in_result h req).
Proof.
  unfold check_in_result. repeat ((apply record_drift_linked; unfold fits; lia) || link_step); relink.
Qed.

(** The integers of a check-in that was read. *)
Lemma de_field_int bits k fs z : de_field (de_int bits) k fs = Some z -> fits bits z.
Proof.
  unfold de_field, de_int. intros (o & _ & H)%bind_Some. destruct o as [[]|]; try done. cbn in H. destruct (_ && _) eqn:Hc in H; [|done]. simplify_eq.
  apply andb_true_iff in Hc as [?%Z.leb_le ?%Z.ltb_lt]. by split.
Qed.
Lemma check_in_read_fits j req : de_check_in_request j = Some req -> fits 64 (req_uptime_seconds req) /\ fits 32 (req_config_version req).
Proof.
  unfold de_check_in_request. destruct j; try done. intros H. repeat (apply bind_Some in H as (? & ? & H)). simplify_eq. cbn.
  split; [match goal with Hp : de_field _ "uptime_seconds" _ = _ |- _ => by apply de_field_int in Hp end|].
  match goal with Hp : de_field _ "config_version" _ = _ |- _ => by apply de_field_int in Hp end.
Qed.

Lemma stale_pass_linked : keeps linked detect_stale_agents.
Proof. unfold detect_stale_agents, set_health. repeat link_step. relink. Qed.

Lemma manager_step_linked cfg s e : linked (st_db s) -> linked (st_db (manager_step cfg s e)).
Proof.
  intros Hs. destruct e as [limited q|info m target body| |now]; cbn [manager_step].
  - by apply serve_site_linked.
  - destruct (serve_agent _ _ _ _ _) as [[r d]|] eqn:Ha; [|by apply open_stream_keeps; [apply _|]].
    eapply serve_agent_keeps; [|exact Ha|exact Hs]. intros i _. split_and!; intros.
    + apply check_in_linked; by eapply check_in_read_fits.
    + apply check_in_result_linked.
    + unfold get_policy, fetch_rules_for_policy_set. repeat link_step.
  - by apply stale_pass_linked.
  - cbn. relink.
Qed.

Lemma manager_run_linked cfg es s : linked (st_db s) -> linked (st_db (manager_run cfg es s)).
Proof. unfold manager_run. revert s. induction es as [|e es IH]; intros s Hs; [done|]. by apply IH, manager_step_linked. Qed.
End facts.
