(* ===== verification/Lifetimes.v ===== *)
(** * Lifetimes: starting the manager, and starting it again

    [main] of [crates/fw-web/src/main.rs] up to the two servers: the administrator's
    first password, the keys of the tokens, the CA, the agents' listener, and the
    state the servers share. A manager lives from a start to the next, and what it
    keeps only in memory ends with it. Binding the sockets and the TLS of the users'
    port are input and output of the process and are left out. *)

From S2P Require Import Prelude Text Codec Models Net Files Wire WireJson Db AuditLog Auth Router AgentApi Events PolicyAdmin Deployment.
From S2P Require Import AdminFacts Ca CaToy Listener AppConfig Login LoginFacts Users Settings SettingsFacts Enrollment TypedDb Views Worker Schema AgentHttp.
From S2P Require Import ListenerFacts EventsFacts ViewsFacts FleetHttp WebBodies WebApi WebApiKeeps WebApiFacts WebApiInvariant ManagerSite SchemaKeeps.

Section start.
Context {SQL : Sql} {SHA : Sha256} {JS : SerdeJson} {SB : SerdeBody} {JP : SerdeParse} {UT : UuidText} {RFC : Rfc3339}
  {PG : PgInet} {IPN : IpNetLib} {HOST : IpNetHost} {JWT : Jwt} {A2 : Argon2} {UNI : Unicode} {COL : Collation} {PJ : PgJson}
  {RC : Rcgen} {HX : Hex} {B64 : Base64} {X : X509} {RL : Rustls} {TN : TokioNotify} {AX : AxumJson}
  {RT : RandomToken} {QL : QueryLib} {ST : SqlxText}.

(** ** Starting *)

(** A key that cannot be read, a CA or listener that cannot be started, or a quota
    that has no configuration, where [expect] ends the process. *)
Inductive StartFailure := SfKey (e : string) | SfStart (e : StartError) | SfPanic.

(** [load_signing_key] and [load_verify_key]. *)
Definition load_key (path : string) : M CaWorld StartFailure string := on_disk_as SfKey (disk_read path).

(** [password] is the random text of the first administrator's password. *)
Definition start_manager (c : AppConfig) (password : string) : M CaWorld StartFailure (SiteConfig * Site) :=
  _ ← ignore (on_db_as (E:=AppError) id (bootstrap_admin_password password));
  signing ← load_key (sec_jwt_signing_key_path (app_security c));
  verify ← load_key (sec_jwt_verify_key_path (app_security c));
  ca ← fail_as SfStart (start_ca (tls_paths_of c));
  acceptor ← fail_as SfStart (start_acceptor ca (tls_paths_of c) (sec_agent_tls_sans (app_security c)));
  _ ← guard_or (bool_decide (is_Some (governors c))) SfPanic;
  w ← gets id;
  mret (mkSiteConfig _ (mkServerConfig (ws_host (app_server c)) (ws_agent_port (app_server c))) ca (tls_paths_of c) signing,
        mkSite (cw_db w) ∅ (auth_config_of verify c) (cw_disk w) acceptor ∅ []).

(** Starts that fail, or lives of some events, one after the other: what is left is
    the disk and the database. *)
Fixpoint lifetimes (c : AppConfig) (lives : list (string * list ManagerEvent)) (w : CaWorld) : CaWorld :=
  match lives with
  | [] => w
  | (password, es) :: rest =>
      match start_manager c password w with
      | (Ok (cfg, s), _) => let s' := manager_run cfg es s in lifetimes c rest (mkCaWorld (st_disk s') (st_db s'))
      | (Err _, w') => lifetimes c rest w'
      end
  end.

(** ** What a start leaves alone *)

Definition start_view (d : Db) :=
  (writer_view d, sound_columns d, (db_config d, db_tokens d, db_requests d, db_refresh d), (db_protected d, db_operator_groups d)).
Definition survives (d0 d : Db) : Prop := start_view d = start_view d0.

#[local] Instance survives_unaudited d0 : Unaudited (survives d0).
Proof. split; intros ? ? H; exact H. Qed.

(** A start keeps what its statements keep: the first administrator's password, the
    row of the root certificate and the counters of the revocation lists. *)
Section keeps.
Context (Q : Db -> Prop) `{!Unaudited Q}.
Hypothesis Hnext : forall n d, Q d -> Q (set_db_next_uuid n d).
Hypothesis Hcrl : forall x d, Q d -> Q (set_db_crl_counter x d).
Hypothesis Hroot : forall id serial pem now d, serial_free serial d = true -> Q d -> Q (set_db_certs (db_certs d ++ [root_cert_row id serial pem now]) d).
Hypothesis Hboot : forall p hash d, Q d -> Q (set_db_users (update_where p (fun u =>
  mkUser (u_id u) (u_username u) (u_display_name u) (u_email u) (u_role u) (u_auth_provider u) (Some hash) (u_mfa_enabled u) (u_is_active u)
    (u_force_password_reset u) (u_last_login_at u) (u_created_at u) (u_updated_at u) (u_failed_login_attempts u) (u_locked_until u)) (db_users d)) d).
Notation P := (fun w => Q (cw_db w)).

Lemma disk_keeps {E A} (f : string -> E) (m : M Disk string A) : keeps P (on_disk_as f m).
Proof. intros w Hw. unfold final, on_disk_as. by destruct (m _). Qed.
Lemma ca_disk_keeps {A} (m : M Disk string A) : keeps P (on_disk m).
Proof. intros w Hw. unfold final, on_disk. by destruct (m _). Qed.
Lemma db_keeps {E F A} (f : F -> E) (m : M Db F A) : keeps Q m -> keeps P (on_db_as f m).
Proof. intros Hm w Hw. specialize (Hm _ Hw). unfold final, on_db_as in *. by destruct (m _). Qed.
Lemma ca_db_keeps {A} (m : M Db CertError A) : keeps Q m -> keeps P (on_ca_db m).
Proof. intros Hm w Hw. specialize (Hm _ Hw). unfold final, on_ca_db in *. by destruct (m _). Qed.
Lemma fail_keeps {E F A} (f : E -> F) (m : M CaWorld E A) : keeps P m -> keeps P (fail_as f m).
Proof. intros Hm w Hw. specialize (Hm w Hw). unfold final, fail_as in *. by destruct (m w). Qed.
Lemma cert_keeps {A} (m : DB A) : keeps Q m -> keeps Q (cert_db m).
Proof. intros Hm d Hd. specialize (Hm d Hd). unfold final, cert_db in *. by destruct (m d). Qed.
Lemma query_keeps {A} (f : Db -> result A AppError * Db) : (forall d, Q d -> Q (f d).2) -> keeps Q (query f).
Proof.
  intros Hf d Hd. unfold final, query. destruct (db_faults d) as [|[] fs]; [by apply Hf|by apply un_faults|by apply Hf, un_faults].
Qed.
Lemma draw_keeps {E} : keeps Q (draw (E:=E)).
Proof. intros d Hd. by apply Hnext. Qed.
Lemma fresh_keeps : keeps Q fresh_uuid.
Proof. intros d Hd. by apply Hnext. Qed.
Lemma hash_keeps pw : keeps Q (hash_password pw).
Proof. unfold hash_password. apply keeps_bind; [apply draw_keeps|intros ?; apply keeps_lift]. Qed.

Ltac start_step :=
  lazymatch goal with
  | |- keeps _ (on_disk_as _ _) => apply disk_keeps
  | |- keeps _ (on_disk _) => apply ca_disk_keeps
  | |- keeps _ (on_db_as _ _) => apply db_keeps
  | |- keeps _ (on_ca_db _) => apply ca_db_keeps
  | |- keeps _ (fail_as _ _) => apply fail_keeps
  | |- keeps _ (cert_db _) => apply cert_keeps
  | |- keeps _ get => by intros ? ?
  | |- keeps _ draw => apply draw_keeps
  | |- keeps _ fresh_uuid => apply fresh_keeps
  | |- keeps _ (hash_password _) => apply hash_keeps
  | |- keeps _ (execute_if _ _) => apply keeps_execute_if_ok; [apply un_faults|intros ? ? ?]
  | |- _ => view_step
  end.

Lemma bootstrap_keeps password : keeps Q (bootstrap_admin_password password).
Proof.
  unfold bootstrap_admin_password. repeat start_step.
  - apply query_keeps. intros d Hd. by repeat case_match.
  - apply query_keeps. intros d Hd. cbn. by apply Hboot.
Qed.

Lemma start_keeps c password : keeps P (start_manager c password).
Proof.
  unfold start_manager, load_key, start_ca, ca_init, load_ca, generate_ca, persist_root_cert_row, with_issuing_ca, start_acceptor, ensure_agent_listener_cert,
    issue_server_cert, restrict_key_permissions, build_agent_tls_config. cbv zeta.
  repeat first [apply bootstrap_keeps | apply keeps_generate_crls; [apply _|exact Hcrl] | start_step].
  by apply Hnext, Hroot.
Qed.
End keeps.

Lemma start_survives d0 c password : keeps (fun w => survives d0 (cw_db w)) (start_manager c password).
Proof.
  apply start_keeps; [apply _|done|done|done|]. intros p hash d Hd. unfold survives, start_view, sound_columns, writer_view in *. cbn.
  by rewrite update_where_map.
Qed.

Lemma start_linked c password : keeps (fun w => linked (cw_db w)) (start_manager c password).
Proof.
  apply start_keeps; [apply _|..]; intros; [by apply next_uuid_linked|by apply crl_counter_linked| |relink].
  match goal with Hf : serial_free _ _ = true |- _ => apply key_free in Hf end. relink. apply refers_snoc; [done|by intros].
Qed.

(** A started manager works on the database the start leaves. *)
Lemma start_manager_site c password w cfg s w' : start_manager c password w = (Ok (cfg, s), w') ->
  st_db s = cw_db w' /\ st_disk s = cw_disk w' /\ st_approved s = ∅ /\ st_notify s = ∅ /\
  ip_whitelist (st_auth s) = parse_nets (sec_ip_whitelist (app_security c)) /\
  Auth.trusted_proxies (st_auth s) = parse_nets (sec_trusted_proxies (app_security c)).
Proof.
  unfold start_manager. intros H. repeat (apply bind_inv_ok in H as (? & ? & ? & H)). inv_ret H.
  match goal with Hg : gets id _ = _ |- _ => unfold gets in Hg; simplify_eq/= end. done.
Qed.

(** What survives a restart, and what does not: a manager that comes up has the
    policies, hosts, assignments, accounts, tokens, requests, sessions and settings of the database as they
    were; but its address lists are those of the configuration file, whatever was
    saved in the settings, no approved bundle waits for its agent any more, and no
    forced check-in is remembered. *)
Theorem restart_state c password w cfg s w' : start_manager c password w = (Ok (cfg, s), w') ->
  start_view (st_db s) = start_view (cw_db w) /\ st_approved s = ∅ /\ st_notify s = ∅ /\
  ip_whitelist (st_auth s) = parse_nets (sec_ip_whitelist (app_security c)) /\
  Auth.trusted_proxies (st_auth s) = parse_nets (sec_trusted_proxies (app_security c)).
Proof.
  intros H. destruct (start_manager_site _ _ _ _ _ _ H) as (Hd & _ & Hrest). split; [|exact Hrest].
  pose proof (start_survives (cw_db w) c password w eq_refl) as Hs. unfold final in Hs. rewrite H in Hs. by rewrite Hd.
Qed.

(** ** Soundness over lifetimes *)

Lemma survives_sound d0 d : survives d0 d -> sound d0 -> sound d.
Proof. intros H. apply sound_frame. unfold survives, start_view in H. congruence. Qed.

Context {SQLL : SqlLaws}.

Lemma lifetimes_sound c lives w : sound (cw_db w) -> sound (cw_db (lifetimes c lives w)).
Proof.
  revert w. induction lives as [|[password es] lives IH]; intros w Hw; [done|]. cbn.
  pose proof (start_survives (cw_db w) c password w eq_refl) as Hs. unfold final in Hs.
  destruct (start_manager c password w) as [[[cfg s]|e] w'] eqn:H; cbn in Hs; apply IH.
  - destruct (start_manager_site _ _ _ _ _ _ H) as (Hd & _). apply manager_run_sound. rewrite Hd. by eapply survives_sound.
  - by eapply survives_sound.
Qed.

Lemma lifetimes_linked c lives w : linked (cw_db w) -> linked (cw_db (lifetimes c lives w)).
Proof.
  revert w. induction lives as [|[password es] lives IH]; intros w Hw; [done|]. cbn. pose proof (start_linked c password w Hw) as Hs. unfold final in Hs.
  destruct (start_manager c password w) as [[[cfg s]|e] w'] eqn:H; cbn in Hs; apply IH; [|done].
  destruct (start_manager_site _ _ _ _ _ _ H) as (Hd & _). apply manager_run_linked. by rewrite Hd.
Qed.

(** C10. The manager's tables stay sound, whatever comes in and however often the manager
    is started: after any lives, each of any requests of users and agents, of any
    senders and with any bodies, of passes of the worker and of time, with any
    database failures on the way, if the tables were sound before then (1) every
    reference of the schema leads to a row: of memberships, rules, assignments,
    check-ins, configurations, pending actions, drift records, protected networks,
    certificates, groups and scopes, sessions, tokens, authors and decisions (only the
    actors of the audit log and the parents of certificates are left out); (2) the
    declared keys are unique: the ids of hosts, sets, groups, rules and accounts, the
    names of sets, rules, groups of hosts and accounts, a host's name with its address, the
    pairs of the join tables, one configuration per host, and the serials, hashes and
    machine ids that are looked up (the ids the server draws for check-ins, drift records,
    actions, certificates, requests and sessions are left out); (3) ports, priorities, intervals, versions,
    orders, counts and login failures are in the range of their columns; and a
    check-in that is answered then is answered by a message of the wire types, with an
    interval the agent can sleep for. *)
Theorem manager_keeps_sound c lives w : sound (cw_db w) -> linked (cw_db w) -> let d := cw_db (lifetimes c lives w) in
  sound d /\ linked d /\ forall host req resp d', check_in host req d = (Ok resp, d') ->
    response_fits resp /\ (forall u, resp_config resp = Some u -> config_sane u).
Proof.
  intros Hs Hl d. assert (sound d) as Hd by by apply lifetimes_sound.
  split; [done|]. split; [by apply lifetimes_linked|]. intros host req resp d'. apply check_in_fits, Hd.
Qed.
End start.

(** ** Witness *)

Definition toy_random : RandomToken := {| random_token := pretty |}.
Definition toy_query : QueryLib := {| drift_query _ := Some (None, None) |}.
#[local] Existing Instances toy_sql toy_sha256 text_serde text_body text_parse toy_uuid_text toy_rfc3339 toy_pg text_ipnet text_host toy_jwt
  toy_argon2 toy_unicode toy_collation toy_pg_json tls_rcgen toy_hex toy_base64 tls_x509 tls_rustls toy_notify toy_axum toy_random toy_query
  toy_sqlx toy_sql_laws.

(** An operator with a session, and requests in its name or in nobody's. *)
Definition demo_db : Db :=
  set_db_refresh [mkRefresh (uuid_of 7) "x" 0 0 3600000000000 false None (Some "jti-1")] admin_db.
Definition demo_app : AppConfig := minimal_config "postgres://db" "0.0.0.0" 443 "/jwt.key" "/jwt.pub".
Definition demo_world : CaWorld := mkCaWorld (mkDisk {["/jwt.key" := mkFile "sk" 384; "/jwt.pub" := mkFile "vk" 420]} ∅) demo_db.
Definition demo_token : string := to_text (claims_code (mkClaims (uuid_to_string (uuid_of 7)) 0 900 "jti-1" "operator" "op")).
Definition ask (token : option string) (m : Method) (path : string) (body : Json) : ManagerEvent :=
  FromUser (fun _ => false) (mkApiRequest (mkHttpRequest m path (mkRequest (String.append "Bearer " <$> token) None None)) "" true (json_to_string body)).
Definition demo_group : string := uuid_to_string (uuid_of 104).
Definition demo_rule (priority : Z) : Json :=
  JObj [("name", JStr "https"); ("action", JStr "allow"); ("direction", JStr "in"); ("protocol", JStr "tcp"); ("priority", JNum priority);
        ("dst_port_start", JNum 443); ("dst_port_end", JNum 443)].
(** A group and a rule are made and a priority outside [i32] is rejected; after a
    restart the host's agent checks in and the operator fails to delete a user. *)
Definition demo_lives : list (string * list ManagerEvent) := [
  ("first", [ask (Some demo_token) POST "/api/v1/rule-groups" (JObj [("name", JStr "web")]);
             ask (Some demo_token) POST ("/api/v1/rule-groups/" +:+ demo_group +:+ "/rules") (demo_rule 10);
             ask (Some demo_token) POST ("/api/v1/rule-groups/" +:+ demo_group +:+ "/rules") (demo_rule (2 ^ 40))]);
  ("second", [FromAgent (Some (mkClient (uuid_of 50) "192.0.2.1:40000")) POST "/api/v1/agent/check-in"
                (json_to_string (ser_check_in_request typed_check_in));
              ask (Some demo_token) DELETE ("/api/v1/users/" +:+ uuid_to_string (uuid_of 7)) JNull])].

Lemma demo_sound : sound demo_db.
Proof.
  split_and!.
  - split; cbn; try apply NoDup_nil_2; by intros ? ?%not_elem_of_nil.
  - split; cbn; by intros ? ?%not_elem_of_nil.
  - split; cbn; apply NoDup_singleton.
Qed.

Lemma demo_linked : linked demo_db.
Proof.
  split; [|split; [|split; [|split]]]; split.
  all: lazymatch goal with
    | |- keyed _ _ => unfold keyed; apply (bool_decide_unpack _); vm_compute; exact I
    | |- refers _ _ _ => intros x y Hx Hy; apply (bool_decide_unpack (y ∈ _))
    | |- ints _ _ _ => intros x Hx; unfold fits
    end.
  all: cbn in *; repeat (apply elem_of_cons in Hx as [->|Hx]); try (by apply not_elem_of_nil in Hx); try (cbn; lia).
  all: injection Hy as <-; vm_compute; exact I.
Qed.

Definition demo_counts (d : Db) : nat * nat * nat := (length (db_rules d), length (db_check_ins d), length (db_users d)).

Lemma manager_keeps_sound_witness : let d := cw_db (lifetimes demo_app demo_lives demo_world) in
  demo_counts d = (1, 1, 1)%nat /\ sound d /\ linked d.
Proof.
  intros d. split; [vm_compute; reflexivity|].
  destruct (manager_keeps_sound demo_app demo_lives demo_world demo_sound demo_linked) as (Hs & Hl & _). exact (conj Hs Hl).
Defined.

Lemma restart_state_witness : exists cfg s w', start_manager demo_app "first" demo_world = (Ok (cfg, s), w') /\
  writer_view (st_db s) = writer_view demo_db /\ st_approved s = ∅ /\ ip_whitelist (st_auth s) = [].
Proof.
  pose (r := start_manager demo_app "first" demo_world). assert (match r.1 with Ok _ => true | Err _ => false end = true) as Hok by (vm_compute; reflexivity).
  assert (start_manager demo_app "first" demo_world = r) as H by reflexivity. clearbody r. destruct r as [[[cfg s]|e] w']; [|discriminate Hok].
  exists cfg, s, w'. split; [exact H|]. destruct (restart_state demo_app "first" demo_world cfg s w' H) as (Hv & Ha & _ & Hw & _).
  split_and!; [exact (f_equal (fun v => v.1.1.1) Hv)|exact Ha|exact Hw].
Defined.
