(* ===== verification/Enforcement.v ===== *)
(** * Enforcement: from an accepted request to the host's firewall

    The whole way of a rule: a user's request passes the router, the authentication,
    the reading of its body and the handler; the agent's next check-in is served the
    policy set, reads it from the wire, compiles it and runs [ufw]. The theorem
    composes the components' theorems. *)

From S2P Require Import Prelude Text Codec Models Net Policy ProtectedCidrs Backend ShellWords UfwCompile UfwApply.
From S2P Require Import Files AgentState AgentToy Wire WireJson PullLoop ManagerUrl PullLoopFacts Db AuditLog Auth Router AgentApi Events PolicyAdmin Deployment UfwRead.
From S2P Require Import AdminFacts DeploymentFacts Ca CaToy Listener Login LoginFacts Users Settings SettingsFacts Enrollment Views AgentApiFacts AgentHttp.
From S2P Require Import ListenerFacts EventsFacts ViewsFacts Fleet FleetHttp WebBodies WebApi WebApiKeeps WebApiFacts Lifetimes.

(** ** The agent's copy of a rule *)

(** A rule with its name for its comment: the wire carries no comment. *)
Definition named (r : FirewallRule) : FirewallRule :=
  {| rule_id := rule_id r; rule_name := rule_name r; rule_description := rule_description r; rule_action := rule_action r;
     rule_direction := rule_direction r; rule_protocol := rule_protocol r; src_cidr := src_cidr r; src_port_start := src_port_start r;
     src_port_end := src_port_end r; dst_cidr := dst_cidr r; dst_port_start := dst_port_start r; dst_port_end := dst_port_end r;
     interface_in := interface_in r; interface_out := interface_out r; rule_comment := rule_name r; rule_log := rule_log r;
     rule_priority := rule_priority r; rule_created_by := rule_created_by r; rule_created_at := rule_created_at r;
     rule_updated_at := rule_updated_at r |}.

Lemma agent_copy_args now r : ufw_args (dto_to_rule now (rule_to_dto r)) = ufw_args (named r).
Proof.
  unfold ufw_args, ufw_rule_words, dto_to_rule, rule_to_dto, named. cbn.
  by rewrite action_str_roundtrip, direction_str_roundtrip, protocol_str_roundtrip.
Qed.

Lemma agent_copies_args now rs : ufw_args <$> map (dto_to_rule now) (map rule_to_dto rs) = ufw_args <$> map named rs.
Proof. induction rs as [|r rs IH]; [done|]. cbn [map]. by rewrite !fmap_cons, agent_copy_args, IH. Qed.

Lemma agent_copies_words now rs : Forall rule_words_ok rs -> Forall rule_words_ok (map (dto_to_rule now) (map rule_to_dto rs)).
Proof. intros H. rewrite map_map. apply Forall_map. eapply Forall_impl; [exact H|]. by intros r Hr. Qed.

Section fleet.
Context {OS : HostOs} {COD : AgentCodec} {SHA : Sha256} {IPN : IpNetLib} {U : UrlLib} {UT : UuidText}
  {SQL : Sql} {JS : SerdeJson} {RFC : Rfc3339} {SH : Shlex}.
Context {UFW : UfwLaws} {SHL : ShlexLaws} {CODL : AgentCodecLaws} {SQLL : SqlLaws}.
Notation W := (AgentWorld Db).

(** The words the apply of an answer is made of are words of the shell, the rules
    match different packets, and the run of [ufw] meets no error. *)
Record clean_apply (stored : list FirewallRule) (ctx : ApplyContext) (w : W) : Prop := {
  cl_ctx : ctx_words_ok ctx;
  cl_rules : Forall rule_words_ok stored;
  cl_tuples : NoDup (ufw_tuple <$> (umbilical_args ctx :: (ufw_args <$> map named stored)));
  cl_writable : LAST_GOOD_PATH ∉ aw_unwritable w;
  cl_run : forall c r h, ufw_compile (map (dto_to_rule (aw_now w)) (map rule_to_dto stored)) ctx = Ok c ->
    ufw_apply c (aw_os w) = (Ok r, h) -> apply_error r = None
}.

(** What is stored at the manager is what the host enforces, rule by rule and in
    policy order, after a cycle that applies a changed policy. *)
Lemma policy_enforced host ps req drift (w w1 w2 : W) resp hash ds : let stored := policy_rules ps (aw_net w) in
  healthy (aw_net w) -> host_exists host (aw_net w) = true -> assigned_set host (aw_net w) = Some ps -> stored <> [] ->
  net_call (net_check_in (ManagerLink:=fleet_link host) req) w = (Ok (Ok resp), w1) -> resp_rules_changed resp = true ->
  decide_apply UfwBackend resp drift w1 = (Ok (Some (Ok hash), ds), w2) ->
  clean_apply stored (cycle_ctx ds w1) w1 ->
  ufw_active_rules (aw_os w2) = umbilical_args (cycle_ctx ds w1) :: (ufw_args <$> map named stored).
Proof.
  intros stored Hd Hh Hps Hne Hci Hch Hda [Hctx Hw Hnd Hwr Hcl].
  destruct (fleet_check_in host req w Hd Hh) as (r & d' & Hci' & Hrules & _). rewrite Hci in Hci'. injection Hci' as <- Hw1.
  unfold served_rules in Hrules. rewrite Hps in Hrules. fold stored in Hrules.
  rewrite decide_apply_spec in Hda. unfold planned_apply in Hda. destruct (resp_rules resp) as [|x xs] eqn:Hx; [by destruct stored|].
  rewrite Hch in Hda. simpl orb in Hda. cbv iota in Hda. rewrite Hrules in Hda.
  destruct (apply_rules _ _ _ _ _) as [ar wa] eqn:Har in Hda. injection Hda as -> <- ->.
  set (copies := map (dto_to_rule (aw_now w1)) (map rule_to_dto stored)) in *.
  destruct (apply_rules_ok_guards _ _ _ _ _ _ _ Har) as (Hg & Hu & Hl).
  destruct (apply_rules_ufw _ _ _ w1 Hg Hu Hl) as (c & r & h & Hc & Hr & _).
  destruct (apply_rules_clean copies _ _ _ _ hash c r h Hctx (agent_copies_words _ _ Hw)
    ltac:(unfold copies; rewrite agent_copies_args; exact Hnd) Hwr Har Hc Hr (Hcl _ _ _ Hc Hr)) as [Hact _].
  rewrite Hact. f_equal. apply agent_copies_args.
Qed.
End fleet.

(** ** The request *)

Section web.
Context {SQL : Sql} {SHA : Sha256} {JS : SerdeJson} {SB : SerdeBody} {JP : SerdeParse} {UT : UuidText} {RFC : Rfc3339}
  {PG : PgInet} {IPN : IpNetLib} {HOST : IpNetHost} {JWT : Jwt} {A2 : Argon2} {UNI : Unicode} {COL : Collation} {PJ : PgJson}
  {RC : Rcgen} {HX : Hex} {B64 : Base64} {X : X509} {RL : Rustls} {TN : TokioNotify} {AX : AxumJson}
  {RT : RandomToken} {QL : QueryLib} {AXL : AxumJsonLaws} {SQLL : SqlLaws}.

(** The stored rule is the one that was asked for. *)
Definition as_requested (req : CreateRuleInGroupRequest) (r : FirewallRule) : Prop :=
  rule_name r = cr_name req /\ rule_action r = cr_action req /\ rule_direction r = cr_direction req /\ rule_protocol r = cr_protocol req /\
  inet_cast (cr_src_cidr req) = Some (src_cidr r) /\ inet_cast (cr_dst_cidr req) = Some (dst_cidr r) /\
  (src_port_start r, src_port_end r) = (cr_src_port_start req, cr_src_port_end req) /\
  (dst_port_start r, dst_port_end r) = (cr_dst_port_start req, cr_dst_port_end req) /\
  interface_in r = cr_interface_in req /\ interface_out r = cr_interface_out req /\ rule_log r = default false (cr_log req) /\
  rule_ports_ok r = true.

(** The line [ufw] has to be given for a request: its action, its direction as far as
    [ufw] rules have one (a rule that is not outgoing is an incoming one), its log flag,
    the interface of that direction, its protocol, the networks as they are stored, its
    ports, and its name without quotes for the comment. *)
Definition requested_line (req : CreateRuleInGroupRequest) (src dst : option string) : UfwLine :=
  let out := bool_decide (cr_direction req = Out) in
  mkUfwLine (action_as_str (cr_action req)) out (default false (cr_log req)) (if out then cr_interface_out req else cr_interface_in req)
    (if bool_decide (cr_protocol req = Any) then None else Some (protocol_as_str (cr_protocol req)))
    (default "any" src) (s ← cr_src_port_start req; e ← cr_src_port_end req; Some (s, e))
    (default "any" dst) (s ← cr_dst_port_start req; e ← cr_dst_port_end req; Some (s, e))
    (if is_empty (cr_name req) then None else Some (remove_char "'" (cr_name req))).

Lemma requested_read req r : as_requested req r -> ufw_read (ufw_args (named r)) = Some (requested_line req (src_cidr r) (dst_cidr r)).
Proof.
  intros (Hn & Ha & Hd & Hp & _ & _ & Hs & Ht & Hi & Ho & Hl & Hok). rewrite ufw_args_read by exact Hok.
  injection Hs as Hs1 Hs2. injection Ht as Ht1 Ht2. unfold rule_line, requested_line, named. cbn.
  by rewrite Hn, Ha, Hd, Hp, Hs1, Hs2, Ht1, Ht2, Hi, Ho, Hl.
Qed.

(** The rule is in the group, and the groups are in the sets they were in. *)
Definition stored (r : FirewallRule) (g : Uuid) (sets : list FirewallPolicySetRuleGroup) (d : Db) : Prop :=
  (exists o, mkRuleRow r g o ∈ db_rules d) /\ db_set_groups d = sets.
#[local] Instance stored_unaudited r g sets : Unaudited (stored r g sets).
Proof. split; intros ? ? H; exact H. Qed.

Lemma insert_rule_stored u g req d r d' : insert_rule u g req d = Some (r, d') -> as_requested req r /\ stored r g (db_set_groups d) d'.
Proof.
  unfold insert_rule. destruct (inet_cast (cr_src_cidr req)) eqn:Hs, (inet_cast (cr_dst_cidr req)) eqn:Ht; try done.
  destruct (coalesce_order (cr_group_order req) _) as [order|]; [|done]. destruct (rule_ports_ok _ && _ && _ && _ && _) eqn:Hc; [|done].
  rewrite !andb_true_iff in Hc. destruct Hc as [[[[Hpo _] _] _] _]. intros [= <- <-]. split; [by split_and!|]. split; [|done]. exists order. cbn. set_solver.
Qed.

Lemma execute_returning_ok {A} (f : Db -> option (A * Db)) d a d' : execute_returning f d = (Ok a, d') ->
  exists fs, f (set_db_faults fs d) = Some (a, d').
Proof.
  unfold execute_returning, query. destruct (db_faults d) as [|[] fs] eqn:Hf; [|done|].
  - destruct (f d) as [[x y]|] eqn:Hx; [|done]. intros [= <- <-]. exists []. rewrite <- Hx. f_equal. rewrite <- Hf. by destruct d.
  - destruct (f _) as [[x y]|] eqn:Hx; [|done]. intros [= <- <-]. by exists fs.
Qed.

Lemma create_rule_stored u g req d code r d' : create_rule_in_group u g req d = (Ok (code, r), d') ->
  as_requested req r /\ stored r g (db_set_groups d) d'.
Proof.
  unfold create_rule_in_group. intros H. apply bind_inv_ok in H as ([] & d1 & Hw & H). apply bind_inv_ok in H as (rule & d2 & Hi & H).
  unfold require_write, guard_or in Hw. destruct (can_write _); inv_ret Hw. apply execute_returning_ok in Hi as (fs & Hi).
  apply insert_rule_stored in Hi as [Hreq Hst]. cbn [db_set_groups set_db_faults] in Hst.
  match type of H with ?m d2 = _ => assert (keeps (stored rule g (db_set_groups d1)) m) as Hk by (repeat view_step; assumption) end.
  specialize (Hk d2 Hst). unfold final in Hk. rewrite H in Hk. cbn in Hk.
  apply bind_inv_ok in H as (? & ? & _ & H). apply bind_inv_ok in H as (? & ? & _ & H). inv_ret H. by split.
Qed.

Lemma stored_served r g sets d sg : stored r g sets d -> sg ∈ sets -> psrg_rule_group_id sg = g -> r ∈ policy_rules (psrg_policy_set_id sg) d.
Proof.
  intros [[o Hr] Hs] Hsg Hg. unfold policy_rules. rewrite list_elem_of_In, in_map_iff. exists (sg, mkRuleRow r g o). split; [done|].
  rewrite <- list_elem_of_In, sql_sort_perm. by apply policy_join_elem; rewrite ?Hs.
Qed.

Definition CREATE_RULE : string := "rule_groups::create_rule_in_group".

(** A request to make a rule that is answered with 201 was sent by an authenticated
    user, its body is a rule, and that rule is stored in the group. *)
Lemma create_rule_answered cfg limited q s s' e gt g :
  serve_site cfg limited q s = (Handled 201%Z, s') ->
  find_endpoint build_router (segments (hq_path (aq_http q))) = Some (e, [gt]) -> find_method (hq_method (aq_http q)) e = Some CREATE_RULE ->
  uuid_parse gt = Some g ->
  exists u req r, caller q s = Some u /\ body_parse (aq_body q) ≫= de_create_rule = Some req /\ as_requested req r /\
    stored r g (db_set_groups (st_db s)) (st_db s').
Proof.
  intros Hs He Hm Hg. unfold serve_site in Hs. destruct (serve _ _ _ _ _ _) as [res d] eqn:Hserve.
  destruct res as [[| |re|h]|err]; try discriminate Hs; [|by destruct err].
  destruct (serve_handled_at _ _ _ _ _ _ _ _ _ He Hserve) as (name & user & d1 & Hname & Hret & Hu).
  rewrite Hm in Hname. injection Hname as <-. inv_ret Hret.
  destruct Hu as [(Hpub & _)|(u & -> & Hauth)]; [exfalso; revert Hpub; apply (bool_decide_unpack _); vm_compute; exact I|].
  assert (db_set_groups d = db_set_groups (st_db s)) as Hsg.
  { pose proof (serve_keeps (st_auth s) limited (fun x => db_set_groups x = db_set_groups (st_db s)) (fun name caps user => mret (api_handler cfg q caps user name))
      build_router (aq_http q) (fun _ _ H => H) (fun _ _ _ => keeps_ret _ _) (st_db s) eq_refl) as Hk.
    unfold final in Hk. by rewrite Hserve in Hk. }
  change (api_handler cfg q [gt] (Some u) CREATE_RULE) with (with_id [gt] (fun id => with_json_body q de_create_rule (fun req =>
    respond fst (on_site_db (create_rule_in_group u id req))))) in Hs.
  unfold with_id in Hs. rewrite Hg in Hs. unfold with_json_body, json_body in Hs. destruct (aq_json q); [|done].
  pose proof (json_rejection_fails (aq_body q)) as Hrej.
  destruct (body_fits (aq_body q)); [|by injection Hs as Hst _; rewrite Hst in Hrej].
  destruct (body_parse (aq_body q) ≫= de_create_rule) as [req|]; [|by injection Hs as Hst _; rewrite Hst in Hrej].
  unfold ok_or, respond, on_site_db in Hs. cbn [st_db set_st_db] in Hs.
  destruct (create_rule_in_group u g req d) as [[[code r]|err] d'] eqn:Hc; [|by destruct err]. injection Hs as _ <-.
  exists u, req, r. split; [unfold caller; by rewrite Hauth|]. split; [done|]. rewrite <- Hsg. by eapply create_rule_stored.
Qed.
End web.

(** ** The whole way *)

Section whole.
Context {SQL : Sql} {SHA : Sha256} {JS : SerdeJson} {SB : SerdeBody} {JP : SerdeParse} {UT : UuidText} {RFC : Rfc3339}
  {PG : PgInet} {IPN : IpNetLib} {HOST : IpNetHost} {JWT : Jwt} {A2 : Argon2} {UNI : Unicode} {COL : Collation} {PJ : PgJson}
  {RC : Rcgen} {HX : Hex} {B64 : Base64} {X : X509} {RL : Rustls} {TN : TokioNotify} {AX : AxumJson}
  {RT : RandomToken} {QL : QueryLib} {OS : HostOs} {COD : AgentCodec} {U : UrlLib} {SH : Shlex}.
Context {AXL : AxumJsonLaws} {SQLL : SqlLaws} {UFW : UfwLaws} {SHL : ShlexLaws} {CODL : AgentCodecLaws}.

(** C2. From the request to the packet filter: when a request to make a rule in a group
    is answered with 201, its sender was authenticated and its body is a rule; and
    once the agent of a host whose policy set has that group has checked in and its
    apply of the changed policy ran without an error (on single-word networks and
    interfaces, with no two rules of the same match), the commands [ufw] enforces on
    that host are the umbilical and those of the stored rules of the set in policy
    order, one of which, read by [ufw]'s rule syntax, says what was asked for: the
    action, outgoing or not, the log flag, the interface of that direction, the
    protocol, the two networks as the database normalised them, both port ranges, and
    the name for its comment. A forwarded rule is thereby enforced as an incoming one,
    and the interface of the other direction is not used. *)
Theorem accepted_rule_enforced cfg limited q s s' e gt sg host req drift (w w1 w2 : AgentWorld Db) resp hash ds :
  let ps := psrg_policy_set_id sg in let rules := policy_rules ps (st_db s') in
  serve_site cfg limited q s = (Handled 201%Z, s') ->
  find_endpoint build_router (segments (hq_path (aq_http q))) = Some (e, [gt]) -> find_method (hq_method (aq_http q)) e = Some CREATE_RULE ->
  uuid_parse gt = Some (psrg_rule_group_id sg) -> sg ∈ db_set_groups (st_db s) ->
  aw_net w = st_db s' -> healthy (st_db s') -> host_exists host (st_db s') = true -> assigned_set host (st_db s') = Some ps ->
  net_call (net_check_in (ManagerLink:=fleet_link host) req) w = (Ok (Ok resp), w1) -> resp_rules_changed resp = true ->
  decide_apply UfwBackend resp drift w1 = (Ok (Some (Ok hash), ds), w2) -> clean_apply rules (cycle_ctx ds w1) w1 ->
  exists u body r src dst line, caller q s = Some u /\ body_parse (aq_body q) ≫= de_create_rule = Some body /\ as_requested body r /\ r ∈ rules /\
    ufw_active_rules (aw_os w2) = umbilical_args (cycle_ctx ds w1) :: (ufw_args <$> map named rules) /\
    line ∈ ufw_active_rules (aw_os w2) /\ inet_cast (cr_src_cidr body) = Some src /\ inet_cast (cr_dst_cidr body) = Some dst /\
    ufw_read line = Some (requested_line body src dst).
Proof.
  intros ps rules Hs He Hm Hg Hsg Hw Hd Hh Hps Hci Hch Hda Hcl.
  destruct (create_rule_answered cfg limited q s s' e gt _ Hs He Hm Hg) as (u & body & r & Hu & Hb & Hreq & Hst).
  pose proof (stored_served _ _ _ _ _ Hst Hsg eq_refl) as Hr. fold ps rules in Hr.
  assert (ufw_active_rules (aw_os w2) = umbilical_args (cycle_ctx ds w1) :: (ufw_args <$> map named rules)) as Hact.
  { unfold rules in *. rewrite <- Hw in *. eapply policy_enforced; [..|exact Hcl]; try done.
    intros Hx. rewrite Hx in Hr. by apply not_elem_of_nil in Hr. }
  exists u, body, r, (src_cidr r), (dst_cidr r), (ufw_args (named r)). split_and!; try done; [|apply Hreq..|by apply requested_read].
  rewrite Hact. right. apply list_elem_of_fmap_2, list_elem_of_In, in_map, list_elem_of_In, Hr.
Qed.
End whole.

(** ** Witness *)

#[local] Existing Instances toy_sql toy_sha256 text_serde text_body text_parse toy_uuid_text toy_rfc3339 toy_pg text_ipnet text_host toy_jwt
  toy_argon2 toy_unicode toy_collation toy_pg_json tls_rcgen toy_hex toy_base64 tls_x509 tls_rustls toy_notify toy_axum toy_random toy_query
  toy_os toy_codec toy_url toy_shlex toy_axum_laws toy_sql_laws toy_ufw toy_shlex_laws toy_codec_laws.

(** Host 50 runs set 70 with the empty group 80; an operator adds a rule to it. *)
Definition way_db : Db :=
  set_db_rules [] (set_db_rule_groups [mkRuleGroup (uuid_of 80) "web" "" None 0 0]
    (set_db_users (db_users admin_db) (set_db_refresh (db_refresh demo_db) ex_check_db))).
Definition way_site : Site := mkSite way_db ∅ (AuthConfig_new "key" [] [] true) (mkDisk ∅ ∅) None ∅ [].
Definition way_config : SiteConfig := mkSiteConfig _ (mkServerConfig "fwm" 8444) tls_ca tls_paths "sk".
Definition way_group : string := uuid_to_string (uuid_of 80).
Definition way_request : ApiRequest :=
  mkApiRequest (mkHttpRequest POST ("/api/v1/rule-groups/" +:+ way_group +:+ "/rules") (mkRequest (Some ("Bearer " +:+ demo_token)) None None)) "" true
    (json_to_string (JObj [("name", JStr "https"); ("action", JStr "allow"); ("direction", JStr "in"); ("protocol", JStr "tcp");
       ("src_cidr", JStr "10.0.0.0/8"); ("dst_port_start", JNum 443); ("dst_port_end", JNum 443)])).
Definition way_after : Site := (serve_site way_config (fun _ => false) way_request way_site).2.
Definition way_world : @AgentWorld toy_os Db := toy_world (st_db way_after) ex_config (mkToyHost [["deny"]] []).
Definition way_defaults : LastDefaults := mkLastDefaults (Some "deny") None.
Definition way_member : FirewallPolicySetRuleGroup := mkSetGroup (uuid_of 70) (uuid_of 80) 1.
Notation way_rules := (policy_rules (psrg_policy_set_id way_member) (st_db way_after)).

Lemma way_clean d : clean_apply way_rules (cycle_ctx way_defaults (set_net d way_world)) (set_net d way_world).
Proof.
  split.
  - split_and!; vm_compute; reflexivity.
  - assert (forallb (fun r => opt_bare (src_cidr r) && opt_bare (dst_cidr r) && opt_bare (interface_in r) && opt_bare (interface_out r)) way_rules = true)
      as H by (vm_compute; reflexivity).
    rewrite forallb_forall in H. apply Forall_forall. intros r Hr%list_elem_of_In%H. rewrite !andb_true_iff in Hr. by destruct Hr as [[[]]].
  - apply (bool_decide_unpack _). vm_compute. exact I.
  - apply (bool_decide_unpack _). vm_compute. exact I.
  - intros c r h Hc Hr. assert (match ufw_compile (map (dto_to_rule (aw_now (set_net d way_world))) (map rule_to_dto way_rules)) (cycle_ctx way_defaults (set_net d way_world)) with
      | Ok c => match (ufw_apply c (aw_os (set_net d way_world))).1 with Ok r => bool_decide (apply_error r = None) | Err _ => true end | Err _ => true end = true)
      as H by (vm_compute; reflexivity).
    rewrite Hc, Hr in H. by apply bool_decide_eq_true in H.
Qed.

Lemma way_accepted : serve_site way_config (fun _ => false) way_request way_site = (Handled 201%Z, way_after).
Proof.
  assert ((serve_site way_config (fun _ => false) way_request way_site).1 = Handled 201%Z) as Hst by (vm_compute; reflexivity).
  unfold way_after. rewrite <- Hst. apply surjective_pairing.
Qed.
Lemma way_routed : exists e, find_endpoint build_router (segments (hq_path (aq_http way_request))) = Some (e, [way_group]) /\
  find_method (hq_method (aq_http way_request)) e = Some CREATE_RULE.
Proof. eexists. split; vm_compute; reflexivity. Qed.
Lemma way_host : healthy (st_db way_after) /\ host_exists (uuid_of 50) (st_db way_after) = true /\
  assigned_set (uuid_of 50) (st_db way_after) = Some (psrg_policy_set_id way_member).
Proof. split_and!; vm_compute; reflexivity. Qed.
(** The agent's cycle: the answer to its check-in and the apply. *)
Notation way_check_in := (net_call (net_check_in (ManagerLink:=fleet_link (uuid_of 50)) (ex_check_in ""))).
Lemma way_cycle : match way_check_in way_world with
  | (Ok (Ok resp), w1) => resp_rules_changed resp && match (decide_apply (IPN:=text_ipnet) UfwBackend resp false w1).1 with
      | Ok (Some (Ok _), ds) => bool_decide (ds = way_defaults) | _ => false end
  | _ => false end = true.
Proof. vm_compute. reflexivity. Qed.
Lemma way_stored : uuid_parse way_group = Some (psrg_rule_group_id way_member) /\ way_member ∈ db_set_groups (st_db way_site) /\ aw_net way_world = st_db way_after.
Proof. split; [vm_compute; reflexivity|]. split; [left|reflexivity]. Qed.

Lemma accepted_rule_enforced_witness : exists resp d w2 u body r src dst line, way_check_in way_world = (Ok (Ok resp), set_net d way_world) /\
  (decide_apply (IPN:=text_ipnet) UfwBackend resp false (set_net d way_world)).2 = w2 /\ caller way_request way_site = Some u /\
  body_parse (aq_body way_request) ≫= de_create_rule = Some body /\ as_requested body r /\ r ∈ way_rules /\
  ufw_active_rules (aw_os w2) = umbilical_args (cycle_ctx way_defaults (set_net d way_world)) :: (ufw_args <$> map named way_rules) /\
  line ∈ ufw_active_rules (aw_os w2) /\ inet_cast (cr_src_cidr body) = Some src /\ inet_cast (cr_dst_cidr body) = Some dst /\
  ufw_read line = Some (requested_line body src dst).
Proof.
  destruct way_routed as (e & He & Hm), way_host as (Hd & Hh & Hps), way_stored as (Hg & Hsg & Hw).
  destruct (fleet_check_in (uuid_of 50) (ex_check_in "") way_world) as (resp & d & Hci & _); [by rewrite Hw..|].
  pose proof way_cycle as Hc. rewrite Hci in Hc. apply andb_true_iff in Hc as [Hch Hap].
  destruct (decide_apply UfwBackend resp false (set_net d way_world)) as [[[[[hash|]|] ds]|] w2] eqn:Hda; try discriminate Hap.
  apply bool_decide_eq_true in Hap as ->.
  destruct (accepted_rule_enforced way_config (fun _ => false) way_request way_site way_after e way_group way_member (uuid_of 50)
    (ex_check_in "") false way_world _ w2 resp hash way_defaults way_accepted He Hm Hg Hsg Hw Hd Hh Hps Hci Hch Hda (way_clean d))
    as (u & body & r & src & dst & line & Hrest).
  exists resp, d, w2, u, body, r, src, dst, line. split; [exact Hci|]. split; [by rewrite Hda|exact Hrest].
Defined.
